(* ===== verification/_CoqProject ===== *)
-Q . S2P
Prelude.v
Text.v
Protocol.v
Json.v
JsonCodecInstance.v
Message.v
Command.v
Auth.v
Connection.v
ChatModel.v
BridgeProtocol.v
Conversations.v
Controller.v
ControllerInvariant.v
ControllerBehaviour.v
LocalHost.v
Worker.v
TransferState.v
Crypto.v
TransferClient.v
Manifest.v
Download.v
MlsClient.v
Attachments.v
UploadWindow.v
MlsGroups.v
MlsSession.v
MlsHandshake.v
AttachmentDelivery.v
MlsFaults.v
ConsoleInput.v
Console.v
ConsoleProgram.v
Discovery.v
Performance.v
Diagnostics.v
HostSetup.v
Bridge.v
BridgeState.v
BridgeCommands.v
Desktop.v
DesktopSession.v
GuiClient.v
Window.v
Launch.v
