(* ===== verification/Prelude.v ===== *)
(** * LAN Chat desktop client: a verification library

    The library models the C++ client of LAN Chat (client-cpp/) and proves what
    makes it correct.

    ** The program

    A message is a JSON object in a length-prefixed frame on a TLS stream.
    [ConnectionState] opens and owns that stream and is shared by threads.  The
    console client reads lines, turns them into messages and prints what it
    receives on a second thread.  The graphical client runs a worker thread
    (GuiConnectionWorker) that connects, reconnects, hosts a local server, sends
    and receives; a controller (GuiChatController) that turns the worker's
    signals into list models and the user's actions into worker calls; and a
    bridge (ChatBridge) that takes the commands of the web view, passes them to
    the controller, to LAN discovery or to the performance profile, and
    publishes the state that the view shows.  Attachments are cut into chunks,
    sealed one by one, uploaded through a window of chunks under a resumable
    protocol, announced to the members of an MLS group by an encrypted manifest
    and assembled by the receiver.

    ** Files, in dependency order

    - Prelude: record update, failures with a reason ([outcome]), tactics,
      machine integers, shared lemmas.
    - Text: std::string and QString operations (class [QtText]).
    - Protocol: src/protocol.cpp, frames over a [Transport] with partial reads
      and writes, over TCP and over TLS.
    - Json, JsonCodecInstance: the values of nlohmann::json; its text codec is
      the class [JsonCodec], with a concrete instance.
    - Message: src/message.cpp, include/message.hpp and attachment_limits.hpp.
    - Command: src/command.cpp.  Auth: src/auth.cpp.
    - Connection: src/connection.cpp; every critical section and every network
      call is one step of [world_step], so all interleavings are covered.
    - ChatModel: gui/src/chat_model.cpp with the notifications to the views.
    - BridgeProtocol: gui/src/bridge_protocol.cpp.
    - Conversations: the cache of conversation models of
      gui/src/gui_chat_controller.cpp, with the models on a heap.
    - Controller: every other slot and invokable of gui_chat_controller.cpp as a
      function on [State]; the worker calls it queues and the signals it emits
      are kept in order in [outs].
    - ControllerInvariant, ControllerBehaviour: the theorems about it.
    - LocalHost: the server process of gui/src/gui_connection_worker.cpp.
    - Worker: gui/src/reconnect_policy.cpp and the session part of
      gui_connection_worker.cpp.
    - TransferState: gui/src/attachments/attachment_transfer_state.cpp.
    - Crypto: attachment_crypto.cpp, attachment_mls_group_id.cpp and the message
      id of a manifest (class [CryptoLib]).
    - TransferClient: transfer_client.cpp over an [InputDevice].
    - Manifest: attachment_manifest.cpp (class [QtJson]).
    - Download: attachment_download_assembler.cpp over a [FileSystem].
    - MlsClient: gui/src/crypto/mls_client.cpp over the class [MlsLib].
    - Attachments, MlsGroups: the attachment and the MLS slots of the worker, in
      the build with MLS; MlsSession: the whole worker of that build.
    - UploadWindow, MlsHandshake, AttachmentDelivery, MlsFaults: the theorems
      about them.
    - ConsoleInput, Console: src/main.cpp, its line editing and its two threads;
      ConsoleProgram: the process around them, with the terminal, the server it
      starts and every way it can end.
    - Discovery: gui/src/lan_discovery_service.cpp.
    - Performance: gui/src/performance_profile.cpp and
      performance_benchmark_gate.cpp, in the doubles of [SpecFloat].
    - Diagnostics: gui/src/network_diagnostics.cpp.
    - HostSetup: gui/src/host_path_resolver.cpp, local_host_bootstrap.cpp and
      openssl_runtime.cpp.
    - Bridge: gui/src/chat_bridge.cpp, graphics_info.cpp, and how gui/src/main.cpp
      puts the objects together; BridgeState, BridgeCommands: the theorems.
    - Desktop: the controller and the worker as the two threads that the
      constructor of GuiChatController connects, with their queues;
      DesktopSession: what the window then shows of the session.
    - GuiClient: the bridge, the controller and the worker together.
    - Window: gui/src/web_ui_host.cpp and the window of gui/src/main.cpp.
    - Launch: gui/src/launcher_main.cpp and tools/bootstrap/launcher.cpp.

    Source paths are relative to client-cpp/, tools/ to the repository.
    Definitions keep the names of the code; a name that several methods share has the component in front or
    behind.  A method that returns false and stores a reason is an [outcome]; a
    method that changes its object takes it last and returns it.

    ** What the theorems show

    - Wire: any sequence of frames, and any message, crosses a TLS stream
      unchanged whatever its fragmentation; frames are within their bound.
    - Connection: nothing is sent on an unverified session, after a stop no
      attempt and no session begins, and an undisturbed login succeeds.
    - Uploads: completion is the reception of every byte, the missing chunks are
      exactly the missing ones and acknowledging them completes, final states
      are final, failures are bounded, and each call does to an abstract upload
      exactly what its specification [upload_do] says.
      The window sends every chunk once and in order and then commits.
    - Attachments: what is sealed is opened, contexts are named by their
      associated data, streaming delivers every piece, a file that is streamed
      and assembled arrives unchanged, and a download that does not finish
      leaves no partial file.  From end to end: a file that one worker uploads
      and another downloads arrives unchanged, with its manifest sent over MLS.
    - MLS: of a membership change the proposal, the commit and the welcome are
      sent in this order, each only at the server's answer to the one before; a
      group keeps its room and client until another user connects or a local
      room is opened; and the worker with MLS refines the worker without.
    - Models and controller: the bounds, views and message ids of every model,
      the cache with its pointers, the routing of messages, unread counts, who
      may recall, what is sent again, the member list.
    - Worker: one live reconnection timer, none after the user disconnected, a
      lost connection is retried with delays of half a second to eight seconds,
      a message is sent or reported, the server process is owned by one worker
      and stopped, and a hosted room is connected to.
    - Bridge: the published state is that of the live models whenever no
      publication is pending, although it is built from cached pieces; every
      command that the bridge answers itself is answered exactly once (frame
      reports are answered by nobody).
    - Discovery: the table holds only rooms that a datagram announced and whose
      certificate has the announced fingerprint, and they are shown sorted by
      name; an announced room stays available; announcements round-trip.
    - Performance: a change of the automatic mode is confirmed three times, and
      the mode follows from the number of slow frames.
    - Host set-up: which files a local room uses and when it is offered.
    - Diagnostics: one line for every recorded event, whatever the texts.
    - Desktop: over every interleaving of the two threads no message that the
      user sends is lost, doubled or changed between the user and the network,
      and a session that is up is shown as such once the queues are empty; the
      whole graphical client is these two threads driven by the commands of the
      page, each with the one call that a table gives for it, so that the page
      is told of the session.
    - Window and launchers: the window opens with the bundled interface, clicked
      links leave it only for the system browser and only if they are plain web
      addresses, other navigations may replace the page; the launchers start what they should and nothing else.
    - Console: a line is what was typed and edited, an ended line of a pipe, or a
      line of a file; quitting ends both threads and the process; everything sent
      is well formed; the process gives back its handles and Winsock, and, as far
      as Windows accepts it, the terminal mode and its server.
    - Input: command lines, chat commands and bridge commands.

    Theorems that state defects: [failed_rename_loses_output],
    [history_wedged_by_reconnect], the second half of [reconnect_keeps_session],
    [resumed_upload_stalls], [unsent_accept_poisons_logins],
    [offline_upload_waits], [quick_change_unsignalled],
    [interrupted_reconnect_keeps_session], [contentless_message_lost],
    [automatic_mode_saves_power], [late_login_shown],
    [scripted_navigation_leaves] and, next to [pipe_lines], [file_lines].

    ** Bounds and fuel

    Loops over an object's own size use that size as fuel, and the theorems show
    it is enough: a read or write loop makes progress by at least one byte, the
    chunk loop consumes at least one byte per round, trimming the cache drops a
    model per round, a retry loop has one round per attempt, the search for the
    server looks at eight directories and that for the source package at ten.
    Loops that wait for the system run over the list of its answers.  A login of
    the worker is one step: what its receive thread, which starts just before
    connected is emitted, receives or loses comes after that signal.  64-bit and
    32-bit integers wrap where the code can reach the bound ([wrap64], [wrap32],
    the access counter of the cache); the theorems over call sequences ask for
    fewer calls than the counters hold.

    ** Parameters

    Code outside src/ is a class whose laws state documented behaviour, and each
    has an instance used by the witnesses: sockets and TLS ([Transport]), JSON
    text ([JsonCodec], [QtJson]), Unicode ([QtText], [WinText], [WinLossy],
    [LogText]), addresses ([QtUrl]), key order ([QtOrder]), OpenSSL and Qt
    hashes ([CryptoLib]), MLS++ ([MlsLib]), devices and files ([InputDevice],
    [FileSystem], [HostEnv]), certificates, the order of a QHash and of names ([LanLib]),
    Qt's file, date, path and JSON functions ([GuiEnv], [QtPaths], [BridgeEnv]).  Time, generated ids, dialogs, login and
    send results, child processes and the network are arguments.

    ** Not modelled

    The web engine and the size of the window, the clipboard, the build times of
    the published state, and the test hooks of the worker: input and output
    only.  The last statements of startAttachmentUpload in
    gui_connection_worker.cpp, behind the block for MLS, are reached in no
    build.  In Desktop the attachment and MLS slots report what they like.  The
    JSON and TLS libraries are not part of the program. *)

From stdpp Require Export base tactics option list gmap strings.
From Stdlib Require Export ZArith Lia.
From Stdlib Require Import Strings.Byte.

#[global] Open Scope Z_scope.

(** ** Record update

    [r <| field := v |>] and [r <| field ::= f |>] rebuild a record with one
    field changed.  A record type takes part by declaring how it is eta
    expanded ([EtaRecord]); the setter is then found by type class search. *)

Class EtaRecord (R : Type) := eta_record : R -> R.

Class FieldUpdate {R T : Type} (proj : R -> T) := field_update : (T -> T) -> R -> R.
Arguments field_update {R T} proj {_} _ _ /.

Ltac solve_field_update :=
  match goal with
  | |- @FieldUpdate ?R ?T ?proj =>
      let eta := constr:(_ : EtaRecord R) in
      let f := fresh "f" in
      let r := fresh "r" in
      refine (fun (f : T -> T) (r : R) => _);
      let body := eval hnf in (eta r) in
      let body := (eval pattern (proj r) in body) in
      match body with
      | ?g _ => let t := (eval cbv beta in (g (f (proj r)))) in exact t
      end
  end.

#[export] Hint Extern 1 (FieldUpdate _) => solve_field_update : typeclass_instances.

Declare Scope record_scope.
Notation "r <| proj ::= f |>" := (field_update proj f r)
  (at level 1, left associativity, proj at level 0, f at level 200) : record_scope.
Notation "r <| proj := v |>" := (field_update proj (fun _ => v) r)
  (at level 1, left associativity, proj at level 0, v at level 200) : record_scope.
#[global] Open Scope record_scope.

(** ** Failures with a reason

    Functions of the program that return [false] and store a reason are
    modelled with [outcome]: the value, or the reason. *)

Inductive outcome (A : Type) : Type :=
  | Ok (a : A)
  | Fail (reason : string).
Arguments Ok {A} a.
Arguments Fail {A} reason.

Definition outcome_bind {A B} (c : outcome A) (k : A -> outcome B) : outcome B :=
  match c with
  | Ok a => k a
  | Fail e => Fail e
  end.

Declare Scope outcome_scope.
Delimit Scope outcome_scope with outcome.
Notation "'do!' x <- c ; k" := (outcome_bind c (fun x => k))
  (at level 100, x binder, c at level 99, k at level 200, right associativity) : outcome_scope.
Notation "'guard!' b 'else' e ; k" := (if b then k else Fail e)
  (at level 100, b at level 99, e at level 99, k at level 200, right associativity) : outcome_scope.
#[global] Open Scope outcome_scope.

Definition is_ok {A} (c : outcome A) : bool :=
  match c with Ok _ => true | Fail _ => false end.

(** [mapO f l] runs [f] on every element and stops at the first failure, as a
    C++ range loop with an early [return false] does. *)

Section MapO.
  Context {A B : Type} (f : A -> outcome B).

Fixpoint mapO (l : list A) : outcome (list B) :=
  match l with
  | [] => Ok []
  | x :: l' => do! y <- f x; do! ys <- mapO l'; Ok (y :: ys)
  end.

End MapO.

(** ** Tactics *)

(** Case analysis on every [if] and [match] of the goal, discarding the
    impossible branches. *)

Ltac break_goal :=
  repeat match goal with
  | |- context [ if ?b then _ else _ ] => destruct b eqn:?
  | |- context [ match ?x with _ => _ end ] => destruct x eqn:?
  end.

Ltac break_hyp H :=
  repeat match type of H with
  | context [ if ?b then _ else _ ] => destruct b eqn:?; try discriminate H
  | context [ match ?x with _ => _ end ] => destruct x eqn:?; try discriminate H
  end.

(** Turn boolean tests in the context into propositions. *)

Ltac bool_hyps :=
  repeat match goal with
  | H : (_ && _)%bool = true |- _ => apply andb_true_iff in H as [? ?]
  | H : (_ || _)%bool = false |- _ => apply orb_false_iff in H as [? ?]
  | H : (_ && _)%bool = false |- _ => apply andb_false_iff in H
  | H : (_ || _)%bool = true |- _ => apply orb_true_iff in H
  | H : negb _ = true |- _ => apply negb_true_iff in H
  | H : negb _ = false |- _ => apply negb_false_iff in H
  | H : (_ <=? _) = true |- _ => apply Z.leb_le in H
  | H : (_ <=? _) = false |- _ => apply Z.leb_gt in H
  | H : (_ <? _) = true |- _ => apply Z.ltb_lt in H
  | H : (_ <? _) = false |- _ => apply Z.ltb_ge in H
  | H : (_ =? _) = true |- _ => apply Z.eqb_eq in H
  | H : (_ =? _) = false |- _ => apply Z.eqb_neq in H
  | H : String.eqb _ _ = true |- _ => apply String.eqb_eq in H
  | H : String.eqb _ _ = false |- _ => apply String.eqb_neq in H
  | H : bool_decide _ = true |- _ => apply bool_decide_eq_true in H
  | H : bool_decide _ = false |- _ => apply bool_decide_eq_false in H
  end.

Create HintDb lanchat.

#[global] Arguments String.append : simpl nomatch.

(** ** Machine integers

    [int64_t] and [int] values are kept in [Z].  [wrap64] and [wrap32] are the
    two's complement reductions the compiled code performs. *)

Definition wrap_signed (w z : Z) : Z := (z + 2 ^ (w - 1)) mod 2 ^ w - 2 ^ (w - 1).
Definition wrap64 (z : Z) : Z := wrap_signed 64 z.
Definition wrap32 (z : Z) : Z := wrap_signed 32 z.

Definition INT32_MAX : Z := 2147483647.
Definition INT64_MAX : Z := 9223372036854775807.
Definition UINT64_MAX : Z := 18446744073709551615.

Definition in_int64 (z : Z) : Prop := - INT64_MAX - 1 <= z <= INT64_MAX.
Definition in_int32 (z : Z) : Prop := - INT32_MAX - 1 <= z <= INT32_MAX.
Definition in_uint64 (z : Z) : Prop := 0 <= z <= UINT64_MAX.

Lemma wrap_signed_id w z :
  0 < w -> - 2 ^ (w - 1) <= z < 2 ^ (w - 1) -> wrap_signed w z = z.
Proof.
  intros Hw Hz. unfold wrap_signed.
  assert (2 ^ w = 2 * 2 ^ (w - 1)) as E.
  { rewrite <- Z.pow_succ_r by lia. f_equal. lia. }
  rewrite Z.mod_small; lia.
Qed.

Lemma wrap64_id z : in_int64 z -> wrap64 z = z.
Proof. intros Hz. apply wrap_signed_id; [lia |]. unfold in_int64, INT64_MAX in Hz. lia. Qed.

Lemma wrap32_id z : in_int32 z -> wrap32 z = z.
Proof. intros Hz. apply wrap_signed_id; [lia |]. unfold in_int32, INT32_MAX in Hz. lia. Qed.

#[export] Hint Resolve wrap64_id wrap32_id : lanchat.

(** Rounding a quotient up, as [(a + b - 1) / b] does. *)

Definition ceil_div (a b : Z) : Z := (a + b - 1) / b.

Lemma ceil_div_spec a b :
  0 < b -> 0 < a -> (ceil_div a b - 1) * b < a <= ceil_div a b * b.
Proof. intros Hb Ha. unfold ceil_div. Z.to_euclidean_division_equations. nia. Qed.

Lemma ceil_div_pos a b : 0 < b -> 0 < a -> 0 < ceil_div a b.
Proof. intros Hb Ha. unfold ceil_div. apply Z.div_str_pos. lia. Qed.

Lemma ceil_div_lt_iff a b i :
  0 < b -> 0 < a -> (i < ceil_div a b <-> i * b < a).
Proof. intros Hb Ha. pose proof (ceil_div_spec a b Hb Ha). nia. Qed.

#[export] Hint Resolve ceil_div_pos : lanchat.

(** ** Outcomes *)

Lemma outcome_bind_ok {A B} (c : outcome A) (k : A -> outcome B) (a : A) (r : outcome B) :
  c = Ok a -> k a = r -> outcome_bind c k = r.
Proof. by intros -> <-. Qed.

Lemma outcome_bind_inv {A B} (c : outcome A) (k : A -> outcome B) (b : B) :
  outcome_bind c k = Ok b -> exists a, c = Ok a /\ k a = Ok b.
Proof. destruct c; simpl; [eauto | discriminate]. Qed.

Lemma mapO_ok {A B} (f : A -> outcome B) (g : A -> B) (l : list A) :
  Forall (fun x => f x = Ok (g x)) l -> mapO f l = Ok (map g l).
Proof. induction 1 as [| x l Hx _ IH]; simpl; [done |]. by rewrite Hx, IH. Qed.

Lemma mapO_map {A B C} (f : B -> outcome C) (h : A -> B) (l : list A) :
  mapO f (map h l) = mapO (fun x => f (h x)) l.
Proof. induction l as [| x l IH]; simpl; [done |]. by rewrite IH. Qed.

Lemma mapO_inv {A B} (f : A -> outcome B) (l : list A) (r : list B) :
  mapO f l = Ok r -> Forall2 (fun x y => f x = Ok y) l r.
Proof.
  revert r. induction l as [| x l IH]; simpl; intros r H; [inv H; constructor |].
  destruct (f x) eqn:E; [| discriminate]. simpl in H.
  destruct (mapO f l) eqn:E'; [| discriminate]. inv H. constructor; auto.
Qed.

(** ** Lists *)

Lemma forallb_map {A B} (p : B -> bool) (f : A -> B) (l : list A) :
  forallb p (map f l) = forallb (fun x => p (f x)) l.
Proof. induction l as [| x l IH]; simpl; [done |]. by rewrite IH. Qed.

Lemma forallb_Forall {A} (p : A -> bool) (l : list A) :
  forallb p l = true <-> Forall (fun x => p x = true) l.
Proof. rewrite List.forallb_forall, List.Forall_forall. done. Qed.
