(* ===== verification/Text.v ===== *)
(** * Text: std::string operations and the Qt string interface

    [std::string] values are byte strings ([string]); positions and lengths
    are [nat].  [QString] values are represented by their UTF-8 encoding, also
    as [string], so [toStdString], [fromStdString], [toUtf8] and [fromUtf8]
    are the identity.  What Qt decides about Unicode (white space, lower case,
    case folding, UTF-16 length) is not under src/: it is the parameter class
    [QtText], with the documented behaviour the program relies on as the laws
    [QtTextLaws].  [AsciiText] instantiates it for ASCII text. *)

From S2P Require Import Prelude.
From Stdlib Require Import Ascii Strings.Byte.

#[global] Open Scope string_scope.
#[global] Open Scope list_scope.
#[global] Open Scope Z_scope.

(** ** Characters, in the default "C" locale *)

Definition code (c : ascii) : Z := Z.of_N (N_of_ascii c).

Definition is_digit (c : ascii) : bool := (48 <=? code c) && (code c <=? 57).
Definition is_upper (c : ascii) : bool := (65 <=? code c) && (code c <=? 90).
Definition is_lower (c : ascii) : bool := (97 <=? code c) && (code c <=? 122).
Definition isalnum (c : ascii) : bool := is_digit c || is_upper c || is_lower c.
Definition isspace (c : ascii) : bool := (code c =? 32) || ((9 <=? code c) && (code c <=? 13)).

Definition to_lower_ascii (c : ascii) : ascii :=
  if is_upper c then ascii_of_N (N_of_ascii c + 32) else c.

(** ** std::string *)

Fixpoint string_forall (p : ascii -> bool) (s : string) : bool :=
  match s with
  | "" => true
  | String c s' => p c && string_forall p s'
  end.

Fixpoint string_map (f : ascii -> ascii) (s : string) : string :=
  match s with
  | "" => ""
  | String c s' => String (f c) (string_map f s')
  end.

Fixpoint drop_str (n : nat) (s : string) : string :=
  match n, s with
  | O, _ => s
  | S n', String _ s' => drop_str n' s'
  | S _, "" => ""
  end.

Fixpoint take_str (n : nat) (s : string) : string :=
  match n, s with
  | S n', String c s' => String c (take_str n' s')
  | _, _ => ""
  end.

#[global] Arguments drop_str : simpl nomatch.
#[global] Arguments take_str : simpl nomatch.

(** [s.substr(pos, len)] for [pos <= s.size()]. *)
Definition substr (pos len : nat) (s : string) : string := take_str len (drop_str pos s).

(** [s.find_first_of(set, pos)], with [None] for [npos]; the set is a test. *)
Fixpoint find_from (p : ascii -> bool) (base : nat) (s : string) : option nat :=
  match s with
  | "" => None
  | String c s' => if p c then Some base else find_from p (S base) s'
  end.

Definition find_first (p : ascii -> bool) (pos : nat) (s : string) : option nat :=
  find_from p pos (drop_str pos s).

Fixpoint has_prefix (pre s : string) : bool :=
  match pre, s with
  | "", _ => true
  | String a pre', String b s' => Ascii.eqb a b && has_prefix pre' s'
  | String _ _, "" => false
  end.

Definition is_empty (s : string) : bool :=
  match s with "" => true | _ => false end.

Definition size (s : string) : Z := Z.of_nat (String.length s).

(** A byte string as the bytes written to a connection or a digest. *)
Definition bytes_of (s : string) : list byte := String.list_byte_of_string s.
Definition text_of (bs : list byte) : string := String.string_of_list_byte bs.

(** [std::to_string] and [QString::number]: decimal digits. *)

Definition digit_char (d : Z) : ascii := ascii_of_N (Z.to_N (48 + d)).

Fixpoint digits_fuel (fuel : nat) (z : Z) (acc : string) : string :=
  match fuel with
  | O => acc
  | S fuel' =>
      let acc' := String (digit_char (z mod 10)) acc in
      if z / 10 =? 0 then acc' else digits_fuel fuel' (z / 10) acc'
  end.

Definition to_string (z : Z) : string :=
  if z <? 0
  then String "-" (digits_fuel (S (Z.to_nat (Z.log2 (- z)))) (- z) "")
  else digits_fuel (S (Z.to_nat (Z.log2 z))) z "".

(** ** Qt text *)

Class QtText := {
  trimmed : string -> string;      (* QString::trimmed *)
  toLower : string -> string;      (* QString::toLower *)
  caseFold : string -> string;     (* the key of a Qt::CaseInsensitive comparison *)
  qsize : string -> Z;             (* QString::size: UTF-16 code units *)
}.

(** [a.compare(b, Qt::CaseInsensitive) == 0] *)
Definition eq_ci `{QtText} (a b : string) : bool := String.eqb (caseFold a) (caseFold b).

Class QtTextLaws `{QtText} : Prop := {
  trimmed_idem s : trimmed (trimmed s) = trimmed s;
  trimmed_empty : trimmed "" = "";
  toLower_empty : toLower "" = "";
  toLower_idem s : toLower (toLower s) = toLower s;
  trimmed_plain s : string_forall (fun c => isalnum c || Ascii.eqb c "-") s = true -> trimmed s = s;
  trimmed_app a b : a <> "" -> b <> "" -> trimmed a = a -> trimmed b = b -> trimmed (a +:+ b) = a +:+ b;
  toLower_plain s : string_forall (fun c => is_digit c || is_lower c) s = true -> toLower s = s;
}.

(** The ASCII instance. *)

Fixpoint trim_left (s : string) : string :=
  match s with
  | String c s' => if isspace c then trim_left s' else s
  | "" => ""
  end.

Fixpoint trim_right (s : string) : string :=
  match s with
  | "" => ""
  | String c s' =>
      match trim_right s' with
      | "" => if isspace c then "" else String c ""
      | r => String c r
      end
  end.

Definition ascii_trimmed (s : string) : string := trim_right (trim_left s).
Definition ascii_lower (s : string) : string := string_map to_lower_ascii s.

#[export] Instance AsciiText : QtText := {|
  trimmed := ascii_trimmed;
  toLower := ascii_lower;
  caseFold := ascii_lower;
  qsize := size;
|}.

(** ** Lemmas *)

Lemma is_empty_true s : is_empty s = true <-> s = "".
Proof. destruct s; simpl; split; congruence. Qed.

Lemma is_empty_false s : is_empty s = false <-> s <> "".
Proof. destruct s; simpl; split; congruence. Qed.

Lemma string_forall_app p s t :
  string_forall p (s +:+ t) = string_forall p s && string_forall p t.
Proof. induction s as [| c s IH]; simpl; [done |]. by rewrite IH, andb_assoc. Qed.

Lemma str_length_app s t : String.length (s +:+ t) = (String.length s + String.length t)%nat.
Proof. induction s; simpl; auto. Qed.

Lemma str_app_nil_r s : s +:+ "" = s.
Proof. induction s as [| c s IH]; simpl; [done |]. by rewrite IH. Qed.

Lemma str_app_assoc s t u : (s +:+ t) +:+ u = s +:+ (t +:+ u).
Proof. induction s as [| c s IH]; simpl; [done |]. by rewrite IH. Qed.

Lemma drop_str_app s t : drop_str (String.length s) (s +:+ t) = t.
Proof. induction s as [| c s IH]; simpl; [by destruct t | done]. Qed.

Lemma take_str_app s t : take_str (String.length s) (s +:+ t) = s.
Proof. induction s as [| c s IH]; simpl; [by destruct t |]. by rewrite IH. Qed.

Lemma take_str_all s : take_str (String.length s) s = s.
Proof. pose proof (take_str_app s "") as E. by rewrite str_app_nil_r in E. Qed.

Lemma take_drop_str n s : take_str n s +:+ drop_str n s = s.
Proof. revert s. induction n as [| n IH]; intros [| c s]; simpl; f_equal; auto. Qed.

Lemma length_drop_str n s : String.length (drop_str n s) = (String.length s - n)%nat.
Proof. revert s. induction n as [| n IH]; intros [| c s]; simpl; auto. Qed.

Lemma length_take_str n s : (n <= String.length s)%nat -> String.length (take_str n s) = n.
Proof. revert s. induction n as [| n IH]; intros [| c s]; simpl; intros; [lia .. |]. rewrite IH; lia. Qed.

Lemma length_take_str_min n s : String.length (take_str n s) = Nat.min n (String.length s).
Proof. revert n. induction s as [| c s IH]; intros [| n]; simpl; auto. Qed.

Lemma drop_str_drop n m s : drop_str n (drop_str m s) = drop_str (m + n) s.
Proof.
  revert s. induction m as [| m IH]; intros [| c s]; simpl; auto.
  by destruct n.
Qed.

Lemma find_from_base p n s : find_from p n s = (fun i => n + i)%nat <$> find_from p 0 s.
Proof.
  revert n. induction s as [| c s IH]; intros n; simpl; [done |].
  destruct (p c); simpl; [by rewrite Nat.add_0_r |].
  rewrite IH, (IH 1%nat). destruct (find_from p 0 s); simpl; [f_equal; lia | done].
Qed.

(** [find_from] splits the string at the first character of the set. *)
Lemma find_from_spec p s :
  match find_from p 0 s with
  | Some i => exists c, s = take_str i s +:+ String c (drop_str (S i) s) /\ p c = true /\
              string_forall (fun c => negb (p c)) (take_str i s) = true
  | None => string_forall (fun c => negb (p c)) s = true
  end.
Proof.
  induction s as [| c s IH]; simpl; [done |].
  destruct (p c) eqn:Hc; simpl.
  - exists c. auto.
  - rewrite find_from_base. destruct (find_from p 0 s) as [i |]; simpl.
    + destruct IH as (d & E & Hd & Hall). exists d. rewrite Hc. simpl.
      split; [by rewrite <- E | auto].
    + by rewrite IH.
Qed.

Lemma find_from_app_stop p s c t :
  string_forall (fun c => negb (p c)) s = true -> p c = true ->
  find_from p 0 (s +:+ String c t) = Some (String.length s).
Proof.
  intros Hs Hc. induction s as [| d s IH]; simpl in *; [by rewrite Hc |].
  bool_hyps. match goal with H : p d = false |- _ => rewrite H end.
  rewrite find_from_base, IH by done. done.
Qed.

Lemma find_from_none p s :
  string_forall (fun c => negb (p c)) s = true -> find_from p 0 s = None.
Proof.
  induction s as [| d s IH]; simpl; intros H; [done |].
  bool_hyps. match goal with H : p d = false |- _ => rewrite H end.
  rewrite find_from_base, IH by done. done.
Qed.

Lemma has_prefix_app pre s : has_prefix pre (pre +:+ s) = true.
Proof. induction pre as [| a pre IH]; simpl; [done |]. by rewrite Ascii.eqb_refl, IH. Qed.

Lemma has_prefix_true pre s : has_prefix pre s = true -> s = pre +:+ drop_str (String.length pre) s.
Proof.
  revert s. induction pre as [| a pre IH]; intros [| b s] H; simpl in *; try done.
  bool_hyps. match goal with H : Ascii.eqb _ _ = true |- _ => apply Ascii.eqb_eq in H; subst end.
  f_equal. auto.
Qed.

(** The ASCII instance satisfies the laws. *)

Lemma trim_left_idem s : trim_left (trim_left s) = trim_left s.
Proof.
  induction s as [| c s IH]; simpl; [done |].
  destruct (isspace c) eqn:E; [done |]. simpl. by rewrite E.
Qed.

Lemma trim_right_idem s : trim_right (trim_right s) = trim_right s.
Proof.
  induction s as [| c s IH]; simpl; [done |].
  destruct (trim_right s) as [| d r] eqn:E.
  - destruct (isspace c) eqn:Ec; simpl; [done | by rewrite Ec].
  - change (trim_right (String c (String d r)))
      with (match trim_right (String d r) with
            | "" => if isspace c then "" else String c ""
            | r' => String c r' end).
    by rewrite IH.
Qed.

Lemma trim_left_right s : trim_left s = s -> trim_left (trim_right s) = trim_right s.
Proof.
  destruct s as [| c s]; simpl; [done |]. intros H.
  destruct (isspace c) eqn:Ec.
  - exfalso. assert (forall t, String.length (trim_left t) <= String.length t)%nat as L.
    { clear. induction t as [| d t IH]; simpl; [lia |]. destruct (isspace d); simpl; lia. }
    specialize (L s). rewrite H in L. simpl in L. lia.
  - destruct (trim_right s); simpl; by rewrite Ec.
Qed.

Lemma to_lower_ascii_idem c : to_lower_ascii (to_lower_ascii c) = to_lower_ascii c.
Proof.
  destruct c as [b0 b1 b2 b3 b4 b5 b6 b7].
  destruct b0, b1, b2, b3, b4, b5, b6, b7; vm_compute; reflexivity.
Qed.

Lemma trim_left_shrinks s : trim_left s = s \/ (String.length (trim_left s) < String.length s)%nat.
Proof.
  induction s as [| c s IH]; simpl; [by left |]. destruct (isspace c); [right | by left].
  destruct IH as [-> | IH]; lia.
Qed.

Lemma trim_right_le s : (String.length (trim_right s) <= String.length s)%nat.
Proof.
  induction s as [| c s IH]; simpl; [lia |]. destruct (trim_right s); simpl in *; [| lia].
  destruct (isspace c); simpl; lia.
Qed.

Lemma ascii_trimmed_fixed s : ascii_trimmed s = s <-> trim_left s = s /\ trim_right s = s.
Proof.
  unfold ascii_trimmed. split; [| by intros [-> ->]]. intros Hs.
  destruct (trim_left_shrinks s) as [E | Hlt]; [by rewrite E in Hs |].
  pose proof (trim_right_le (trim_left s)) as Hle. rewrite Hs in Hle. lia.
Qed.

Lemma trim_left_app a b : a <> "" -> trim_left a = a -> trim_left (a +:+ b) = a +:+ b.
Proof.
  destruct a as [| c a]; [done |]. simpl. intros _ H. destruct (isspace c) eqn:Ec; [| done].
  destruct (trim_left_shrinks a) as [E | Hlt]; [rewrite E in H | rewrite H in Hlt; simpl in Hlt; lia].
  apply (f_equal String.length) in H. simpl in H. lia.
Qed.

Lemma trim_right_app a b : b <> "" -> trim_right b = b -> trim_right (a +:+ b) = a +:+ b.
Proof.
  intros Hne Hb. induction a as [| c a IH]; [done |]. cbn [String.append trim_right]. rewrite IH.
  by destruct (a +:+ b) eqn:E; [destruct a, b |].
Qed.

Lemma plain_not_space c : isalnum c || Ascii.eqb c "-" = true -> isspace c = false.
Proof. destruct c as [[] [] [] [] [] [] [] []]; vm_compute; done. Qed.

Lemma ascii_trimmed_plain s : string_forall (fun c => isalnum c || Ascii.eqb c "-") s = true -> ascii_trimmed s = s.
Proof.
  intros Hs. apply ascii_trimmed_fixed. induction s as [| c s IH]; [done |]. cbn [string_forall] in Hs.
  apply andb_true_iff in Hs as [Hc Hs]. apply plain_not_space in Hc. destruct (IH Hs) as [_ IHr].
  cbn [trim_left trim_right]. rewrite Hc, IHr. split; [done |]. by destruct s.
Qed.

Lemma to_lower_ascii_plain c : is_digit c || is_lower c = true -> to_lower_ascii c = c.
Proof.
  intros Hc. unfold to_lower_ascii. destruct (is_upper c) eqn:E; [| done]. exfalso.
  unfold is_digit, is_lower, is_upper in *. apply andb_true_iff in E as [E1%Z.leb_le E2%Z.leb_le].
  apply orb_true_iff in Hc as [Hc | Hc]; apply andb_true_iff in Hc as [H1%Z.leb_le H2%Z.leb_le]; lia.
Qed.

#[export] Instance AsciiTextLaws : QtTextLaws.
Proof.
  constructor; simpl.
  - intros s. unfold ascii_trimmed.
    rewrite trim_left_right by apply trim_left_idem. apply trim_right_idem.
  - done.
  - done.
  - intros s. unfold ascii_lower. induction s as [| c s IH]; simpl; [done |].
    by rewrite to_lower_ascii_idem, IH.
  - apply ascii_trimmed_plain.
  - intros a b Ha Hb. rewrite !ascii_trimmed_fixed. intros [Ea _] [_ Eb].
    split; [by apply trim_left_app | by apply trim_right_app].
  - intros s Hs. unfold ascii_lower. induction s as [| c s IH]; simpl in *; [done |].
    apply andb_true_iff in Hs as [Hc Hs]. rewrite IH by done. f_equal. by apply to_lower_ascii_plain.
Qed.

(** ** Bytes *)

Lemma text_of_bytes_of s : text_of (bytes_of s) = s.
Proof. apply String.string_of_list_byte_of_string. Qed.

Lemma length_bytes_of s : Z.of_nat (length (bytes_of s)) = size s.
Proof.
  unfold size, bytes_of, String.list_byte_of_string. rewrite length_map. f_equal.
  induction s; simpl; auto.
Qed.

Lemma bytes_of_inj s t : bytes_of s = bytes_of t -> s = t.
Proof. intros E. by rewrite <- (text_of_bytes_of s), E, text_of_bytes_of. Qed.

(** ** Decimal numbers are read back *)

Fixpoint dec_value (acc : Z) (s : string) : Z :=
  match s with
  | "" => acc
  | String c s' => dec_value (10 * acc + (code c - 48)) s'
  end.

Lemma code_digit_char d : 0 <= d < 10 -> code (digit_char d) = 48 + d.
Proof.
  intros H. assert (d = 0 \/ d = 1 \/ d = 2 \/ d = 3 \/ d = 4 \/ d = 5 \/ d = 6 \/ d = 7 \/ d = 8 \/ d = 9) as E by lia.
  by repeat destruct E as [-> | E]; subst.
Qed.

Lemma dec_value_digits fuel z acc : 0 <= z < 2 ^ Z.of_nat fuel ->
  dec_value 0 (digits_fuel fuel z acc) = dec_value z acc.
Proof.
  revert z acc. induction fuel as [| f IH]; intros z acc Hz.
  - change (2 ^ Z.of_nat 0) with 1 in Hz. replace z with 0 by lia. done.
  - assert (0 <= z mod 10 < 10) by (apply Z.mod_pos_bound; lia).
    pose proof (Z.div_mod z 10). simpl digits_fuel. destruct (z / 10 =? 0) eqn:E; bool_hyps.
    + cbn [dec_value]. rewrite code_digit_char by done. f_equal. lia.
    + rewrite IH.
      * cbn [dec_value]. rewrite code_digit_char by done. f_equal. lia.
      * rewrite Nat2Z.inj_succ, Z.pow_succ_r in Hz by lia. lia.
Qed.

Lemma log2_fuel z : 0 <= z -> 0 <= z < 2 ^ Z.of_nat (S (Z.to_nat (Z.log2 z))).
Proof.
  intros Hz. rewrite Nat2Z.inj_succ, Z2Nat.id by apply Z.log2_nonneg. split; [done |].
  destruct (decide (z = 0)) as [-> | ?]; [done |]. apply Z.log2_spec. lia.
Qed.

Lemma dec_value_to_string z : 0 <= z -> dec_value 0 (to_string z) = z.
Proof.
  intros Hz. unfold to_string. rewrite (proj2 (Z.ltb_ge z 0) Hz).
  by rewrite dec_value_digits by by apply log2_fuel.
Qed.

Lemma digits_fuel_digits fuel z acc : 0 <= z -> string_forall is_digit acc = true ->
  string_forall is_digit (digits_fuel fuel z acc) = true.
Proof.
  revert z acc. induction fuel as [| f IH]; intros z acc Hz Ha; [done |].
  assert (0 <= z mod 10 < 10) by (apply Z.mod_pos_bound; lia).
  assert (string_forall is_digit (String (digit_char (z mod 10)) acc) = true).
  { simpl. rewrite Ha, andb_true_r. unfold is_digit. rewrite code_digit_char by done.
    apply andb_true_iff. split; apply Z.leb_le; lia. }
  simpl digits_fuel. destruct (z / 10 =? 0); [done |]. apply IH; [apply Z.div_pos; lia | done].
Qed.

Lemma to_string_digits z : 0 <= z -> string_forall is_digit (to_string z) = true.
Proof.
  intros Hz. unfold to_string. rewrite (proj2 (Z.ltb_ge z 0) Hz). by apply digits_fuel_digits.
Qed.

(** ** Text up to a stop character *)

Lemma string_forall_impl (p q : ascii -> bool) s :
  (forall c, p c = true -> q c = true) -> string_forall p s = true -> string_forall q s = true.
Proof.
  intros H. induction s as [| c s IH]; simpl; [done |]. rewrite !andb_true_iff. naive_solver.
Qed.

Lemma app_stop_inj (stop : ascii) s1 s2 t1 t2 :
  string_forall (fun c => negb (Ascii.eqb c stop)) s1 = true ->
  string_forall (fun c => negb (Ascii.eqb c stop)) s2 = true ->
  s1 +:+ String stop t1 = s2 +:+ String stop t2 -> s1 = s2 /\ t1 = t2.
Proof.
  revert s2. induction s1 as [| c s1 IH]; intros [| d s2]; simpl; intros H1 H2 E; injection E.
  - by intros ->.
  - intros _ <-. by rewrite Ascii.eqb_refl in H2.
  - intros _ ->. by rewrite Ascii.eqb_refl in H1.
  - intros E' ->. apply andb_true_iff in H1 as [_ H1], H2 as [_ H2].
    by destruct (IH s2 H1 H2 E') as [-> ->].
Qed.

Lemma str_app_inj_l s t1 t2 : s +:+ t1 = s +:+ t2 -> t1 = t2.
Proof. induction s as [| c s IH]; simpl; [done |]. intros E. injection E as E. by apply IH. Qed.
