(* ===== verification/Protocol.v ===== *)
(** * Protocol: length-prefixed frames over a byte stream

    Models client-cpp/src/protocol.cpp.  The system calls ([send], [recv],
    [SSL_write], [SSL_read]) are the parameter class [Transport]: each call
    changes the state of the connection and returns a count.  [TransportLaws]
    states what the calls promise: they move a prefix of the bytes offered or
    pending, of any length.  The loops run on fuel, one unit per byte still to
    move, and [write_loop_total] and [read_loop_total] show that it is enough.
    The thread-local [g_last_error] is a field of the state. *)

From S2P Require Import Prelude Text.
From Stdlib Require Import Strings.Byte.

(** ** The transport interface *)

Class Transport (T : Type) := {
  t_write : T -> list byte -> T * Z;          (* send / SSL_write: the return value *)
  t_read : T -> Z -> T * (Z * list byte);     (* recv / SSL_read: the value, the bytes stored *)
  t_error : T -> string;                      (* WSAGetLastError / ERR_error_string_n text *)
  t_closed : T -> bool;                       (* SSL_get_error = SSL_ERROR_ZERO_RETURN *)
}.

Class TransportLaws (T : Type) `{Transport T} := {
  t_sent : T -> list byte;       (* everything the peer has been given so far *)
  t_pending : T -> list byte;    (* what the peer has sent and has not been read *)
  t_live : T -> Prop;            (* the connection is up and moves bytes *)
  t_write_ok s bs s' n : t_write s bs = (s', n) -> 0 < n ->
    n <= Z.of_nat (length bs) /\ t_sent s' = t_sent s ++ take (Z.to_nat n) bs /\
    t_pending s' = t_pending s;
  t_write_fail s bs s' n : t_write s bs = (s', n) -> n <= 0 ->
    t_sent s' = t_sent s /\ t_pending s' = t_pending s;
  t_read_ok s k s' n bs : t_read s k = (s', (n, bs)) -> 0 < n ->
    n <= k /\ bs = take (Z.to_nat n) (t_pending s) /\ length bs = Z.to_nat n /\
    t_pending s' = drop (Z.to_nat n) (t_pending s) /\ t_sent s' = t_sent s;
  t_read_fail s k s' n bs : t_read s k = (s', (n, bs)) -> n <= 0 -> t_sent s' = t_sent s;
  t_write_range s bs s' n : t_write s bs = (s', n) -> -1 <= n;
  t_read_range s k s' n bs : t_read s k = (s', (n, bs)) -> -1 <= n;
  t_live_write s bs s' n : t_live s -> bs <> [] -> t_write s bs = (s', n) -> 0 < n /\ t_live s';
  t_live_read s k s' n bs : t_live s -> t_pending s <> [] -> 0 < k ->
    t_read s k = (s', (n, bs)) -> 0 < n /\ t_live s';
}.

(** ** State *)

Definition kMaxMessageSize : Z := 64 * 1024.

Record io (T : Type) := mk_io { conn : T; g_last_error : string }.
Arguments mk_io {T} _ _.
Arguments conn {T} _.
Arguments g_last_error {T} _.

#[export] Instance eta_io {T} : EtaRecord (io T) :=
  fun s => {| conn := conn s; g_last_error := g_last_error s |}.

Definition set_error {T} (e : string) (s : io T) : io T := s <| g_last_error := e |>.

(** ** htonl and ntohl, as the bytes in memory *)

Definition byte_of_Z (z : Z) : byte :=
  match Byte.of_N (Z.to_N (z mod 256)) with Some b => b | None => x00 end.
Definition Z_of_byte (b : byte) : Z := Z.of_N (Byte.to_N b).

Definition htonl (z : Z) : list byte :=
  [byte_of_Z (Z.shiftr z 24); byte_of_Z (Z.shiftr z 16); byte_of_Z (Z.shiftr z 8); byte_of_Z z].

Definition ntohl (bs : list byte) : Z :=
  fold_left (fun acc b => Z.lor (Z.shiftl acc 8) (Z_of_byte b)) bs 0.

(** ** Loops shared by the socket and the TLS overloads

    [bad] is the test of the return value; [report] the text stored on
    failure. *)

Section Loops.
  Context {T : Type} `{Transport T}.

Definition chunk_size (remaining : nat) : Z := Z.min (Z.of_nat remaining) INT32_MAX.

Fixpoint write_loop (bad : Z -> bool) (report : T -> Z -> string)
    (fuel : nat) (s : io T) (data : list byte) : option (io T * bool) :=
  match data with
  | [] => Some (s, true)
  | _ =>
    match fuel with
    | O => None
    | S fuel' =>
      let '(c, sent) := t_write (conn s) (take (Z.to_nat (chunk_size (length data))) data) in
      if bad sent then Some (set_error (report c sent) (s <| conn := c |>), false)
      else write_loop bad report fuel' (s <| conn := c |>) (drop (Z.to_nat sent) data)
    end
  end.

(** The bytes received so far are accumulated in [buffer]. *)
Fixpoint read_loop (bad : Z -> bool) (report : T -> Z -> string)
    (fuel : nat) (s : io T) (remaining : nat) (buffer : list byte)
    : option (io T * option (list byte)) :=
  match remaining with
  | O => Some (s, Some buffer)
  | _ =>
    match fuel with
    | O => None
    | S fuel' =>
      let '(c, (received, bs)) := t_read (conn s) (chunk_size remaining) in
      if bad received then Some (set_error (report c received) (s <| conn := c |>), None)
      else read_loop bad report fuel' (s <| conn := c |>)
             (remaining - Z.to_nat received) (buffer ++ bs)
    end
  end.

(** The return values that end a loop. *)
Definition tcp_bad (n : Z) : bool := (n =? -1) || (n =? 0).
Definition tls_bad (n : Z) : bool := n <=? 0.

Definition tcp_write_report (c : T) (_ : Z) : string := "send failed: WSA error " +:+ t_error c.
Definition tcp_read_report (c : T) (n : Z) : string :=
  if n =? -1 then "recv failed: WSA error " +:+ t_error c else "peer closed the TCP connection".

Definition ssl_error (operation : string) (c : T) : string :=
  if is_empty (t_error c) then operation else operation +:+ ": " +:+ t_error c.

Definition tls_write_report (c : T) (_ : Z) : string := ssl_error "SSL_write failed" c.
Definition tls_read_report (c : T) (_ : Z) : string :=
  ssl_error (if t_closed c then "TLS peer closed the connection" else "SSL_read failed") c.

(** [send_all] and [recv_all], socket and TLS overloads. *)

Definition send_all_tcp (s : io T) (data : list byte) : io T * bool :=
  default (s, false) (write_loop tcp_bad tcp_write_report (length data) s data).

Definition recv_all_tcp (s : io T) (n : nat) : io T * option (list byte) :=
  default (s, None) (read_loop tcp_bad tcp_read_report n s n []).

Definition send_all_tls (s : io T) (data : list byte) : io T * bool :=
  default (s, false) (write_loop tls_bad tls_write_report (length data) s data).

Definition recv_all_tls (s : io T) (n : nat) : io T * option (list byte) :=
  default (s, None) (read_loop tls_bad tls_read_report n s n []).

(** ** Frames *)

Definition send_frame_tcp (s : io T) (payload : list byte) : io T * bool :=
  if (length payload =? 0)%nat || (kMaxMessageSize <? Z.of_nat (length payload))
  then (set_error "invalid outgoing payload length" s, false)
  else
    let '(s1, ok) := send_all_tcp s (htonl (Z.of_nat (length payload))) in
    if negb ok then (s1, false) else send_all_tcp s1 payload.

Definition recv_frame_tcp (s : io T) : io T * option (list byte) :=
  let '(s1, header) := recv_all_tcp s 4 in
  match header with
  | None => (s1, None)
  | Some network_length =>
      let payload_length := ntohl network_length in
      if (payload_length =? 0) || (kMaxMessageSize <? payload_length)
      then (set_error ("invalid incoming payload length: " +:+ to_string payload_length) s1, None)
      else recv_all_tcp s1 (Z.to_nat payload_length)
  end.

Definition send_frame_tls (s : io T) (payload : list byte) : io T * bool :=
  if (length payload =? 0)%nat || (kMaxMessageSize <? Z.of_nat (length payload))
  then (s, false)
  else
    let '(s1, ok) := send_all_tls s (htonl (Z.of_nat (length payload))) in
    if negb ok then (s1, false) else send_all_tls s1 payload.

Definition recv_frame_tls (s : io T) : io T * option (list byte) :=
  let '(s1, header) := recv_all_tls s 4 in
  match header with
  | None => (s1, None)
  | Some network_length =>
      let payload_length := ntohl network_length in
      if (payload_length =? 0) || (kMaxMessageSize <? payload_length)
      then (set_error ("invalid incoming TLS payload length: " +:+ to_string payload_length) s1, None)
      else recv_all_tls s1 (Z.to_nat payload_length)
  end.

End Loops.

(** ** Byte order *)

Lemma Z_of_byte_of_Z z : Z_of_byte (byte_of_Z z) = z mod 256.
Proof.
  unfold Z_of_byte, byte_of_Z.
  assert (0 <= z mod 256 < 256) as Hr by (apply Z.mod_pos_bound; lia).
  destruct (Byte.of_N (Z.to_N (z mod 256))) as [b |] eqn:E.
  - apply Byte.to_of_N in E. rewrite E. lia.
  - apply Byte.of_N_None_iff in E. lia.
Qed.

Lemma lor_shiftl_8 a b : 0 <= b < 256 -> Z.lor (Z.shiftl a 8) b = a * 256 + b.
Proof.
  intros Hb. rewrite Z.shiftl_mul_pow2 by lia. change (2 ^ 8) with 256.
  assert (Z.land (a * 256) b = 0) as E; [| rewrite <- Z.lxor_lor, <- Z.add_nocarry_lxor; done].
  apply Z.bits_inj'; intros i Hi. rewrite Z.land_spec, Z.bits_0.
  change 256 with (2 ^ 8) in *. destruct (Z_lt_le_dec i 8).
  - by rewrite Z.mul_pow2_bits_low by lia.
  - rewrite (Z.bits_above_log2 b i); [apply andb_false_r | lia |].
    destruct (Z.eq_dec b 0) as [-> | Hb0]; [simpl; lia |].
    apply Z.log2_lt_pow2; [lia |]. apply Z.lt_le_trans with (2 ^ 8); [lia |].
    apply Z.pow_le_mono_r; lia.
Qed.

Lemma ntohl_htonl z : 0 <= z < 2 ^ 32 -> ntohl (htonl z) = z.
Proof.
  intros Hz. unfold ntohl, htonl. simpl fold_left.
  rewrite !lor_shiftl_8 by (rewrite Z_of_byte_of_Z; apply Z.mod_pos_bound; lia).
  rewrite !Z_of_byte_of_Z, !Z.shiftr_div_pow2 by lia.
  change (2 ^ 24) with 16777216. change (2 ^ 16) with 65536. change (2 ^ 8) with 256.
  change (2 ^ 32) with 4294967296 in Hz. change (Z.shiftl 0 8) with 0.
  rewrite ?Z.lor_0_l. Z.to_euclidean_division_equations. lia.
Qed.

Lemma ntohl_nonneg bs : 0 <= ntohl bs.
Proof.
  unfold ntohl. enough (forall acc, 0 <= acc ->
    0 <= fold_left (fun acc b => Z.lor (Z.shiftl acc 8) (Z_of_byte b)) bs acc) as G
    by (apply G; lia).
  induction bs as [| b bs IH]; intros acc Hacc; simpl; [done |].
  apply IH, Z.lor_nonneg. split; [by apply Z.shiftl_nonneg | unfold Z_of_byte; lia].
Qed.

Lemma length_htonl z : length (htonl z) = 4%nat.
Proof. done. Qed.

(** ** The loops *)

Section LoopLemmas.
  Context {T : Type} `{TransportLaws T}.

(** A test of return values that lets only positive counts pass. *)
Definition strict_test (bad : Z -> bool) : Prop := forall n, -1 <= n -> bad n = false <-> 0 < n.

Lemma tcp_bad_strict : strict_test tcp_bad.
Proof. intros n Hn. unfold tcp_bad. rewrite orb_false_iff, !Z.eqb_neq. lia. Qed.

Lemma tls_bad_strict : strict_test tls_bad.
Proof. intros n Hn. unfold tls_bad. rewrite Z.leb_gt. lia. Qed.

Lemma chunk_size_pos n : (0 < n)%nat -> 0 < chunk_size n <= Z.of_nat n.
Proof. unfold chunk_size, INT32_MAX. lia. Qed.

(** Whatever happens, the peer is given a prefix of the data, all of it on
    success; the fuel of one unit per byte suffices. *)
Lemma write_loop_spec bad report fuel (s : io T) data :
  strict_test bad -> (length data <= fuel)%nat ->
  exists s' ok k, write_loop bad report fuel s data = Some (s', ok) /\
    t_sent (conn s') = t_sent (conn s) ++ take k data /\
    t_pending (conn s') = t_pending (conn s) /\
    (ok = true -> take k data = data) /\
    (t_live (conn s) -> ok = true /\ t_live (conn s')).
Proof.
  intros Hbad. revert s data. induction fuel as [| fuel IH]; intros s data Hlen.
  - destruct data; simpl in Hlen; [| lia]. exists s, true, 0%nat. simpl. rewrite app_nil_r. naive_solver.
  - destruct data as [| b data]; [exists s, true, 0%nat; simpl; rewrite app_nil_r; naive_solver |].
    set (d := b :: data) in *.
    change (write_loop bad report (S fuel) s d) with
      (let '(c, sent) := t_write (conn s) (take (Z.to_nat (chunk_size (length d))) d) in
       if bad sent then Some (set_error (report c sent) (s <| conn := c |>), false)
       else write_loop bad report fuel (s <| conn := c |>) (drop (Z.to_nat sent) d)).
    pose proof (chunk_size_pos (length d) ltac:(subst d; simpl; lia)) as Hc.
    set (offer := take (Z.to_nat (chunk_size (length d))) d) in *.
    assert (offer <> []) as Hoffer.
    { subst offer d. intros E. apply (f_equal length) in E. rewrite length_take in E. simpl in *. lia. }
    destruct (t_write (conn s) offer) as [c n] eqn:Ew.
    pose proof (t_write_range _ _ _ _ Ew) as Hrange.
    destruct (bad n) eqn:Eb.
    + assert (n <= 0) as Hn by (destruct (Z_lt_le_dec 0 n) as [Hp | ?]; [apply Hbad in Hp; congruence | lia]).
      destruct (t_write_fail _ _ _ _ Ew Hn) as [E1 E2].
      eexists _, false, 0%nat. simpl. rewrite app_nil_r.
      split_and!; eauto; [done |]. intros Hl.
      destruct (t_live_write _ _ _ _ Hl Hoffer Ew). lia.
    + apply Hbad in Eb; [| done].
      destruct (t_write_ok _ _ _ _ Ew Eb) as (Hle & Es & Ep).
      assert (length offer <= length d)%nat by (subst offer; rewrite length_take; lia).
      destruct (IH (s <| conn := c |>) (drop (Z.to_nat n) d)) as (s' & ok & k & E & E1 & E2 & E3 & E4).
      { rewrite length_drop. subst d; simpl in *. lia. }
      simpl in *. exists s', ok, (Z.to_nat n + k)%nat.
      assert (take (Z.to_nat n) offer = take (Z.to_nat n) d) as Et.
      { subst offer. rewrite take_take. f_equal.
        rewrite length_take in Hle. lia. }
      split_and!; auto.
      * rewrite E1, Es, Et, <- app_assoc. f_equal. by rewrite <- take_take_drop.
      * by rewrite E2.
      * intros Hok. rewrite <- take_take_drop, E3 by done. apply take_drop.
      * intros Hl. apply E4. by destruct (t_live_write _ _ _ _ Hl Hoffer Ew).
Qed.

Lemma live_read_pos s k s' n bs :
  t_read s k = (s', (n, bs)) -> t_live s -> (0 < length (t_pending s))%nat -> 0 < k ->
  0 < n /\ t_live s'.
Proof.
  intros Er Hl Hp Hk. eapply t_live_read; eauto.
  intros E. rewrite E in Hp. simpl in Hp. lia.
Qed.

(** A successful read returns exactly the next [n] bytes of the stream, and a
    live connection with enough bytes always succeeds. *)
Lemma read_loop_spec bad report fuel (s : io T) n buffer :
  strict_test bad -> (n <= fuel)%nat ->
  exists s' r, read_loop bad report fuel s n buffer = Some (s', r) /\
    t_sent (conn s') = t_sent (conn s) /\
    (forall bs, r = Some bs ->
       bs = buffer ++ take n (t_pending (conn s)) /\
       length bs = (length buffer + n)%nat /\
       t_pending (conn s') = drop n (t_pending (conn s))) /\
    (t_live (conn s) -> (n <= length (t_pending (conn s)))%nat ->
       is_Some r /\ t_live (conn s')).
Proof.
  intros Hbad. revert s n buffer. induction fuel as [| fuel IH]; intros s n buffer Hlen.
  { assert (n = 0%nat) as -> by lia. exists s, (Some buffer). simpl.
    
    rewrite app_nil_r. naive_solver. }
  destruct n as [| n].
  { exists s, (Some buffer). simpl. 
    rewrite app_nil_r. naive_solver. }
  set (m := S n) in *.
  change (read_loop bad report (S fuel) s m buffer) with
    (let '(c, (received, bs)) := t_read (conn s) (chunk_size m) in
     if bad received then Some (set_error (report c received) (s <| conn := c |>), None)
     else read_loop bad report fuel (s <| conn := c |>)
            (m - Z.to_nat received) (buffer ++ bs)).
  pose proof (chunk_size_pos m ltac:(subst m; lia)) as Hc.
  destruct (t_read (conn s) (chunk_size m)) as [c [k got]] eqn:Er.
  pose proof (t_read_range _ _ _ _ _ Er) as Hrange.
  destruct (bad k) eqn:Eb.
  - assert (k <= 0) as Hk by (destruct (Z_lt_le_dec 0 k) as [Hp | ?]; [apply Hbad in Hp; congruence | lia]).
    eexists _, None. simpl. split_and!; [done | by eapply t_read_fail | done |].
    intros Hl Hn. destruct (live_read_pos _ _ _ _ _ Er Hl); lia.
  - apply Hbad in Eb; [| done].
    destruct (t_read_ok _ _ _ _ _ Er Eb) as (Hle & Eg & Elen & Ep & Es).
    destruct (IH (s <| conn := c |>) (m - Z.to_nat k)%nat (buffer ++ got)) as (s' & r & E & E1 & E2 & E3).
    { subst m. lia. }
    simpl in *. exists s', r. split_and!; [done | congruence | |].
    + intros bs Hr. destruct (E2 bs Hr) as (E4 & E5 & E6).
      rewrite Ep in E4, E6. rewrite length_app in E5.
      split_and!; [| lia |].
      * rewrite E4, Eg, <- app_assoc. f_equal. rewrite take_take_drop. f_equal. lia.
      * rewrite E6, drop_drop. f_equal. lia.
    + intros Hl Hn. apply E3.
      * destruct (live_read_pos _ _ _ _ _ Er Hl); [lia | lia | done].
      * rewrite Ep, length_drop. lia.
Qed.


(** ** Whole buffers *)

Definition sends (send : io T -> list byte -> io T * bool) : Prop :=
  forall s data, exists s' ok k, send s data = (s', ok) /\
    t_sent (conn s') = t_sent (conn s) ++ take k data /\
    t_pending (conn s') = t_pending (conn s) /\
    (ok = true -> take k data = data) /\
    (t_live (conn s) -> ok = true /\ t_live (conn s')).

Definition receives (recv : io T -> nat -> io T * option (list byte)) : Prop :=
  forall s n, exists s' r, recv s n = (s', r) /\
    t_sent (conn s') = t_sent (conn s) /\
    (forall bs, r = Some bs ->
       bs = take n (t_pending (conn s)) /\ length bs = n /\
       t_pending (conn s') = drop n (t_pending (conn s))) /\
    (t_live (conn s) -> (n <= length (t_pending (conn s)))%nat -> is_Some r /\ t_live (conn s')).

Lemma send_all_tcp_spec : sends send_all_tcp.
Proof.
  intros s data. unfold send_all_tcp.
  destruct (write_loop_spec tcp_bad tcp_write_report (length data) s data tcp_bad_strict)
    as (s' & ok & k & E & Hrest); [lia |]. rewrite E. exists s', ok, k. auto.
Qed.

Lemma send_all_tls_spec : sends send_all_tls.
Proof.
  intros s data. unfold send_all_tls.
  destruct (write_loop_spec tls_bad tls_write_report (length data) s data tls_bad_strict)
    as (s' & ok & k & E & Hrest); [lia |]. rewrite E. exists s', ok, k. auto.
Qed.

Lemma recv_all_tcp_spec : receives recv_all_tcp.
Proof.
  intros s n. unfold recv_all_tcp.
  destruct (read_loop_spec tcp_bad tcp_read_report n s n [] tcp_bad_strict)
    as (s' & r & E & Hrest); [lia |]. rewrite E. exists s', r. auto.
Qed.

Lemma recv_all_tls_spec : receives recv_all_tls.
Proof.
  intros s n. unfold recv_all_tls.
  destruct (read_loop_spec tls_bad tls_read_report n s n [] tls_bad_strict)
    as (s' & r & E & Hrest); [lia |]. rewrite E. exists s', r. auto.
Qed.

(** ** Frames on the wire *)

Definition valid_payload (p : list byte) : Prop := 0 < Z.of_nat (length p) <= kMaxMessageSize.

(** What one frame looks like on the wire. *)
Definition frame (p : list byte) : list byte := htonl (Z.of_nat (length p)) ++ p.

Lemma length_frame p : length (frame p) = (4 + length p)%nat.
Proof. done. Qed.

Lemma valid_payload_test p :
  valid_payload p <->
  (length p =? 0)%nat || (kMaxMessageSize <? Z.of_nat (length p)) = false.
Proof. unfold valid_payload. rewrite orb_false_iff, Nat.eqb_neq, Z.ltb_ge. lia. Qed.

Lemma sends_live send s data :
  sends send -> t_live (conn s) ->
  exists s', send s data = (s', true) /\ t_sent (conn s') = t_sent (conn s) ++ data /\
    t_pending (conn s') = t_pending (conn s) /\ t_live (conn s').
Proof.
  intros Hs Hl. destruct (Hs s data) as (s' & ok & k & E & E1 & E2 & E3 & E4).
  destruct (E4 Hl) as [-> Hl']. exists s'. rewrite E3 in E1 by done. auto.
Qed.

Lemma receives_live recv s n :
  receives recv -> t_live (conn s) -> (n <= length (t_pending (conn s)))%nat ->
  exists s', recv s n = (s', Some (take n (t_pending (conn s)))) /\
    t_pending (conn s') = drop n (t_pending (conn s)) /\ t_live (conn s').
Proof.
  intros Hr Hl Hn. destruct (Hr s n) as (s' & r & E & _ & E1 & E2).
  destruct (E2 Hl Hn) as [[bs ->] Hl']. destruct (E1 bs eq_refl) as (-> & _ & E3).
  exists s'. auto.
Qed.

(** The two overloads of [send_frame] and [recv_frame] differ in the calls
    they make and in the texts they store: the shared part. *)
Definition send_frame_with (send : io T -> list byte -> io T * bool) (reject : io T -> io T)
    (s : io T) (p : list byte) : io T * bool :=
  if (length p =? 0)%nat || (kMaxMessageSize <? Z.of_nat (length p)) then (reject s, false)
  else
    let '(s1, ok) := send s (htonl (Z.of_nat (length p))) in
    if negb ok then (s1, false) else send s1 p.

Definition recv_frame_with (recv : io T -> nat -> io T * option (list byte)) (text : string)
    (s : io T) : io T * option (list byte) :=
  let '(s1, header) := recv s 4%nat in
  match header with
  | None => (s1, None)
  | Some h =>
      if (ntohl h =? 0) || (kMaxMessageSize <? ntohl h)
      then (set_error (text +:+ to_string (ntohl h)) s1, None)
      else recv s1 (Z.to_nat (ntohl h))
  end.

Lemma send_frame_live send reject s p :
  sends send -> valid_payload p -> t_live (conn s) ->
  exists s', send_frame_with send reject s p = (s', true) /\
    t_sent (conn s') = t_sent (conn s) ++ frame p /\ t_live (conn s').
Proof.
  intros Hs Hp Hl. unfold send_frame_with. apply valid_payload_test in Hp as ->.
  destruct (sends_live _ s (htonl (Z.of_nat (length p))) Hs Hl) as (s1 & -> & E1 & _ & Hl1).
  destruct (sends_live _ s1 p Hs Hl1) as (s2 & E & E2 & _ & Hl2).
  exists s2. simpl. rewrite E2, E1, <- app_assoc. auto.
Qed.

Lemma ntohl_header p : valid_payload p -> ntohl (htonl (Z.of_nat (length p))) = Z.of_nat (length p).
Proof. intros Hp. apply ntohl_htonl. unfold valid_payload, kMaxMessageSize in Hp. lia. Qed.

(** The length test of the receiver, on the length of a valid payload. *)
Lemma valid_payload_header p :
  valid_payload p ->
  (Z.of_nat (length p) =? 0) || (kMaxMessageSize <? Z.of_nat (length p)) = false.
Proof. unfold valid_payload. rewrite orb_false_iff, Z.eqb_neq, Z.ltb_ge. lia. Qed.

Lemma recv_frame_live recv text s p rest :
  receives recv -> valid_payload p -> t_live (conn s) -> t_pending (conn s) = frame p ++ rest ->
  exists s', recv_frame_with recv text s = (s', Some p) /\
    t_pending (conn s') = rest /\ t_live (conn s').
Proof.
  intros Hr Hp Hl Epend. unfold recv_frame_with.
  destruct (receives_live _ s 4 Hr Hl) as (s1 & -> & E1 & Hl1);
    [rewrite Epend, length_app; simpl; lia |].
  rewrite Epend in *. unfold frame in *. rewrite <- app_assoc in *.
  rewrite take_app_length' by done. rewrite drop_app_length' in E1 by done.
  rewrite ntohl_header, valid_payload_header, Nat2Z.id by done.
  destruct (receives_live _ s1 (length p) Hr Hl1) as (s2 & E & E2 & Hl2);
    [rewrite E1, length_app; lia |].
  exists s2. rewrite E, E1, E2, E1, take_app_length, drop_app_length. auto.
Qed.

(** Everything an accepted frame implies, whatever the peer sent. *)
Lemma recv_frame_sound recv text s s' r :
  receives recv -> recv_frame_with recv text s = (s', r) ->
  match r with
  | Some p => valid_payload p /\
      exists header, length header = 4%nat /\ ntohl header = Z.of_nat (length p) /\
        t_pending (conn s) = header ++ p ++ t_pending (conn s')
  | None => True
  end /\ t_sent (conn s') = t_sent (conn s).
Proof.
  intros Hr. unfold recv_frame_with.
  destruct (Hr s 4%nat) as (s1 & [h |] & -> & Es1 & E1 & _); [| by intros [= <- <-]].
  destruct (E1 h eq_refl) as (Eh & Hlen & Ep1).
  destruct ((ntohl h =? 0) || (kMaxMessageSize <? ntohl h)) eqn:Et; [by intros [= <- <-] |].
  destruct (Hr s1 (Z.to_nat (ntohl h))) as (s2 & [p |] & -> & Es2 & E2 & _); intros [= <- <-];
    (split; [| congruence]); [| done].
  destruct (E2 p eq_refl) as (Epay & Hplen & Ep2). bool_hyps.
  pose proof (ntohl_nonneg h) as Hpos.
  split; [unfold valid_payload; lia |].
  exists h. split_and!; [done | lia |].
  rewrite Ep2, Ep1, Epay, Ep1, Eh, !take_drop. done.
Qed.

Lemma recv_frame_refuses recv text s header rest :
  receives recv -> t_live (conn s) -> t_pending (conn s) = header ++ rest ->
  length header = 4%nat -> ntohl header = 0 \/ kMaxMessageSize < ntohl header ->
  exists s', recv_frame_with recv text s = (s', None) /\ t_pending (conn s') = rest /\
    g_last_error s' = text +:+ to_string (ntohl header).
Proof.
  intros Hr Hl Ep Hlen Hbad. unfold recv_frame_with.
  destruct (receives_live _ s 4 Hr Hl) as (s1 & -> & E1 & _); [rewrite Ep, length_app; lia |].
  rewrite Ep in *. rewrite take_app_length' by done. rewrite drop_app_length' in E1 by done.
  assert ((ntohl header =? 0) || (kMaxMessageSize <? ntohl header) = true) as ->.
  { rewrite orb_true_iff, Z.eqb_eq, Z.ltb_lt. done. }
  eexists. split_and!; [done | done | done].
Qed.

(** ** Sequences of frames *)

Fixpoint send_frames (send : io T -> list byte -> io T * bool) (s : io T) (ps : list (list byte))
    : io T * bool :=
  match ps with
  | [] => (s, true)
  | p :: ps' => let '(s1, ok) := send s p in if ok then send_frames send s1 ps' else (s1, false)
  end.

Fixpoint recv_frames (recv : io T -> io T * option (list byte)) (n : nat) (s : io T)
    : io T * option (list (list byte)) :=
  match n with
  | O => (s, Some [])
  | S n' =>
      let '(s1, r) := recv s in
      match r with
      | None => (s1, None)
      | Some p => let '(s2, rs) := recv_frames recv n' s1 in (s2, cons p <$> rs)
      end
  end.

Lemma send_frames_live send reject s ps :
  sends send -> Forall valid_payload ps -> t_live (conn s) ->
  exists s', send_frames (send_frame_with send reject) s ps = (s', true) /\
    t_sent (conn s') = t_sent (conn s) ++ concat (map frame ps) /\ t_live (conn s').
Proof.
  intros Hs Hps. revert s. induction Hps as [| p ps Hp Hps IH]; intros s Hl; simpl.
  { exists s. rewrite app_nil_r. auto. }
  destruct (send_frame_live send reject s p Hs Hp Hl) as (s1 & -> & E1 & Hl1).
  destruct (IH s1 Hl1) as (s2 & -> & E2 & Hl2). exists s2.
  rewrite E2, E1, <- app_assoc. auto.
Qed.

Lemma recv_frames_live recv text s ps rest :
  receives recv -> Forall valid_payload ps -> t_live (conn s) ->
  t_pending (conn s) = concat (map frame ps) ++ rest ->
  exists s', recv_frames (recv_frame_with recv text) (length ps) s = (s', Some ps) /\
    t_pending (conn s') = rest /\ t_live (conn s').
Proof.
  intros Hr Hps. revert s. induction Hps as [| p ps Hp Hps IH]; intros s Hl E; simpl in *.
  { exists s. auto. }
  rewrite <- app_assoc in E.
  destruct (recv_frame_live recv text s p _ Hr Hp Hl E) as (s1 & -> & E1 & Hl1).
  destruct (IH s1 Hl1 E1) as (s2 & -> & E2 & Hl2). exists s2. auto.
Qed.

End LoopLemmas.

(** ** A concrete transport: a pipe that fragments

    [frag] lists how many bytes the next calls move (at least one, at most
    what is offered or pending); when it runs out a call moves everything. *)

Record pipe := { out : list byte; inbox : list byte; frag : list nat }.

Definition pipe_count (p : pipe) (available : nat) : nat :=
  match frag p with [] => available | k :: _ => Nat.min (Nat.max 1 k) available end.

Definition pipe_write (p : pipe) (bs : list byte) : pipe * Z :=
  let n := pipe_count p (length bs) in
  ({| out := out p ++ take n bs; inbox := inbox p; frag := tail (frag p) |}, Z.of_nat n).

Definition pipe_read (p : pipe) (k : Z) : pipe * (Z * list byte) :=
  let n := pipe_count p (Nat.min (Z.to_nat k) (length (inbox p))) in
  ({| out := out p; inbox := drop n (inbox p); frag := tail (frag p) |},
   (Z.of_nat n, take n (inbox p))).

#[export] Instance pipe_transport : Transport pipe :=
  {| t_write := pipe_write; t_read := pipe_read; t_error _ := ""; t_closed _ := true |}.

Lemma pipe_count_le p n : (pipe_count p n <= n)%nat.
Proof. unfold pipe_count. destruct (frag p); lia. Qed.

Lemma pipe_count_pos p n : (0 < n)%nat -> (0 < pipe_count p n)%nat.
Proof. unfold pipe_count. destruct (frag p); lia. Qed.

#[export] Instance pipe_laws : TransportLaws pipe.
Proof.
  refine {| t_sent := out; t_pending := inbox; t_live := fun _ => True |}; simpl;
    unfold pipe_write, pipe_read.
  - intros s bs s' n [= <- <-] Hn. simpl.
    pose proof (pipe_count_le s (length bs)). rewrite Nat2Z.id. split_and!; [lia | done | done].
  - intros s bs s' n [= <- <-] Hn. simpl.
    assert (pipe_count s (length bs) = 0%nat) as -> by lia. by rewrite app_nil_r.
  - intros s k s' n bs [= <- <- <-] Hn. simpl. rewrite Nat2Z.id.
    pose proof (pipe_count_le s (Z.to_nat k `min` length (inbox s))).
    rewrite length_take. split_and!; [lia | done | lia | done | done].
  - by intros s k s' n bs [= <- <- <-] _.
  - intros s bs s' n [= <- <-]. lia.
  - intros s k s' n bs [= <- <- <-]. lia.
  - intros s bs s' n _ Hbs [= <- <-]. split; [| done].
    destruct bs; [done |]. pose proof (pipe_count_pos s (length (b :: bs))). simpl in *. lia.
  - intros s k s' n bs _ Hp Hk [= <- <- <-]. split; [| done].
    destruct (inbox s) as [| b l] eqn:E; [done |].
    pose proof (pipe_count_pos s (Z.to_nat k `min` length (b :: l))). simpl in *. lia.
Defined.

(** ** Properties *)

(** C15: frames cross a TLS connection intact, in order and without loss,
    however the two ends fragment the stream: after [send_frame] has sent a
    list of payloads of legal size, [recv_frame] called once per payload
    returns exactly those payloads and leaves exactly the bytes that followed
    them. *)
Theorem tls_stream_roundtrip {S R : Type} `{TransportLaws S} `{TransportLaws R}
    (s : io S) (r : io R) (ps : list (list byte)) (rest : list byte) :
  Forall valid_payload ps -> t_live (conn s) -> t_live (conn r) ->
  exists s' wire,
    send_frames send_frame_tls s ps = (s', true) /\
    t_sent (conn s') = t_sent (conn s) ++ wire /\
    (t_pending (conn r) = wire ++ rest ->
     exists r', recv_frames recv_frame_tls (length ps) r = (r', Some ps) /\
       t_pending (conn r') = rest).
Proof.
  intros Hps Hs Hr.
  destruct (send_frames_live send_all_tls id s ps send_all_tls_spec Hps Hs) as (s' & E & E1 & _).
  exists s', (concat (map frame ps)). split_and!; [exact E | done |]. intros Ep.
  destruct (recv_frames_live recv_all_tls "invalid incoming TLS payload length: " r ps rest
              recv_all_tls_spec Hps Hr Ep) as (r' & E' & E2 & _).
  exists r'. auto.
Qed.

Definition ex_payloads : list (list byte) := [[x68; x69]; [x7b; x7d; x0a]].
Definition ex_sender : io pipe := mk_io {| out := []; inbox := []; frag := [1; 2; 1]%nat |} "".
Definition ex_receiver : io pipe :=
  mk_io {| out := []; inbox := [x00; x00; x00; x02; x68; x69; x00; x00; x00; x03; x7b; x7d; x0a; x01];
           frag := [1; 1; 3; 2; 1; 1; 1; 1; 2]%nat |} "".

Lemma tls_stream_roundtrip_witness :
  send_frames send_frame_tls ex_sender ex_payloads =
    (mk_io {| out := take 13 (inbox (conn ex_receiver)); inbox := []; frag := [] |} "", true) /\
  exists r', recv_frames recv_frame_tls 2 ex_receiver = (r', Some ex_payloads) /\
    inbox (conn r') = [x01].
Proof.
  split; [vm_compute; reflexivity |].
  destruct (tls_stream_roundtrip ex_sender ex_receiver ex_payloads [x01])
    as (s' & wire & E & E1 & E2).
  - repeat constructor; vm_compute; discriminate.
  - exact I.
  - exact I.
  - apply E2. vm_compute in E. injection E as <-. simpl in E1. rewrite <- E1. reflexivity.
Defined.

(** a frame is accepted only if its length is between 1 byte and 64 KiB and
    equals the big-endian header, and accepting it consumes exactly header and
    payload; on a live connection any other length is refused with an error,
    before a single payload byte is read.  Both overloads. *)
Theorem recv_frame_bounds {T : Type} `{TransportLaws T} (s : io T) :
  (forall s' p, recv_frame_tls s = (s', Some p) \/ recv_frame_tcp s = (s', Some p) ->
     valid_payload p /\ exists header, length header = 4%nat /\
       ntohl header = Z.of_nat (length p) /\
       t_pending (conn s) = header ++ p ++ t_pending (conn s')) /\
  (forall header rest, t_live (conn s) -> t_pending (conn s) = header ++ rest ->
     length header = 4%nat -> ntohl header = 0 \/ kMaxMessageSize < ntohl header ->
     (exists s', recv_frame_tls s = (s', None) /\ t_pending (conn s') = rest /\
        g_last_error s' = "invalid incoming TLS payload length: " +:+ to_string (ntohl header)) /\
     (exists s', recv_frame_tcp s = (s', None) /\ t_pending (conn s') = rest /\
        g_last_error s' = "invalid incoming payload length: " +:+ to_string (ntohl header))).
Proof.
  split.
  - intros s' p [E | E].
    + by destruct (recv_frame_sound _ _ _ _ _ recv_all_tls_spec E).
    + by destruct (recv_frame_sound _ _ _ _ _ recv_all_tcp_spec E).
  - intros header rest Hl Ep Hlen Hbad. split.
    + exact (recv_frame_refuses recv_all_tls _ s header rest recv_all_tls_spec Hl Ep Hlen Hbad).
    + exact (recv_frame_refuses recv_all_tcp _ s header rest recv_all_tcp_spec Hl Ep Hlen Hbad).
Qed.
