(* ===== verification/Json.v ===== *)
(** * Json: the JSON values of nlohmann::json

    The value type of the vendored library (client-cpp/third_party/json.hpp)
    as the program uses it.  An object is a [std::map]: an association list
    kept in key order by [obj_set].  Numbers keep the three representations the
    program tests for (signed, unsigned, floating point).  The text codec
    ([parse] and [dump]) is the parameter class [JsonCodec]; [JsonCodecLaws]
    states the documented behaviour: dumping then parsing gives the same value,
    where a non-negative integer comes back as an unsigned number. *)

From S2P Require Import Prelude Text.
From Stdlib Require Import SpecFloat.

Inductive json : Type :=
  | JNull
  | JBool (b : bool)
  | JInt (z : Z)               (* number_integer *)
  | JUInt (z : Z)              (* number_unsigned *)
  | JFloat (f : spec_float)    (* number_float, a binary64 value *)
  | JStr (s : string)
  | JArr (l : list json)
  | JObj (o : list (string * json)).

(** ** Objects *)

Section Assoc.
  Context {A : Type}.

Fixpoint obj_get (k : string) (o : list (string * A)) : option A :=
  match o with
  | [] => None
  | (k', v) :: o' => if String.eqb k k' then Some v else obj_get k o'
  end.

(** [object[k] = v], keeping the keys in order. *)
Fixpoint obj_set (k : string) (v : A) (o : list (string * A)) : list (string * A) :=
  match o with
  | [] => [(k, v)]
  | (k', v') :: o' =>
      match String.compare k k' with
      | Lt => (k, v) :: o
      | Eq => (k, v) :: o'
      | Gt => (k', v') :: obj_set k v o'
      end
  end.

Definition key_lt (k k' : string) : bool :=
  match String.compare k k' with Lt => true | _ => false end.

Fixpoint keys_sorted (o : list (string * A)) : bool :=
  match o with
  | [] => true
  | (k, _) :: o' =>
      (match o' with [] => true | (k', _) :: _ => key_lt k k' end) && keys_sorted o'
  end.

(** Assignments [if (...) object[k] = v;] in sequence: [None] is a skipped one. *)
Definition obj_build (fields : list (string * option A)) : list (string * A) :=
  fold_left (fun o '(k, v) => match v with Some j => obj_set k j o | None => o end) fields [].

(** The value a sequence of assignments leaves at a key, when no key repeats. *)
Fixpoint field_of (k : string) (fields : list (string * option A)) : option A :=
  match fields with
  | [] => None
  | (k', v) :: fs => if String.eqb k k' then v else field_of k fs
  end.

Lemma obj_get_set k v k' o :
  obj_get k (obj_set k' v o) = if String.eqb k k' then Some v else obj_get k o.
Proof.
  induction o as [| [k0 v0] o IH]; simpl; [done |].
  destruct (String.compare k' k0) eqn:E; simpl.
  - apply String.compare_eq_iff in E as <-. by destruct (String.eqb k k').
  - done.
  - rewrite IH. destruct (String.eqb_spec k k0) as [-> |]; [| done].
    destruct (String.eqb_spec k0 k') as [-> |]; [| done].
    pose proof (String.compare_antisym k' k') as Ha. rewrite E in Ha. done.
Qed.

Lemma obj_get_build k fields :
  NoDup (fields.*1) -> obj_get k (obj_build fields) = field_of k fields.
Proof.
  unfold obj_build. intros Hnd.
  enough (forall o, (forall k', k' ∈ fields.*1 -> obj_get k' o = None) ->
    obj_get k (fold_left (fun o '(k, v) => match v with Some j => obj_set k j o | None => o end)
                 fields o) = match field_of k fields with Some v => Some v | None => obj_get k o end) as G.
  { rewrite G by done. by destruct (field_of k fields). }
  induction fields as [| [k0 v0] fs IH]; intros o Ho; simpl in *; [done |].
  apply NoDup_cons in Hnd as [Hk0 Hnd]. rewrite IH; [| done |].
  - destruct (String.eqb_spec k k0) as [-> | Hne].
    + assert (field_of k0 fs = None) as ->.
      { clear -Hk0. induction fs as [| [k1 v1] fs IH]; simpl in *; [done |].
        apply not_elem_of_cons in Hk0 as [Hne Hk0].
        apply String.eqb_neq in Hne as ->. auto. }
      destruct v0; [by rewrite obj_get_set, String.eqb_refl | done].
    + destruct (field_of k fs); [done |]. destruct v0; [| done].
      rewrite obj_get_set. by apply String.eqb_neq in Hne as ->.
  - intros k' Hk'. destruct v0; [| apply Ho; by right].
    rewrite obj_get_set. destruct (String.eqb_spec k' k0) as [-> |]; [done |].
    apply Ho. by right.
Qed.

Lemma obj_set_sorted k v o : keys_sorted o = true -> keys_sorted (obj_set k v o) = true.
Proof.
  induction o as [| [k0 v0] o IH]; [done |]. intros Hs.
  simpl in Hs. apply andb_true_iff in Hs as [Hh Hs].
  simpl obj_set. unfold key_lt in *. destruct (String.compare k k0) eqn:E.
  - apply String.compare_eq_iff in E as ->. simpl. unfold key_lt. by rewrite Hh, Hs.
  - simpl. unfold key_lt. by rewrite E, Hh, Hs.
  - assert (String.compare k0 k = Lt) as E' by (rewrite String.compare_antisym, E; done).
    specialize (IH Hs). simpl keys_sorted. rewrite IH, andb_true_r.
    destruct o as [| [k1 v1] o]; simpl; unfold key_lt; [by rewrite E' |].
    destruct (String.compare k k1); by rewrite ?E'.
Qed.

Lemma obj_build_sorted fields : keys_sorted (obj_build fields) = true.
Proof.
  unfold obj_build. enough (forall o, keys_sorted o = true -> keys_sorted (fold_left
    (fun o '(k, v) => match v with Some j => obj_set k j o | None => o end) fields o) = true) as G
    by by apply G.
  induction fields as [| [k [v |]] fs IH]; intros o Ho; simpl; auto using obj_set_sorted.
Qed.

Lemma obj_set_values (P : A -> Prop) k v o :
  P v -> Forall (fun kv => P kv.2) o -> Forall (fun kv => P kv.2) (obj_set k v o).
Proof.
  intros Hv Ho. induction Ho as [| [k0 v0] o H0 Ho IH]; simpl; [by repeat constructor |].
  destruct (String.compare k k0); repeat constructor; auto.
Qed.

Lemma obj_build_values (P : A -> Prop) fields :
  Forall (fun kv => forall v, kv.2 = Some v -> P v) fields ->
  Forall (fun kv => P kv.2) (obj_build fields).
Proof.
  unfold obj_build. intros Hf. enough (forall o, Forall (fun kv => P kv.2) o ->
    Forall (fun kv => P kv.2) (fold_left (fun o '(k, v) =>
      match v with Some j => obj_set k j o | None => o end) fields o)) as G by by apply G.
  induction Hf as [| [k [v |]] fs Hv _ IH]; intros o Ho; simpl; auto.
  apply IH, obj_set_values; auto.
Qed.

End Assoc.

(** ** Queries of the program *)

(** [object.contains(k)] and [object.at(k)]: only an object has members. *)
Definition member (k : string) (j : json) : option json :=
  match j with JObj o => obj_get k o | _ => None end.

Definition is_string (j : json) : bool := match j with JStr _ => true | _ => false end.
Definition is_boolean (j : json) : bool := match j with JBool _ => true | _ => false end.
Definition is_object (j : json) : bool := match j with JObj _ => true | _ => false end.

(** ** What a value becomes on the wire *)

Fixpoint reparse (j : json) : json :=
  match j with
  | JInt z => if z <? 0 then JInt z else JUInt z
  | JArr l => JArr (map reparse l)
  | JObj o => JObj (map (fun kv => (kv.1, reparse kv.2)) o)
  | _ => j
  end.

(** Values the library can hold: ordered objects at every level, integers in
    their width, floating point numbers finite. *)
Fixpoint json_wf (j : json) : bool :=
  match j with
  | JInt z => (- INT64_MAX - 1 <=? z) && (z <=? INT64_MAX)
  | JUInt z => (0 <=? z) && (z <=? UINT64_MAX)
  | JFloat f => match f with S754_finite _ _ _ | S754_zero _ => true | _ => false end
  | JArr l => forallb json_wf l
  | JObj o => keys_sorted o && forallb (fun kv => json_wf kv.2) o
  | _ => true
  end.

Class JsonCodec := {
  json_parse : string -> outcome json;    (* json::parse; [Fail] carries what() *)
  json_dump : json -> outcome string;     (* json::dump; throws on invalid UTF-8 *)
}.

Class JsonCodecLaws `{JsonCodec} : Prop := {
  json_parse_dump j s : json_wf j = true -> json_dump j = Ok s -> json_parse s = Ok (reparse j);
  json_dump_reparse j : json_wf j = true -> json_dump (reparse j) = json_dump j;
  json_dump_nonempty j s : json_dump j = Ok s -> s <> "";
  json_parse_wf s j : json_parse s = Ok j -> json_wf j = true;
}.

(** ** Lemmas *)

(** Induction over nested values. *)
Lemma json_nested_ind (P : json -> Prop) :
  P JNull -> (forall b, P (JBool b)) -> (forall z, P (JInt z)) -> (forall z, P (JUInt z)) ->
  (forall f, P (JFloat f)) -> (forall s, P (JStr s)) ->
  (forall l, Forall P l -> P (JArr l)) ->
  (forall o, Forall (fun kv => P kv.2) o -> P (JObj o)) ->
  forall j, P j.
Proof.
  intros Hn Hb Hi Hu Hf Hs Ha Ho.
  fix IH 1. intros [| b | z | z | f | s | l | o]; [apply Hn | apply Hb | apply Hi | apply Hu | apply Hf | apply Hs | |].
  - apply Ha. induction l as [| j l IHl]; constructor; auto.
  - apply Ho. induction o as [| [k j] o IHo]; constructor; [apply IH | apply IHo].
Qed.

Lemma reparse_idem j : reparse (reparse j) = reparse j.
Proof.
  induction j as [| | z | | | | l IH | o IH] using json_nested_ind; simpl; try done.
  - destruct (z <? 0) eqn:E; simpl; [by rewrite E | done].
  - f_equal. rewrite map_map. induction IH; simpl; congruence.
  - f_equal. rewrite map_map. induction IH as [| [k j] o Hj _ IHo]; simpl in *; congruence.
Qed.

Lemma obj_get_reparse k o :
  obj_get k (map (fun kv => (kv.1, reparse kv.2)) o) = reparse <$> obj_get k o.
Proof.
  induction o as [| [k' v] o IH]; simpl; [done |]. by destruct (String.eqb k k').
Qed.

Lemma keys_sorted_reparse o :
  keys_sorted (map (fun kv => (kv.1, reparse kv.2)) o) = keys_sorted o.
Proof.
  induction o as [| [k v] o IH]; [done |]. destruct o as [| [k' v'] o]; [done |].
  simpl in *. by rewrite IH.
Qed.

Lemma member_reparse k j : member k (reparse j) = reparse <$> member k j.
Proof. destruct j; simpl; try done; [by destruct (z <? 0) | apply obj_get_reparse]. Qed.

Lemma json_wf_reparse j : json_wf j = true -> json_wf (reparse j) = true.
Proof.
  induction j as [| | z | | | | l IH | o IH] using json_nested_ind; simpl; intros Hw; try done.
  - destruct (z <? 0) eqn:E; [done |]. simpl. bool_hyps. unfold INT64_MAX, UINT64_MAX in *.
    apply andb_true_iff. split; apply Z.leb_le; lia.
  - rewrite forallb_map. induction IH; simpl in *; [done |]. bool_hyps. apply andb_true_iff; auto.
  - apply andb_true_iff in Hw as [Hk Hw]. rewrite keys_sorted_reparse, Hk. simpl.
    rewrite forallb_map. clear Hk. induction IH; simpl in *; [done |].
    bool_hyps. apply andb_true_iff; auto.
Qed.
