(* ===== verification/JsonCodecInstance.v ===== *)
(** * JsonCodecInstance: a concrete codec that satisfies the codec laws

    The laws of [JsonCodec] can be met: this instance writes a value (in its
    [reparse]d form) as the binary digits of a code of its tree.  It stands for
    the real text format only in witnesses and examples. *)

From S2P Require Import Prelude Text Json.
From stdpp Require Import countable.
From Stdlib Require Import SpecFloat Ascii.
#[local] Open Scope Z_scope.

Abbreviation leaf := (Z + string)%type.

Definition sign_leaf (b : bool) : gen_tree leaf := GenLeaf (inl (if b then 1 else 0)).

Fixpoint to_tree (j : json) : gen_tree leaf :=
  match j with
  | JNull => GenNode 0 []
  | JBool b => GenNode 1 [sign_leaf b]
  | JInt z => GenNode 2 [GenLeaf (inl z)]
  | JUInt z => GenNode 3 [GenLeaf (inl z)]
  | JStr s => GenNode 4 [GenLeaf (inr s)]
  | JArr l => GenNode 5 (map to_tree l)
  | JObj o => GenNode 6 (map (fun kv => GenNode 7 [GenLeaf (inr kv.1); to_tree kv.2]) o)
  | JFloat (S754_zero s) => GenNode 8 [sign_leaf s]
  | JFloat (S754_infinity s) => GenNode 9 [sign_leaf s]
  | JFloat S754_nan => GenNode 10 []
  | JFloat (S754_finite s m e) =>
      GenNode 11 [sign_leaf s; GenLeaf (inl (Zpos m)); GenLeaf (inl e)]
  end.

Definition sign_of (z : Z) : bool := z =? 1.

Fixpoint of_tree (t : gen_tree leaf) : option json :=
  match t with
  | GenNode 0 [] => Some JNull
  | GenNode 1 [GenLeaf (inl z)] => Some (JBool (sign_of z))
  | GenNode 2 [GenLeaf (inl z)] => Some (JInt z)
  | GenNode 3 [GenLeaf (inl z)] => Some (JUInt z)
  | GenNode 4 [GenLeaf (inr s)] => Some (JStr s)
  | GenNode 5 l => JArr <$> mapM of_tree l
  | GenNode 6 l => JObj <$> mapM (fun t =>
      match t with
      | GenNode 7 [GenLeaf (inr k); v] => pair k <$> of_tree v
      | _ => None
      end) l
  | GenNode 8 [GenLeaf (inl z)] => Some (JFloat (S754_zero (sign_of z)))
  | GenNode 9 [GenLeaf (inl z)] => Some (JFloat (S754_infinity (sign_of z)))
  | GenNode 10 [] => Some (JFloat S754_nan)
  | GenNode 11 [GenLeaf (inl s); GenLeaf (inl (Zpos m)); GenLeaf (inl e)] =>
      Some (JFloat (S754_finite (sign_of s) m e))
  | _ => None
  end.

Fixpoint bits_of (p : positive) : string :=
  match p with
  | xH => "1"
  | xO p' => String "0" (bits_of p')
  | xI p' => String "1" (bits_of p')
  end.

Fixpoint of_bits (s : string) : option positive :=
  match s with
  | String "1" "" => Some xH
  | String "0" s' => xO <$> of_bits s'
  | String "1" s' => xI <$> of_bits s'
  | _ => None
  end.

Definition tree_parse (s : string) : outcome json :=
  match (of_bits s ≫= fun p => decode p ≫= of_tree) with
  | Some j => if json_wf j then Ok j else Fail "invalid value"
  | None => Fail "syntax error"
  end.

Definition tree_dump (j : json) : outcome string := Ok (bits_of (encode (to_tree (reparse j)))).

#[export] Instance tree_codec : JsonCodec := {| json_parse := tree_parse; json_dump := tree_dump |}.

Lemma of_bits_of p : of_bits (bits_of p) = Some p.
Proof.
  induction p as [p IH | p IH |]; simpl; [| by rewrite IH | done].
  destruct (bits_of p) eqn:E; [by destruct p | by rewrite IH].
Qed.

Lemma of_to_tree j : of_tree (to_tree j) = Some j.
Proof.
  induction j as [| [] | | | f | | l IH | o IH] using json_nested_ind; simpl; try done.
  - by destruct f as [[] | [] | | []].
  - enough (mapM of_tree (map to_tree l) = Some l) as -> by done.
    induction IH as [| j l Hj _ IH]; simpl; [done |]. by rewrite Hj, IH.
  - match goal with |- context [mapM ?f _] => set (g := f) end.
    enough (mapM g (map (fun kv => GenNode 7 [GenLeaf (inr kv.1); to_tree kv.2]) o) = Some o) as -> by done.
    induction IH as [| [k j] o Hj _ IH]; simpl in *; [done |]. by rewrite Hj, IH.
Qed.

#[export] Instance tree_codec_laws : JsonCodecLaws.
Proof.
  constructor; simpl; unfold tree_parse, tree_dump.
  - intros j s Hw [= <-]. rewrite of_bits_of. simpl. rewrite decode_encode. simpl.
    by rewrite of_to_tree, json_wf_reparse.
  - intros j _. by rewrite reparse_idem.
  - intros j s [= <-]. by destruct (encode (to_tree (reparse j))).
  - intros s j. destruct (_ ≫= _) as [j' |]; [| done]. destruct (json_wf j') eqn:E; [| done].
    by intros [= <-].
Qed.
