(* ===== verification/Message.v ===== *)
(** * Message: the wire messages

    Models client-cpp/include/message.hpp, client-cpp/src/message.cpp and
    client-cpp/include/attachment_limits.hpp: the [Message] structure, its JSON
    form ([serialize]), the validating reader ([receive_message_impl], here
    [parse_message] after the frame has arrived) and the four entry points
    that put messages on a connection. *)

From S2P Require Import Prelude Text Protocol Json JsonCodecInstance.
From Stdlib Require Import Ascii Strings.Byte.

(** ** Data *)

Definition MaxLogicalBytes : Z := 5 * 1024 * 1024 * 1024.
Definition PlaintextChunkBytes : Z := 47 * 1024.
Definition MaxChunkCount : Z := (MaxLogicalBytes + PlaintextChunkBytes - 1) / PlaintextChunkBytes.

Record OnlineUser := mk_user {
  ou_username : string;
  ou_user_code : string;
  ou_room : string;
  ou_is_admin : bool;
}.

Record RoomInfo := mk_room {
  ri_name : string;
  ri_owner_code : string;
  ri_is_private : bool;
  ri_can_manage : bool;
}.

Inductive Message : Type := mk_message {
  type : string;
  username : string;
  user_code : string;
  content : string;
  users : list string;
  target_user_code : string;
  room : string;
  rooms : list string;
  user_details : list OnlineUser;
  room_details : list RoomInfo;
  password : string;
  message_id : string;
  command_id : string;
  delivery_state : string;
  created_at : string;
  before_message_id : string;
  search_query : string;
  crypto : string;
  limit : Z;
  has_more : bool;
  recalled : bool;
  messages : list Message;
  is_admin : bool;
  is_private : bool;
  protocol_version : string;
  group_id : string;
  epoch : Z;
  key_package : string;
  proposal_id : string;
  action : string;
  proposal : string;
  commit : string;
  welcome : string;
  welcome_digest : string;
  attachment_id : string;
  upload_id : string;
  logical_size : Z;
  chunk_size : Z;
  chunk_index : Z;
  ciphertext : string;
  cipher_sha256 : string;
  expires_at : string;
  received_indexes : list Z;
}.

#[export] Instance eta_Message : EtaRecord Message := fun m =>
  {| type := type m; username := username m; user_code := user_code m; content := content m;
     users := users m; target_user_code := target_user_code m; room := room m; rooms := rooms m;
     user_details := user_details m; room_details := room_details m; password := password m;
     message_id := message_id m; command_id := command_id m; delivery_state := delivery_state m;
     created_at := created_at m; before_message_id := before_message_id m;
     search_query := search_query m; crypto := crypto m; limit := limit m; has_more := has_more m;
     recalled := recalled m; messages := messages m; is_admin := is_admin m;
     is_private := is_private m; protocol_version := protocol_version m; group_id := group_id m;
     epoch := epoch m; key_package := key_package m; proposal_id := proposal_id m;
     action := action m; proposal := proposal m; commit := commit m; welcome := welcome m;
     welcome_digest := welcome_digest m; attachment_id := attachment_id m; upload_id := upload_id m;
     logical_size := logical_size m; chunk_size := chunk_size m; chunk_index := chunk_index m;
     ciphertext := ciphertext m; cipher_sha256 := cipher_sha256 m; expires_at := expires_at m;
     received_indexes := received_indexes m |}.

(** [Message{}]: the constructor with its default arguments. *)
Definition empty_message : Message :=
  mk_message "" "" "" "" [] "" "" [] [] [] "" "" "" "" "" "" "" "" 0 false false [] false false
    "" "" 0 "" "" "" "" "" "" "" "" "" 0 0 0 "" "" "" [].

(** ** Base64 test *)

Definition is_base64_char (c : ascii) : bool :=
  isalnum c || Ascii.eqb c "+" || Ascii.eqb c "/".

Fixpoint is_base64_loop (n index padding : Z) (s : string) : bool :=
  match s with
  | "" => true
  | String c s' =>
      if Ascii.eqb c "="
      then if (index <? n - 2) || (2 <? padding + 1) then false
           else is_base64_loop n (index + 1) (padding + 1) s'
      else if negb (is_base64_char c) || negb (padding =? 0) then false
           else is_base64_loop n (index + 1) padding s'
  end.

Definition is_base64 (value : string) : bool :=
  if is_empty value || negb (size value mod 4 =? 0) then false
  else is_base64_loop (size value) 0 0 value.

(** ** serialize *)

Definition opt_str (s : string) : option json := if is_empty s then None else Some (JStr s).
Definition opt_true (b : bool) : option json := if b then Some (JBool true) else None.
Definition opt_int (z : Z) : option json := if z =? 0 then None else Some (JInt z).
Definition opt_arr (l : list json) : option json :=
  match l with [] => None | _ => Some (JArr l) end.

Definition serialize_user (u : OnlineUser) : json :=
  JObj (obj_build [("username", Some (JStr (ou_username u))); ("user_code", Some (JStr (ou_user_code u)));
                   ("room", Some (JStr (ou_room u))); ("is_admin", Some (JBool (ou_is_admin u)))]).

Definition serialize_room (r : RoomInfo) : json :=
  JObj (obj_build [("name", Some (JStr (ri_name r))); ("private", Some (JBool (ri_is_private r)));
                   ("can_manage", Some (JBool (ri_can_manage r)));
                   ("owner_code", opt_str (ri_owner_code r))]).

Definition limit_field (m : Message) : option json :=
  if 0 <? limit m then Some (JInt (limit m)) else None.

Definition epoch_field (m : Message) : option json :=
  if epoch m =? 0 then None else Some (JUInt (epoch m)).

(** A chunk always carries its index, also when it is 0. *)
Definition chunk_index_field (m : Message) : option json :=
  if negb (chunk_index m =? 0) || String.eqb (type m) "attachment.chunk"
  then Some (JInt (chunk_index m)) else None.

(** The assignments of [serialize] in source order; [crypto_value] and [nested]
    are the parsed [crypto] text and the serialized [messages]. *)
Definition message_fields (m : Message) (crypto_value : option json) (nested : list json)
    : list (string * option json) :=
  [ ("type", Some (JStr (type m)));
    ("protocol_version", opt_str (protocol_version m));
    ("message_id", opt_str (message_id m));
    ("command_id", opt_str (command_id m));
    ("delivery_state", opt_str (delivery_state m));
    ("created_at", opt_str (created_at m));
    ("before_message_id", opt_str (before_message_id m));
    ("search_query", opt_str (search_query m));
    ("crypto", crypto_value);
    ("limit", limit_field m);
    ("has_more", opt_true (has_more m));
    ("recalled", opt_true (recalled m));
    ("username", opt_str (username m));
    ("user_code", opt_str (user_code m));
    ("target_user_code", opt_str (target_user_code m));
    ("room", opt_str (room m));
    ("content", opt_str (content m));
    ("users", opt_arr (map JStr (users m)));
    ("rooms", opt_arr (map JStr (rooms m)));
    ("user_details", opt_arr (map serialize_user (user_details m)));
    ("room_details", opt_arr (map serialize_room (room_details m)));
    ("is_admin", opt_true (is_admin m));
    ("private", opt_true (is_private m));
    ("group_id", opt_str (group_id m));
    ("epoch", epoch_field m);
    ("key_package", opt_str (key_package m));
    ("proposal_id", opt_str (proposal_id m));
    ("action", opt_str (action m));
    ("proposal", opt_str (proposal m));
    ("commit", opt_str (commit m));
    ("welcome", opt_str (welcome m));
    ("welcome_digest", opt_str (welcome_digest m));
    ("attachment_id", opt_str (attachment_id m));
    ("upload_id", opt_str (upload_id m));
    ("logical_size", opt_int (logical_size m));
    ("chunk_size", opt_int (chunk_size m));
    ("chunk_index", chunk_index_field m);
    ("ciphertext", opt_str (ciphertext m));
    ("cipher_sha256", opt_str (cipher_sha256 m));
    ("expires_at", opt_str (expires_at m));
    ("received_indexes", opt_arr (map JInt (received_indexes m)));
    ("messages", opt_arr nested) ].

Section Serialize.
  Context `{JsonCodec}.

(** [json::parse(message.crypto)] throws on malformed text. *)
Definition crypto_value (m : Message) : outcome (option json) :=
  if is_empty (crypto m) then Ok None
  else do! j <- json_parse (crypto m); Ok (Some j).

Fixpoint serialize (m : Message) : outcome json :=
  do! c <- crypto_value m;
  do! nested <- mapO serialize (messages m);
  Ok (JObj (obj_build (message_fields m c nested))).

End Serialize.

(** ** The reader *)

(** [read_string]: absent leaves the default, a non-string is an error. *)
Definition read_string_value (v : option json) (error : string) : outcome string :=
  match v with
  | None => Ok ""
  | Some (JStr s) => Ok s
  | Some _ => Fail error
  end.

Definition read_string (object : json) (key : string) : outcome string :=
  read_string_value (member key object) "JSON message contains a field with the wrong type".

Definition read_bool_value (v : option json) (error : string) : outcome bool :=
  match v with
  | None => Ok false
  | Some (JBool b) => Ok b
  | Some _ => Fail error
  end.

Definition read_bool (object : json) (key error : string) : outcome bool :=
  read_bool_value (member key object) error.

(** [is_number_integer] accepts both integer representations; [get] converts
    to the width asked for by truncation. *)
Definition read_integer_value (wrap : Z -> Z) (v : option json) (error : string) : outcome Z :=
  match v with
  | None => Ok 0
  | Some (JInt z) | Some (JUInt z) => Ok (wrap z)
  | Some _ => Fail error
  end.

Definition read_limit (object : json) : outcome Z :=
  read_integer_value wrap32 (member "limit" object) "limit is not an integer".

Definition read_epoch (object : json) : outcome Z :=
  match member "epoch" object with
  | None => Ok 0
  | Some (JUInt z) => Ok z
  | Some _ => Fail "epoch is not an unsigned integer"
  end.

Definition read_int64 (object : json) (key : string) : outcome Z :=
  read_integer_value wrap64 (member key object) "JSON attachment metadata has a non-integer field".

Section Reader.
  Context `{JsonCodec}.

Definition read_crypto (object : json) : outcome string :=
  match member "crypto" object with
  | None => Ok ""
  | Some (JObj o) =>
      match json_dump (JObj o) with
      | Ok text => Ok text
      | Fail what => Fail ("JSON parse failed: " +:+ what)
      end
  | Some _ => Fail "crypto is not an object"
  end.

End Reader.

Definition hex_digit (c : ascii) : Z :=
  if is_digit c then code c - 48
  else if (97 <=? code c) && (code c <=? 102) then code c - 97 + 10
  else if (65 <=? code c) && (code c <=? 70) then code c - 65 + 10
  else -1.

(** [for (bit = 0; bit < 8; ++bit)]: the indexes of the set bits of one byte. *)
Fixpoint bitmap_bits (fuel : nat) (bits base bit : Z) : outcome (list Z) :=
  match fuel with
  | O => Ok []
  | S fuel' =>
      if Z.land bits (Z.shiftl 1 bit) =? 0 then bitmap_bits fuel' bits base (bit + 1)
      else if MaxChunkCount <=? base + bit
      then Fail "received_bitmap contains an out-of-range chunk"
      else do! rest <- bitmap_bits fuel' bits base (bit + 1); Ok (base + bit :: rest)
  end.

Fixpoint bitmap_indexes (base : Z) (s : string) : outcome (list Z) :=
  match s with
  | String h (String l s') =>
      let high := hex_digit h in
      let low := hex_digit l in
      if (high <? 0) || (low <? 0) then Fail "received_bitmap is not hexadecimal"
      else do! here <- bitmap_bits 8 (high * 16 + low) base 0;
           do! rest <- bitmap_indexes (base + 8) s'; Ok (here ++ rest)
  | _ => Ok []
  end.

Definition read_bitmap (object : json) : outcome (list Z) :=
  match member "received_bitmap" object with
  | None => Ok []
  | Some (JStr bitmap) =>
      match member "received_indexes" object with
      | Some _ => Fail "invalid or ambiguous received_bitmap"
      | None =>
          if negb (size bitmap mod 2 =? 0) || ((MaxChunkCount + 7) / 8 * 2 <? size bitmap)
          then Fail "received_bitmap has invalid length"
          else bitmap_indexes 0 bitmap
      end
  | Some _ => Fail "invalid or ambiguous received_bitmap"
  end.

(** A member that must be an array, read element by element. *)
Definition read_array {A} (object : json) (key : string) (read : json -> outcome A) : outcome (list A) :=
  match member key object with
  | None => Ok []
  | Some (JArr l) => mapO read l
  | Some _ => Fail (key +:+ " is not an array")
  end.

Definition read_index (value : json) : outcome Z :=
  read_integer_value wrap64 (Some value) "received_indexes contains a non-integer value".

Definition read_user_name (value : json) : outcome string :=
  read_string_value (Some value) "users contains a non-string value".

Definition read_room_name (value : json) : outcome string :=
  read_string_value (Some value) "rooms contains a non-string value".

Definition read_user_detail (value : json) : outcome OnlineUser :=
  match member "username" value, member "user_code" value, member "room" value, member "is_admin" value with
  | Some (JStr n), Some (JStr c), Some (JStr r), Some (JBool a) => Ok (mk_user n c r a)
  | _, _, _, _ => Fail "user_details contains an invalid member"
  end.

Definition read_room_detail (value : json) : outcome RoomInfo :=
  match member "name" value, member "private" value, member "can_manage" value, member "owner_code" value with
  | Some (JStr n), Some (JBool p), Some (JBool c), None => Ok (mk_room n "" p c)
  | Some (JStr n), Some (JBool p), Some (JBool c), Some (JStr o) => Ok (mk_room n o p c)
  | _, _, _, _ => Fail "room_details contains an invalid room"
  end.

Definition read_nested_string (value : json) (key : string) : outcome string :=
  read_string_value (member key value) "messages contains a field with the wrong type".

(** A history entry: only these members are kept. *)
Definition read_nested (value : json) : outcome Message :=
  guard! is_object value else "messages contains a non-object value";
  do! f_type <- read_nested_string value "type";
  do! f_message_id <- read_nested_string value "message_id";
  do! f_delivery_state <- read_nested_string value "delivery_state";
  do! f_username <- read_nested_string value "username";
  do! f_user_code <- read_nested_string value "user_code";
  do! f_target_user_code <- read_nested_string value "target_user_code";
  do! f_room <- read_nested_string value "room";
  do! f_content <- read_nested_string value "content";
  do! f_created_at <- read_nested_string value "created_at";
  do! f_private <- read_bool value "private" "nested private is not a boolean";
  do! f_recalled <- read_bool value "recalled" "nested recalled is not a boolean";
  Ok (empty_message <| type := f_type |> <| message_id := f_message_id |>
        <| delivery_state := f_delivery_state |> <| username := f_username |>
        <| user_code := f_user_code |> <| target_user_code := f_target_user_code |>
        <| room := f_room |> <| content := f_content |> <| created_at := f_created_at |>
        <| is_private := f_private |> <| recalled := f_recalled |>).

(** The base64 requirements on the five MLS payloads. *)
Definition check_base64 (m : Message) : outcome unit :=
  let bad (t : string) (value : string) :=
    String.eqb (type m) t && negb (is_empty value) && negb (is_base64 value) in
  if bad "mls.key_package.publish" (key_package m) then Fail "key_package is not base64"
  else if bad "mls.key_package.fetch" (key_package m) then Fail "key_package is not base64"
  else if bad "mls.group.commit" (commit m) then Fail "commit is not base64"
  else if bad "mls.group.proposal" (proposal m) then Fail "proposal is not base64"
  else if bad "mls.group.welcome" (welcome m) then Fail "welcome is not base64"
  else Ok tt.

(** The state of the entry points: the connection with the protocol's error
    text, and the thread-local error text of this file. *)

Record mstate (T : Type) := mk_mstate { mio : io T; msg_error : string }.
Arguments mk_mstate {T} _ _.
Arguments mio {T} _.
Arguments msg_error {T} _.

#[export] Instance eta_mstate {T} : EtaRecord (mstate T) :=
  fun s => {| mio := mio s; msg_error := msg_error s |}.

Section Reader2.
  Context `{JsonCodec}.

(** The body of [receive_message_impl] once the text is parsed. *)
Definition read_message (object : json) : outcome Message :=
  match member "type" object with
  | Some (JStr f_type) =>
  do! f_username <- read_string object "username";
  do! f_protocol_version <- read_string object "protocol_version";
  do! f_message_id <- read_string object "message_id";
  do! f_command_id <- read_string object "command_id";
  do! f_delivery_state <- read_string object "delivery_state";
  do! f_user_code <- read_string object "user_code";
  do! f_target_user_code <- read_string object "target_user_code";
  do! f_room <- read_string object "room";
  do! f_content <- read_string object "content";
  do! f_group_id <- read_string object "group_id";
  do! f_key_package <- read_string object "key_package";
  do! f_proposal_id <- read_string object "proposal_id";
  do! f_action <- read_string object "action";
  do! f_proposal <- read_string object "proposal";
  do! f_commit <- read_string object "commit";
  do! f_welcome <- read_string object "welcome";
  do! f_welcome_digest <- read_string object "welcome_digest";
  do! f_attachment_id <- read_string object "attachment_id";
  do! f_upload_id <- read_string object "upload_id";
  do! f_ciphertext <- read_string object "ciphertext";
  do! f_cipher_sha256 <- read_string object "cipher_sha256";
  do! f_expires_at <- read_string object "expires_at";
  do! f_created_at <- read_string object "created_at";
  do! f_before_message_id <- read_string object "before_message_id";
  do! f_search_query <- read_string object "search_query";
  do! f_is_admin <- read_bool object "is_admin" "is_admin is not a boolean";
  do! f_is_private <- read_bool object "private" "private is not a boolean";
  do! f_has_more <- read_bool object "has_more" "has_more is not a boolean";
  do! f_recalled <- read_bool object "recalled" "recalled is not a boolean";
  do! f_limit <- read_limit object;
  do! f_epoch <- read_epoch object;
  do! f_logical_size <- read_int64 object "logical_size";
  do! f_chunk_size <- read_int64 object "chunk_size";
  do! f_chunk_index <- read_int64 object "chunk_index";
  do! f_crypto <- read_crypto object;
  do! f_bitmap <- read_bitmap object;
  do! f_indexes <- read_array object "received_indexes" read_index;
  do! f_users <- read_array object "users" read_user_name;
  do! f_rooms <- read_array object "rooms" read_room_name;
  do! f_user_details <- read_array object "user_details" read_user_detail;
  do! f_room_details <- read_array object "room_details" read_room_detail;
  do! f_messages <- read_array object "messages" read_nested;
  let parsed :=
    {| type := f_type; username := f_username; user_code := f_user_code; content := f_content;
       users := f_users; target_user_code := f_target_user_code; room := f_room; rooms := f_rooms;
       user_details := f_user_details; room_details := f_room_details; password := "";
       message_id := f_message_id; command_id := f_command_id; delivery_state := f_delivery_state;
       created_at := f_created_at; before_message_id := f_before_message_id;
       search_query := f_search_query; crypto := f_crypto; limit := f_limit; has_more := f_has_more;
       recalled := f_recalled; messages := f_messages; is_admin := f_is_admin;
       is_private := f_is_private; protocol_version := f_protocol_version; group_id := f_group_id;
       epoch := f_epoch; key_package := f_key_package; proposal_id := f_proposal_id;
       action := f_action; proposal := f_proposal; commit := f_commit; welcome := f_welcome;
       welcome_digest := f_welcome_digest; attachment_id := f_attachment_id;
       upload_id := f_upload_id; logical_size := f_logical_size; chunk_size := f_chunk_size;
       chunk_index := f_chunk_index; ciphertext := f_ciphertext; cipher_sha256 := f_cipher_sha256;
       expires_at := f_expires_at; received_indexes := f_bitmap ++ f_indexes |} in
  do! _ <- check_base64 parsed;
  Ok parsed
  | _ => Fail "JSON message has no string type field"
  end.

Definition parse_message (payload : string) : outcome Message :=
  match json_parse payload with
  | Ok object => read_message object
  | Fail what => Fail ("JSON parse failed: " +:+ what)
  end.

(** ** Entry points *)

Context {T : Type} `{Transport T}.

(** [receive_message_impl]: the result flag and the out parameter, which is
    [Message{}] on every failure. *)
Definition receive_message_impl (receive_frame : io T -> io T * option (list byte))
    (s : mstate T) : mstate T * bool * Message :=
  let '(io1, payload) := receive_frame (mio s) in
  match payload with
  | None => (mk_mstate io1 (g_last_error io1), false, empty_message)
  | Some bs =>
      match parse_message (text_of bs) with
      | Ok m => (mk_mstate io1 (msg_error s), true, m)
      | Fail error => (mk_mstate io1 error, false, empty_message)
      end
  end.

(** [send_message]; [Fail] is an exception of [serialize] or [dump], which
    leaves the function. *)
Definition send_message_with (send_frame : io T -> list byte -> io T * bool)
    (s : mstate T) (m : Message) : outcome (mstate T * bool) :=
  do! object <- serialize m;
  do! text <- json_dump object;
  let '(io1, sent) := send_frame (mio s) (bytes_of text) in
  Ok (if sent then (mk_mstate io1 (msg_error s), true)
      else (mk_mstate io1 (g_last_error io1), false)).

Definition send_message_tcp := send_message_with send_frame_tcp.
Definition send_message_tls := send_message_with send_frame_tls.
Definition receive_message_tcp := receive_message_impl recv_frame_tcp.
Definition receive_message_tls := receive_message_impl recv_frame_tls.

End Reader2.

(** ** Round trip through the JSON form *)

(** What a receiver gets: no password, no negative limit, and of the nested
    history entries only the members the reader keeps. *)
Definition nested_view (m : Message) : Message :=
  empty_message <| type := type m |> <| message_id := message_id m |>
    <| delivery_state := delivery_state m |> <| username := username m |>
    <| user_code := user_code m |> <| target_user_code := target_user_code m |>
    <| room := room m |> <| content := content m |> <| created_at := created_at m |>
    <| is_private := is_private m |> <| recalled := recalled m |>.

Definition wire_view (m : Message) : Message :=
  m <| password := "" |> <| limit := Z.max 0 (limit m) |>
    <| messages := map nested_view (messages m) |>.

(** The integers fit their C++ types, at every level of nesting. *)
Inductive message_typed : Message -> Prop :=
  | typed m : in_int32 (limit m) -> in_uint64 (epoch m) -> in_int64 (logical_size m) ->
      in_int64 (chunk_size m) -> in_int64 (chunk_index m) -> Forall in_int64 (received_indexes m) ->
      Forall message_typed (messages m) -> message_typed m.

Lemma message_typed_inv m : message_typed m ->
  in_int32 (limit m) /\ in_uint64 (epoch m) /\ in_int64 (logical_size m) /\
  in_int64 (chunk_size m) /\ in_int64 (chunk_index m) /\ Forall in_int64 (received_indexes m) /\
  Forall message_typed (messages m).
Proof. by intros []. Qed.

Section RoundTrip.
  Context `{JsonCodecLaws}.

(** The message is well typed, [crypto] is the compact text of an object and the
    MLS payloads are base64. *)
Record wire_ok (m : Message) : Prop := {
  wk_typed : message_typed m;
  wk_crypto : crypto m = "" \/
    exists o, json_wf (JObj o) = true /\ json_dump (JObj o) = Ok (crypto m);
  wk_base64 : check_base64 m = Ok tt;
}.

Lemma read_opt_str s e : read_string_value (reparse <$> opt_str s) e = Ok s.
Proof. unfold opt_str. by destruct s. Qed.

Lemma read_opt_true b e : read_bool_value (reparse <$> opt_true b) e = Ok b.
Proof. by destruct b. Qed.

Lemma read_reparse_int wrap z e :
  wrap z = z -> read_integer_value wrap (Some (reparse (JInt z))) e = Ok z.
Proof. intros Hw. simpl. destruct (z <? 0); simpl; by rewrite Hw. Qed.

Lemma read_opt_int wrap z e :
  wrap z = z -> read_integer_value wrap (reparse <$> opt_int z) e = Ok z.
Proof.
  intros Hw. unfold opt_int. destruct (z =? 0) eqn:E; [bool_hyps; by subst |].
  by apply read_reparse_int.
Qed.

(** [read_array] over the serialized elements. *)
Lemma read_opt_arr {A B} object key (ser : A -> json) (read : json -> outcome B) (g : A -> B) l :
  member key object = reparse <$> opt_arr (map ser l) ->
  Forall (fun x => read (reparse (ser x)) = Ok (g x)) l ->
  read_array object key read = Ok (map g l).
Proof.
  intros Hm Hl. unfold read_array. rewrite Hm. destruct l as [| x l]; [done |].
  change (mapO read (map reparse (map ser (x :: l))) = Ok (map g (x :: l))).
  rewrite !mapO_map. by apply mapO_ok.
Qed.

Lemma message_keys_NoDup m c nested : NoDup ((message_fields m c nested).*1).
Proof. by apply (bool_decide_unpack _). Qed.

(** Every member of a serialized message, as the receiver sees it. *)
Lemma member_serialized k m c nested :
  member k (reparse (JObj (obj_build (message_fields m c nested)))) =
  reparse <$> field_of k (message_fields m c nested).
Proof.
  rewrite member_reparse. unfold member. f_equal.
  apply obj_get_build, message_keys_NoDup.
Qed.

Lemma read_user_detail_ok u : read_user_detail (reparse (serialize_user u)) = Ok u.
Proof. by destruct u. Qed.

Lemma read_room_detail_ok r : read_room_detail (reparse (serialize_room r)) = Ok r.
Proof. destruct r as [n [| c o] p g]; done. Qed.

(** An object whose members are those of a serialized message. *)
Definition carries (object : json) (m : Message) (c : option json) (nested : list json) : Prop :=
  forall k v, field_of k (message_fields m c nested) = v -> member k object = reparse <$> v.

Lemma carries_serialized m c nested :
  carries (reparse (JObj (obj_build (message_fields m c nested)))) m c nested.
Proof. intros k v <-. apply member_serialized. Qed.

Lemma carries_string object m c n key s error :
  carries object m c n -> field_of key (message_fields m c n) = opt_str s ->
  read_string_value (member key object) error = Ok s.
Proof. intros Hm Hf. rewrite (Hm _ _ Hf). apply read_opt_str. Qed.

Lemma carries_bool object m c n key b error :
  carries object m c n -> field_of key (message_fields m c n) = opt_true b ->
  read_bool object key error = Ok b.
Proof. intros Hm Hf. unfold read_bool. rewrite (Hm _ _ Hf). apply read_opt_true. Qed.

Lemma carries_int64 object m c n key z :
  carries object m c n -> field_of key (message_fields m c n) = opt_int z -> in_int64 z ->
  read_int64 object key = Ok z.
Proof. intros Hm Hf Hz. unfold read_int64. rewrite (Hm _ _ Hf). by apply read_opt_int, wrap64_id. Qed.

(** One reader of a chain of readers: compute the field it asks for and apply
    the lemma for its kind. *)
Ltac read_step Hm :=
  eapply outcome_bind_ok;
  [ match type of Hm with
    | carries ?object ?m ?c ?n =>
        let field k := eval cbv [field_of message_fields String.eqb Ascii.eqb Bool.eqb]
                         in (field_of k (message_fields m c n)) in
        lazymatch goal with
        | |- read_string _ ?k = _ =>
            let v := field k in
            match v with opt_str ?s => exact (carries_string object m c n k s _ Hm eq_refl) end
        | |- read_nested_string _ ?k = _ =>
            let v := field k in
            match v with opt_str ?s => exact (carries_string object m c n k s _ Hm eq_refl) end
        | |- read_bool _ ?k ?e = _ =>
            let v := field k in
            match v with opt_true ?b => exact (carries_bool object m c n k b e Hm eq_refl) end
        | |- read_int64 _ ?k = _ =>
            let v := field k in
            match v with opt_int ?z => exact (carries_int64 object m c n k z Hm eq_refl ltac:(done)) end
        end
    end
  | cbv beta ].

(** A serialized message is the object of its fields. *)
Lemma serialize_inv m j :
  serialize m = Ok j ->
  exists c nested, crypto_value m = Ok c /\ mapO serialize (messages m) = Ok nested /\
    j = JObj (obj_build (message_fields m c nested)).
Proof.
  destruct m. simpl. intros Hs. unfold outcome_bind in Hs. break_hyp Hs. inv Hs. eauto.
Qed.

Lemma read_nested_ok n j : serialize n = Ok j -> read_nested (reparse j) = Ok (nested_view n).
Proof.
  intros (c & l & _ & _ & ->)%serialize_inv.
  pose proof (carries_serialized n c l) as Hm.
  set (object := reparse _) in *. assert (is_object object = true) as Ho by done. clearbody object.
  unfold read_nested. rewrite Ho.
  eapply outcome_bind_ok; [unfold read_nested_string; by rewrite (Hm "type" _ eq_refl) | cbv beta].
  repeat read_step Hm. done.
Qed.

Lemma read_messages_ok object ms nested :
  member "messages" object = reparse <$> opt_arr nested ->
  mapO serialize ms = Ok nested ->
  read_array object "messages" read_nested = Ok (map nested_view ms).
Proof.
  intros Hm Hs. apply mapO_inv in Hs. unfold read_array. rewrite Hm.
  destruct Hs as [| m j ms nested Hj Hs]; [done |]. simpl.
  rewrite (read_nested_ok _ _ Hj). simpl.
  enough (mapO read_nested (map reparse nested) = Ok (map nested_view ms)) as -> by done.
  clear Hm Hj. induction Hs as [| m' j' ms nested Hj Hs IH]; simpl; [done |].
  by rewrite (read_nested_ok _ _ Hj), IH.
Qed.

Lemma read_crypto_ok object m c :
  member "crypto" object = reparse <$> c -> crypto_value m = Ok c ->
  crypto m = "" \/ (exists o, json_wf (JObj o) = true /\ json_dump (JObj o) = Ok (crypto m)) ->
  read_crypto object = Ok (crypto m).
Proof.
  intros Hm Hc Hok. unfold read_crypto, crypto_value in *. rewrite Hm.
  destruct Hok as [E | (o & Hw & Hd)].
  - rewrite E in *. simpl in Hc. inv Hc. done.
  - destruct (is_empty (crypto m)) eqn:Ee.
    + apply is_empty_true in Ee. by apply json_dump_nonempty in Hd.
    + rewrite (json_parse_dump _ _ Hw Hd) in Hc.
      injection Hc as <-. rewrite <- (json_dump_reparse _ Hw) in Hd.
      change (match reparse (reparse (JObj o)) with
              | JObj o0 => match json_dump (JObj o0) with
                           | Ok text => Ok text
                           | Fail what => Fail ("JSON parse failed: " +:+ what)
                           end
              | _ => Fail "crypto is not an object"
              end = Ok (crypto m)).
      rewrite reparse_idem. simpl in Hd |- *. by rewrite Hd.
Qed.

Lemma read_limit_ok object m c n :
  carries object m c n -> in_int32 (limit m) -> read_limit object = Ok (Z.max 0 (limit m)).
Proof.
  intros Hm Hl. unfold read_limit. rewrite (Hm "limit" (limit_field m) eq_refl).
  unfold limit_field. destruct (0 <? limit m) eqn:E; bool_hyps.
  - rewrite Z.max_r by lia. by apply read_reparse_int, wrap32_id.
  - simpl. f_equal. lia.
Qed.

Lemma read_epoch_ok object m c n : carries object m c n -> read_epoch object = Ok (epoch m).
Proof.
  intros Hm. unfold read_epoch. rewrite (Hm "epoch" (epoch_field m) eq_refl).
  unfold epoch_field. destruct (epoch m =? 0) eqn:E; bool_hyps; simpl; congruence.
Qed.

Lemma read_chunk_index_ok object m c n :
  carries object m c n -> in_int64 (chunk_index m) ->
  read_int64 object "chunk_index" = Ok (chunk_index m).
Proof.
  intros Hm Hi. unfold read_int64. rewrite (Hm "chunk_index" (chunk_index_field m) eq_refl).
  unfold chunk_index_field. destruct (_ || _) eqn:E.
  - by apply read_reparse_int, wrap64_id.
  - bool_hyps. by match goal with H : chunk_index m = 0 |- _ => rewrite H end.
Qed.

Lemma read_bitmap_ok object m c n : carries object m c n -> read_bitmap object = Ok [].
Proof. intros Hm. unfold read_bitmap. by rewrite (Hm "received_bitmap" None eq_refl). Qed.

(** The list members, read back. *)
Lemma read_lists_ok object m c nested :
  carries object m c nested ->
  Forall in_int64 (received_indexes m) -> mapO serialize (messages m) = Ok nested ->
  read_array object "received_indexes" read_index = Ok (received_indexes m) /\
  read_array object "users" read_user_name = Ok (users m) /\
  read_array object "rooms" read_room_name = Ok (rooms m) /\
  read_array object "user_details" read_user_detail = Ok (user_details m) /\
  read_array object "room_details" read_room_detail = Ok (room_details m) /\
  read_array object "messages" read_nested = Ok (map nested_view (messages m)).
Proof.
  intros Hc Hi Hn.
  rewrite <- (map_id (received_indexes m)), <- (map_id (users m)), <- (map_id (rooms m)),
    <- (map_id (user_details m)), <- (map_id (room_details m)).
  split_and!.
  - apply (read_opt_arr _ _ JInt); [by apply Hc |].
    eapply Forall_impl; [exact Hi |]. intros z Hz. by apply read_reparse_int, wrap64_id.
  - apply (read_opt_arr _ _ JStr); [by apply Hc |]. by apply Forall_true.
  - apply (read_opt_arr _ _ JStr); [by apply Hc |]. by apply Forall_true.
  - apply (read_opt_arr _ _ serialize_user); [by apply Hc |].
    apply Forall_true, read_user_detail_ok.
  - apply (read_opt_arr _ _ serialize_room); [by apply Hc |].
    apply Forall_true, read_room_detail_ok.
  - apply (read_messages_ok _ _ nested); [by apply Hc | done].
Qed.

(** The base64 check only looks at members that survive the wire. *)
Lemma check_base64_view m m' :
  type m = type m' -> key_package m = key_package m' -> commit m = commit m' ->
  proposal m = proposal m' -> welcome m = welcome m' -> check_base64 m = check_base64 m'.
Proof. intros Ht Hk Hc Hp Hw. unfold check_base64. by rewrite Ht, Hk, Hc, Hp, Hw. Qed.

Lemma read_message_serialized m j :
  serialize m = Ok j -> wire_ok m -> read_message (reparse j) = Ok (wire_view m).
Proof.
  intros (c & nested & Hc & Hn & ->)%serialize_inv Hok.
  pose proof (carries_serialized m c nested) as Hm.
  generalize dependent (reparse (JObj (obj_build (message_fields m c nested)))).
  intros object Hm. destruct Hok as [Ht Hcr H64].
  apply message_typed_inv in Ht as (Hl & He & Hs & Hk & Hi & Hx & _).
  destruct (read_lists_ok object m c nested) as (E1 & E2 & E3 & E4 & E5 & E6); [done .. |].
  unfold read_message. rewrite (Hm "type" (Some (JStr (type m))) eq_refl).
  change (reparse <$> Some (JStr (type m))) with (Some (JStr (type m))). cbv iota.
  repeat read_step Hm.
  eapply outcome_bind_ok; [by apply (read_limit_ok object m c nested) | cbv beta].
  eapply outcome_bind_ok; [by apply (read_epoch_ok object m c nested) | cbv beta].
  repeat read_step Hm.
  eapply outcome_bind_ok; [by apply (read_chunk_index_ok object m c nested) | cbv beta].
  eapply outcome_bind_ok; [by apply (read_crypto_ok object m c); [apply Hm | |] | cbv beta].
  eapply outcome_bind_ok; [by apply (read_bitmap_ok object m c nested) | cbv beta].
  do 6 (eapply outcome_bind_ok; [eassumption | cbv beta]).
  eapply outcome_bind_ok; [| reflexivity].
  rewrite (check_base64_view _ m) by done. done.
Qed.

(** Serialized messages are values the library can hold. *)
Lemma opt_str_wf s v : opt_str s = Some v -> json_wf v = true.
Proof. unfold opt_str. destruct s; simpl; [done |]. by intros [= <-]. Qed.

Lemma opt_true_wf b v : opt_true b = Some v -> json_wf v = true.
Proof. destruct b; simpl; [| done]. by intros [= <-]. Qed.

Lemma int_wf z : in_int64 z -> json_wf (JInt z) = true.
Proof. intros [? ?]. simpl. apply andb_true_iff. split; by apply Z.leb_le. Qed.

Lemma opt_int_wf z v : in_int64 z -> opt_int z = Some v -> json_wf v = true.
Proof. intros Hz. unfold opt_int. destruct (z =? 0); [done |]. intros [= <-]. by apply int_wf. Qed.

Lemma opt_arr_wf l v :
  Forall (fun j => json_wf j = true) l -> opt_arr l = Some v -> json_wf v = true.
Proof.
  intros Hl. unfold opt_arr. destruct l as [| j l]; [done |]. intros [= <-].
  by apply forallb_Forall.
Qed.

Lemma arr_map_wf {A} (f : A -> json) (l : list A) :
  (forall x, x ∈ l -> json_wf (f x) = true) -> Forall (fun j => json_wf j = true) (map f l).
Proof.
  intros Hf. apply Forall_forall. intros j Hj. apply list_elem_of_In, in_map_iff in Hj as (x & <- & Hx).
  by apply Hf, list_elem_of_In.
Qed.

Lemma obj_wf fields :
  Forall (fun kv => forall v, kv.2 = Some v -> json_wf v = true) fields ->
  json_wf (JObj (obj_build fields)) = true.
Proof.
  intros Hf. simpl. rewrite obj_build_sorted. simpl. apply forallb_Forall.
  by apply (obj_build_values (fun j => json_wf j = true)).
Qed.

Lemma some_wf j v : json_wf j = true -> Some j = Some v -> json_wf v = true.
Proof. by intros Hj [= <-]. Qed.

Lemma serialize_user_wf u : json_wf (serialize_user u) = true.
Proof. apply obj_wf. repeat constructor; simpl; intros v; by apply some_wf. Qed.

Lemma serialize_room_wf r : json_wf (serialize_room r) = true.
Proof.
  apply obj_wf. repeat constructor; simpl; intros v; try (by apply some_wf). apply opt_str_wf.
Qed.

Lemma message_nested_ind (P : Message -> Prop) :
  (forall m, Forall P (messages m) -> P m) -> forall m, P m.
Proof.
  intros Hstep. fix IH 1. intros m. apply Hstep. destruct m; simpl.
  match goal with |- Forall P ?l => induction l as [| n l IHl] end; constructor; [apply IH | apply IHl].
Qed.

Lemma serialize_wf m j : message_typed m -> serialize m = Ok j -> json_wf j = true.
Proof.
  revert j. induction m as [m IH] using message_nested_ind. intros j Ht Hs.
  destruct (serialize_inv _ _ Hs) as (c & nested & Hc & Hn & ->).
  apply message_typed_inv in Ht as (Hl & He & Hlog & Hk & Hi & Hx & Hms).
  assert (Forall (fun j => json_wf j = true) nested) as Hnested.
  { apply mapO_inv in Hn. clear -IH Hn Hms. induction Hn as [| x y l l' Hxy _ IHl]; [constructor |].
    inv IH. inv Hms. constructor; eauto. }
  assert (forall v, c = Some v -> json_wf v = true) as Hcw.
  { intros v ->. unfold crypto_value in Hc. destruct (is_empty (crypto m)); [done |].
    apply outcome_bind_inv in Hc as (j & Hp & [= ->]). by apply json_parse_wf in Hp. }
  assert (forall v, limit_field m = Some v -> json_wf v = true) as Hlim.
  { intros v. unfold limit_field. destruct (0 <? limit m); [| done].
    apply some_wf, int_wf. unfold in_int32, in_int64, INT32_MAX, INT64_MAX in *. lia. }
  assert (forall v, epoch_field m = Some v -> json_wf v = true) as Hep.
  { intros v. unfold epoch_field. destruct (epoch m =? 0); [done |].
    apply some_wf. simpl. apply andb_true_iff. split; apply Z.leb_le; unfold in_uint64 in *; lia. }
  assert (forall v, chunk_index_field m = Some v -> json_wf v = true) as Hci.
  { intros v. unfold chunk_index_field. destruct (_ || _); [| done]. by apply some_wf, int_wf. }
  assert (forall l, (forall z, z ∈ l -> in_int64 z) -> Forall (fun j => json_wf j = true) (map JInt l)) as Hints.
  { intros l Hz. apply arr_map_wf. intros z ?. by apply int_wf, Hz. }
  rewrite Forall_forall in Hx.
  apply obj_wf. unfold message_fields.
  repeat (apply List.Forall_cons; [simpl snd; intros v; first
    [ apply opt_str_wf | apply opt_true_wf | by apply Hcw | by apply Hlim | by apply Hep | by apply Hci
    | by apply opt_int_wf | by apply some_wf | by apply opt_arr_wf
    | solve [apply opt_arr_wf, arr_map_wf; auto using serialize_user_wf, serialize_room_wf]
    | by apply opt_arr_wf, Hints ] |]).
  apply List.Forall_nil.
Qed.

Lemma parse_message_dump m j text :
  wire_ok m -> serialize m = Ok j -> json_dump j = Ok text -> parse_message text = Ok (wire_view m).
Proof.
  intros Hok Hs Hd. unfold parse_message.
  rewrite (json_parse_dump j) by (done || by eapply serialize_wf; [apply Hok |]).
  by apply read_message_serialized.
Qed.

Lemma bytes_of_valid text :
  text <> "" -> size text <= kMaxMessageSize -> valid_payload (bytes_of text).
Proof.
  intros Hne Hs. unfold valid_payload. rewrite length_bytes_of. split; [| done].
  unfold size. destruct text; [done |]. simpl. lia.
Qed.

End RoundTrip.

(** ** Properties *)


(** [message_typed] of a concrete message, one level of nesting at a time. *)
Ltac typed_example :=
  apply typed; cbn -[in_int32 in_int64 in_uint64];
  repeat first [ apply Forall_nil; exact I | apply Forall_cons; split ];
  try (unfold in_int32, in_int64, in_uint64, INT32_MAX, INT64_MAX, UINT64_MAX; lia).

Definition ex_message : Message :=
  empty_message <| type := "attachment.chunk" |> <| upload_id := "u1" |> <| password := "secret" |>
    <| limit := -3 |> <| chunk_size := 48128 |> <| user_details := [mk_user "Bob" "B1" "lobby" true] |>
    <| received_indexes := [0; 7] |> <| messages := [empty_message <| type := "chat" |> <| content := "hi" |>] |>.

Definition ex_text : string :=
  match serialize ex_message with Ok j => match json_dump j with Ok t => t | _ => "" end | _ => "" end.

Definition ex_pipe (bs : list byte) (f : list nat) : mstate pipe :=
  mk_mstate (mk_io {| out := []; inbox := bs; frag := f |} "") "".

