(* ===== verification/Command.v ===== *)
(** * Command: the slash commands of the console client

    Models client-cpp/include/command.hpp and client-cpp/src/command.cpp.  The
    parsers work on positions in the input, as the code does; the theorems
    compare them with grammars of the accepted lines. *)

From S2P Require Import Prelude Text.
From Stdlib Require Import Ascii.

(** ** Data *)

Record PrivateMessageCommand := mk_private {
  target_name : string;
  target_user_code : string;
  pm_content : string;
}.

Record RoomCommand := mk_room_command { room_name : string }.

(** ** Helpers *)

Definition char_at (s : string) (n : nat) : option ascii := String.get n s.

Definition is_command_prefix (input : string) : bool :=
  (4 <=? size input) && String.eqb (take_str 4 input) "/msg".

Definition is_valid_code (value : string) : bool :=
  if is_empty value then false else string_forall isalnum value.

Definition kMaxRoomNameLength : Z := 32.

Definition is_valid_room_name (name : string) : bool :=
  if is_empty name || (kMaxRoomNameLength <? size name) then false
  else string_forall (fun c => isalnum c || Ascii.eqb c "_") name.

(** The number of leading white space characters. *)
Fixpoint spaces (s : string) : nat :=
  match s with
  | String c s' => if isspace c then S (spaces s') else 0
  | "" => 0
  end.

Definition skip_spaces (input : string) (position : nat) : nat :=
  (position + spaces (drop_str position input))%nat.

(** The characters of [find_first_of(" \t\r\n")]. *)
Definition is_blank (c : ascii) : bool :=
  Ascii.eqb c " " || Ascii.eqb c "009" || Ascii.eqb c "013" || Ascii.eqb c "010".

(** ** Commands *)

Definition is_private_message_command (input : string) : bool :=
  String.eqb input "/msg" ||
  (is_command_prefix input && (4 <? size input) &&
   match char_at input 4 with Some c => isspace c | None => false end).

Definition is_hash (c : ascii) : bool := Ascii.eqb c "#".

Definition parse_private_message (input : string) : option PrivateMessageCommand :=
  if negb (is_private_message_command input) then None
  else
    let target_begin := skip_spaces input 5 in
    if size input <=? Z.of_nat target_begin then None
    else
      let target_end := find_first is_blank target_begin input in
      let target_length :=
        match target_end with
        | None => String.length input - target_begin
        | Some stop => stop - target_begin
        end%nat in
      let target := substr target_begin target_length input in
      if is_empty target then None
      else match find_first is_hash 0 target with
           | None => None
           | Some separator =>
               if (separator =? 0)%nat || (String.length target <=? separator + 1)%nat
                  || bool_decide (is_Some (find_first is_hash (separator + 1) target))
               then None
               else
                 let name := substr 0 separator target in
                 let user_code := drop_str (separator + 1) target in
                 if negb (is_valid_code user_code) then None
                 else match target_end with
                      | None => None
                      | Some stop =>
                          let content_begin := skip_spaces input stop in
                          if (content_begin =? String.length input)%nat then None
                          else Some (mk_private name user_code (drop_str content_begin input))
                      end
           end.

Definition is_rooms_command (input : string) : bool := String.eqb input "/rooms".
Definition is_leave_command (input : string) : bool := String.eqb input "/leave".

Definition is_join_command (input : string) : bool :=
  String.eqb input "/join" || ((6 <? size input) && String.eqb (take_str 6 input) "/join ").

Definition parse_join_command (input : string) : option RoomCommand :=
  if negb (is_join_command input) then None
  else
    let room_begin := skip_spaces input 5 in
    if size input <=? Z.of_nat room_begin then None
    else
      let room_end := find_first is_blank room_begin input in
      let name :=
        substr room_begin
          (match room_end with
           | None => String.length input - room_begin
           | Some stop => stop - room_begin
           end)%nat input in
      if bool_decide (is_Some room_end) || negb (is_valid_room_name name) then None
      else Some (mk_room_command name).

(** ** White space *)

Lemma spaces_split s : exists w t, s = w +:+ t /\ String.length w = spaces s /\
  string_forall isspace w = true /\ spaces t = 0%nat.
Proof.
  induction s as [| c s (w & t & E & Hl & Hw & Ht)]; [by exists "", "" |].
  cbn [spaces]. destruct (isspace c) eqn:Ec.
  - exists (String c w), t. cbn. rewrite Ec, Hw, Hl. by subst s.
  - exists "", (String c s). cbn. by rewrite Ec.
Qed.

Lemma spaces_app w t : string_forall isspace w = true -> spaces t = 0%nat ->
  spaces (w +:+ t) = String.length w.
Proof.
  intros Hw Ht. induction w as [| c w IH]; [done |]. cbn in Hw |- *.
  apply andb_true_iff in Hw as [-> Hw]. by rewrite IH.
Qed.

Lemma spaces_all w : string_forall isspace w = true -> spaces w = String.length w.
Proof. intros Hw. rewrite <- (str_app_nil_r w) at 1. by apply spaces_app. Qed.

Lemma blank_is_space c : is_blank c = true -> isspace c = true.
Proof.
  unfold is_blank. intros H. bool_hyps. destruct H as [H | H]; [bool_hyps; destruct H as [H | H];
    [bool_hyps; destruct H as [H | H] |] |]; apply Ascii.eqb_eq in H; by subst.
Qed.

Lemma alnum_not_blank c : isalnum c = true -> is_blank c = false.
Proof. intros H. destruct (is_blank c) eqn:E; [| done]. apply blank_is_space in E. by destruct c as [[][][][][][][][]]. Qed.

(** ** Positions relative to a prefix *)

Lemma drop_str_past pre t k : drop_str (String.length pre + k) (pre +:+ t) = drop_str k t.
Proof. rewrite <- drop_str_drop, drop_str_app. done. Qed.

Lemma find_first_past p pre t :
  find_first p (String.length pre) (pre +:+ t) = (fun i => String.length pre + i)%nat <$> find_from p 0 t.
Proof. unfold find_first. rewrite drop_str_app. apply find_from_base. Qed.

Lemma skip_spaces_past pre t k :
  skip_spaces (pre +:+ t) (String.length pre + k) = (String.length pre + (k + spaces (drop_str k t)))%nat.
Proof. unfold skip_spaces. rewrite drop_str_past. lia. Qed.

(** ** The private message grammar *)

(** [/msg], white space, a name without [#], [#], an alphanumeric code, white
    space that starts with a blank, and a text. *)
Inductive private_line : string -> PrivateMessageCommand -> Prop :=
  | private_line_intro c0 w1 n u b w2 m :
      isspace c0 = true -> string_forall isspace w1 = true ->
      n <> "" -> spaces n = 0%nat ->
      string_forall (fun c => negb (is_hash c)) n = true ->
      string_forall (fun c => negb (is_blank c)) n = true ->
      is_valid_code u = true -> is_blank b = true -> string_forall isspace w2 = true ->
      m <> "" -> spaces m = 0%nat ->
      private_line ("/msg" +:+ String c0 (w1 +:+ n +:+ String "#" (u +:+ String b (w2 +:+ m))))
        (mk_private n u m).

(** The part of the parser that follows the white space. *)
Definition parse_target (t : string) : option PrivateMessageCommand :=
  match find_from is_blank 0 t with
  | None => None
  | Some stop =>
      let target := take_str stop t in
      match find_from is_hash 0 target with
      | None => None
      | Some separator =>
          if (separator =? 0)%nat || (String.length target <=? separator + 1)%nat
             || bool_decide (is_Some (find_first is_hash (separator + 1) target))
          then None
          else if negb (is_valid_code (drop_str (separator + 1) target)) then None
          else
            let content := drop_str (stop + spaces (drop_str stop t)) t in
            if is_empty content then None
            else Some (mk_private (take_str separator target) (drop_str (separator + 1) target) content)
      end
  end.

Lemma is_empty_drop k t : is_empty (drop_str k t) = (String.length t <=? k)%nat.
Proof.
  revert k. induction t as [| c t IH]; intros [| k]; try done. apply IH.
Qed.

Lemma parse_private_message_target c0 w t :
  isspace c0 = true -> string_forall isspace w = true -> spaces t = 0%nat -> t <> "" ->
  parse_private_message ("/msg" +:+ String c0 (w +:+ t)) = parse_target t.
Proof.
  intros Hc Hw Ht Hne. set (pre := "/msg" +:+ String c0 w).
  assert ("/msg" +:+ String c0 (w +:+ t) = pre +:+ t) as Ei by (subst pre; cbn; done).
  assert (String.length pre = 5 + String.length w)%nat as Hpl by done.
  unfold parse_private_message.
  assert (is_private_message_command ("/msg" +:+ String c0 (w +:+ t)) = true) as ->.
  { unfold is_private_message_command, is_command_prefix. apply orb_true_iff. right.
    rewrite !andb_true_iff, Z.leb_le, Z.ltb_lt. unfold size. cbn. split_and!; try done; lia. }
  cbn [negb].
  assert (skip_spaces ("/msg" +:+ String c0 (w +:+ t)) 5 = String.length pre) as ->.
  { unfold skip_spaces. cbn. by rewrite spaces_app. }
  rewrite Ei. clearbody pre. clear Ei Hpl.
  assert (0 < String.length t)%nat by (destruct t; [done | cbn; lia]).
  rewrite (proj2 (Z.leb_gt _ _)) by (unfold size; rewrite str_length_app; lia).
  rewrite find_first_past. unfold parse_target. pose proof (find_from_spec is_blank t) as Hf.
  destruct (find_from is_blank 0 t) as [i |] eqn:Et; cbn [fmap option_fmap option_map].
  - replace (String.length pre + i - String.length pre)%nat with i by lia.
    assert (substr (String.length pre) i (pre +:+ t) = take_str i t) as -> by (unfold substr; by rewrite drop_str_app).
    assert (is_empty (take_str i t) = false) as ->.
    { destruct t as [| d t']; [done |]. destruct i; [| done]. cbn in Et, Ht.
      destruct (is_blank d) eqn:Eb; [| rewrite find_from_base in Et; by destruct (find_from _ _ _)].
      apply blank_is_space in Eb. by rewrite Eb in Ht. }
    unfold find_first at 1. cbn [drop_str]. destruct (find_from is_hash 0 (take_str i t)) as [k |] eqn:Eh; [| done].
    destruct (_ || _ || _)%bool; [done |]. destruct (negb _); [done |].
    rewrite skip_spaces_past, drop_str_past, is_empty_drop, str_length_app.
    unfold substr. cbn [drop_str].
    assert (i <= String.length t)%nat as Hi.
    { destruct Hf as (c & E & _). apply (f_equal String.length) in E.
      rewrite str_length_app, length_take_str_min in E. cbn in E. lia. }
    assert (spaces (drop_str i t) <= String.length (drop_str i t))%nat as Hsp.
    { destruct (spaces_split (drop_str i t)) as (a & b & E & <- & _). rewrite E.
      rewrite str_length_app. lia. }
    rewrite length_drop_str in Hsp.
    destruct (Nat.leb_spec (String.length t) (i + spaces (drop_str i t))),
      (Nat.eqb_spec (String.length pre + (i + spaces (drop_str i t))) (String.length pre + String.length t));
      try done; lia.
  - destruct (is_empty _); [done |]. destruct (find_first _ _ _); [| done].
    destruct (_ || _ || _)%bool; [done |]. by destruct (negb _).
Qed.

Lemma parse_target_line n u b w2 m :
  n <> "" -> string_forall (fun c => negb (is_hash c)) n = true ->
  string_forall (fun c => negb (is_blank c)) n = true ->
  is_valid_code u = true -> is_blank b = true -> string_forall isspace w2 = true ->
  m <> "" -> spaces m = 0%nat ->
  parse_target (n +:+ String "#" (u +:+ String b (w2 +:+ m))) = Some (mk_private n u m).
Proof.
  intros Hn Hh Hb Hu Hbl Hw Hm Hs. unfold parse_target.
  assert (u <> "" /\ string_forall isalnum u = true) as [Hune Hua].
  { unfold is_valid_code in Hu. destruct (is_empty u) eqn:E; [done |]. by apply is_empty_false in E. }
  assert (string_forall (fun c => negb (is_blank c)) (n +:+ String "#" u) = true) as Htb.
  { rewrite string_forall_app, Hb. cbn. eapply string_forall_impl; [| exact Hua].
    intros c Hc. by rewrite alnum_not_blank. }
  assert (n +:+ String "#" (u +:+ String b (w2 +:+ m)) = (n +:+ String "#" u) +:+ String b (w2 +:+ m)) as ->
    by by rewrite str_app_assoc.
  rewrite (find_from_app_stop is_blank _ b (w2 +:+ m) Htb Hbl), take_str_app. cbv zeta.
  rewrite (find_from_app_stop is_hash n "#" u Hh eq_refl).
  assert (String.length n <> 0%nat /\ String.length u <> 0%nat) as [Hnl Hul] by (destruct n, u; done).
  assert (drop_str (String.length n + 1) (n +:+ String "#" u) = u) as Hdu by by rewrite drop_str_past.
  unfold find_first. rewrite Hdu, take_str_app, Hu.
  rewrite (proj2 (Nat.eqb_neq _ _) Hnl), (proj2 (Nat.leb_gt _ _)) by (rewrite str_length_app; cbn; lia).
  rewrite find_from_base, find_from_none.
  2: { eapply string_forall_impl; [| exact Hua]. intros c Hc. apply negb_true_iff.
       apply Ascii.eqb_neq. by intros ->. }
  cbn [fmap option_fmap option_map negb orb bool_decide].
  rewrite drop_str_app.
  assert (spaces (String b (w2 +:+ m)) = S (String.length w2)) as ->.
  { cbn. by rewrite (blank_is_space b Hbl), spaces_app. }
  rewrite drop_str_past. cbn [drop_str]. rewrite drop_str_app, (proj2 (is_empty_false m) Hm). done.
Qed.

Lemma take_drop_length k s : (k <= String.length s)%nat ->
  s = take_str k s +:+ drop_str k s /\ String.length (take_str k s) = k.
Proof. intros Hk. by rewrite take_drop_str, length_take_str. Qed.

Lemma parse_target_inv t cmd : spaces t = 0%nat -> parse_target t = Some cmd ->
  exists n u b w2 m, t = n +:+ String "#" (u +:+ String b (w2 +:+ m)) /\ cmd = mk_private n u m /\
    n <> "" /\ spaces n = 0%nat /\ string_forall (fun c => negb (is_hash c)) n = true /\
    string_forall (fun c => negb (is_blank c)) n = true /\ is_valid_code u = true /\
    is_blank b = true /\ string_forall isspace w2 = true /\ m <> "" /\ spaces m = 0%nat.
Proof.
  intros Hs E. unfold parse_target in E.
  pose proof (find_from_spec is_blank t) as Hb. destruct (find_from is_blank 0 t) as [i |]; [| done].
  destruct Hb as (b & Et & Hbl & Hnb). set (target := take_str i t) in *. set (r := drop_str (S i) t) in *.
  assert (drop_str i t = String b r) as Hdi.
  { rewrite <- (take_drop_str i t) in Et at 1. by apply str_app_inj_l in Et. }
  pose proof (find_from_spec is_hash target) as Hh.
  destruct (find_from is_hash 0 target) as [k |]; [| done]. destruct Hh as (h & Eh & Hhash & Hnh).
  apply Ascii.eqb_eq in Hhash. subst h.
  destruct (_ || _ || _)%bool eqn:Eg; [done |].
  apply orb_false_iff in Eg as [[Hk0 _]%orb_false_iff _]. apply Nat.eqb_neq in Hk0.
  destruct (is_valid_code _) eqn:Eu; [| done]. cbn [negb] in E.
  rewrite Nat.add_1_r in *. set (n := take_str k target) in *. set (u := drop_str (S k) target) in *.
  rewrite Hdi in E. cbn [spaces] in E. rewrite (blank_is_space b Hbl) in E.
  destruct (spaces_split r) as (w2 & m & Er & Hl & Hw & Hm).
  assert (drop_str (i + S (spaces r)) t = m) as Hcm.
  { rewrite <- drop_str_drop, Hdi. cbn [drop_str]. rewrite <- Hl, Er. apply drop_str_app. }
  rewrite Hcm in E. destruct (is_empty m) eqn:Em; [done |]. injection E as <-.
  exists n, u, b, w2, m. split_and!; try done.
  - rewrite Et, Eh at 1. by rewrite str_app_assoc, Er.
  - intros Hn. apply (f_equal String.length) in Eh. unfold n in Hn.
    destruct k; [done |]. by destruct target.
  - destruct n as [| c n'] eqn:En; [done |]. rewrite Et, Eh in Hs. cbn in Hs |- *. by destruct (isspace c).
  - rewrite Eh in Hnb. rewrite string_forall_app in Hnb. by apply andb_true_iff in Hnb as [? _].
  - by apply is_empty_false.
Qed.

(** [parse_private_message] accepts exactly the lines of the grammar, and the
    name, the code and the text it returns are those of the line. *)
Theorem parse_private_message_iff input cmd :
  parse_private_message input = Some cmd <-> private_line input cmd.
Proof.
  split.
  - intros E. assert (is_private_message_command input = true) as Hp.
    { unfold parse_private_message in E. by destruct (is_private_message_command input). }
    assert (exists c0 r, input = "/msg" +:+ String c0 r /\ isspace c0 = true) as (c0 & r & -> & Hc).
    { unfold is_private_message_command in Hp. apply orb_true_iff in Hp as [Hp | Hp].
      - apply String.eqb_eq in Hp. by subst input.
      - unfold is_command_prefix in Hp. bool_hyps.
        destruct (char_at input 4) as [c |] eqn:Ec; [| done]. exists c, (drop_str 5 input).
        split; [| done]. destruct input as [| x1 [| x2 [| x3 [| x4 [| x5 s]]]]]; try done.
        cbn in *. by simplify_eq. }
    destruct (spaces_split r) as (w & t & -> & _ & Hw & Ht).
    destruct t as [| d t'] eqn:Et.
    { exfalso. rewrite str_app_nil_r in E, Hp. unfold parse_private_message in E. rewrite Hp in E.
      unfold skip_spaces in E. cbn [negb] in E.
      rewrite (proj2 (Z.leb_le _ _)) in E; [done |].
      unfold size. cbn. rewrite (spaces_all w) by done. lia. }
    rewrite <- Et in *. rewrite parse_private_message_target in E by (done || by rewrite Et).
    apply parse_target_inv in E as (n & u & b & w2 & m & -> & -> & ?); [| done].
    constructor; tauto.
  - intros [c0 w1 n u b w2 m Hc Hw Hn Hs Hh Hb Hu Hbl Hw2 Hm Hsm].
    rewrite parse_private_message_target; [by apply parse_target_line | done | done | |].
    + destruct n; [done |]. cbn in Hs |- *. by destruct (isspace a).
    + by destruct n.
Qed.

(** ** The join grammar *)

Lemma room_char_not_blank n : is_valid_room_name n = true ->
  n <> "" /\ string_forall (fun c => negb (is_blank c)) n = true /\ spaces n = 0%nat.
Proof.
  unfold is_valid_room_name. destruct (_ || _)%bool eqn:E; [done |].
  apply orb_false_iff in E as [E _]. apply is_empty_false in E. intros Hn.
  assert (string_forall (fun c => negb (isspace c)) n = true) as Hsp.
  { eapply string_forall_impl; [| exact Hn]. intros c Hc. by destruct c as [[][][][][][][][]]. }
  split_and!; [done | |].
  - eapply string_forall_impl; [| exact Hsp]. intros c Hc. destruct (is_blank c) eqn:Eb; [| done].
    apply blank_is_space in Eb. cbv beta in Hc. by rewrite Eb in Hc.
  - destruct n as [| c n]; [done |]. cbn in Hsp |- *. by destruct (isspace c).
Qed.

Lemma parse_join_command_target w t :
  string_forall isspace w = true -> spaces t = 0%nat -> t <> "" ->
  parse_join_command ("/join " +:+ w +:+ t) =
    (if bool_decide (is_Some (find_from is_blank 0 t)) || negb (is_valid_room_name t) then None
     else Some (mk_room_command t)).
Proof.
  intros Hw Ht Hne. set (pre := "/join " +:+ w).
  assert ("/join " +:+ w +:+ t = pre +:+ t) as Ei by (subst pre; cbn; done).
  assert (0 < String.length t)%nat as Htl by (destruct t; [done | cbn; lia]).
  unfold parse_join_command.
  assert (is_join_command ("/join " +:+ w +:+ t) = true) as ->.
  { unfold is_join_command. apply orb_true_iff. right. rewrite andb_true_iff, Z.ltb_lt.
    unfold size. cbn. rewrite str_length_app. split; [lia | done]. }
  cbn [negb].
  assert (skip_spaces ("/join " +:+ w +:+ t) 5 = String.length pre) as ->.
  { unfold skip_spaces. cbn. by rewrite spaces_app. }
  rewrite Ei. clearbody pre. clear Ei.
  rewrite (proj2 (Z.leb_gt _ _)) by (unfold size; rewrite str_length_app; lia).
  rewrite find_first_past. destruct (find_from is_blank 0 t) as [i |]; [done |].
  cbn [fmap option_fmap option_map]. unfold substr. rewrite drop_str_app, str_length_app.
  replace (String.length pre + String.length t - String.length pre)%nat with (String.length t) by lia.
  by rewrite take_str_all.
Qed.

(** [parse_join_command] accepts exactly [/join], a blank, white space and a
    room name of 1 to 32 letters, digits and underscores with nothing after it. *)
Theorem parse_join_command_iff input r :
  parse_join_command input = Some r <->
  exists w, input = "/join " +:+ w +:+ room_name r /\ string_forall isspace w = true /\
    is_valid_room_name (room_name r) = true.
Proof.
  split.
  - intros E. assert (is_join_command input = true) as Hj.
    { unfold parse_join_command in E. by destruct (is_join_command input). }
    assert (exists s, input = "/join " +:+ s) as [s ->].
    { unfold is_join_command in Hj. apply orb_true_iff in Hj as [Hj | Hj].
      - apply String.eqb_eq in Hj. by subst input.
      - bool_hyps. exists (drop_str 6 input).
        rewrite <- (take_drop_str 6 input) at 1. by rewrite H0. }
    destruct (spaces_split s) as (w & t & -> & _ & Hw & Ht).
    destruct t as [| d t'] eqn:Et.
    { exfalso. rewrite str_app_nil_r in E, Hj. unfold parse_join_command in E. rewrite Hj in E.
      unfold skip_spaces in E. cbn [negb] in E. rewrite (proj2 (Z.leb_le _ _)) in E; [done |].
      unfold size. cbn. rewrite (spaces_all w) by done. change (isspace " ") with true. cbv iota. lia. }
    rewrite <- Et in *. rewrite parse_join_command_target in E by (done || by rewrite Et).
    destruct (_ || _)%bool eqn:Eg; [done |]. injection E as <-. bool_hyps. by exists w.
  - intros (w & -> & Hw & Hv). destruct (room_char_not_blank _ Hv) as (Hne & Hb & Hs).
    rewrite parse_join_command_target by done. rewrite (find_from_none _ _ Hb), Hv. by destruct r.
Qed.

Lemma parse_private_message_example :
  parse_private_message "/msg  Bob#B2 hello  there" = Some (mk_private "Bob" "B2" "hello  there").
Proof. reflexivity. Qed.
