(* ===== verification/Auth.v ===== *)
(** * Auth: the command line of the console client

    Models client-cpp/include/auth.hpp and client-cpp/src/auth.cpp.  The random
    device behind the guest code is a parameter [draw]: the index drawn for
    each of the six characters. *)

From S2P Require Import Prelude Text Protocol Json Message.
From Stdlib Require Import Ascii.

Record ClientOptions := mk_options {
  server_ip : string;
  server_port : Z;
  opt_username : string;
  opt_user_code : string;
  ca_file : string;
  guest_mode : bool;
  host_mode : bool;
  server_exe : string;
  cert_file : string;
  key_file : string;
}.

#[export] Instance eta_ClientOptions : EtaRecord ClientOptions := fun o =>
  {| server_ip := server_ip o; server_port := server_port o; opt_username := opt_username o;
     opt_user_code := opt_user_code o; ca_file := ca_file o; guest_mode := guest_mode o;
     host_mode := host_mode o; server_exe := server_exe o; cert_file := cert_file o;
     key_file := key_file o |}.

Definition default_options : ClientOptions :=
  mk_options "127.0.0.1" 8888 "Alice" "ALICE001" "" false false
    "..\server-go\chat-server.exe" "..\certs\server.crt" "..\certs\server.key".

(** ** Numbers *)

(** The longest prefix of digits, and what follows it. *)
Fixpoint digit_prefix (s : string) : string * string :=
  match s with
  | String c s' =>
      if is_digit c then let '(d, r) := digit_prefix s' in (String c d, r) else ("", s)
  | "" => ("", "")
  end.

(** [std::from_chars] for [int], base 10: the value and the unread rest, or
    [None] for [invalid_argument] and [result_out_of_range]. *)
Definition from_chars (s : string) : option (Z * string) :=
  let '(sign, body) := match s with String "-" r => (-1, r) | _ => (1, s) end in
  let '(digits, rest) := digit_prefix body in
  let value := sign * dec_value 0 digits in
  if is_empty digits then None
  else if (value <? - INT32_MAX - 1) || (INT32_MAX <? value) then None
  else Some (value, rest).

Definition parse_port (value : string) : option Z :=
  if is_empty value then None
  else match from_chars value with
       | None => None
       | Some (parsed, rest) =>
           if negb (is_empty rest) || (parsed <? 1) || (65535 <? parsed) then None else Some parsed
       end.

(** ** The guest code *)

Definition alphabet : string := "ABCDEFGHJKLMNPQRSTUVWXYZ23456789".

Definition alphabet_char (i : nat) : ascii := default "000"%char (String.get i alphabet).

Fixpoint guest_suffix (draw : nat -> nat) (index n : nat) : string :=
  match n with
  | O => ""
  | S n' => String (alphabet_char (draw index)) (guest_suffix draw (S index) n')
  end.

Definition make_guest_code (draw : nat -> nat) : string := "GUEST" +:+ guest_suffix draw 0 6.

(** ** Arguments *)

(** [take_value]: the value and the arguments after it. *)
Definition take_value (rest : list string) (option : string) : outcome (string * list string) :=
  match rest with
  | value :: rest' =>
      if is_empty value then Fail (option +:+ " requires a non-empty value.") else Ok (value, rest')
  | [] => Fail (option +:+ " requires a non-empty value.")
  end.

Definition starts_with_dash (argument : string) : bool :=
  match argument with String c _ => Ascii.eqb c "-" | "" => false end.

Definition positional (o : ClientOptions) (n : nat) (argument : string) : outcome ClientOptions :=
  match n with
  | 0%nat => Ok (o <| server_ip := argument |>)
  | 1%nat => match parse_port argument with
             | Some port => Ok (o <| server_port := port |>)
             | None => Fail "Invalid port."
             end
  | 2%nat => Ok (o <| opt_username := argument |>)
  | 3%nat => Ok (o <| opt_user_code := argument |>)
  | _ => Fail "Too many positional arguments."
  end.

(** The loop over the arguments, with the options so far and the number of
    positional arguments seen; the value of an option is consumed with it. *)
Fixpoint parse_loop (fuel : nat) (args : list string) (o : ClientOptions) (count : nat)
    : outcome (ClientOptions * nat) :=
  match fuel, args with
  | _, [] | O, _ => Ok (o, count)
  | S fuel', argument :: rest =>
      let valued (name : string) (set : string -> ClientOptions) :=
        do! vr <- take_value rest name; parse_loop fuel' (snd vr) (set (fst vr)) count in
      if String.eqb argument "--guest"
      then parse_loop fuel' rest (o <| guest_mode := true |> <| opt_user_code := "" |>) count
      else if String.eqb argument "--host"
      then parse_loop fuel' rest (o <| host_mode := true |> <| guest_mode := true |> <| opt_user_code := "" |>) count
      else if String.eqb argument "--ca-file" then valued "--ca-file" (fun v => o <| ca_file := v |>)
      else if String.eqb argument "--server-exe" then valued "--server-exe" (fun v => o <| server_exe := v |>)
      else if String.eqb argument "--cert" then valued "--cert" (fun v => o <| cert_file := v |>)
      else if String.eqb argument "--key" then valued "--key" (fun v => o <| key_file := v |>)
      else if starts_with_dash argument then Fail ("Unknown option: " +:+ argument)
      else do! o1 <- positional o count argument; parse_loop fuel' rest o1 (S count)
  end.

Definition finish_options (draw : nat -> nat) (o : ClientOptions) (count : nat) : outcome ClientOptions :=
  do! o1 <-
    (if host_mode o then
       match count with
       | 0%nat => Ok (o <| opt_username := "Host" |> <| server_port := 8888 |>)
       | 1%nat => Ok (o <| opt_username := server_ip o |> <| server_ip := "127.0.0.1" |> <| server_port := 8888 |>)
       | _ => Fail "Host mode accepts only an optional username."
       end
     else if guest_mode o then
       if negb (count =? 3)%nat then Fail "Guest mode requires: --guest server-ip port username" else Ok o
     else if (count <? 4)%nat then Fail "Server mode requires: server-ip port username user-code" else Ok o);
  Ok (if guest_mode o1 && is_empty (opt_user_code o1)
      then o1 <| opt_user_code := make_guest_code draw |> else o1).

Definition parse_arguments (draw : nat -> nat) (args : list string) : outcome ClientOptions :=
  do! oc <- parse_loop (length args) args default_options 0;
  finish_options draw (fst oc) (snd oc).

Definition make_login_message (o : ClientOptions) : Message :=
  empty_message <| type := "login" |> <| username := opt_username o |> <| user_code := opt_user_code o |>.

(** ** Ports *)

Lemma digit_prefix_all s : string_forall is_digit s = true -> digit_prefix s = (s, "").
Proof.
  induction s as [| c s IH]; cbn; [done |]. rewrite andb_true_iff. intros [-> Hs]. by rewrite IH.
Qed.

Lemma digit_prefix_rest s d : digit_prefix s = (d, "") -> d = s /\ string_forall is_digit s = true.
Proof.
  revert d. induction s as [| c s IH]; cbn; intros d E; [by injection E as <- |].
  destruct (is_digit c); [| done]. destruct (digit_prefix s) as [d' r]. injection E as <- ->.
  destruct (IH d' eq_refl) as [-> ->]. done.
Qed.

Lemma dec_value_nonneg s acc : string_forall is_digit s = true -> 0 <= acc -> 0 <= dec_value acc s.
Proof.
  revert acc. induction s as [| c s IH]; cbn; intros acc Hs Ha; [done |].
  apply andb_true_iff in Hs as [Hc Hs]. unfold is_digit in Hc. bool_hyps. apply IH; [done | lia].
Qed.

Lemma parse_port_iff v p :
  parse_port v = Some p <->
  v <> "" /\ string_forall is_digit v = true /\ dec_value 0 v = p /\ 1 <= p <= 65535.
Proof.
  unfold parse_port, from_chars. split.
  - destruct (is_empty v) eqn:Ev; [done |]. apply is_empty_false in Ev.
    assert (forall sign body, sign = 1 \/ sign = -1 ->
      (let '(digits, rest) := digit_prefix body in
       if is_empty digits then None
       else if (sign * dec_value 0 digits <? - INT32_MAX - 1) || (INT32_MAX <? sign * dec_value 0 digits)
            then None else Some (sign * dec_value 0 digits, rest)) = Some (p, "") -> 1 <= p ->
      string_forall is_digit body = true /\ sign = 1 /\ dec_value 0 body = p) as Haux.
    { intros sign body Hsign E Hp. destruct (digit_prefix body) as [d r] eqn:Ed.
      destruct (is_empty d); [done |]. destruct (_ || _)%bool; [done |]. injection E as E ->.
      apply digit_prefix_rest in Ed as [-> Hd]. pose proof (dec_value_nonneg body 0 Hd).
      split; [done |]. nia. }
    intros E. destruct (match v with String "-" r => (-1, r) | _ => (1, v) end) as [sign body] eqn:Es.
    assert ((sign = 1 /\ body = v) \/ sign = -1) as Hs.
    { destruct v as [| c r]; [by injection Es as <- <-; left |].
      destruct c as [[][][][][][][][]]; injection Es as <- <-; auto. }
    set (m := let '(digits, rest) := digit_prefix body in _) in E.
    destruct m as [[q rest] |] eqn:Em; [| done]. destruct (_ || _ || _)%bool eqn:Eg; [done |].
    bool_hyps. apply is_empty_true in H. subst rest. injection E as ->.
    destruct (Haux sign body ltac:(naive_solver) Em) as (Hd & -> & Hv); [done |].
    destruct Hs as [[_ ->] | ?]; [| done]. done.
  - intros (Hne & Hd & Hv & Hr). rewrite (proj2 (is_empty_false v) Hne).
    assert (match v with String "-" r => (-1, r) | _ => (1, v) end = (1, v)) as ->.
    { destruct v as [| c r]; [done |]. cbn in Hd. apply andb_true_iff in Hd as [Hc _].
      by destruct c as [[][][][][][][][]]. }
    rewrite digit_prefix_all by done. rewrite (proj2 (is_empty_false v) Hne), Z.mul_1_l, Hv.
    rewrite (proj2 (Z.ltb_ge p (- INT32_MAX - 1))), (proj2 (Z.ltb_ge INT32_MAX p)) by (unfold INT32_MAX; lia).
    cbn [orb negb is_empty]. rewrite (proj2 (Z.ltb_ge p 1)), (proj2 (Z.ltb_ge 65535 p)) by lia. done.
Qed.

(** ** What a parsed command line guarantees *)

Record args_inv (o : ClientOptions) (count : nat) : Prop := mk_args_inv {
  ai_port : 1 <= server_port o <= 65535;
  ai_host : host_mode o = true -> guest_mode o = true;
  ai_guest : guest_mode o = true -> opt_user_code o = "" \/ (4 <= count)%nat;
  ai_ip : count = 0%nat -> server_ip o = "127.0.0.1";
  ai_count : (count <= 4)%nat;
}.

Lemma positional_inv o n a o1 : args_inv o n -> positional o n a = Ok o1 -> args_inv o1 (S n).
Proof.
  intros [Hp Hh Hg Hi Hc] E.
  destruct n as [| [| [| [| n]]]]; cbn in E; try discriminate E.
  2: destruct (parse_port a) as [p |] eqn:Ep; [| done]; apply parse_port_iff in Ep as (_ & _ & _ & Hr).
  all: injection E as <-; split; cbn; try done; try lia; auto.
  all: intros G; destruct (Hg G); [auto | lia].
Qed.

Lemma take_value_inv rest name v rest' : take_value rest name = Ok (v, rest') -> rest = v :: rest' /\ v <> "".
Proof.
  unfold take_value. destruct rest as [| x r]; [done |]. destruct (is_empty x) eqn:E; [done |].
  intros [= <- <-]. by apply is_empty_false in E.
Qed.

Lemma parse_loop_inv fuel args o n o1 n1 :
  args_inv o n -> parse_loop fuel args o n = Ok (o1, n1) -> args_inv o1 n1.
Proof.
  revert args o n. induction fuel as [| f IH]; intros args o n Hi E.
  { destruct args; by injection E as <- <-. }
  destruct args as [| a rest]; [by injection E as <- <- |]. cbn [parse_loop] in E.
  destruct (String.eqb a "--guest").
  { eapply IH; [| exact E]. destruct Hi. split; cbn; auto. }
  destruct (String.eqb a "--host").
  { eapply IH; [| exact E]. destruct Hi. split; cbn; auto. }
  do 4 (destruct (String.eqb a _);
    [apply outcome_bind_inv in E as ([v r] & _ & E); eapply IH; [| exact E]; destruct Hi; by split |]).
  destruct (starts_with_dash a); [done |]. apply outcome_bind_inv in E as (o2 & Ep & E).
  eapply IH; [by eapply positional_inv | exact E].
Qed.

(** when [parse_arguments] succeeds, the port is in 1..65535; host mode means
    guest mode on 127.0.0.1:8888; and a guest always logs in under a code made of
    [GUEST] and the six drawn characters, never under one from the command line. *)
Theorem parse_arguments_valid draw args o :
  parse_arguments draw args = Ok o ->
  1 <= server_port o <= 65535 /\
  (host_mode o = true -> guest_mode o = true /\ server_ip o = "127.0.0.1" /\ server_port o = 8888) /\
  (guest_mode o = true -> opt_user_code o = make_guest_code draw).
Proof.
  intros E. unfold parse_arguments in E. apply outcome_bind_inv in E as ([o0 n] & El & E).
  apply parse_loop_inv in El as [Hp Hh Hg Hi Hc]; [| by split; cbn; try done; lia].
  cbn [fst snd] in E. unfold finish_options in E. apply outcome_bind_inv in E as (o1 & E1 & E).
  injection E as <-.
  assert (1 <= server_port o1 <= 65535 /\ (guest_mode o1 = true -> opt_user_code o1 = "") /\
          (host_mode o1 = true -> guest_mode o1 = true /\ server_ip o1 = "127.0.0.1" /\ server_port o1 = 8888))
    as (H1 & H2 & H3).
  { destruct (host_mode o0) eqn:Eh.
    - specialize (Hh eq_refl). specialize (Hg Hh).
      assert (opt_user_code o0 = "") as Hcode by (destruct Hg; [done | destruct n as [| [|]]; try done; lia]).
      destruct n as [| [|]]; [| | done]; injection E1 as <-; cbn; split_and!; auto; lia.
    - destruct (guest_mode o0) eqn:Eg.
      + destruct (Nat.eqb_spec n 3); [| done]. injection E1 as <-. destruct (Hg eq_refl); [| lia].
        by rewrite Eh.
      + destruct (n <? 4)%nat; [done |]. injection E1 as <-. by rewrite Eh, Eg. }
  destruct (guest_mode o1) eqn:Eg; cbn [andb].
  - rewrite H2 by done. cbn [is_empty]. split; [exact H1 | split; [| reflexivity]].
    intros Hh1. destruct (H3 Hh1) as (_ & ? & ?). split; [reflexivity | done].
  - by rewrite Eg.
Qed.

Lemma parse_arguments_valid_witness :
  exists o, parse_arguments (fun i => i) ["--guest"; "10.0.0.2"; "9000"; "Ann"; "--ca-file"; "ca.pem"] = Ok o /\
    1 <= server_port o <= 65535 /\ opt_user_code o = "GUESTABCDEF".
Proof.
  eexists. split; [reflexivity |].
  destruct (parse_arguments_valid (fun i => i) ["--guest"; "10.0.0.2"; "9000"; "Ann"; "--ca-file"; "ca.pem"] _ eq_refl)
    as (H1 & _ & H2). split; [exact H1 | exact (H2 eq_refl)].
Defined.
