(* ===== verification/Connection.v ===== *)
(** * Connection: the shared connection and its login

    Models client-cpp/include/connection.hpp and client-cpp/src/connection.cpp.
    [ConnectionState] is used by several threads at once.  Each critical section
    of its mutex, and each call into the network between two of them, is one
    step; [connect_and_login] is a program counter ([attempt]) that other threads
    interleave with.  What the network does at a step is its label.  A reached
    event is recorded ([event]) so that the theorems can speak about what went
    out on which session. *)

From S2P Require Import Prelude Text Protocol Json Message Auth.

(** ** Data *)

Record Config := mk_config {
  cfg_server_ip : string;
  cfg_server_port : Z;
  cfg_username : string;
  cfg_user_code : string;
  cfg_ca_file : string;
  cfg_tls_server_name : string;
}.

Inductive LoginResult := kSuccess | kRetryableFailure | kRejected.

(** The members the mutex guards.  A session is named by the number of the
    attempt that created it; [shut] are the sessions whose socket has been shut
    down, and [verify_hosts] the name that the SSL object of a session checks the
    certificate against, once it is set. *)
Record shared := mk_shared {
  session_ : option nat;
  ready_ : bool;
  stop_requested_ : bool;
  last_error_ : string;
  shut : gset nat;
  verify_hosts : gmap nat string;
}.

#[export] Instance eta_shared : EtaRecord shared := fun s =>
  {| session_ := session_ s; ready_ := ready_ s; stop_requested_ := stop_requested_ s;
     last_error_ := last_error_ s; shut := shut s; verify_hosts := verify_hosts s |}.

Definition initial_shared : shared := mk_shared None false false "" ∅ ∅.

(** ** Name resolution *)

(** [lookup] is [getaddrinfo]: the first address, if any. *)
Definition resolve_ipv4_endpoint {addr} (lookup : string -> string -> option addr)
    (host : string) (port : Z) : outcome addr :=
  if is_empty host || (port <? 1) || (65535 <? port) then Fail "invalid server endpoint"
  else match lookup host (to_string port) with
       | None => Fail "could not resolve server host"
       | Some address => Ok address
       end.

(** ** Critical sections *)

Definition shut_session (s : shared) : shared :=
  match session_ s with
  | Some n => s <| shut ::= union {[ n ]} |>
  | None => s
  end.

Definition request_disconnect (s : shared) : shared := shut_session s.

Definition request_stop (s : shared) : shared := shut_session (s <| stop_requested_ := true |>).

Definition close_current (s : shared) : shared :=
  (shut_session s) <| session_ := None |> <| ready_ := false |>.

Definition is_ready (s : shared) : bool :=
  ready_ s && negb (stop_requested_ s) && bool_decide (is_Some (session_ s)).

(** The wait of [wait_before_retry] is over early when its predicate holds;
    then the result is false. *)
Definition wait_interrupted (s : shared) (running reconnect_enabled : bool) : bool :=
  stop_requested_ s || negb running || negb reconnect_enabled.

(** ** connect_and_login *)

(** The calls between the critical sections, in order. *)
Inductive stage :=
  | Resolve | OpenSocket | TcpConnect | NewContext | LoadCa | SetupTls | Handshake | CheckCertificate
  | SendLogin | AwaitLogin
  | Closing (r : LoginResult)
  | Publish.

Inductive attempt :=
  | NotConnecting
  | Connecting (candidate : nat) (at_ : stage) (response : Message)
  | Returned (ok : bool) (result : LoginResult) (response : Message).

(** What the network or the library answers at a stage: success, failure with a
    detail text, or a received message. *)
Inductive answer :=
  | Succeeds
  | Fails (detail : string)
  | Receives (m : Message).

Definition openssl_error (operation detail : string) : string :=
  if is_empty detail then operation else operation +:+ ": " +:+ detail.

(** The text stored when a stage fails. *)
Definition stage_error (c : Config) (st : stage) (detail : string) : string :=
  match st with
  | Resolve => detail
  | OpenSocket => "socket failed"
  | TcpConnect => "TCP connect failed"
  | NewContext => openssl_error "SSL_CTX_new failed" detail
  | LoadCa => if is_empty (cfg_ca_file c) then openssl_error "no trusted system CA paths" detail
              else openssl_error "failed to load --ca-file" detail
  | SetupTls => openssl_error "TLS setup failed" detail
  | Handshake => openssl_error "SSL_connect failed" detail
  | CheckCertificate => "TLS certificate verification failed"
  | _ => openssl_error "TLS login exchange failed" detail
  end.

Definition next_stage (st : stage) : stage :=
  match st with
  | Resolve => OpenSocket | OpenSocket => TcpConnect | TcpConnect => NewContext | NewContext => LoadCa
  | LoadCa => SetupTls | SetupTls => Handshake | Handshake => CheckCertificate
  | CheckCertificate => SendLogin | SendLogin => AwaitLogin | AwaitLogin => Publish
  | other => other
  end.

(** The name the certificate is checked against. *)
Definition verify_host (c : Config) : string :=
  if is_empty (cfg_tls_server_name c) then cfg_server_ip c else cfg_tls_server_name c.

Definition login_message (c : Config) : Message :=
  make_login_message
    (default_options <| server_ip := cfg_server_ip c |> <| server_port := cfg_server_port c |>
       <| opt_username := cfg_username c |> <| opt_user_code := cfg_user_code c |>
       <| ca_file := cfg_ca_file c |>).

Inductive event :=
  | EHandshake (session : nat) (host : string)    (* handshake done, checking against [host] *)
  | EVerified (session : nat)                     (* the certificate is valid *)
  | ESent (session : nat) (m : Message)           (* a message went out *)
  | EGot (session : nat) (m : Message).           (* a message came in *)

(** Entry: the first critical section. *)
Definition start_attempt (fresh : nat) (s : shared) : shared * attempt :=
  if stop_requested_ s then (s, Returned false kRetryableFailure empty_message)
  else (s <| session_ := Some fresh |> <| ready_ := false |>, Connecting fresh Resolve empty_message).

(** One step of the body. *)
Definition advance (c : Config) (a : answer) (s : shared) (n : nat) (st : stage) (response : Message)
    : shared * attempt * list event :=
  match st with
  | Closing r => (close_current s, Returned false r response, [])
  | Publish =>
      if stop_requested_ s || negb (bool_decide (session_ s = Some n))
      then (s <| ready_ := false |>, Returned false kRetryableFailure response, [])
      else (s <| ready_ := true |> <| last_error_ := "" |>, Returned true kSuccess response, [])
  | AwaitLogin =>
      match a with
      | Receives m =>
          if String.eqb (type m) "login_pending" then (s, Connecting n AwaitLogin m, [EGot n m])
          else if String.eqb (type m) "login_ok" then (s, Connecting n Publish m, [EGot n m])
          else (s <| last_error_ := if is_empty (content m) then "Login rejected" else content m |>,
                Connecting n (Closing kRejected) m, [EGot n m])
      | Fails d => (s <| last_error_ := stage_error c st d |>, Connecting n (Closing kRetryableFailure) empty_message, [])
      | Succeeds => (s, Connecting n st response, [])
      end
  | _ =>
      match a with
      | Fails d => (s <| last_error_ := stage_error c st d |>, Connecting n (Closing kRetryableFailure) response, [])
      | _ => (match st with SetupTls => s <| verify_hosts ::= insert n (verify_host c) |> | _ => s end,
              Connecting n (next_stage st) response,
              match st with
              | Handshake => [EHandshake n (default "" (verify_hosts s !! n))]
              | CheckCertificate => [EVerified n]
              | SendLogin => [ESent n (login_message c)]
              | _ => []
              end)
      end
  end.

(** ** send and receive *)

(** [send] holds the lock while the message goes out. *)
Definition conn_send (m : Message) (a : answer) (s : shared) : shared * bool * list event :=
  match session_ s with
  | Some n =>
      if negb (ready_ s) || stop_requested_ s then (s <| last_error_ := "connection is not ready" |>, false, [])
      else match a with
           | Fails d => (s <| last_error_ := d |>, false, [])
           | _ => (s, true, [ESent n m])
           end
  | None => (s <| last_error_ := "connection is not ready" |>, false, [])
  end.

(** [receive] picks the session up under the lock ... *)
Definition receive_pick (s : shared) : option (option nat) :=
  if negb (ready_ s) || stop_requested_ s then None else Some (session_ s).

(** ... and reads from it without; a failure is stored under the lock. *)
Definition receive_finish (picked : option nat) (a : answer) (s : shared) : shared * option Message * list event :=
  match a, picked with
  | Receives m, Some n => (s, Some m, [EGot n m])
  | Fails d, _ => (s <| last_error_ := d |>, None, [])
  | _, _ => (s, None, [])
  end.

(** ** All threads *)

Record world := mk_world {
  w_shared : shared;
  w_attempt : attempt;                (* the thread in connect_and_login *)
  w_receiver : option (option nat);   (* the thread in receive, after its first section *)
  w_fresh : nat;                      (* the next session *)
  w_events : list event;              (* newest first *)
}.

Definition initial_world : world := mk_world initial_shared NotConnecting None 0 [].

Section Steps.
  Context (c : Config).

Inductive world_step : world -> world -> Prop :=
  | ws_start s p q n evs s' p' :
      (p = NotConnecting \/ exists ok r m, p = Returned ok r m) ->
      start_attempt n s = (s', p') ->
      world_step (mk_world s p q n evs) (mk_world s' p' q (S n) evs)
  | ws_advance s k st m q n evs a s' p' new :
      advance c a s k st m = (s', p', new) ->
      world_step (mk_world s (Connecting k st m) q n evs) (mk_world s' p' q n (new ++ evs))
  | ws_send s p q n evs m a s' ok new :
      conn_send m a s = (s', ok, new) ->
      world_step (mk_world s p q n evs) (mk_world s' p q n (new ++ evs))
  | ws_pick s p n evs picked :
      receive_pick s = Some picked ->
      world_step (mk_world s p None n evs) (mk_world s p (Some picked) n evs)
  | ws_finish s p picked n evs a s' r new :
      receive_finish picked a s = (s', r, new) ->
      world_step (mk_world s p (Some picked) n evs) (mk_world s' p None n (new ++ evs))
  | ws_disconnect s p q n evs : world_step (mk_world s p q n evs) (mk_world (request_disconnect s) p q n evs)
  | ws_stop s p q n evs : world_step (mk_world s p q n evs) (mk_world (request_stop s) p q n evs)
  | ws_close s p q n evs : world_step (mk_world s p q n evs) (mk_world (close_current s) p q n evs).

Inductive world_steps : world -> world -> Prop :=
  | wss_refl w : world_steps w w
  | wss_step w w' w'' : world_steps w w' -> world_step w' w'' -> world_steps w w''.

Definition world_reachable (w : world) : Prop := world_steps initial_world w.

(** ** What went before an event *)

(** The server has accepted the login of session [n]. *)
Definition logged_in (n : nat) (evs : list event) : Prop :=
  exists m, EGot n m ∈ evs /\ type m = "login_ok".

Definition justified (e : event) (earlier : list event) : Prop :=
  match e with
  | EHandshake _ host => host = verify_host c
  | EVerified n => EHandshake n (verify_host c) ∈ earlier
  | ESent n m => EVerified n ∈ earlier /\ (m = login_message c \/ logged_in n earlier)
  | EGot n m => EVerified n ∈ earlier
  end.

Fixpoint trace_ok (evs : list event) : Prop :=
  match evs with
  | [] => True
  | e :: earlier => justified e earlier /\ trace_ok earlier
  end.

(** What the program counter of an attempt has already achieved. *)
Definition attempt_ok (p : attempt) (evs : list event) : Prop :=
  match p with
  | Connecting k CheckCertificate _ => EHandshake k (verify_host c) ∈ evs
  | Connecting k SendLogin _ | Connecting k AwaitLogin _ => EVerified k ∈ evs
  | Connecting k Publish m => type m = "login_ok" /\ EGot k m ∈ evs
  | Connecting k (Closing r) m =>
      r <> kSuccess /\ (r = kRejected -> type m <> "login_pending" /\ type m <> "login_ok")
  | Returned ok r m =>
      (ok = true <-> r = kSuccess) /\ (r = kSuccess -> type m = "login_ok") /\
      (r = kRejected -> type m <> "login_pending" /\ type m <> "login_ok")
  | _ => True
  end.

(** At the handshake the name to check has been set. *)
Definition host_set (p : attempt) (s : shared) : Prop :=
  match p with Connecting k Handshake _ => verify_hosts s !! k = Some (verify_host c) | _ => True end.

Record world_inv (w : world) : Prop := mk_world_inv {
  wi_ready : ready_ (w_shared w) = true -> exists n, session_ (w_shared w) = Some n /\ logged_in n (w_events w);
  wi_picked : forall n, w_receiver w = Some (Some n) -> logged_in n (w_events w);
  wi_attempt : attempt_ok (w_attempt w) (w_events w);
  wi_host : host_set (w_attempt w) (w_shared w);
  wi_trace : trace_ok (w_events w);
}.

Lemma trace_got_verified n m evs : trace_ok evs -> EGot n m ∈ evs -> EVerified n ∈ evs.
Proof.
  induction evs as [| e evs IH]; [by intros _ ?%not_elem_of_nil |].
  intros [Hj Ht] [<- | Hin]%elem_of_cons; [by right | right; auto].
Qed.

Lemma logged_in_mono n new evs : logged_in n evs -> logged_in n (new ++ evs).
Proof. intros (m & Hin & Ht). exists m. rewrite elem_of_app. auto. Qed.

Lemma logged_in_verified n evs : trace_ok evs -> logged_in n evs -> EVerified n ∈ evs.
Proof. intros Ht (m & Hin & _). by eapply trace_got_verified. Qed.

Lemma attempt_ok_mono p new evs : attempt_ok p evs -> attempt_ok p (new ++ evs).
Proof.
  destruct p as [| k st m |]; cbn; try done. destruct st; rewrite ?elem_of_app; tauto.
Qed.

(** The guarded members that a step leaves alone, up to the error text. *)
Definition same_link (s s' : shared) : Prop := session_ s' = session_ s /\ ready_ s' = ready_ s.

Lemma ready_kept s s' (P : nat -> Prop) (Q : nat -> Prop) : same_link s s' -> (forall n, P n -> Q n) ->
  (ready_ s = true -> exists n, session_ s = Some n /\ P n) ->
  (ready_ s' = true -> exists n, session_ s' = Some n /\ Q n).
Proof. intros [E1 E2] HPQ H Hr. rewrite E2 in Hr. destruct (H Hr) as (n & Hs & HP). exists n. rewrite E1. auto. Qed.

Lemma shut_session_link s : same_link s (shut_session s).
Proof. unfold shut_session, same_link. by destruct (session_ s) eqn:E; cbn; rewrite ?E. Qed.

Lemma shut_session_hosts s : verify_hosts (shut_session s) = verify_hosts s.
Proof. unfold shut_session. by destruct (session_ s). Qed.

Lemma host_set_same p s s' : verify_hosts s' = verify_hosts s -> host_set p s -> host_set p s'.
Proof. intros E. unfold host_set. by rewrite E. Qed.

Lemma advance_inv s k st m evs a s' p' new :
  attempt_ok (Connecting k st m) evs -> host_set (Connecting k st m) s -> trace_ok evs -> advance c a s k st m = (s', p', new) ->
  attempt_ok p' (new ++ evs) /\ host_set p' s' /\ trace_ok (new ++ evs) /\
  (same_link s s' \/ ready_ s' = false \/ (session_ s' = Some k /\ logged_in k evs)).
Proof.
  intros Ha Hh Ht E. destruct st; cbn [advance] in E.
  1-9: destruct a; injection E as <- <- <-; cbn in *; rewrite ?Hh; split_and!; try done;
       first [by left | by left; split | by right | apply lookup_insert_eq | idtac].
  - destruct a as [| d | m1].
    + injection E as <- <- <-. split_and!; try done. by left.
    + injection E as <- <- <-. cbn. split_and!; try done. by left.
    + destruct (String.eqb (type m1) "login_pending") eqn:E1.
      { injection E as <- <- <-; cbn in *; split_and!; try done; [by right | by left]. }
      destruct (String.eqb (type m1) "login_ok") eqn:E2; bool_hyps;
        injection E as <- <- <-; cbn in *; split_and!; try done; by left.
  - injection E as <- <- <-. cbn in *. destruct Ha as [Ha1 Ha2]. split_and!; try done; auto.
  - destruct (_ || _)%bool eqn:Eg; injection E as <- <- <-; cbn in *; split_and!; try done; try tauto; auto.
    bool_hyps. right. right. split; [done |]. destruct Ha as [Hm Hin]. by exists m.
Qed.

Lemma world_step_inv w w' : world_inv w -> world_step w w' -> world_inv w'.
Proof.
  intros [Hr Hq Ha Hh Ht] Hs. destruct Hs as
    [s p q n evs s' p' Hp E | s k st m q n evs a s' p' new E | s p q n evs m a s' ok new E
    | s p n evs picked E | s p picked n evs a s' r new E | s p q n evs | s p q n evs | s p q n evs];
    cbn in *.
  - unfold start_attempt in E. destruct (stop_requested_ s); injection E as <- <-; split; cbn; done.
  - destruct (advance_inv s k st m evs a s' p' new Ha Hh Ht E) as (Ha' & Hh' & Ht' & Hl).
    split; cbn; try done.
    + destruct Hl as [Hl | [Hl | [Hl1 Hl2]]]; [| by rewrite Hl | by exists k; auto using logged_in_mono].
      apply (ready_kept s s' (fun i => logged_in i evs) (fun i => logged_in i (new ++ evs)) Hl); [| exact Hr].
      intros i. apply logged_in_mono.
    + intros j Hj. by apply logged_in_mono, Hq.
  - unfold conn_send in E. destruct (session_ s) as [k |] eqn:Es.
    2: { injection E as <- <- <-. split; cbn; try done. intros H. by rewrite Es in *; apply Hr. }
    destruct (negb (ready_ s) || _)%bool eqn:Eg.
    { injection E as <- <- <-. split; cbn; try done. rewrite Es. done. }
    bool_hyps. destruct (Hr H) as (j & [= <-] & Hlog).
    assert (justified (ESent k m) evs) as Hj by (split; [by apply logged_in_verified | auto]).
    destruct a; injection E as <- <- <-; split; cbn; rewrite ?Es; try done; auto.
    all: first [ intros _; exists k; split; [done |]; apply (logged_in_mono k [_]); done
               | intros j Hj'; apply (logged_in_mono j [_]); by apply Hq
               | by apply (attempt_ok_mono p [_]) ].
  - unfold receive_pick in E. destruct (_ || _)%bool eqn:Eg; [done |]. injection E as <-. bool_hyps.
    split; cbn; try done. intros j [= Ej]. destruct (Hr H) as (i & Ei & Hlog). rewrite Ei in Ej. by injection Ej as ->.
  - unfold receive_finish in E. destruct a as [| d | m], picked as [k |]; injection E as <- <- <-; split; cbn; try done.
    + intros H. destruct (Hr H) as (j & Ej & Hlog). exists j. split; [done |]. by apply (logged_in_mono j [_]).
    + by apply (attempt_ok_mono p [_]).
    + split; [| done]. apply logged_in_verified; [done | by apply Hq].
  - split; cbn; try done; [| by apply (host_set_same _ s), Hh; apply shut_session_hosts]. unfold request_disconnect.
    exact (ready_kept s _ (fun i => logged_in i evs) _ (shut_session_link s) (fun _ H => H) Hr).
  - split; cbn; try done; [| by apply (host_set_same _ s), Hh; exact (shut_session_hosts (s <| stop_requested_ := true |>))]. unfold request_stop.
    pose proof (shut_session_link (s <| stop_requested_ := true |>)) as Hl.
    exact (ready_kept _ _ (fun i => logged_in i evs) _ Hl (fun _ H => H) Hr).
  - split; cbn; try done. apply (host_set_same _ s), Hh. apply shut_session_hosts.
Qed.

Lemma world_reachable_inv w : world_reachable w -> world_inv w.
Proof.
  unfold world_reachable. remember initial_world as w0 eqn:E0.
  induction 1 as [w | w w' w'' _ IH Hs]; subst; [by split | by eapply world_step_inv; [apply IH | exact Hs]].
Qed.

(** C11: with any interleaving of the threads, a message other than the login goes
    out only on a session whose login the server has accepted, the login only on
    a session whose certificate has been verified, and the certificate is checked
    against [tls_server_name], or the server address when that is empty. *)
Theorem sent_only_when_trusted w later n m earlier :
  world_reachable w -> w_events w = later ++ ESent n m :: earlier ->
  EVerified n ∈ earlier /\ EHandshake n (verify_host c) ∈ earlier /\
  (m = login_message c \/ logged_in n earlier).
Proof.
  intros Hr E. pose proof (wi_trace w (world_reachable_inv w Hr)) as Ht. rewrite E in Ht. clear E Hr.
  induction later as [| e later IH]; [| apply IH, Ht].
  destruct Ht as [[Hv Hm] Ht]. split_and!; try done. clear Hm.
  induction earlier as [| e earlier IH]; [by apply not_elem_of_nil in Hv |].
  apply elem_of_cons in Hv as [<- | Hv]; right; [apply Ht | apply IH; [done | apply Ht]].
Qed.

(** what [connect_and_login] returns classifies the login: success exactly
    when it returns true, and then the response is [login_ok]; rejection only for
    a response that is neither [login_pending] nor [login_ok]. *)
Theorem login_result_sound w ok r m :
  world_reachable w -> w_attempt w = Returned ok r m ->
  (ok = true <-> r = kSuccess) /\ (r = kSuccess -> type m = "login_ok") /\
  (r = kRejected -> type m <> "login_pending" /\ type m <> "login_ok").
Proof.
  intros Hr E. pose proof (wi_attempt w (world_reachable_inv w Hr)) as Ha. by rewrite E in Ha.
Qed.

(** ** Stopping *)

(** The attempt under way is that of session [k]. *)
Definition under_way (w : world) (k : nat) : Prop := exists st m, w_attempt w = Connecting k st m.

(** What can still happen on a session once a stop is requested: the login of
    the attempt that was under way, and the read that had begun. *)
Definition leftover (w : world) (e : event) : Prop :=
  match e with
  | EHandshake k _ | EVerified k => under_way w k
  | ESent k m => under_way w k /\ m = login_message c
  | EGot k _ => under_way w k \/ w_receiver w = Some (Some k)
  end.

(** From [w], where a stop is requested, to [w']. *)
Record winds_down (w w' : world) : Prop := mk_winds_down {
  wd_stop : stop_requested_ (w_shared w') = true;
  wd_session : session_ (w_shared w') = session_ (w_shared w) \/ session_ (w_shared w') = None;
  wd_attempt : forall k, under_way w' k -> under_way w k;
  wd_returned : forall r m, w_attempt w' = Returned true r m -> w_attempt w = Returned true r m;
  wd_receiver : w_receiver w' = w_receiver w \/ w_receiver w' = None;
  wd_events : exists new, w_events w' = new ++ w_events w /\ Forall (leftover w) new;
}.

Lemma leftover_mono w w' e : (forall k, under_way w' k -> under_way w k) ->
  (w_receiver w' = w_receiver w \/ w_receiver w' = None) -> leftover w' e -> leftover w e.
Proof. intros Ha Hr. destruct e; cbn; try (intros []; auto; done); auto. intros [Hk | Hk]; [auto | right; destruct Hr; congruence]. Qed.

Lemma winds_down_trans w1 w2 w3 : winds_down w1 w2 -> winds_down w2 w3 -> winds_down w1 w3.
Proof.
  intros [S1 E1 A1 R1 Q1 (n1 & V1 & F1)] [S2 E2 A2 R2 Q2 (n2 & V2 & F2)]. split; auto.
  - destruct E2 as [-> | ->]; auto.
  - destruct Q2 as [-> | ->]; auto.
  - exists (n2 ++ n1). rewrite V2, V1, app_assoc. split; [done |]. apply Forall_app. split; [| done].
    eapply Forall_impl; [exact F2 |]. intros e. by apply leftover_mono.
Qed.

(** A step that sends and starts nothing. *)
Lemma winds_down_quiet s s' p q n evs : stop_requested_ s' = true -> session_ s' = session_ s \/ session_ s' = None ->
  winds_down (mk_world s p q n evs) (mk_world s' p q n evs).
Proof. intros Hs He. split; cbn; auto. by exists []. Qed.

Lemma advance_winds_down s k st m q n evs a s' p' new : stop_requested_ s = true -> advance c a s k st m = (s', p', new) ->
  winds_down (mk_world s (Connecting k st m) q n evs) (mk_world s' p' q n (new ++ evs)).
Proof.
  intros Hs E.
  assert (stop_requested_ s' = true /\ (session_ s' = session_ s \/ session_ s' = None) /\
          (forall r m', p' <> Returned true r m') /\ (forall j st' m', p' = Connecting j st' m' -> j = k) /\
          Forall (fun e => match e with ESent j m => j = k /\ m = login_message c | EHandshake j _ | EVerified j | EGot j _ => j = k end) new)
    as (H1 & H2 & H3 & H4 & H5).
  { destruct st; cbn [advance] in E.
    1-9: destruct a; injection E as <- <- <-; split_and!; auto; try done; try (by intros ? ? ? [= -> _ _]); by repeat constructor.
    - destruct a; repeat destruct (String.eqb _ _); injection E as <- <- <-; split_and!; auto; try done;
        try (by intros ? ? ? [= -> _ _]); by repeat constructor.
    - injection E as <- <- <-. unfold close_current, shut_session. destruct (session_ s); cbn; split_and!; auto; done.
    - rewrite Hs in E. injection E as <- <- <-. split_and!; auto; done. }
  split; cbn; auto.
  - intros j (st' & m' & Ej). cbn in Ej. rewrite (H4 j st' m' Ej). by exists st, m.
  - intros r m' Er. by destruct (H3 r m').
  - exists new. split; [done |]. eapply Forall_impl; [exact H5 |]. intros e.
    assert (under_way (mk_world s (Connecting k st m) q n evs) k) as Hk by (by exists st, m).
    destruct e; cbn; [by intros -> | by intros -> | by intros [-> ->] | intros ->; by left].
Qed.

Lemma step_winds_down w w' : stop_requested_ (w_shared w) = true -> world_step w w' -> winds_down w w'.
Proof.
  intros Hs Hst. destruct Hst as
    [s p q n evs s' p' Hp E | s k st m q n evs a s' p' new E | s p q n evs m a s' ok new E
    | s p n evs picked E | s p picked n evs a s' r new E | s p q n evs | s p q n evs | s p q n evs]; cbn [w_shared] in Hs.
  - unfold start_attempt in E. rewrite Hs in E. injection E as <- <-. split; cbn; auto; [| done | by exists []].
    intros k (st & m & Ek). discriminate Ek.
  - by apply (advance_winds_down s k st m q n evs a).
  - unfold conn_send in E. rewrite Hs, orb_true_r in E. destruct (session_ s) eqn:Es; injection E as <- <- <-; apply winds_down_quiet; auto.
  - unfold receive_pick in E. by rewrite Hs, orb_true_r in E.
  - unfold receive_finish in E. destruct a as [| d | m], picked as [k |]; injection E as <- <- <-; split; cbn; auto; try by exists [].
    exists [EGot k m]. split; [done |]. constructor; [by right | constructor].
  - apply winds_down_quiet; unfold request_disconnect, shut_session; destruct (session_ s) eqn:Es; auto.
  - apply winds_down_quiet; unfold request_stop, shut_session; cbn; destruct (session_ s) eqn:Es; auto.
  - apply winds_down_quiet; unfold close_current, shut_session; destruct (session_ s); auto.
Qed.

(** C40: once a stop is requested it is final.  From then on the connection is
    never ready, no [connect_and_login] gets under way or returns true, and no
    session is opened: the session stays the one there was, or is closed.  All
    that still happens on the network is the login of the attempt that was
    under way, whose only message is the login itself, and the end of a read
    that had begun. *)
Theorem stop_is_final w w' :
  stop_requested_ (w_shared w) = true -> world_steps w w' ->
  is_ready (w_shared w') = false /\
  (session_ (w_shared w') = session_ (w_shared w) \/ session_ (w_shared w') = None) /\
  (forall k, under_way w' k -> under_way w k) /\
  (forall r m, w_attempt w' = Returned true r m -> w_attempt w = Returned true r m) /\
  exists new, w_events w' = new ++ w_events w /\ Forall (leftover w) new.
Proof.
  intros Hs Hst. assert (winds_down w w') as [H1 H2 H3 H4 _ H5].
  { induction Hst as [w | w w' w'' _ IH Hs']; [split; auto; by exists [] |].
    eapply winds_down_trans; [by apply IH |]. apply step_winds_down, Hs'. by apply wd_stop with (w := w), IH. }
  split_and!; auto. unfold is_ready. by rewrite H1, andb_false_r.
Qed.

End Steps.

(** ** An undisturbed attempt *)

Fixpoint run_attempt (c : Config) (answers : list answer) (s : shared) (p : attempt) (evs : list event)
    : shared * attempt * list event :=
  match answers, p with
  | a :: rest, Connecting k st m =>
      let '(s1, p1, new) := advance c a s k st m in run_attempt c rest s1 p1 (new ++ evs)
  | _, _ => (s, p, evs)
  end.

Lemma run_attempt_steps c w answers s p q n evs :
  world_steps c w (mk_world s p q n evs) ->
  let '(s', p', evs') := run_attempt c answers s p evs in world_steps c w (mk_world s' p' q n evs').
Proof.
  revert s p evs. induction answers as [| a rest IH]; intros s p evs Hw; cbn [run_attempt]; [done |].
  destruct p as [| k st m |]; try done. destruct (advance c a s k st m) as [[s1 p1] new] eqn:E.
  apply IH. eapply wss_step; [exact Hw | by econstructor].
Qed.

Lemma run_pending c s k m evs pending rest :
  Forall (fun m => type m = "login_pending") pending ->
  exists m' evs', run_attempt c (map Receives pending ++ rest) s (Connecting k AwaitLogin m) evs =
             run_attempt c rest s (Connecting k AwaitLogin m') evs'.
Proof.
  intros Hp. revert m evs. induction Hp as [| x l Hx _ IH]; intros m evs; [by exists m, evs |].
  cbn [map app run_attempt advance]. rewrite Hx. cbn. apply IH.
Qed.

(** The calls up to the login, when each succeeds. *)
Definition setup_stage (st : stage) : bool :=
  match st with AwaitLogin | Closing _ | Publish => false | _ => true end.

Definition same_state (s s' : shared) : Prop :=
  session_ s' = session_ s /\ ready_ s' = ready_ s /\ stop_requested_ s' = stop_requested_ s /\ last_error_ s' = last_error_ s.

Lemma run_setup_step c rest s k st m evs : setup_stage st = true ->
  exists s' evs', run_attempt c (Succeeds :: rest) s (Connecting k st m) evs =
    run_attempt c rest s' (Connecting k (next_stage st) m) evs' /\ same_state s s'.
Proof. destruct st; try discriminate 1; intros _; cbn [run_attempt advance]; (eexists _, _; split; [reflexivity | by split_and!]). Qed.

Lemma run_setup c rest s k evs : exists s' evs',
  run_attempt c (repeat Succeeds 9 ++ rest) s (Connecting k Resolve empty_message) evs =
  run_attempt c rest s' (Connecting k AwaitLogin empty_message) evs' /\ same_state s s'.
Proof.
  cut (forall s0 s evs, same_state s0 s -> exists s' evs',
    run_attempt c (repeat Succeeds 9 ++ rest) s (Connecting k Resolve empty_message) evs =
    run_attempt c rest s' (Connecting k AwaitLogin empty_message) evs' /\ same_state s0 s').
  { intros Hcut. apply Hcut. by split_and!. }
  clear s evs. cbn [repeat app].
  assert (forall st rest s0 s evs, setup_stage st = true -> same_state s0 s -> exists s' evs',
    run_attempt c (Succeeds :: rest) s (Connecting k st empty_message) evs =
    run_attempt c rest s' (Connecting k (next_stage st) empty_message) evs' /\ same_state s0 s') as Hstep.
  { intros st rest' s0 s evs Hst (A1 & A2 & A3 & A4). destruct (run_setup_step c rest' s k st empty_message evs Hst) as (s' & evs' & E & B1 & B2 & B3 & B4).
    exists s', evs'. split; [exact E |]. split_and!; congruence. }
  intros s0 s evs Hs.
  do 9 (match goal with |- context [run_attempt c (Succeeds :: ?r) s (Connecting k ?st _) evs] =>
    destruct (Hstep st r s0 s evs eq_refl Hs) as (s' & evs' & -> & Hs'); clear Hs; rename Hs' into Hs; clear s evs; rename s' into s, evs' into evs end;
    cbn [next_stage]).
  by exists s, evs.
Qed.

(** an attempt that no other thread disturbs ends: when every call succeeds
    and the server answers any number of [login_pending] and then [login_ok], it
    returns success with that response, the connection is ready and the error
    text is empty; when the answer is another type it returns a rejection with
    the server's text and the session is closed. *)
Theorem undisturbed_login c s fresh pending answer :
  stop_requested_ s = false -> Forall (fun m => type m = "login_pending") pending ->
  type answer <> "login_pending" ->
  let '(s0, p0) := start_attempt fresh s in
  let '(s1, p1, _) :=
    run_attempt c (repeat Succeeds 9 ++ map Receives pending ++ [Receives answer; Succeeds]) s0 p0 [] in
  if String.eqb (type answer) "login_ok"
  then p1 = Returned true kSuccess answer /\ is_ready s1 = true /\ session_ s1 = Some fresh /\ last_error_ s1 = ""
  else p1 = Returned false kRejected answer /\ is_ready s1 = false /\ session_ s1 = None /\
       last_error_ s1 = (if is_empty (content answer) then "Login rejected" else content answer).
Proof.
  intros Hs Hp Ha. unfold start_attempt. rewrite Hs.
  destruct (run_setup c (map Receives pending ++ [Receives answer; Succeeds]) (s <| session_ := Some fresh |> <| ready_ := false |>) fresh [])
    as (s0 & evs0 & -> & E1 & E2 & E3 & E4). cbn in E1, E2, E3, E4.
  destruct (run_pending c s0 fresh empty_message evs0 pending [Receives answer; Succeeds] Hp) as (m & evs & ->).
  cbn [run_attempt advance]. apply String.eqb_neq in Ha as ->.
  destruct (String.eqb (type answer) "login_ok"); cbn [run_attempt advance].
  - rewrite E3, Hs, bool_decide_eq_true_2 by done. cbn [orb negb run_attempt]. unfold is_ready. cbn. rewrite E1, E3, Hs. done.
  - unfold close_current, shut_session, is_ready. cbn. rewrite E1. done.
Qed.

(** ** Backoff of the console client *)

Definition kBackoffDelays : list Z := [1; 2; 4; 8; 16; 30].

(** [ReconnectBackoff]: the state is [attempt_]. *)
Definition next_delay (attempt_ : nat) : nat * Z :=
  let index := if (attempt_ <? 6)%nat then attempt_ else 5%nat in
  (if (attempt_ <? 6)%nat then S attempt_ else attempt_, nth index kBackoffDelays 0).

Definition backoff_reset : nat := 0.

Fixpoint delays (n : nat) (attempt_ : nat) : list Z :=
  match n with
  | O => []
  | S n' => let '(a, d) := next_delay attempt_ in d :: delays n' a
  end.

Lemma delays_tail n a : (6 <= a)%nat ->
  delays n 6 = map (fun k => Z.min 30 (2 ^ Z.of_nat k)) (seq a n).
Proof.
  revert a. induction n as [| n IH]; intros a Ha; [done |].
  change (delays (S n) 6) with (30 :: delays n 6). cbn [seq map]. f_equal; [| apply IH; lia].
  assert (2 ^ 6 <= 2 ^ Z.of_nat a) by (apply Z.pow_le_mono_r; lia). change (2 ^ 6) with 64 in *. lia.
Qed.

Lemma delays_capped n a : (a <= 6)%nat ->
  delays n a = map (fun k => Z.min 30 (2 ^ Z.of_nat k)) (seq a n).
Proof.
  revert a. induction n as [| n IH]; intros a Ha; [done |].
  destruct (Nat.eq_dec a 6) as [-> | Hne]; [by apply delays_tail |].
  cbn [delays seq map]. unfold next_delay. rewrite (proj2 (Nat.ltb_lt a 6)) by lia. rewrite IH by lia. f_equal.
  do 6 (destruct a as [| a]; [done |]). lia.
Qed.

(** After a reset the delays are 1, 2, 4, 8, 16 and then 30 seconds: the
    powers of two capped at 30, for ever. *)
Theorem backoff_delays n : delays n backoff_reset = map (fun k => Z.min 30 (2 ^ Z.of_nat k)) (seq 0 n).
Proof. apply delays_capped. unfold backoff_reset. lia. Qed.

(** ** Witnesses *)

Definition ex_config : Config := mk_config "10.0.0.2" 9000 "Ann" "A1" "" "chat.lan".
Definition ex_ok : Message := empty_message <| type := "login_ok" |>.
Definition ex_chat : Message := empty_message <| type := "chat" |> <| content := "hi" |>.

Definition ex_ready : world :=
  let '(s, p) := start_attempt 0 initial_shared in
  let '(s1, p1, evs) := run_attempt ex_config (repeat Succeeds 9 ++ [Receives ex_ok; Succeeds]) s p [] in
  mk_world s1 p1 None 1 evs.

Lemma ex_ready_reachable : world_reachable ex_config ex_ready.
Proof.
  assert (world_steps ex_config initial_world
            (mk_world (initial_shared <| session_ := Some 0%nat |>) (Connecting 0 Resolve empty_message) None 1 [])) as H.
  { eapply wss_step; [apply wss_refl |]. by apply (ws_start ex_config); [left |]. }
  exact (run_attempt_steps ex_config initial_world (repeat Succeeds 9 ++ [Receives ex_ok; Succeeds]) _ _ _ _ _ H).
Qed.

Definition ex_sent : world :=
  mk_world (w_shared ex_ready) (w_attempt ex_ready) None 1 (ESent 0 ex_chat :: w_events ex_ready).

Lemma ex_sent_reachable : world_reachable ex_config ex_sent.
Proof.
  eapply wss_step; [exact ex_ready_reachable |].
  apply (ws_send ex_config (w_shared ex_ready) (w_attempt ex_ready) None 1 (w_events ex_ready) ex_chat Succeeds
           (w_shared ex_ready) true [ESent 0 ex_chat]). reflexivity.
Qed.

Lemma sent_only_when_trusted_witness :
  EHandshake 0 "chat.lan" ∈ w_events ex_ready /\
  (ex_chat = login_message ex_config \/ logged_in 0 (w_events ex_ready)).
Proof.
  destruct (sent_only_when_trusted ex_config ex_sent [] 0 ex_chat (w_events ex_ready) ex_sent_reachable eq_refl)
    as (_ & H & H'). split; assumption.
Defined.

Lemma login_result_sound_witness : type ex_ok = "login_ok".
Proof.
  exact (proj1 (proj2 (login_result_sound ex_config ex_ready true kSuccess ex_ok ex_ready_reachable eq_refl)) eq_refl).
Defined.

Lemma stop_is_final_witness :
  is_ready (w_shared (mk_world (close_current (request_stop (w_shared ex_ready))) (w_attempt ex_ready) None 1 [])) = false.
Proof.
  refine (proj1 (stop_is_final ex_config
    (mk_world (request_stop (w_shared ex_ready)) (w_attempt ex_ready) None 1 []) _ _ _)); [reflexivity |].
  eapply wss_step; [apply wss_refl | apply ws_close].
Defined.

Lemma undisturbed_login_witness :
  let '(s0, p0) := start_attempt 0 initial_shared in
  let '(s1, p1, _) :=
    run_attempt ex_config (repeat Succeeds 9 ++ map Receives [empty_message <| type := "login_pending" |>] ++ [Receives ex_ok; Succeeds]) s0 p0 [] in
  p1 = Returned true kSuccess ex_ok /\ is_ready s1 = true.
Proof.
  pose proof (undisturbed_login ex_config initial_shared 0 [empty_message <| type := "login_pending" |>] ex_ok
                eq_refl ltac:(repeat constructor) ltac:(discriminate)) as H.
  destruct (start_attempt 0 initial_shared) as [s0 p0]. destruct (run_attempt _ _ _ _ _) as [[s1 p1] evs].
  destruct H as (H1 & H2 & _). by split.
Defined.
