(* ===== verification/ChatModel.v ===== *)
(** * ChatModel: the list models behind the views

    Models client-cpp/gui/src/chat_model.{hpp,cpp}.  A QVariant is a [json]
    value ([JNull] is the invalid variant) and a QVariantMap an ordered object.
    Every change of the rows is announced to the attached views; the
    announcements are kept in [lm_log] with the rows at the moment of the
    announcement, so that what a view shows can be computed and compared. *)

From stdpp Require Import sorting.
From S2P Require Import Prelude Text Json JsonCodecInstance.

(** ** Rows *)

Abbreviation row := (list (string * json)).

Lemma to_tree_inj a b : to_tree a = to_tree b -> a = b.
Proof. intros E. apply (f_equal of_tree) in E. rewrite !of_to_tree in E. by injection E. Qed.

#[export] Instance json_eq_dec : EqDecision json.
Proof.
  intros a b. destruct (decide (to_tree a = to_tree b)) as [E | N].
  - left. by apply to_tree_inj.
  - right. by intros ->.
Defined.

(** [QVariantMap::value(key)]: the invalid variant when absent. *)
Definition value (k : string) (r : row) : json := default JNull (obj_get k r).

(** [QVariantMap::insert(map)]: every entry overwrites. *)
Definition merge (r values : row) : row := foldl (fun acc kv => obj_set kv.1 kv.2 acc) r values.

(** [QVariant::toString], [toInt] and [toBool] of the variants the client stores. *)
Definition to_str (v : json) : string :=
  match v with
  | JStr s => s
  | JInt z | JUInt z => to_string z
  | JBool b => if b then "true" else "false"
  | _ => ""
  end.

(** [QString::toInt] in base ten: 0 when the text is not an [int]. *)
Definition text_to_int (s : string) : Z :=
  let t := ascii_trimmed s in
  let '(sign, digits) := match t with
                         | String c d => if code c =? 45 then (-1, d) else if code c =? 43 then (1, d) else (1, t)
                         | "" => (1, t)
                         end in
  let z := sign * dec_value 0 digits in
  if negb (is_empty digits) && string_forall is_digit digits && (- INT32_MAX - 1 <=? z) && (z <=? INT32_MAX) then z else 0.

Definition to_int (v : json) : Z :=
  match v with JInt z | JUInt z => z | JBool b => Z.b2z b | JStr s => text_to_int s | _ => 0 end.
Definition to_bool (v : json) : bool :=
  match v with
  | JBool b => b
  | JInt z | JUInt z => negb (z =? 0)
  | JStr s => negb (is_empty s || String.eqb s "0" || String.eqb (ascii_lower s) "false")
  | _ => false
  end.

(** ** The model *)

Inductive note :=
  | ResetModel
  | InsertRows (first last : Z)
  | RemoveRows (first last : Z)
  | DataChanged (first last : Z).

Record ListModel := mk_model {
  lm_roles : list string;
  lm_rows : list row;
  lm_log : list (note * list row);
}.

#[export] Instance eta_ListModel : EtaRecord ListModel := fun m =>
  {| lm_roles := lm_roles m; lm_rows := lm_rows m; lm_log := lm_log m |}.

Definition new_model (roles : list string) : ListModel := mk_model roles [] [].

Definition kMaxRowsPerModel : Z := 1000.

Definition len {A} (l : list A) : Z := Z.of_nat (length l).

Definition rowCount (m : ListModel) : Z := len (lm_rows m).

(** Replace the rows and announce it. *)
Definition announce (n : note) (rows : list row) (m : ListModel) : ListModel :=
  m <| lm_rows := rows |> <| lm_log ::= fun l => l ++ [(n, rows)] |>.

Lemma announce_rows n rows m : lm_rows (announce n rows m) = rows.
Proof. done. Qed.

(** [mid(size - max)] when longer than [max]. *)
Definition clip (rows : list row) : list row :=
  if kMaxRowsPerModel <? len rows then drop (Z.to_nat (len rows - kMaxRowsPerModel)) rows else rows.

Fixpoint find_index (p : row -> bool) (rows : list row) (i : Z) : Z :=
  match rows with
  | [] => -1
  | r :: rest => if p r then i else find_index p rest (i + 1)
  end.

Definition findRow (roleName : string) (v : json) (m : ListModel) : Z :=
  find_index (fun r => bool_decide (value roleName r = v)) (lm_rows m) 0.

Definition valueAt (i : Z) (roleName : string) (m : ListModel) : json :=
  if (i <? 0) || (rowCount m <=? i) then JNull
  else match lm_rows m !! Z.to_nat i with Some r => value roleName r | None => JNull end.

(** [data(index, role)] with the role given by its name. *)
Definition data (i : Z) (roleName : string) (m : ListModel) : json :=
  if bool_decide (roleName ∈ lm_roles m) then valueAt i roleName m else JNull.

Definition updateRow (i : Z) (values : row) (m : ListModel) : ListModel :=
  if (i <? 0) || (rowCount m <=? i) || bool_decide (values = []) then m
  else announce (DataChanged i i) (alter (fun r => merge r values) (Z.to_nat i) (lm_rows m)) m.

(** The loop of [appendRows] that sorts out known and repeated message ids. *)
Fixpoint dedup (incoming : list row) (m : ListModel) (unique : list row) (seen : gmap string nat)
    : ListModel * list row :=
  match incoming with
  | [] => (m, unique)
  | r :: rest =>
      let messageId := to_str (value "messageId" r) in
      if is_empty messageId then dedup rest m (unique ++ [r]) seen
      else
        let existing := findRow "messageId" (JStr messageId) m in
        if 0 <=? existing then dedup rest (updateRow existing r m) unique seen
        else match seen !! messageId with
             | Some i => dedup rest m (alter (fun u => merge u r) i unique) seen
             | None => dedup rest m (unique ++ [r]) (<[messageId := length unique]> seen)
             end
  end.

Definition appendRows (rows : list row) (m : ListModel) : ListModel :=
  if bool_decide (rows = []) then m
  else
    let '(m1, incoming) :=
      if bool_decide ("messageId" ∈ lm_roles m) then dedup rows m [] ∅ else (m, rows) in
    if bool_decide (incoming = []) then m1
    else
      let incoming := clip incoming in
      let overflow := Z.max 0 (rowCount m1 + len incoming - kMaxRowsPerModel) in
      if (rowCount m1 <=? overflow) && negb (bool_decide (lm_rows m1 = []))
      then announce ResetModel incoming m1
      else
        let m2 := if 0 <? overflow
                  then announce (RemoveRows 0 (overflow - 1)) (drop (Z.to_nat overflow) (lm_rows m1)) m1
                  else m1 in
        announce (InsertRows (rowCount m2) (rowCount m2 + len incoming - 1)) (lm_rows m2 ++ incoming) m2.

Definition append (r : row) (m : ListModel) : ListModel := appendRows [r] m.

Definition prependRows (rows : list row) (m : ListModel) : ListModel :=
  if bool_decide (rows = []) then m
  else
    let incoming := clip rows in
    let overflow := Z.max 0 (rowCount m + len incoming - kMaxRowsPerModel) in
    if (rowCount m <=? overflow) && negb (bool_decide (lm_rows m = []))
    then announce ResetModel incoming m
    else
      let m1 := if 0 <? overflow
                then announce (RemoveRows (rowCount m - overflow) (rowCount m - 1))
                       (take (Z.to_nat (rowCount m - overflow)) (lm_rows m)) m
                else m in
      announce (InsertRows 0 (len incoming - 1)) (incoming ++ lm_rows m1) m1.

Definition replaceRows (rows : list row) (m : ListModel) : ListModel :=
  let replacement := clip rows in
  if bool_decide (lm_rows m = replacement) then m else announce ResetModel replacement m.

Definition clear (m : ListModel) : ListModel := replaceRows [] m.

(** One row of [updateRows]: whether a shown value changes, and the new row. *)
Definition differs (r values : row) : bool :=
  existsb (fun kv => negb (bool_decide (value kv.1 r = kv.2))) values.

Fixpoint update_each (rows valuesByRow : list row) : list row * bool :=
  match rows, valuesByRow with
  | r :: rows', v :: values' =>
      let '(rest, changed) := update_each rows' values' in (merge r v :: rest, differs r v || changed)
  | _, _ => (rows, false)
  end.

Definition updateRows (valuesByRow : list row) (m : ListModel) : ListModel :=
  let lastRow := Z.min (rowCount m) (len valuesByRow) - 1 in
  if lastRow <? 0 then m
  else
    let '(rows, changed) := update_each (lm_rows m) valuesByRow in
    if changed then announce (DataChanged 0 lastRow) rows m else m <| lm_rows := rows |>.

Definition removeRow (i : Z) (m : ListModel) : ListModel :=
  if (i <? 0) || (rowCount m <=? i) then m
  else announce (RemoveRows i i) (take (Z.to_nat i) (lm_rows m) ++ drop (S (Z.to_nat i)) (lm_rows m)) m.

(** The loop of [removeRowsByValue], from the last row down. *)
Fixpoint remove_down (n : nat) (roleName : string) (v : json) (m : ListModel) : ListModel :=
  match n with
  | O => m
  | S n' =>
      remove_down n' roleName v
        (if bool_decide (valueAt (Z.of_nat n') roleName m = v) then removeRow (Z.of_nat n') m else m)
  end.

Definition removeRowsByValue (roleName : string) (v : json) (m : ListModel) : ListModel :=
  remove_down (length (lm_rows m)) roleName v m.

(** ** What a view shows

    A view keeps a copy of the rows and brings it up to date at each
    announcement, reading the announced rows from the model. *)

Definition apply_note (view : list row) (e : note * list row) : list row :=
  let '(n, rows) := e in
  match n with
  | ResetModel => rows
  | InsertRows a b =>
      take (Z.to_nat a) view ++ take (Z.to_nat (b + 1 - a)) (drop (Z.to_nat a) rows) ++ drop (Z.to_nat a) view
  | RemoveRows a b => take (Z.to_nat a) view ++ drop (Z.to_nat (b + 1)) view
  | DataChanged a b =>
      take (Z.to_nat a) view ++ take (Z.to_nat (b + 1 - a)) (drop (Z.to_nat a) rows) ++ drop (Z.to_nat (b + 1)) view
  end.

Definition shown (m : ListModel) : list row := foldl apply_note [] (lm_log m).

(** Two rows that show the same value under every role. *)
Definition row_equiv (r r' : row) : Prop := forall k, value k r = value k r'.

#[export] Instance row_equiv_equivalence : Equivalence row_equiv.
Proof. split; unfold row_equiv; [by intros r k | by intros r r' H k | by intros r r' r'' H H' k; rewrite H]. Qed.

Definition in_sync (m : ListModel) : Prop := Forall2 row_equiv (shown m) (lm_rows m).

(** ** The lists *)

Definition takelast (n : Z) (rows : list row) : list row := drop (Z.to_nat (len rows - n)) rows.

Lemma clip_takelast rows : clip rows = takelast kMaxRowsPerModel rows.
Proof.
  unfold clip, takelast. destruct (kMaxRowsPerModel <? len rows) eqn:E; [done |]. bool_hyps.
  replace (Z.to_nat (len rows - kMaxRowsPerModel)) with 0%nat by lia. done.
Qed.

Lemma len_takelast n rows : 0 <= n -> len (takelast n rows) = Z.min n (len rows).
Proof. intros Hn. unfold takelast, len. rewrite length_drop. lia. Qed.

Lemma takelast_short n rows : len rows <= n -> takelast n rows = rows.
Proof. intros H. unfold takelast. by replace (Z.to_nat _) with 0%nat by lia. Qed.

Lemma len_app {A} (l l' : list A) : len (l ++ l') = len l + len l'.
Proof. unfold len. rewrite length_app. lia. Qed.

Lemma len_nonneg {A} (l : list A) : 0 <= len l.
Proof. unfold len. lia. Qed.

Lemma takelast_app n l l' : 0 <= n -> len l' <= n -> takelast n (l ++ l') = takelast (n - len l') l ++ l'.
Proof.
  intros Hn Hl. unfold takelast. rewrite len_app.
  replace (len l + len l' - n) with (len l - (n - len l')) by lia.
  rewrite drop_app_le; [done |]. unfold len in *. lia.
Qed.

Lemma takelast_app_over n l l' : 0 <= n -> n <= len l' -> takelast n (l ++ l') = takelast n l'.
Proof.
  intros Hn Hl. unfold takelast. rewrite len_app. pose proof (len_nonneg l).
  rewrite drop_app_ge by (unfold len in *; lia). f_equal. unfold len in *. lia.
Qed.

(** ** Appending and prepending, on the rows *)

(** [appendRows] after the message ids have been sorted out. *)
Definition push (incoming : list row) (m1 : ListModel) : ListModel :=
  if bool_decide (incoming = []) then m1
  else
    let incoming := clip incoming in
    let overflow := Z.max 0 (rowCount m1 + len incoming - kMaxRowsPerModel) in
    if (rowCount m1 <=? overflow) && negb (bool_decide (lm_rows m1 = []))
    then announce ResetModel incoming m1
    else
      let m2 := if 0 <? overflow
                then announce (RemoveRows 0 (overflow - 1)) (drop (Z.to_nat overflow) (lm_rows m1)) m1
                else m1 in
      announce (InsertRows (rowCount m2) (rowCount m2 + len incoming - 1)) (lm_rows m2 ++ incoming) m2.

Lemma appendRows_push rows m :
  appendRows rows m =
    if bool_decide (rows = []) then m
    else if bool_decide ("messageId" ∈ lm_roles m)
         then push (dedup rows m [] ∅).2 (dedup rows m [] ∅).1 else push rows m.
Proof.
  unfold appendRows. destruct (bool_decide (rows = [])); [done |].
  destruct (bool_decide ("messageId" ∈ _)); [by destruct (dedup rows m [] ∅) | done].
Qed.

Definition fits (m : ListModel) : Prop := rowCount m <= kMaxRowsPerModel.

Lemma push_rows incoming m : fits m -> lm_rows (push incoming m) = takelast kMaxRowsPerModel (lm_rows m ++ incoming).
Proof.
  intros Hf. unfold push, fits, rowCount in *.
  case_bool_decide as Hi.
  { subst. by rewrite app_nil_r, takelast_short. }
  rewrite clip_takelast. set (inc := takelast kMaxRowsPerModel incoming).
  assert (takelast kMaxRowsPerModel (lm_rows m ++ incoming) = takelast kMaxRowsPerModel (lm_rows m ++ inc)) as ->.
  { destruct (Z.le_ge_cases (len incoming) kMaxRowsPerModel) as [Hle | Hge].
    - subst inc. by rewrite (takelast_short _ incoming).
    - rewrite !takelast_app_over; try done; subst inc; rewrite ?len_takelast by done; [| lia].
      by rewrite (takelast_short _ (takelast _ incoming)) by (rewrite len_takelast by done; lia). }
  assert (len inc <= kMaxRowsPerModel) as Hinc by (subst inc; rewrite len_takelast by done; lia).
  pose proof (len_nonneg (lm_rows m)). pose proof (len_nonneg inc).
  set (ov := Z.max 0 _). rewrite takelast_app by done.
  destruct (_ && _)%bool eqn:Er; bool_hyps.
  - cbn. unfold takelast at 1. rewrite drop_ge by (unfold len in *; lia). done.
  - destruct (0 <? ov) eqn:Eo; bool_hyps; cbn.
    + f_equal. unfold takelast. f_equal. unfold len in *. lia.
    + unfold takelast at 1. replace (Z.to_nat _) with 0%nat by (unfold len in *; lia). done.
Qed.

Lemma prependRows_rows rows m : fits m ->
  lm_rows (prependRows rows m) = take (Z.to_nat kMaxRowsPerModel) (clip rows ++ lm_rows m).
Proof.
  intros Hf. unfold prependRows, fits, rowCount in *.
  destruct (bool_decide (rows = [])) eqn:Hi; bool_hyps.
  { subst. change (clip []) with (@nil row). cbn [app]. rewrite take_ge; [done |]. unfold len in *. lia. }
  set (inc := clip rows).
  assert (len inc <= kMaxRowsPerModel) as Hinc by (subst inc; rewrite clip_takelast, len_takelast by done; lia).
  pose proof (len_nonneg (lm_rows m)). pose proof (len_nonneg inc). set (ov := Z.max 0 _).
  rewrite take_app, (take_ge inc) by (unfold len in *; lia).
  destruct (_ && _)%bool eqn:Er; bool_hyps.
  - rewrite announce_rows.
    assert (0 < len (lm_rows m)) by (destruct (lm_rows m); [done | unfold len; cbn [length]; lia]).
    replace (Z.to_nat kMaxRowsPerModel - length inc)%nat with 0%nat by (unfold len in *; lia).
    cbn [take]. symmetry. apply app_nil_r.
  - rewrite announce_rows. destruct (0 <? ov) eqn:Eo; bool_hyps; rewrite ?announce_rows.
    + do 2 f_equal. unfold len in *. lia.
    + rewrite (take_ge (lm_rows m)) by (unfold len in *; lia). done.
Qed.

(** ** Views stay in sync *)

Lemma shown_announce n rows m : shown (announce n rows m) = apply_note (shown m) (n, rows).
Proof. unfold shown, announce. cbn. by rewrite foldl_snoc. Qed.

Lemma Forall2_refl_rows (l : list row) : Forall2 row_equiv l l.
Proof. induction l; constructor; [reflexivity | done]. Qed.

Lemma sync_reset rows m : in_sync (announce ResetModel rows m).
Proof. unfold in_sync. rewrite shown_announce. cbn. apply Forall2_refl_rows. Qed.

Lemma sync_insert a mid m : in_sync m -> (a <= length (lm_rows m))%nat ->
  in_sync (announce (InsertRows (Z.of_nat a) (Z.of_nat a + len mid - 1))
             (take a (lm_rows m) ++ mid ++ drop a (lm_rows m)) m).
Proof.
  intros Hs Ha. unfold in_sync. rewrite shown_announce. cbn [apply_note lm_rows announce].
  rewrite !Nat2Z.id. replace (Z.to_nat (Z.of_nat a + len mid - 1 + 1 - Z.of_nat a)) with (length mid) by (unfold len; lia).
  rewrite drop_app_length' by (rewrite length_take; lia). rewrite take_app_length.
  repeat apply Forall2_app; [by apply Forall2_take | apply Forall2_refl_rows | by apply Forall2_drop].
Qed.

Lemma sync_remove a b m : in_sync m ->
  in_sync (announce (RemoveRows (Z.of_nat a) (Z.of_nat b - 1)) (take a (lm_rows m) ++ drop b (lm_rows m)) m).
Proof.
  intros Hs. unfold in_sync. rewrite shown_announce. cbn [apply_note lm_rows announce].
  rewrite Nat2Z.id. replace (Z.to_nat (Z.of_nat b - 1 + 1)) with b by lia.
  apply Forall2_app; [by apply Forall2_take | by apply Forall2_drop].
Qed.

Lemma sync_changed a mid m : in_sync m -> (a + length mid <= length (lm_rows m))%nat ->
  in_sync (announce (DataChanged (Z.of_nat a) (Z.of_nat a + len mid - 1))
             (take a (lm_rows m) ++ mid ++ drop (a + length mid) (lm_rows m)) m).
Proof.
  intros Hs Ha. unfold in_sync. rewrite shown_announce. cbn [apply_note lm_rows announce].
  rewrite !Nat2Z.id. replace (Z.to_nat (Z.of_nat a + len mid - 1 + 1 - Z.of_nat a)) with (length mid) by (unfold len; lia).
  replace (Z.to_nat (Z.of_nat a + len mid - 1 + 1)) with (a + length mid)%nat by (unfold len; lia).
  rewrite drop_app_length' by (rewrite length_take; lia). rewrite take_app_length.
  repeat apply Forall2_app; [by apply Forall2_take | apply Forall2_refl_rows | by apply Forall2_drop].
Qed.

Lemma alter_split {A} (f : A -> A) i (l : list A) x : l !! i = Some x ->
  alter f i l = take i l ++ [f x] ++ drop (i + 1) l.
Proof.
  intros E. rewrite <- (take_drop_middle l i x E) at 1.
  assert (length (take i l) = i) as Hl by (rewrite length_take; apply lookup_lt_Some in E; lia).
  rewrite alter_app_r_alt by lia. rewrite Hl, Nat.sub_diag. cbn. by rewrite Nat.add_1_r.
Qed.

Lemma updateRow_sync i values m : in_sync m -> in_sync (updateRow i values m).
Proof.
  intros Hs. unfold updateRow. destruct (_ || _ || _)%bool eqn:Eg; [done |].
  apply orb_false_iff in Eg as [[E1 E2]%orb_false_iff _]. bool_hyps. unfold rowCount, len in *.
  destruct (lookup_lt_is_Some_2 (lm_rows m) (Z.to_nat i)) as [r Er]; [lia |].
  rewrite (alter_split _ _ _ r Er).
  pose proof (sync_changed (Z.to_nat i) [merge r values] m Hs) as X. cbn [length len] in X.
  replace (Z.of_nat (Z.to_nat i)) with i in X by lia. replace (i + len [merge r values] - 1) with i in X by (unfold len; cbn; lia).
  apply X. lia.
Qed.

Lemma push_sync incoming m : in_sync m -> in_sync (push incoming m).
Proof.
  intros Hs. unfold push. destruct (bool_decide (incoming = [])); [done |]. set (inc := clip incoming). set (ov := Z.max 0 _).
  destruct (_ && _)%bool; [apply sync_reset |].
  set (m2 := if 0 <? ov then _ else _).
  assert (in_sync m2) as Hs2.
  { subst m2. destruct (0 <? ov) eqn:E; [| done]. bool_hyps.
    pose proof (sync_remove 0 (Z.to_nat ov) m Hs) as X. cbn [take app] in X.
    by replace (Z.of_nat (Z.to_nat ov)) with ov in X by lia. }
  clearbody m2. pose proof (sync_insert (length (lm_rows m2)) inc m2 Hs2 (le_n _)) as X.
  rewrite firstn_all, drop_ge, app_nil_r in X by lia. exact X.
Qed.

Lemma prependRows_sync rows m : in_sync m -> in_sync (prependRows rows m).
Proof.
  intros Hs. unfold prependRows. destruct (bool_decide (rows = [])); [done |]. set (inc := clip rows). set (ov := Z.max 0 _).
  destruct (_ && _)%bool eqn:Er; [apply sync_reset |].
  set (m2 := if 0 <? ov then _ else _).
  assert (in_sync m2) as Hs2.
  { subst m2. destruct (0 <? ov) eqn:E; [| done]. bool_hyps.
    assert (ov <= rowCount m) as Hov.
    { destruct Er as [Er | Er]; bool_hyps; [lia |]. subst ov. unfold rowCount, len in *.
      rewrite Er in *. cbn in *. pose proof (len_takelast kMaxRowsPerModel rows ltac:(done)).
      subst inc. rewrite clip_takelast in *. unfold len in *. lia. }
    pose proof (sync_remove (Z.to_nat (rowCount m - ov)) (length (lm_rows m)) m Hs) as X.
    rewrite (drop_ge _ (length _)), app_nil_r in X by lia. unfold rowCount, len in *.
    by replace (Z.of_nat (Z.to_nat (Z.of_nat (length (lm_rows m)) - ov)))
      with (Z.of_nat (length (lm_rows m)) - ov) in X by lia. }
  clearbody m2. exact (sync_insert 0 inc m2 Hs2 (Nat.le_0_l _)).
Qed.

(** ** Merging *)

Lemma value_set k v k' r : value k (obj_set k' v r) = if String.eqb k k' then v else value k r.
Proof. unfold value. rewrite obj_get_set. by destruct (String.eqb k k'). Qed.

Lemma merge_same r values : differs r values = false -> row_equiv (merge r values) r.
Proof.
  unfold differs. intros Hd.
  assert (forall acc, row_equiv acc r -> row_equiv (merge acc values) r) as H; [| by apply H].
  induction values as [| [k v] values IH]; intros acc Ha; [done |].
  cbn in Hd. apply orb_false_iff in Hd as [Hv Hd]. bool_hyps. apply (IH Hd).
  intros k'. rewrite value_set. cbn [fst snd]. destruct (String.eqb_spec k' k) as [-> | _]; [exact (eq_sym Hv) | apply Ha].
Qed.

Lemma update_each_spec rows vs :
  let n := Nat.min (length rows) (length vs) in
  let '(rows', changed) := update_each rows vs in
  rows' = take n rows' ++ drop n rows /\ length rows' = length rows /\
  (changed = false -> Forall2 row_equiv rows' rows).
Proof.
  revert vs. induction rows as [| r rows IH]; intros vs; [destruct vs; cbn; split_and!; done || (intros _; constructor) |].
  destruct vs as [| v vs]; [cbn; split_and!; [done | done | intros _; apply Forall2_refl_rows] |].
  cbn. specialize (IH vs). destruct (update_each rows vs) as [rest changed]. destruct IH as (E & Hl & Hc).
  split_and!; [cbn [take app]; f_equal; exact E | cbn; lia |].
  intros [H1 H2]%orb_false_iff. constructor; [by apply merge_same | auto].
Qed.

Lemma updateRows_sync vs m : in_sync m -> in_sync (updateRows vs m).
Proof.
  intros Hs. unfold updateRows. destruct (_ <? 0) eqn:E0; [done |]. bool_hyps.
  pose proof (update_each_spec (lm_rows m) vs) as Hu. destruct (update_each _ _) as [rows changed].
  destruct Hu as (E & Hl & Hc). set (n := Nat.min _ _) in *. unfold rowCount, len in *.
  destruct changed.
  - pose proof (sync_changed 0 (take n rows) m Hs) as X. rewrite take_0, Nat.add_0_l in X. cbn [app] in X.
    assert (length (take n rows) = n) as Hn by (rewrite length_take; lia).
    unfold len in X. rewrite Hn, <- E in X. replace (Z.of_nat 0 + Z.of_nat n - 1)
      with (Z.min (Z.of_nat (length (lm_rows m))) (Z.of_nat (length vs)) - 1) in X by lia.
    apply X. lia.
  - unfold in_sync, shown in *. cbn. etrans; [exact Hs |]. symmetry. by apply Hc.
Qed.

Lemma removeRow_sync i m : in_sync m -> in_sync (removeRow i m).
Proof.
  intros Hs. unfold removeRow. destruct (_ || _)%bool eqn:Eg; [done |]. bool_hyps.
  pose proof (sync_remove (Z.to_nat i) (S (Z.to_nat i)) m Hs) as X.
  replace (Z.of_nat (Z.to_nat i)) with i in X by lia. by replace (Z.of_nat (S (Z.to_nat i)) - 1) with i in X by lia.
Qed.

Lemma remove_down_ind (P : ListModel -> Prop) n roleName v m :
  (forall i m, P m -> P (removeRow i m)) -> P m -> P (remove_down n roleName v m).
Proof. intros Hr. revert m. induction n as [| n IH]; intros m Hm; [done |]. apply IH. case_bool_decide; auto. Qed.

Lemma replaceRows_sync rows m : in_sync m -> in_sync (replaceRows rows m).
Proof. intros Hs. unfold replaceRows. case_bool_decide; [done | apply sync_reset]. Qed.

Lemma dedup_ind (P : ListModel -> Prop) rows m unique seen :
  (forall i v m, P m -> P (updateRow i v m)) -> P m -> P (dedup rows m unique seen).1.
Proof.
  intros Hu. revert m unique seen. induction rows as [| r rows IH]; intros m unique seen Hm; [done |].
  cbn [dedup]. destruct (is_empty _); [by apply IH |]. destruct (_ <=? _); [by apply IH, Hu |].
  destruct (seen !! _); by apply IH.
Qed.

Lemma appendRows_sync rows m : in_sync m -> in_sync (appendRows rows m).
Proof.
  intros Hs. rewrite appendRows_push. destruct (bool_decide (rows = [])); [done |].
  destruct (bool_decide (_ ∈ _)); apply push_sync; [| done].
  apply dedup_ind; [intros; by apply updateRow_sync | done].
Qed.

(** ** Sizes *)

Lemma updateRow_count i v m : rowCount (updateRow i v m) = rowCount m.
Proof.
  unfold updateRow. destruct (_ || _ || _)%bool; [done |]. unfold rowCount, len.
  by rewrite announce_rows, length_alter.
Qed.

Lemma appendRows_fits rows m : fits m -> fits (appendRows rows m).
Proof.
  intros Hf. rewrite appendRows_push. destruct (bool_decide (rows = [])); [done |].
  assert (forall inc m', fits m' -> fits (push inc m')) as Hp.
  { intros inc m' Hf'. unfold fits, rowCount. rewrite push_rows, len_takelast by done. lia. }
  destruct (bool_decide (_ ∈ _)); apply Hp; [| done].
  apply dedup_ind; [| done]. intros i v m' Hm. unfold fits. by rewrite updateRow_count.
Qed.

Lemma prependRows_fits rows m : fits m -> fits (prependRows rows m).
Proof. intros Hf. unfold fits, rowCount, len. rewrite prependRows_rows, length_take by done. unfold kMaxRowsPerModel. lia. Qed.

Lemma replaceRows_fits rows m : fits m -> fits (replaceRows rows m).
Proof.
  intros Hf. unfold replaceRows. case_bool_decide; [done |]. unfold fits, rowCount.
  rewrite announce_rows, clip_takelast, len_takelast by done. lia.
Qed.

Lemma updateRows_fits vs m : fits m -> fits (updateRows vs m).
Proof.
  intros Hf. unfold updateRows. destruct (_ <? 0); [done |].
  pose proof (update_each_spec (lm_rows m) vs) as Hu. destruct (update_each _ _) as [rows changed].
  destruct Hu as (_ & Hl & _).
  destruct changed; unfold fits, rowCount, len in *; cbn -[kMaxRowsPerModel]; by rewrite Hl.
Qed.

Lemma removeRow_fits i m : fits m -> fits (removeRow i m).
Proof.
  intros Hf. unfold removeRow. destruct (_ || _)%bool; [done |]. unfold fits, rowCount, len in *.
  rewrite announce_rows, length_app, length_take, length_drop. lia.
Qed.

(** ** Any sequence of calls *)

Inductive model_call :=
  | MAppend (rows : list row)
  | MPrepend (rows : list row)
  | MReplace (rows : list row)
  | MUpdateRow (i : Z) (values : row)
  | MUpdateRows (values : list row)
  | MRemoveRow (i : Z)
  | MRemoveByValue (roleName : string) (v : json)
  | MClear.

Definition model_step (c : model_call) (m : ListModel) : ListModel :=
  match c with
  | MAppend rows => appendRows rows m
  | MPrepend rows => prependRows rows m
  | MReplace rows => replaceRows rows m
  | MUpdateRow i v => updateRow i v m
  | MUpdateRows v => updateRows v m
  | MRemoveRow i => removeRow i m
  | MRemoveByValue k v => removeRowsByValue k v m
  | MClear => clear m
  end.

(** after any sequence of calls on a new model there are at most 1000 rows,
    and a view that follows the announced changes shows, under every role, the
    values of exactly the model's rows. *)
Theorem model_bounded_and_in_sync roles calls :
  let m := foldl (fun m c => model_step c m) (new_model roles) calls in
  rowCount m <= kMaxRowsPerModel /\ in_sync m.
Proof.
  assert (forall m, fits m /\ in_sync m -> let m' := foldl (fun m c => model_step c m) m calls in
            fits m' /\ in_sync m') as H; [| by apply H; split; [done | constructor]].
  induction calls as [| c calls IH]; intros m Hm; [done |]. cbn [foldl]. apply IH. destruct Hm as [Hf Hs].
  destruct c; cbn [model_step].
  - split; [by apply appendRows_fits | by apply appendRows_sync].
  - split; [by apply prependRows_fits | by apply prependRows_sync].
  - split; [by apply replaceRows_fits | by apply replaceRows_sync].
  - split; [unfold fits; by rewrite updateRow_count | by apply updateRow_sync].
  - split; [by apply updateRows_fits | by apply updateRows_sync].
  - split; [by apply removeRow_fits | by apply removeRow_sync].
  - unfold removeRowsByValue. split; apply remove_down_ind; auto using removeRow_fits, removeRow_sync.
  - split; [by apply replaceRows_fits | by apply replaceRows_sync].
Qed.

(** ** Message ids are unique *)

Definition message_id_of (r : row) : json := value "messageId" r.

Definition is_id (j : json) : bool := match j with JStr s => negb (is_empty s) | _ => false end.

Definition ids (rows : list row) : list json := filter (fun j => is_id j = true) (map message_id_of rows).

(** A row as the controller builds it: a map with a text message id. *)
Definition message_row (r : row) : Prop := NoDup (map fst r) /\ exists s, message_id_of r = JStr s.

Lemma ids_app l l' : ids (l ++ l') = ids l ++ ids l'.
Proof. unfold ids. by rewrite map_app, filter_app. Qed.

Lemma ids_single r s : message_id_of r = JStr s -> ids [r] = if is_empty s then [] else [JStr s].
Proof. intros E. unfold ids. cbn [map]. rewrite E, filter_cons. by destruct s. Qed.

Lemma obj_get_fresh {A} k (o : list (string * A)) : k ∉ map fst o -> obj_get k o = None.
Proof.
  induction o as [| [k1 v1] o IH]; [done |]. cbn. intros [Hne Hk]%not_elem_of_cons.
  apply String.eqb_neq in Hne as ->. auto.
Qed.

Lemma value_merge k r values : NoDup (map fst values) ->
  value k (merge r values) = match obj_get k values with Some v => v | None => value k r end.
Proof.
  revert r. induction values as [| [k1 v1] values IH]; intros r Hn; [done |].
  cbn in Hn. apply NoDup_cons in Hn as [Hk Hn]. cbn [merge foldl fst snd obj_get].
  rewrite (IH _ Hn), value_set. destruct (String.eqb_spec k k1) as [-> | Hne]; [| done].
  by rewrite obj_get_fresh.
Qed.

(** Merging a row with the same id keeps the id. *)
Lemma merge_id r v s : message_row v -> message_id_of v = JStr s -> message_id_of r = JStr s ->
  message_id_of (merge r v) = message_id_of r.
Proof.
  intros [Hn _] Hv Hr. unfold message_id_of in *. rewrite (value_merge _ r v Hn).
  unfold value in Hv. destruct (obj_get "messageId" v); cbn in Hv; [by subst; rewrite Hr | done].
Qed.

Lemma alter_ids f i rows : (forall r, rows !! i = Some r -> message_id_of (f r) = message_id_of r) ->
  map message_id_of (alter f i rows) = map message_id_of rows.
Proof.
  revert i. induction rows as [| r rows IH]; intros [| i] H; cbn; try done.
  - f_equal. by apply H.
  - f_equal. by apply IH.
Qed.

Lemma find_index_spec p rows i0 : 
  (find_index p rows i0 = -1 /\ Forall (fun r => p r = false) rows) \/
  (exists n r, find_index p rows i0 = i0 + Z.of_nat n /\ rows !! n = Some r /\ p r = true).
Proof.
  revert i0. induction rows as [| r rows IH]; intros i0; [by left |]. cbn.
  destruct (p r) eqn:E; [right; exists 0%nat, r; split_and!; [lia | done | done] |].
  destruct (IH (i0 + 1)) as [[-> Hf] | (n & r' & -> & Hr & Hp)].
  - left. auto.
  - right. exists (S n), r'. split_and!; [lia | done | done].
Qed.

(** The rows collected so far and the index of their ids. *)
Record dedup_inv (m : ListModel) (unique : list row) (seen : gmap string nat) : Prop := {
  di_nodup : NoDup (ids (lm_rows m ++ unique));
  di_seen : forall s i, seen !! s = Some i -> exists r, unique !! i = Some r /\ message_id_of r = JStr s;
  di_known : forall s, s <> "" -> JStr s ∈ map message_id_of unique -> is_Some (seen !! s);
}.

Lemma ids_elem s rows : JStr s ∈ ids rows <-> s <> "" /\ JStr s ∈ map message_id_of rows.
Proof. unfold ids. rewrite list_elem_of_filter. cbn. by rewrite negb_true_iff, is_empty_false. Qed.

Lemma updateRow_ids i v m s r :
  message_row v -> message_id_of v = JStr s -> lm_rows m !! i = Some r -> message_id_of r = JStr s ->
  map message_id_of (lm_rows (updateRow (Z.of_nat i) v m)) = map message_id_of (lm_rows m).
Proof.
  intros Hv Hs Hr Hrs. unfold updateRow. destruct (_ || _ || _)%bool; [done |].
  rewrite announce_rows, Nat2Z.id. apply alter_ids. intros r' Hr'. rewrite Hr in Hr'. injection Hr' as <-.
  by eapply merge_id.
Qed.

Lemma dedup_unique rows m unique seen :
  Forall message_row rows -> dedup_inv m unique seen ->
  NoDup (ids (lm_rows (dedup rows m unique seen).1 ++ (dedup rows m unique seen).2)).
Proof.
  intros Hrows. revert m unique seen.
  induction Hrows as [| r rows [Hk [s Hs]] _ IH]; intros m unique seen Hi; [apply Hi |].
  cbn [dedup]. fold (message_id_of r). rewrite Hs. cbn [to_str].
  destruct (is_empty s) eqn:Es.
  { apply is_empty_true in Es. subst s. apply IH. destruct Hi as [Hn Hse Hkn]. split.
    - by rewrite app_assoc, ids_app, (ids_single r "" Hs), app_nil_r.
    - intros s i Hsi. destruct (Hse s i Hsi) as (r' & Hr' & Hid). exists r'. split; [| done].
      by apply lookup_app_l_Some.
    - intros s Hne. rewrite map_app, elem_of_app. cbn. rewrite Hs, list_elem_of_singleton.
      intros [Hin | [= ->]]; [by apply Hkn | done]. }
  apply is_empty_false in Es.
  destruct (find_index_spec (fun r' => bool_decide (value "messageId" r' = JStr s)) (lm_rows m) 0)
    as [[Hf Hall] | (n & r' & Hf & Hr' & Hp)]; unfold findRow; rewrite Hf.
  - cbn [Z.leb]. change (0 <=? -1) with false. cbv iota.
    assert (JStr s ∉ map message_id_of (lm_rows m)) as Hnew.
    { intros Hin. apply list_elem_of_fmap in Hin as (r' & Er' & Hin). rewrite Forall_forall in Hall.
      specialize (Hall r' Hin). bool_hyps. by rewrite Er' in Hall. }
    destruct (seen !! s) as [i |] eqn:Ese.
    + destruct Hi as [Hn Hse Hkn]. destruct (Hse s i Ese) as (u & Hu & Hus).
      assert (map message_id_of (alter (fun u => merge u r) i unique) = map message_id_of unique) as Em.
      { apply alter_ids. intros u' Hu'. rewrite Hu in Hu'. injection Hu' as <-.
        eapply merge_id; [split; eauto | exact Hs | exact Hus]. }
      apply IH. split.
      * unfold ids in *. by rewrite map_app, Em, <- map_app.
      * intros s' j Hj. destruct (Hse s' j Hj) as (w & Hw & Hws).
        destruct (decide (i = j)) as [<- | Hne].
        -- exists (merge w r). rewrite list_lookup_alter_eq, Hw. split; [done |].
           rewrite Hu in Hw. injection Hw as <-.
           rewrite (merge_id u r s); [done | split; eauto | done | done].
        -- exists w. by rewrite list_lookup_alter_ne.
      * intros s' Hne. rewrite Em. by apply Hkn.
    + destruct Hi as [Hn Hse Hkn]. apply IH. split.
      * rewrite app_assoc, ids_app. apply NoDup_app. split_and!; [done | |].
        -- intros x Hx Hin. rewrite (ids_single r s Hs), (proj2 (is_empty_false s) Es) in Hin.
           apply list_elem_of_singleton in Hin as ->. apply ids_elem in Hx as [_ Hx].
           rewrite map_app, elem_of_app in Hx. destruct Hx as [Hx | Hx]; [done |].
           destruct (Hkn s Es Hx) as [? ?]. congruence.
        -- rewrite (ids_single r s Hs). destruct (is_empty s); repeat constructor. apply not_elem_of_nil.
      * intros s' j. rewrite lookup_insert_Some. intros [[<- <-] | [Hne Hj]].
        -- exists r. split; [by apply list_lookup_middle | done].
        -- destruct (Hse s' j Hj) as (w & Hw & Hws). exists w. split; [by apply lookup_app_l_Some | done].
      * intros s' Hne. rewrite map_app, elem_of_app. cbn. rewrite Hs, list_elem_of_singleton.
        intros [Hin | [= ->]]; [| rewrite lookup_insert_eq; eauto].
        rewrite lookup_insert_is_Some'. right. by apply Hkn.
  - rewrite Z.add_0_l, (proj2 (Z.leb_le _ _)) by lia. bool_hyps.
    pose proof (updateRow_ids n r m s r' (conj Hk (ex_intro _ s Hs)) Hs Hr' Hp) as Eu.
    apply IH. destruct Hi as [Hn Hse Hkn]. split; [| done | done].
    unfold ids in *. by rewrite map_app, Eu, <- map_app.
Qed.

(** On a model with message ids, appending message rows keeps every non-empty
    message id in at most one row, whether it was known, is new or is repeated
    among the new rows. *)
Lemma appendRows_ids rows m :
  "messageId" ∈ lm_roles m -> fits m -> Forall message_row rows -> NoDup (ids (lm_rows m)) ->
  NoDup (ids (lm_rows (appendRows rows m))).
Proof.
  intros Hrole Hf Hr Hn. rewrite appendRows_push. destruct (bool_decide (rows = [])); [done |].
  rewrite bool_decide_eq_true_2 by done. rewrite push_rows.
  2: { apply dedup_ind; [| done]. intros i v m' Hm. unfold fits. by rewrite updateRow_count. }
  set (all := _ ++ _). assert (NoDup (ids all)) as Ha.
  { apply dedup_unique; [done |]. split; [by rewrite app_nil_r | done | by intros s _ ?%not_elem_of_nil]. }
  unfold takelast. set (k := Z.to_nat _). rewrite <- (take_drop k all), ids_app in Ha.
  by apply NoDup_app in Ha as (_ & _ & Ha).
Qed.
