(* ===== verification/BridgeProtocol.v ===== *)
(** * BridgeProtocol: commands from and state for the web view

    Models client-cpp/gui/src/bridge_protocol.{hpp,cpp}: the validation of every
    command type, the result and error objects and the removal of secrets from
    the serialized state.  QJson values are [json] values; a number is an exact
    dyadic fraction, so the comparisons of the code are exact. *)

From S2P Require Import Prelude Text Protocol Json Message.
From Stdlib Require Import SpecFloat.

(** ** Numbers *)

(** The number [m * 2 ^ e] of a JSON value ([isDouble]). *)
Definition number (j : option json) : option (Z * Z) :=
  match j with
  | Some (JInt z) | Some (JUInt z) => Some (z, 0)
  | Some (JFloat (S754_finite s m e)) => Some (if s then Zneg m else Zpos m, e)
  | Some (JFloat (S754_zero _)) => Some (0, 0)
  | _ => None
  end.

Definition num_compare (x : Z * Z) (n : Z) : comparison :=
  let '(m, e) := x in
  if 0 <=? e then Z.compare (m * 2 ^ e) n else Z.compare m (n * 2 ^ (- e)).

Definition num_gt (x : Z * Z) (n : Z) : bool := match num_compare x n with Gt => true | _ => false end.
Definition num_lt (x : Z * Z) (n : Z) : bool := match num_compare x n with Lt => true | _ => false end.
Definition num_le (x : Z * Z) (n : Z) : bool := negb (num_gt x n).
Definition num_ge (x : Z * Z) (n : Z) : bool := negb (num_lt x n).

(** [std::floor(x) == x] *)
Definition num_whole (x : Z * Z) : bool :=
  let '(m, e) := x in (0 <=? e) || (m mod 2 ^ (- e) =? 0).

Definition num_floor (x : Z * Z) : Z :=
  let '(m, e) := x in if 0 <=? e then m * 2 ^ e else m / 2 ^ (- e).

(** [QJsonValue::toInt]: 0 unless the value is a whole number of [int] range. *)
Definition toInt (j : option json) : Z :=
  match number j with
  | Some x => if num_whole x && (- INT32_MAX - 1 <=? num_floor x) && (num_floor x <=? INT32_MAX)
              then num_floor x else 0
  | None => 0
  end.

Definition isDouble (j : option json) : bool := bool_decide (is_Some (number j)).
Definition isBool (j : option json) : bool := match j with Some (JBool _) => true | _ => false end.
Definition isString (j : option json) : bool := match j with Some (JStr _) => true | _ => false end.
Definition isObject (j : option json) : bool := match j with Some (JObj _) => true | _ => false end.

(** [QJsonValue::toString]: empty unless it is a string. *)
Definition toString (j : option json) : string := match j with Some (JStr s) => s | _ => "" end.
Definition toObject (j : option json) : list (string * json) := match j with Some (JObj o) => o | _ => [] end.

(** ** Field tests *)

Section Validation.
  Context `{QtText}.

Abbreviation object := (list (string * json)).

Definition nonEmptyString (o : object) (key : string) : bool :=
  let v := obj_get key o in isString v && negb (is_empty (trimmed (toString v))).

Definition booleanValue (o : object) (key : string) : bool := isBool (obj_get key o).

Definition boundedUtf8String (o : object) (key : string) (maxBytes : Z) (requireNonEmpty : bool) : bool :=
  match obj_get key o with
  | Some (JStr text) =>
      if requireNonEmpty && is_empty (trimmed text) then false else size text <=? maxBytes
  | _ => false
  end.

Definition integerValue (o : object) (key : string) : bool :=
  let v := obj_get key o in isDouble v && (1 <=? toInt v) && (toInt v <=? 65535).

Definition frameTime (sample : json) : bool :=
  match number (Some sample) with
  | Some x => num_gt x 0 && num_le x 1000
  | None => false
  end.

Definition boundedFrameTimes (payload : object) : bool :=
  match obj_get "frameTimesMs" payload with
  | Some (JArr values) =>
      if (Z.of_nat (length values) =? 0) || (8 <? Z.of_nat (length values)) then false else forallb frameTime values
  | _ => false
  end.

Definition hasRequiredStrings (payload : object) (keys : list string) : bool :=
  forallb (nonEmptyString payload) keys.

Definition hasOpaqueCrypto (payload : object) : bool :=
  match obj_get "crypto" payload with Some (JObj (_ :: _)) => true | _ => false end.

Definition isEmptyObject (payload : object) : bool := match payload with [] => true | _ => false end.

(** A whole number that satisfies [test]. *)
Definition wholeNumber (v : option json) (test : Z * Z -> bool) : bool :=
  match number v with Some x => test x && num_whole x | None => false end.

(** ** Commands *)

Definition validatePayload (type : string) (payload : object) : bool :=
  let on := String.eqb type in
  if on "session.connectRemote" then
    hasRequiredStrings payload ["serverIp"; "username"; "userCode"] &&
    integerValue payload "serverPort" &&
    match obj_get "caFile" payload with None | Some (JStr _) => true | _ => false end &&
    match obj_get "tlsServerName" payload with
    | None => true
    | Some (JStr s) => String.eqb s "localhost"
    | _ => false
    end
  else if on "session.connectLocalHost" then
    hasRequiredStrings payload ["serverExe"; "certFile"; "keyFile"; "dbFile"; "username"; "userCode"]
  else if on "session.discoverLanHosts" then isEmptyObject payload
  else if on "session.connectDiscoveredHost" then
    hasRequiredStrings payload ["hostId"; "username"; "userCode"]
  else if on "session.disconnect" || on "directory.refreshUsers" || on "directory.refreshRooms" then
    isEmptyObject payload
  else if on "chat.sendRoom" then
    hasRequiredStrings payload ["room"] && (nonEmptyString payload "content" || hasOpaqueCrypto payload)
  else if on "chat.sendPrivate" then
    hasRequiredStrings payload ["targetUserCode"] && (nonEmptyString payload "content" || hasOpaqueCrypto payload)
  else if on "mls.keyPackage.fetch" then hasRequiredStrings payload ["room"; "targetUserCode"]
  else if on "mls.group.add" || on "mls.group.remove" then
    hasRequiredStrings payload ["room"; "groupId"; "targetUserCode"]
  else if on "attachment.init" then
    hasRequiredStrings payload ["room"] &&
    wholeNumber (obj_get "logicalSize" payload) (fun x => num_gt x 0 && num_le x MaxLogicalBytes)
  else if on "attachment.chooseUpload" then hasRequiredStrings payload ["room"]
  else if on "attachment.chunk" then
    let hash := toString (obj_get "cipherSha256" payload) in
    hasRequiredStrings payload ["uploadId"; "ciphertext"; "cipherSha256"] &&
    wholeNumber (obj_get "chunkIndex" payload) (fun x => num_ge x 0 && num_lt x MaxChunkCount) &&
    (qsize hash =? 64) && String.eqb hash (toLower hash)
  else if on "attachment.resume" then hasRequiredStrings payload ["uploadId"]
  else if on "attachment.commit" then hasRequiredStrings payload ["uploadId"]
  else if on "attachment.download" then
    hasRequiredStrings payload ["attachmentId"] &&
    match number (obj_get "chunkIndex" payload) with Some x => num_ge x 0 | None => false end
  else if on "history.search" then isString (obj_get "query" payload)
  else if on "conversation.selectRoom" then hasRequiredStrings payload ["room"]
  else if on "conversation.selectDirect" then hasRequiredStrings payload ["userCode"]
  else if on "conversation.openPrivate" then hasRequiredStrings payload ["displayName"; "userCode"]
  else if on "room.create" then hasRequiredStrings payload ["room"] && booleanValue payload "isPrivate"
  else if on "room.action" then hasRequiredStrings payload ["action"; "room"]
  else if on "admin.action" then hasRequiredStrings payload ["action"]
  else if on "message.copy" then isString (obj_get "text" payload)
  else if on "message.removeLocal" || on "message.recall" || on "message.retry" then
    hasRequiredStrings payload ["messageId"]
  else if on "settings.setPerformanceMode" then
    let mode := toString (obj_get "mode" payload) in
    String.eqb mode "Automatic" || String.eqb mode "High" || String.eqb mode "Balanced" ||
    String.eqb mode "Power Saving"
  else if on "settings.setConnectionLogging" then booleanValue payload "enabled"
  else if on "diagnostics.frontendError" then
    boundedUtf8String payload "name" 2048 true && boundedUtf8String payload "stack" 2048 false
  else if on "performance.reportFrameTimes" then boundedFrameTimes payload
  else false.

(** The result and the error code. *)
Definition validateCommand (command : object) : bool * string :=
  if negb (nonEmptyString command "id") || negb (nonEmptyString command "type")
     || negb (isObject (obj_get "payload" command))
  then (false, "invalid_command")
  else if negb (validatePayload (toString (obj_get "type" command)) (toObject (obj_get "payload" command)))
  then (false, "invalid_command")
  else (true, "").

End Validation.

(** ** Results *)

Definition makeCommandResult (commandId : string) (ok : bool) (error : list (string * json)) : list (string * json) :=
  let result := obj_build [("id", Some (JStr commandId)); ("ok", Some (JBool ok))] in
  if negb ok && negb (isEmptyObject error) then obj_set "error" (JObj error) result else result.

Definition makeError (code message : string) (retryable : bool) (source commandId : string) : list (string * json) :=
  let error := obj_build [("code", Some (JStr code)); ("message", Some (JStr message));
                          ("retryable", Some (JBool retryable)); ("source", Some (JStr source))] in
  if negb (is_empty commandId) then obj_set "commandId" (JStr commandId) error else error.

(** ** Secrets *)

Definition secretKey (k : string) : bool :=
  String.eqb k "password" || String.eqb k "privateKey" || String.eqb k "privateKeyFile" || String.eqb k "keyFile".

Fixpoint withoutSecrets (v : json) : json :=
  match v with
  | JArr l => JArr (map withoutSecrets l)
  | JObj o => JObj (obj_build (map (fun kv => (kv.1, if secretKey kv.1 then None else Some (withoutSecrets kv.2))) o))
  | _ => v
  end.

(** The object that [serializeState] writes. *)
Definition safeState (state : list (string * json)) : list (string * json) :=
  let safe := toObject (Some (withoutSecrets (JObj state))) in
  match obj_get "schemaVersion" safe with
  | Some _ => safe
  | None => obj_set "schemaVersion" (JInt 1) safe
  end.

(** [toJson] is the compact text of QJsonDocument. *)
Definition serializeState (toJson : list (string * json) -> string) (state : list (string * json)) : string :=
  toJson (safeState state).

(** ** No secret survives *)

Fixpoint secret_free (v : json) : bool :=
  match v with
  | JArr l => forallb secret_free l
  | JObj o => forallb (fun kv => negb (secretKey kv.1) && secret_free kv.2) o
  | _ => true
  end.

Lemma obj_set_keys {A} (P : string * A -> Prop) k v o :
  P (k, v) -> Forall P o -> Forall P (obj_set k v o).
Proof.
  intros Hv Ho. induction Ho as [| [k0 v0] o H0 Ho IH]; simpl; [by repeat constructor |].
  destruct (String.compare k k0); repeat constructor; auto.
Qed.

Lemma obj_build_keys {A} (P : string * A -> Prop) fields :
  Forall (fun kv => forall v, kv.2 = Some v -> P (kv.1, v)) fields -> Forall P (obj_build fields).
Proof.
  unfold obj_build. intros Hf.
  enough (forall o, Forall P o -> Forall P (fold_left (fun o '(k, v) =>
      match v with Some j => obj_set k j o | None => o end) fields o)) as G by by apply G.
  induction Hf as [| [k [v |]] fs Hv _ IH]; intros o Ho; simpl; auto.
  apply IH, obj_set_keys; auto.
Qed.

Lemma withoutSecrets_free v : secret_free (withoutSecrets v) = true.
Proof.
  induction v as [| | | | | | l IH | o IH] using json_nested_ind; try done; cbn [withoutSecrets secret_free].
  - rewrite forallb_map. apply forallb_Forall. exact IH.
  - apply forallb_Forall, obj_build_keys, Forall_map.
    induction IH as [| [k j] o Hj _ IH]; constructor; [| exact IH].
    cbn [fst snd]. intros v. destruct (secretKey k) eqn:E; [done |]. intros [= <-]. cbn [negb andb]. exact Hj.
Qed.

Lemma withoutSecrets_get k o : NoDup (map fst o) ->
  obj_get k (toObject (Some (withoutSecrets (JObj o)))) =
    if secretKey k then None else withoutSecrets <$> obj_get k o.
Proof.
  intros Hn. cbn [withoutSecrets toObject]. rewrite obj_get_build.
  - induction o as [| [k0 v0] o IH]; cbn [map field_of obj_get fst snd]; [by destruct (secretKey k) |].
    cbn in Hn. apply NoDup_cons in Hn as [_ Hn]. destruct (String.eqb_spec k k0) as [-> | _]; [| by apply IH].
    by destruct (secretKey k0).
  - by rewrite map_map.
Qed.

(** the serialized state holds no password or private key entry at any depth,
    keeps every other top level entry (itself cleaned), and always carries a
    schema version. *)
Theorem safeState_spec state :
  NoDup (map fst state) ->
  secret_free (JObj (safeState state)) = true /\
  is_Some (obj_get "schemaVersion" (safeState state)) /\
  (forall k, secretKey k = false -> k <> "schemaVersion" ->
     obj_get k (safeState state) = withoutSecrets <$> obj_get k state).
Proof.
  intros Hn. unfold safeState. set (safe := toObject _).
  assert (secret_free (JObj safe) = true) as Hf by exact (withoutSecrets_free (JObj state)).
  assert (forall k, secretKey k = false -> obj_get k safe = withoutSecrets <$> obj_get k state) as Hg.
  { intros k Hk. unfold safe. rewrite withoutSecrets_get by done. by rewrite Hk. }
  destruct (obj_get "schemaVersion" safe) eqn:E; [split_and!; auto; by rewrite E |]. split_and!.
  - cbn [secret_free] in *. apply forallb_Forall, obj_set_keys; [done |]. by apply forallb_Forall.
  - rewrite obj_get_set. eauto.
  - intros k Hk Hne. rewrite obj_get_set. apply String.eqb_neq in Hne as ->. auto.
Qed.

(** ** What an accepted command guarantees *)

Lemma num_compare_whole x n : num_whole x = true -> num_compare x n = Z.compare (num_floor x) n.
Proof.
  destruct x as [m e]. unfold num_whole, num_compare, num_floor. intros Hw.
  destruct (0 <=? e) eqn:He; [done |]. cbn in Hw. bool_hyps.
  assert (0 < 2 ^ (- e)) as Hp by (apply Z.pow_pos_nonneg; lia).
  rewrite (Z.div_mod m (2 ^ (- e))) at 1 by lia. rewrite Hw, Z.add_0_r, (Z.mul_comm n).
  symmetry. apply Zmult_compare_compat_l. lia.
Qed.

(** A JSON number that is the integer [n]. *)
Definition is_integer (j : option json) (n : Z) : Prop :=
  exists x, number j = Some x /\ num_whole x = true /\ num_floor x = n.

Lemma wholeNumber_range v lo hi (test : Z * Z -> bool) :
  (forall x, num_whole x = true -> test x = true -> lo <= num_floor x <= hi) ->
  wholeNumber v test = true -> exists n, is_integer v n /\ lo <= n <= hi.
Proof.
  intros Ht. unfold wholeNumber. destruct (number v) as [x |] eqn:E; [| done].
  rewrite andb_true_iff. intros [H1 H2]. exists (num_floor x). split; [by exists x | auto].
Qed.

Section Accepted.
  Context `{QtText}.

Lemma validateCommand_inv c : (validateCommand c).1 = true ->
  nonEmptyString c "id" = true /\ nonEmptyString c "type" = true /\
  validatePayload (toString (obj_get "type" c)) (toObject (obj_get "payload" c)) = true.
Proof.
  unfold validateCommand. destruct (_ || _ || _)%bool eqn:E; [done |].
  apply orb_false_iff in E as [[E1 E2]%orb_false_iff _]. bool_hyps.
  destruct (validatePayload _ _); done.
Qed.

(** C26: an accepted command has a non-blank id and type; an accepted
    [attachment.init] announces a whole size between 1 byte and the limit, an
    accepted [attachment.chunk] a whole index below the chunk limit and a hash
    of 64 characters in lower case, an accepted [session.connectRemote] a port
    in 1..65535 and no TLS name other than [localhost]. *)
Theorem validateCommand_bounds c :
  (validateCommand c).1 = true ->
  let type := toString (obj_get "type" c) in
  let payload := toObject (obj_get "payload" c) in
  nonEmptyString c "id" = true /\ nonEmptyString c "type" = true /\
  (type = "attachment.init" ->
     exists n, is_integer (obj_get "logicalSize" payload) n /\ 1 <= n <= MaxLogicalBytes) /\
  (type = "attachment.chunk" ->
     (exists n, is_integer (obj_get "chunkIndex" payload) n /\ 0 <= n <= MaxChunkCount - 1) /\
     let hash := toString (obj_get "cipherSha256" payload) in qsize hash = 64 /\ hash = toLower hash) /\
  (type = "session.connectRemote" ->
     1 <= toInt (obj_get "serverPort" payload) <= 65535 /\
     (forall s, obj_get "tlsServerName" payload = Some (JStr s) -> s = "localhost")).
Proof.
  intros Hc. apply validateCommand_inv in Hc as (Hid & Hty & Hp). cbv zeta.
  set (type := toString (obj_get "type" c)) in *. set (payload := toObject _) in *.
  split_and!; try done.
  - intros E. rewrite E in Hp. cbn in Hp. bool_hyps.
    eapply wholeNumber_range; [| eassumption]. intros x Hw. unfold num_gt, num_le, num_gt.
    rewrite !(num_compare_whole x _ Hw). cbv beta.
    destruct (Z.compare_spec (num_floor x) 0), (Z.compare_spec (num_floor x) MaxLogicalBytes); cbn; try done; lia.
  - intros E. rewrite E in Hp. cbn -[Z.eqb] in Hp. bool_hyps. split; [| done].
    eapply wholeNumber_range; [| eassumption]. intros x Hw. unfold num_ge, num_lt.
    rewrite !(num_compare_whole x _ Hw). cbv beta.
    destruct (Z.compare_spec (num_floor x) 0), (Z.compare_spec (num_floor x) MaxChunkCount); cbn; try done; lia.
  - intros E. rewrite E in Hp. cbn in Hp. bool_hyps. split.
    + unfold integerValue in *. bool_hyps. lia.
    + intros s Hs. rewrite Hs in *. by apply String.eqb_eq.
Qed.

End Accepted.

(** ** Witnesses *)

Lemma safeState_spec_witness :
  secret_free (JObj (safeState [("connected", JBool true);
     ("saved", JObj [("keyFile", JStr "k.pem"); ("serverIp", JStr "10.0.0.2")])])) = true.
Proof.
  refine (proj1 (safeState_spec _ _)). repeat constructor; set_solver.
Defined.

Definition ex_init : list (string * json) :=
  [("id", JStr "c1"); ("payload", JObj [("logicalSize", JUInt 5000); ("room", JStr "lobby")]);
   ("type", JStr "attachment.init")].

Lemma validateCommand_bounds_witness :
  exists n, is_integer (obj_get "logicalSize" (toObject (obj_get "payload" ex_init))) n /\ 1 <= n <= MaxLogicalBytes.
Proof.
  apply (validateCommand_bounds ex_init); vm_compute; reflexivity.
Defined.
