(* ===== verification/Conversations.v ===== *)
(** * Conversations: the cache of conversation models

    Models the part of client-cpp/gui/src/gui_chat_controller.cpp that owns the
    message models: [conversationModels_], their access order, the active
    conversation and the pointer [messageModel_] that the view follows
    ([ensureConversationModel], [trimConversationModelCache]).  Models are
    objects on a heap, so a deleted model is really gone and a dangling pointer
    would be visible. *)

From S2P Require Import Prelude Text Json JsonCodecInstance ChatModel.

Definition kMaxCachedConversationModels : nat := 8.

Definition kMessageRoles : list string :=
  ["messageId"; "displayName"; "userCode"; "time"; "content"; "selfMessage"; "systemMessage"; "deliveryState"; "attachment"].

Record Cache := mk_cache {
  heap : gmap nat ListModel;              (* the live conversation models *)
  next_id : nat;
  conversationModels_ : gmap string nat;
  accessOrder_ : gmap string Z;
  accessSequence_ : Z;
  activeConversationKey_ : string;
  messageModel_ : nat;
}.

#[export] Instance eta_Cache : EtaRecord Cache := fun c =>
  {| heap := heap c; next_id := next_id c; conversationModels_ := conversationModels_ c;
     accessOrder_ := accessOrder_ c; accessSequence_ := accessSequence_ c;
     activeConversationKey_ := activeConversationKey_ c; messageModel_ := messageModel_ c |}.

(** The constructor's state: one model, for the lobby. *)
Definition initial_cache : Cache :=
  mk_cache {[ 0%nat := new_model kMessageRoles ]} 1 {[ "room:lobby" := 0%nat ]} {[ "room:lobby" := 1 ]} 1
    "room:lobby" 0.

(** The search loop of [trimConversationModelCache]: the key with the smallest
    order among the cached ones that are neither active nor protected. *)
Definition lru_step (c : Cache) (protectedKey : string) (best : string * Z) (key : string) : string * Z :=
  if String.eqb key (activeConversationKey_ c) || String.eqb key protectedKey then best
  else
    let order := default 0 (accessOrder_ c !! key) in
    if order <? best.2 then (key, order) else best.

Definition leastRecentlyUsed (c : Cache) (protectedKey : string) : string :=
  (foldl (lru_step c protectedKey) ("", UINT64_MAX) (map fst (map_to_list (conversationModels_ c)))).1.

(** [delete conversationModels_.take(key)] *)
Definition drop_model (key : string) (c : Cache) : Cache :=
  let c1 := match conversationModels_ c !! key with
            | Some id => c <| heap ::= delete id |>
            | None => c
            end in
  c1 <| conversationModels_ ::= delete key |> <| accessOrder_ ::= delete key |>.

Fixpoint trim_loop (fuel : nat) (protectedKey : string) (c : Cache) : Cache :=
  match fuel with
  | O => c
  | S fuel' =>
      if (base.size (conversationModels_ c) <=? kMaxCachedConversationModels)%nat then c
      else
        let key := leastRecentlyUsed c protectedKey in
        if is_empty key then c else trim_loop fuel' protectedKey (drop_model key c)
  end.

(** Every round removes a model, so the number of models bounds the rounds. *)
Definition trimConversationModelCache (protectedKey : string) (c : Cache) : Cache :=
  trim_loop (base.size (conversationModels_ c)) protectedKey c.

(** [accessOrder.insert(key, ++sequence)], on a 64-bit counter. *)
Definition touch (key : string) (c : Cache) : Cache :=
  let sequence := (accessSequence_ c + 1) mod 2 ^ 64 in
  c <| accessOrder_ ::= insert key sequence |> <| accessSequence_ := sequence |>.

Definition ensureConversationModel (key : string) (c : Cache) : Cache * nat :=
  match conversationModels_ c !! key with
  | Some id => (touch key c, id)
  | None =>
      let id := next_id c in
      let c1 := c <| heap ::= insert id (new_model kMessageRoles) |> <| next_id ::= S |>
                  <| conversationModels_ ::= insert key id |> in
      (trimConversationModelCache key (touch key c1), id)
  end.

(** [messageModel_ = ensureConversationModel(key); activeConversationKey_ = key;] *)
Definition activate (key : string) (c : Cache) : Cache :=
  let '(c1, id) := ensureConversationModel key c in
  c1 <| messageModel_ := id |> <| activeConversationKey_ := key |>.

(** A call on one model, and on every cached model. *)
Definition on_model (id : nat) (f : ListModel -> ListModel) (c : Cache) : Cache := c <| heap ::= alter f id |>.

Definition for_each_model (f : ListModel -> ListModel) (c : Cache) : Cache :=
  c <| heap ::= fun h => foldl (fun h id => alter f id h) h (map snd (map_to_list (conversationModels_ c))) |>.

(** The part of [resetSessionData] that concerns the cache. *)
Definition reset_cache (c : Cache) : Cache :=
  let c1 := (for_each_model clear c) <| activeConversationKey_ := "room:lobby" |> in
  let '(c2, id) := ensureConversationModel "room:lobby" c1 in c2 <| messageModel_ := id |>.

Definition model_of (key : string) (c : Cache) : option ListModel :=
  conversationModels_ c !! key ≫= fun id => heap c !! id.

(** ** The invariant *)

(** What holds of the maps at every moment: every cached key has a live model
    of its own, no live model is without a key, and every key has an order. *)
Record cache_wf (c : Cache) : Prop := mk_cache_wf {
  cw_live : forall key id, conversationModels_ c !! key = Some id -> is_Some (heap c !! id);
  cw_inj : forall k k' id, conversationModels_ c !! k = Some id -> conversationModels_ c !! k' = Some id -> k = k';
  cw_owned : forall id, is_Some (heap c !! id) -> (id < next_id c)%nat /\ exists key, conversationModels_ c !! key = Some id;
  cw_order : forall key, is_Some (conversationModels_ c !! key) -> exists o, accessOrder_ c !! key = Some o /\ o <= accessSequence_ c;
  cw_keys : conversationModels_ c !! "" = None;
  cw_seq : 0 <= accessSequence_ c;
}.

(** What holds between two handlers: the view's model is the live model of the
    active conversation, and the cache is within its bound. *)
Record cache_inv (c : Cache) : Prop := mk_cache_inv {
  ci_wf : cache_wf c;
  ci_size : (base.size (conversationModels_ c) <= kMaxCachedConversationModels)%nat;
  ci_current : conversationModels_ c !! activeConversationKey_ c = Some (messageModel_ c);
}.

Lemma initial_cache_inv : cache_inv initial_cache.
Proof.
  split; [split | vm_compute; lia | reflexivity].
  - intros key id. cbn. rewrite lookup_singleton_Some. intros [_ <-]. rewrite lookup_singleton_eq. eauto.
  - intros k k' id. cbn. rewrite !lookup_singleton_Some. by intros [<- _] [<- _].
  - intros id [m Hm]. cbn in Hm. apply lookup_singleton_Some in Hm as [<- _]. split; [cbn; lia |].
    exists "room:lobby". apply lookup_singleton_eq.
  - intros key [id Hid]. cbn in Hid. apply lookup_singleton_Some in Hid as [<- _]. exists 1. cbn. by rewrite lookup_singleton_eq.
  - reflexivity.
  - cbn. lia.
Qed.

(** ** Choosing a model to drop *)

Definition eligible (c : Cache) (protectedKey key : string) : Prop :=
  is_Some (conversationModels_ c !! key) /\ key <> activeConversationKey_ c /\ key <> protectedKey.

Lemma lru_fold c p l best :
  (forall k, k ∈ l -> is_Some (conversationModels_ c !! k)) ->
  let r := foldl (lru_step c p) best l in
  (r = best \/ eligible c p r.1) /\ r.2 <= best.2 /\
  (forall k, k ∈ l -> eligible c p k -> r.2 <= default 0 (accessOrder_ c !! k)).
Proof.
  revert best. induction l as [| k l IH]; intros best Hl; cbn [foldl].
  { split_and!; [by left | lia | by intros k ?%not_elem_of_nil]. }
  destruct (IH (lru_step c p best k)) as (H1 & H2 & H3); [intros; apply Hl; by right |]. cbv zeta in *.
  set (r := foldl _ _ l) in *. unfold lru_step in *.
  destruct (String.eqb k (activeConversationKey_ c) || String.eqb k p)%bool eqn:Ek.
  - split_and!; [done | done |]. intros k' [-> | Hk']%elem_of_cons (He & Hna & Hnp); [| by apply H3].
    apply orb_true_iff in Ek as [Ek | Ek]; by apply String.eqb_eq in Ek.
  - apply orb_false_iff in Ek as [Ek1 Ek2]. apply String.eqb_neq in Ek1, Ek2.
    assert (eligible c p k) as Hek by (split_and!; [apply Hl; by left | done | done]).
    destruct (_ <? best.2) eqn:Eo; bool_hyps; cbn [snd] in *.
    + split_and!; [destruct H1 as [-> | H1]; auto | lia |].
      intros k' [-> | Hk']%elem_of_cons He; [lia | by apply H3].
    + split_and!; [done | done |]. intros k' [-> | Hk']%elem_of_cons He; [lia | by apply H3].
Qed.

Lemma keys_live c k : k ∈ map fst (map_to_list (conversationModels_ c)) <-> is_Some (conversationModels_ c !! k).
Proof.
  rewrite list_elem_of_fmap. split.
  - intros ([k' id] & -> & Hin%elem_of_map_to_list). eauto.
  - intros [id Hid]. exists (k, id). split; [done |]. by apply elem_of_map_to_list.
Qed.

Lemma leastRecentlyUsed_spec c p :
  cache_wf c -> accessSequence_ c < UINT64_MAX ->
  (leastRecentlyUsed c p = "" -> forall k, ~ eligible c p k) /\
  (leastRecentlyUsed c p <> "" -> eligible c p (leastRecentlyUsed c p)).
Proof.
  intros Hw Hs. unfold leastRecentlyUsed.
  destruct (lru_fold c p (map fst (map_to_list (conversationModels_ c))) ("", UINT64_MAX)) as (H1 & _ & H3);
    [intros k; apply keys_live |]. cbv zeta in *. set (r := foldl _ _ _) in *. split.
  - intros E k Hk. destruct H1 as [H1 | [H1 _]].
    + assert (r.2 <= default 0 (accessOrder_ c !! k)) as Hle by (apply H3; [by apply keys_live, Hk | done]).
      destruct (cw_order c Hw k (proj1 Hk)) as (o & Eo & Ho). rewrite Eo, H1 in Hle. cbn in Hle. lia.
    + rewrite E, (cw_keys c Hw) in H1. by destruct H1.
  - intros Hne. destruct H1 as [H1 | H1]; [by rewrite H1 in Hne | done].
Qed.

Lemma size_pair_le (a b : string) : (base.size ({[ a; b ]} : gset string) <= 2)%nat.
Proof.
  rewrite size_union_alt, size_singleton.
  assert (base.size ({[b]} ∖ {[a]} : gset string) <= base.size ({[b]} : gset string))%nat as Hd
    by (apply subseteq_size; set_solver).
  rewrite size_singleton in Hd. lia.
Qed.

Lemma some_eligible c p : (2 < base.size (conversationModels_ c))%nat -> exists k, eligible c p k.
Proof.
  intros Hs. set (D := dom (conversationModels_ c) : gset string). set (X := {[ activeConversationKey_ c; p ]} : gset string).
  destruct (decide (D ∖ X = ∅)) as [E | Hne].
  - assert (base.size D <= base.size X)%nat as Hle.
    { apply subseteq_size. intros x Hx. destruct (decide (x ∈ X)) as [| Hn]; [done |]. exfalso.
      apply (not_elem_of_empty (C := gset string) x). rewrite <- E. by apply elem_of_difference. }
    pose proof (size_pair_le (activeConversationKey_ c) p). unfold D, X in *. rewrite size_dom in Hle. lia.
  - apply set_choose_L in Hne as [k Hk]. apply elem_of_difference in Hk as [Hk HX].
    exists k. split; [by apply elem_of_dom |]. unfold X in HX. set_solver.
Qed.

(** ** Dropping models *)

(** [c'] keeps the model of [key] as it is in [c]. *)
Definition keeps (key : string) (c c' : Cache) : Prop :=
  conversationModels_ c' !! key = conversationModels_ c !! key /\ model_of key c' = model_of key c.

Lemma drop_model_wf key c id : cache_wf c -> conversationModels_ c !! key = Some id ->
  cache_wf (drop_model key c) /\ (forall k, k <> key -> keeps k c (drop_model key c)) /\
  base.size (conversationModels_ c) = S (base.size (conversationModels_ (drop_model key c))) /\
  accessSequence_ (drop_model key c) = accessSequence_ c /\
  activeConversationKey_ (drop_model key c) = activeConversationKey_ c /\
  messageModel_ (drop_model key c) = messageModel_ c.
Proof.
  intros [Hl Hi Hown Hord Hk Hq] E. unfold drop_model. rewrite E. split_and!; try done.
  - split; cbn.
    + intros k i. rewrite lookup_delete_Some. intros [Hne Hk']. rewrite lookup_delete_ne; [by eapply Hl |].
      intros <-. apply Hne. by eapply Hi.
    + intros k k' i. rewrite !lookup_delete_Some. intros [_ H1] [_ H2]. by eapply Hi.
    + intros i [m Hm]. apply lookup_delete_Some in Hm as [Hne Hm].
      destruct (Hown i) as [Hlt [k Hk']]; [eauto |]. split; [done |]. exists k. rewrite lookup_delete_Some.
      split; [| done]. intros <-. congruence.
    + intros k [i Hi']. apply lookup_delete_Some in Hi' as [Hne Hi']. rewrite lookup_delete_ne by done.
      apply Hord. eauto.
    + rewrite lookup_delete_None. auto.
    + done.
  - intros k Hne. split; cbn; [by rewrite lookup_delete_ne |]. unfold model_of. cbn.
    rewrite lookup_delete_ne by done. destruct (conversationModels_ c !! k) as [i |] eqn:Ek; [| done]. cbn.
    rewrite lookup_delete_ne; [done |]. intros <-. apply Hne. by eapply Hi.
  - cbn. rewrite map_size_delete_Some by eauto.
    assert (base.size (conversationModels_ c) <> 0%nat); [| lia].
    intros H0. apply map_size_empty_inv in H0. by rewrite H0 in E.
Qed.

Lemma trim_loop_spec fuel p c :
  cache_wf c -> accessSequence_ c < UINT64_MAX ->
  (base.size (conversationModels_ c) <= fuel + kMaxCachedConversationModels)%nat ->
  let c' := trim_loop fuel p c in
  cache_wf c' /\ (base.size (conversationModels_ c') <= kMaxCachedConversationModels)%nat /\
  keeps (activeConversationKey_ c) c c' /\ keeps p c c' /\
  (forall k, is_Some (conversationModels_ c' !! k) -> keeps k c c') /\
  accessSequence_ c' = accessSequence_ c /\ activeConversationKey_ c' = activeConversationKey_ c /\
  messageModel_ c' = messageModel_ c.
Proof.
  revert c. induction fuel as [| f IH]; intros c Hw Hs Hf; cbn [trim_loop].
  { split_and!; done. }
  destruct (Nat.leb_spec (base.size (conversationModels_ c)) kMaxCachedConversationModels) as [Hle | Hgt];
    [split_and!; done |].
  destruct (leastRecentlyUsed_spec c p Hw Hs) as [Hnone Hsome].
  destruct (some_eligible c p) as [k0 Hk0]; [unfold kMaxCachedConversationModels in *; lia |].
  set (k := leastRecentlyUsed c p) in *. destruct (is_empty k) eqn:Ek.
  { apply is_empty_true in Ek. destruct (Hnone Ek k0 Hk0). }
  apply is_empty_false in Ek. destruct (Hsome Ek) as ([id Hid] & Hna & Hnp).
  destruct (drop_model_wf k c id Hw Hid) as (Hw1 & Hkeep & Hsz & Hsq & Ha & Hm).
  destruct (IH (drop_model k c) Hw1) as (J1 & J2 & J3 & J4 & J5 & J6 & J7 & J8);
    [by rewrite Hsq | lia |].
  assert (forall k', k' <> k -> keeps k' (drop_model k c) (trim_loop f p (drop_model k c)) ->
            keeps k' c (trim_loop f p (drop_model k c))) as Htr.
  { intros k' Hne [E1 E2]. destruct (Hkeep k' Hne) as [E3 E4]. split; congruence. }
  rewrite Ha in *. split_and!; try done; try congruence; try (apply Htr; auto).
  intros k' Hk'. destruct (decide (k' = k)) as [-> | Hne]; [| by apply Htr; auto].
  exfalso. destruct (J5 k Hk') as [E1 _]. rewrite E1 in Hk'.
  unfold drop_model in Hk'. rewrite Hid in Hk'. cbn in Hk'. rewrite lookup_delete_eq in Hk'. by destruct Hk'.
Qed.

(** ** Using a conversation *)

Lemma touch_wf key c : cache_wf c -> is_Some (conversationModels_ c !! key) -> accessSequence_ c < UINT64_MAX ->
  cache_wf (touch key c) /\ accessSequence_ (touch key c) = accessSequence_ c + 1.
Proof.
  intros [Hl Hi Hown Hord Hk Hq] Hin Hs.
  assert ((accessSequence_ c + 1) mod 2 ^ 64 = accessSequence_ c + 1) as E
    by (apply Z.mod_small; unfold UINT64_MAX in Hs; lia).
  unfold touch. rewrite E. split; [| done]. split; cbn; try done; [| lia].
  intros k Hk'. destruct (decide (k = key)) as [-> | Hne].
  - rewrite lookup_insert_eq. eexists. split; [done | lia].
  - rewrite lookup_insert_ne by done. destruct (Hord k Hk') as (o & Ho & Hle). exists o. split; [done | lia].
Qed.

(** A model for a new key. *)
Definition add_model (key : string) (c : Cache) : Cache :=
  c <| heap ::= insert (next_id c) (new_model kMessageRoles) |> <| next_id ::= S |>
    <| conversationModels_ ::= insert key (next_id c) |>.

Lemma add_model_live key c : cache_wf c -> conversationModels_ c !! key = None -> key <> "" ->
  accessSequence_ c < UINT64_MAX ->
  cache_wf (touch key (add_model key c)) /\
  (forall k, k <> key -> keeps k c (touch key (add_model key c))) /\
  model_of key (touch key (add_model key c)) = Some (new_model kMessageRoles).
Proof.
  intros [Hl Hi Hown Hord Hk Hq] Hnew Hne Hs.
  assert ((accessSequence_ c + 1) mod 2 ^ 64 = accessSequence_ c + 1) as E
    by (apply Z.mod_small; unfold UINT64_MAX in Hs; lia).
  assert (forall k i, conversationModels_ c !! k = Some i -> (i < next_id c)%nat) as Hlt
    by (intros k i Hk'; apply Hown; by eapply Hl).
  unfold touch. cbn. rewrite E. split_and!.
  - split; cbn; [| | | | by rewrite lookup_insert_ne | lia].
    + intros k i. rewrite lookup_insert_Some. intros [[<- <-] | [_ Hi']]; [by rewrite lookup_insert_eq |].
      rewrite lookup_insert_ne; [by eapply Hl |]. apply Hlt in Hi'. lia.
    + intros k k' i. rewrite !lookup_insert_Some.
      intros [[<- <-] | [? H1]] [[<- E2] | [? H2]]; [done | apply Hlt in H2; lia | apply Hlt in H1; lia | by eapply Hi].
    + intros i [m Hm]. apply lookup_insert_Some in Hm as [[<- _] | [Hni Hm]].
      * split; [lia |]. exists key. apply lookup_insert_eq.
      * destruct (Hown i) as [Hi' [k Hk']]; [eauto |]. split; [lia |]. exists k.
        rewrite lookup_insert_ne; [done |]. intros ->. congruence.
    + intros k Hk'. destruct (decide (k = key)) as [-> | Hnk].
      * rewrite lookup_insert_eq. eexists. split; [done | lia].
      * rewrite !lookup_insert_ne in * by done. destruct (Hord k Hk') as (o & Ho & Hle). exists o. split; [done | lia].
  - intros k Hnk. unfold keeps, model_of. cbn. rewrite lookup_insert_ne by done. split; [done |].
    destruct (conversationModels_ c !! k) as [i |] eqn:Ek; [| done]. cbn.
    rewrite lookup_insert_ne; [done |]. apply Hlt in Ek. lia.
  - unfold model_of. cbn. rewrite lookup_insert_eq. cbn. by rewrite lookup_insert_eq.
Qed.

Lemma keeps_trans k a b c : keeps k a b -> keeps k b c -> keeps k a c.
Proof. intros [E1 E2] [E3 E4]. split; congruence. Qed.

Lemma keeps_refl k c : keeps k c c.
Proof. done. Qed.

#[export] Hint Resolve keeps_refl : lanchat.

(** What a call of [ensureConversationModel] promises. *)
Record ensured (key : string) (c c' : Cache) (id : nat) : Prop := mk_ensured {
  en_wf : cache_wf c';
  en_size : (base.size (conversationModels_ c') <= kMaxCachedConversationModels)%nat;
  en_key : conversationModels_ c' !! key = Some id;
  en_known : forall i, conversationModels_ c !! key = Some i -> id = i;
  en_model : model_of key c' = Some (default (new_model kMessageRoles) (model_of key c));
  en_active : activeConversationKey_ c <> key -> keeps (activeConversationKey_ c) c c';
  en_others : forall k, k <> key -> is_Some (conversationModels_ c' !! k) -> keeps k c c';
  en_seq : accessSequence_ c' = accessSequence_ c + 1;
  en_same : activeConversationKey_ c' = activeConversationKey_ c /\ messageModel_ c' = messageModel_ c;
}.

Lemma ensure_spec key c c' id :
  cache_wf c -> (base.size (conversationModels_ c) <= kMaxCachedConversationModels)%nat -> key <> "" ->
  accessSequence_ c < UINT64_MAX - 1 ->
  ensureConversationModel key c = (c', id) -> ensured key c c' id.
Proof.
  intros Hw Hsz Hne Hs. unfold ensureConversationModel.
  destruct (conversationModels_ c !! key) as [i |] eqn:Ek.
  - intros [= <- <-]. destruct (touch_wf key c Hw) as [Hw' Hsq]; [eauto | lia |].
    split; try done; [congruence |]. unfold model_of at 1. cbn. rewrite Ek. cbn.
    destruct (cw_live c Hw key i Ek) as [m Hm]. unfold model_of. rewrite Ek. cbn. by rewrite Hm.
  - fold (add_model key c). intros [= <- <-].
    destruct (add_model_live key c Hw Ek Hne) as (Hw1 & Hk1 & Hm1); [lia |].
    set (c1 := touch key (add_model key c)) in *.
    assert (conversationModels_ c1 !! key = Some (next_id c)) as Hkey by apply lookup_insert_eq.
    assert (accessSequence_ c1 = accessSequence_ c + 1) as Hsq.
    { apply Z.mod_small. pose proof (cw_seq c Hw). unfold UINT64_MAX in Hs. cbn. lia. }
    destruct (trim_loop_spec (base.size (conversationModels_ c1)) key c1 Hw1)
      as (J1 & J2 & J3 & J4 & J5 & J6 & J7 & J8); [lia | lia |].
    unfold trimConversationModelCache. split; try done.
    + by rewrite (proj1 J4).
    + congruence.
    + rewrite (proj2 J4), Hm1. unfold model_of. by rewrite Ek.
    + intros Hna. eapply keeps_trans; [by apply Hk1 | exact J3].
    + intros k Hnk Hin. eapply keeps_trans; [by apply Hk1 | by apply J5].
    + by rewrite J6.
Qed.

(** ** The operations keep the invariant *)

Lemma activate_spec key c :
  cache_inv c -> key <> "" -> accessSequence_ c < UINT64_MAX - 1 ->
  cache_inv (activate key c) /\ accessSequence_ (activate key c) = accessSequence_ c + 1 /\
  activeConversationKey_ (activate key c) = key.
Proof.
  intros [Hw Hs Hc] Hne Hq. unfold activate. destruct (ensureConversationModel key c) as [c' id] eqn:E.
  apply ensure_spec in E; [| done ..]. destruct E as [J1 J2 J3 _ _ _ _ J7 _]. split_and!; [| done | done].
  split; [| done | done]. by destruct J1; split.
Qed.

Lemma ensure_inv key c :
  cache_inv c -> key <> "" -> accessSequence_ c < UINT64_MAX - 1 ->
  cache_inv (ensureConversationModel key c).1 /\
  accessSequence_ (ensureConversationModel key c).1 = accessSequence_ c + 1.
Proof.
  intros [Hw Hs Hc] Hne Hq. destruct (ensureConversationModel key c) as [c' id] eqn:E.
  apply ensure_spec in E; [| done ..]. destruct E as [J1 J2 J3 Jk J4 J5 J6 J7 [J8 J9]]. split; [| done].
  split; [done | done |]. cbn [fst]. rewrite J8, J9.
  destruct (decide (activeConversationKey_ c = key)) as [<- | Hnk]; [| by rewrite (proj1 (J5 Hnk))].
  rewrite J3. f_equal. by apply Jk.
Qed.

(** Changing the models, not the maps. *)
Lemma reheap_inv h c :
  (forall id, is_Some (h !! id) <-> is_Some (heap c !! id)) -> cache_inv c ->
  cache_inv (c <| heap := h |>).
Proof.
  intros Hh [[Hl Hi Hown Hord Hk Hq] Hs Hc]. split; [| done | done]. split; cbn; try done.
  - intros key id E. apply Hh. by eapply Hl.
  - intros id Hid. apply Hh in Hid. by apply Hown.
Qed.

Lemma on_model_inv id f c : cache_inv c -> cache_inv (on_model id f c).
Proof. apply reheap_inv. intros i. apply lookup_alter_is_Some. Qed.

Lemma alter_all (f : ListModel -> ListModel) (l : list nat) (h : gmap nat ListModel) i : NoDup l ->
  foldl (fun h id => alter f id h) h l !! i = if bool_decide (i ∈ l) then f <$> h !! i else h !! i.
Proof.
  intros Hn. revert h. induction Hn as [| x l Hx Hn IH]; intros h; cbn [foldl].
  { by rewrite bool_decide_eq_false_2 by apply not_elem_of_nil. }
  rewrite IH. destruct (decide (i = x)) as [-> | Hne].
  - rewrite bool_decide_eq_false_2, bool_decide_eq_true_2 by (done || left). by rewrite lookup_alter_eq.
  - rewrite lookup_alter_ne by done. rewrite (bool_decide_ext (i ∈ x :: l) (i ∈ l)); [done |].
    rewrite elem_of_cons. tauto.
Qed.

Lemma model_ids_nodup c : cache_wf c -> NoDup (map snd (map_to_list (conversationModels_ c))).
Proof.
  intros Hw. apply NoDup_fmap_2_strong; [| apply NoDup_map_to_list].
  intros [k i] [k' i'] H1%elem_of_map_to_list H2%elem_of_map_to_list E. cbn in E. subst i'.
  by rewrite (cw_inj c Hw k k' i H1 H2).
Qed.

Lemma for_each_model_heap f c i : cache_wf c ->
  heap (for_each_model f c) !! i = f <$> heap c !! i.
Proof.
  intros Hw. cbn. rewrite (alter_all f _ _ i (model_ids_nodup c Hw)). case_bool_decide as Hin; [done |].
  destruct (heap c !! i) as [m |] eqn:E; [| done]. destruct (cw_owned c Hw i) as [_ [k Hk]]; [by rewrite E |].
  destruct Hin. apply list_elem_of_fmap. exists (k, i). split; [done |]. by apply elem_of_map_to_list.
Qed.

Lemma for_each_model_inv f c : cache_inv c -> cache_inv (for_each_model f c).
Proof.
  intros Hc. apply reheap_inv; [| done]. intros i.
  pose proof (for_each_model_heap f c i (ci_wf c Hc)) as E. cbn in E. rewrite E. by rewrite fmap_is_Some.
Qed.

Lemma for_each_model_of f c k : cache_wf c -> model_of k (for_each_model f c) = f <$> model_of k c.
Proof.
  intros Hw. unfold model_of. change (conversationModels_ (for_each_model f c)) with (conversationModels_ c).
  destruct (conversationModels_ c !! k) as [i |]; [| done]. cbn [mbind option_bind].
  by apply for_each_model_heap.
Qed.

Lemma reset_cache_spec c :
  cache_inv c -> accessSequence_ c < UINT64_MAX - 1 ->
  cache_inv (reset_cache c) /\ accessSequence_ (reset_cache c) = accessSequence_ c + 1.
Proof.
  intros Hc Hq. unfold reset_cache.
  destruct (for_each_model_inv clear c Hc) as [Hw Hs _]. set (c1 := for_each_model clear c) in *.
  destruct (ensureConversationModel _ _) as [c2 id] eqn:E.
  apply ensure_spec in E; [| by destruct Hw; split | done | done | done].
  destruct E as [J1 J2 J3 Jk J4 J5 J6 J7 [J8 J9]]. split; [| done]. split; [by destruct J1; split | done |].
  cbn. by rewrite J8.
Qed.
