(* ===== verification/Controller.v ===== *)
(** * Controller: the session state of the desktop client

    Models client-cpp/gui/src/gui_chat_controller.{hpp,cpp}: what every slot
    and every invokable does to the controller's fields, to the list models and
    to the cache of conversation models, and which worker slots it queues and
    signals it emits, in order ([outs]).  Time, generated ids, the file dialog
    and Qt's file, date and JSON functions are inputs ([GuiEnv] and arguments). *)

From Stdlib Require Import Ascii.
From S2P Require Import Prelude Text Json JsonCodecInstance ChatModel Conversations.

(** Qt functions the controller asks. *)
Class GuiEnv := {
  fileExists : string -> bool;                  (* QFileInfo::exists *)
  absoluteFilePath : string -> string;
  isoLocalTime : string -> option string;       (* fromString(ISODate), then toLocalTime HH:mm; None when invalid *)
  fromJson : string -> option json;             (* QJsonDocument::fromJson; None on a parse error *)
}.

(** A queued call of a worker slot, or an emitted signal. *)
Inductive output :=
  | Invoke (slot : string) (args : list json)
  | Emit (signal : string) (args : list json).

Record State := mk_state {
  cache : Cache;
  roomModel_ : ListModel;
  directMessageModel_ : ListModel;
  memberModel_ : ListModel;
  roomMemberCounts_ : gmap string Z;
  pendingConnectionApprovals_ : list row;
  activeRoomCanManage_ : bool;
  refreshTimer_ : bool;                         (* running *)
  connected_ : bool;
  reconnecting_ : bool;
  admin_ : bool;
  localUserName_ : string;
  statusText_ : string;
  localUserCode_ : string;
  joinedRoom_ : string;
  bundledCaFile_ : string;
  onlineMemberCount_ : Z;
  localMessageCounter_ : Z;
  historyLoading_ : bool;
  historySearchQuery_ : string;
  pendingAttachmentMetadata_ : gmap string row;
  settings_ : row;                              (* the "connection" group of QSettings *)
  outs : list output;
}.

#[export] Instance eta_State : EtaRecord State := fun s =>
  {| cache := cache s; roomModel_ := roomModel_ s; directMessageModel_ := directMessageModel_ s;
     memberModel_ := memberModel_ s; roomMemberCounts_ := roomMemberCounts_ s;
     pendingConnectionApprovals_ := pendingConnectionApprovals_ s; activeRoomCanManage_ := activeRoomCanManage_ s;
     refreshTimer_ := refreshTimer_ s; connected_ := connected_ s; reconnecting_ := reconnecting_ s;
     admin_ := admin_ s; localUserName_ := localUserName_ s; statusText_ := statusText_ s;
     localUserCode_ := localUserCode_ s; joinedRoom_ := joinedRoom_ s; bundledCaFile_ := bundledCaFile_ s;
     onlineMemberCount_ := onlineMemberCount_ s; localMessageCounter_ := localMessageCounter_ s;
     historyLoading_ := historyLoading_ s; historySearchQuery_ := historySearchQuery_ s;
     pendingAttachmentMetadata_ := pendingAttachmentMetadata_ s; settings_ := settings_ s; outs := outs s |}.

Definition kRoomRoles : list string := ["roomName"; "memberCount"; "unreadCount"; "ownerCode"; "private"; "canManage"].
Definition kDirectRoles : list string := ["displayName"; "userCode"; "unreadCount"].
Definition kMemberRoles : list string := ["displayName"; "userCode"; "online"; "admin"].

(** The constructor, with the settings of an earlier run. *)
Definition initial_state (saved : row) : State := {|
  cache := initial_cache;
  roomModel_ := new_model kRoomRoles;
  directMessageModel_ := new_model kDirectRoles;
  memberModel_ := new_model kMemberRoles;
  roomMemberCounts_ := ∅;
  pendingConnectionApprovals_ := [];
  activeRoomCanManage_ := false;
  refreshTimer_ := false;
  connected_ := false;
  reconnecting_ := false;
  admin_ := false;
  localUserName_ := "Alice";
  statusText_ := "未连接";
  localUserCode_ := "A001";
  joinedRoom_ := "lobby";
  bundledCaFile_ := "";
  onlineMemberCount_ := 0;
  localMessageCounter_ := 0;
  historyLoading_ := false;
  historySearchQuery_ := "";
  pendingAttachmentMetadata_ := ∅;
  settings_ := saved;
  outs := [];
|}.

(** ** Helpers *)

(** A QVariantMap written as an initializer list. *)
Definition vmap (fields : list (string * json)) : row := obj_build (map (fun kv => (kv.1, Some kv.2)) fields).

Definition emit (signal : string) (args : list json) (s : State) : State := s <| outs ::= fun l => l ++ [Emit signal args] |>.
Definition invoke (slot : string) (args : list json) (s : State) : State := s <| outs ::= fun l => l ++ [Invoke slot args] |>.

(** [key.mid(n)] *)
Definition mid (n : nat) (s : string) : string := drop_str n s.

(** [s.indexOf(c, from)] *)
Definition indexOf (c : Ascii.ascii) (from : Z) (s : string) : Z :=
  match find_first (Ascii.eqb c) (Z.to_nat from) s with Some i => Z.of_nat i | None => -1 end.

(** The models of [conversationModels_], in the order of the hash. *)
Definition models (s : State) : list (string * ListModel) :=
  omap (fun kv => pair kv.1 <$> heap (cache s) !! kv.2) (map_to_list (conversationModels_ (cache s))).

(** Update the row with this message id, when there is one. *)
Definition update_message (messageId : string) (values : row) (m : ListModel) : ListModel :=
  let row := findRow "messageId" (JStr messageId) m in
  if 0 <=? row then updateRow row values m else m.

Definition has_message (messageId : string) (m : ListModel) : bool := 0 <=? findRow "messageId" (JStr messageId) m.

Definition on_models (f : ListModel -> ListModel) (s : State) : State := s <| cache ::= for_each_model f |>.

(** [ensureConversationModel(key)->append(row)] *)
Definition append_to (key : string) (r : row) (s : State) : State :=
  let '(c, id) := ensureConversationModel key (cache s) in s <| cache := on_model id (append r) c |>.

Definition delivery (state : string) : row := vmap [("deliveryState", JStr state)].

Definition activeKey (s : State) : string := activeConversationKey_ (cache s).

(** [messageModel_->...] *)
Definition current_model (s : State) : ListModel :=
  default (new_model kMessageRoles) (heap (cache s) !! messageModel_ (cache s)).

Section Controller.
  Context `{QtText} `{GuiEnv}.

(** ** Status, system messages, unread counts *)

Definition setStatus (status : string) (s : State) : State :=
  if String.eqb (statusText_ s) status then s
  else emit "statusTextChanged" [] (s <| statusText_ := status |>).

Definition system_row (now content : string) : row :=
  vmap [("messageId", JStr ""); ("displayName", JStr ""); ("userCode", JStr ""); ("time", JStr now);
        ("content", JStr content); ("selfMessage", JBool false); ("systemMessage", JBool true); ("deliveryState", JStr "")].

Definition appendSystemMessage (now content : string) (s : State) : State :=
  s <| cache ::= fun c => on_model (messageModel_ c) (append (system_row now content)) c |>.

(** The index of the first row whose user code is [code] up to case, or -1. *)
Definition find_user (userCode : string) (m : ListModel) : Z :=
  find_index (fun r => eq_ci (to_str (value "userCode" r)) userCode) (lm_rows m) 0.

(** [count + 1] on a row's unread count. *)
Definition bump_unread (row : Z) (m : ListModel) : ListModel :=
  updateRow row (vmap [("unreadCount", JInt (wrap32 (to_int (valueAt row "unreadCount" m) + 1)))]) m.

Definition incrementUnreadForConversation (key username userCode : string) (s : State) : State :=
  if has_prefix "room:" key then
    let row := findRow "roomName" (JStr (mid 5 key)) (roomModel_ s) in
    if 0 <=? row then s <| roomModel_ ::= bump_unread row |> else s
  else
    let row := find_user (mid 3 key) (directMessageModel_ s) in
    if row <? 0 then
      s <| directMessageModel_ ::= append (vmap [("displayName", JStr username); ("userCode", JStr userCode); ("unreadCount", JInt 1)]) |>
    else s <| directMessageModel_ ::= bump_unread row |>.

(** ** Saved connection settings *)

(** [settings.value(key, default)] and [settings.remove(key)] *)
Definition setting (key : string) (dflt : json) (s : State) : json := default dflt (obj_get key (settings_ s)).
Definition obj_remove (key : string) (o : row) : row := List.filter (fun kv => negb (String.eqb kv.1 key)) o.

Definition savedServerIp (s : State) : string :=
  let v := trimmed (to_str (setting "serverIp" (JStr "127.0.0.1") s)) in
  if is_empty v then "127.0.0.1" else v.

Definition savedServerPort (s : State) : Z :=
  let v := to_int (setting "serverPort" (JInt 8888) s) in
  if (1 <=? v) && (v <=? 65535) then v else 8888.

Definition savedUsername (s : State) : string := trimmed (to_str (setting "username" JNull s)).
Definition savedUserCode (s : State) : string := trimmed (to_str (setting "userCode" JNull s)).

Definition savedCaFile (s : State) : string :=
  let savedPath := trimmed (to_str (setting "caFile" JNull s)) in
  if negb (is_empty savedPath) && fileExists savedPath then absoluteFilePath savedPath
  else if negb (is_empty (bundledCaFile_ s)) && fileExists (bundledCaFile_ s) then absoluteFilePath (bundledCaFile_ s)
  else "".

Definition setBundledCaFile (path : string) (s : State) : State :=
  emit "savedConnectionChanged" [] (s <| bundledCaFile_ := absoluteFilePath path |>).

Definition saveConnectionPreferences (serverIp : string) (serverPort : Z) (username userCode caFile : string) (s : State) : State :=
  let o := obj_set "serverIp" (JStr (trimmed serverIp)) (settings_ s) in
  let o := obj_set "serverPort" (JInt serverPort) o in
  let o := obj_set "username" (JStr (trimmed username)) o in
  let o := obj_set "userCode" (JStr (trimmed userCode)) o in
  let o := if is_empty (trimmed caFile) then obj_remove "caFile" o
           else if fileExists caFile then obj_set "caFile" (JStr (absoluteFilePath caFile)) o
           else o in
  emit "savedConnectionChanged" [] (s <| settings_ := o |>).

(** ** Connecting *)

Definition setIdentity (username userCode : string) (s : State) : State :=
  let identityChanged := negb (String.eqb (localUserName_ s) username) || negb (String.eqb (localUserCode_ s) userCode) in
  let s := s <| localUserName_ := username |> <| localUserCode_ := userCode |> in
  if identityChanged then emit "localIdentityChanged" [] s else s.

Definition connectToServerWithTlsName (serverIp : string) (serverPort : Z) (username userCode caFile tlsServerName : string)
    (s : State) : State :=
  let s := saveConnectionPreferences serverIp serverPort username userCode caFile s in
  let s := setIdentity username userCode s in
  let s := setStatus "正在连接..." s in
  invoke "connectToServer"
    [JStr serverIp; JInt serverPort; JStr username; JStr userCode; JStr caFile; JStr tlsServerName] s.

Definition connectToServer (serverIp : string) (serverPort : Z) (username userCode caFile : string) (s : State) : State :=
  connectToServerWithTlsName serverIp serverPort username userCode caFile "" s.

Definition connectToLocalHost (serverExe certFile keyFile dbFile username userCode : string) (s : State) : State :=
  let s := saveConnectionPreferences "127.0.0.1" 8888 username userCode certFile s in
  let s := setIdentity username userCode s in
  let s := setStatus "正在启动本地 Server..." s in
  invoke "connectToLocalHost"
    [JStr serverExe; JStr certFile; JStr keyFile; JStr dbFile; JStr username; JStr userCode] s.

Definition disconnectFromServer (s : State) : State :=
  let s := invoke "disconnectFromServer" [] (s <| refreshTimer_ := false |>) in
  let s := if connected_ s then emit "connectedChanged" [] (s <| connected_ := false |>) else s in
  setStatus "未连接" s.

(** ** Sending *)

Definition own_row (messageId now content : string) (s : State) : row :=
  vmap [("messageId", JStr messageId); ("displayName", JStr (localUserName_ s)); ("userCode", JStr (localUserCode_ s));
        ("time", JStr now); ("content", JStr content); ("selfMessage", JBool true); ("systemMessage", JBool false);
        ("deliveryState", JStr "queued")].

Definition sendRoomMessage (uuid now content room : string) (s : State) : State :=
  let trimmedContent := trimmed content in
  let normalizedRoom := if is_empty (trimmed room) then "lobby" else trimmed room in
  if is_empty trimmedContent then s
  else invoke "sendChatToRoom" [JStr trimmedContent; JStr normalizedRoom; JStr uuid]
         (append_to ("room:" +:+ normalizedRoom) (own_row uuid now trimmedContent s) s).

Definition sendPrivateMessage (uuid now content targetUserCode : string) (s : State) : State :=
  let trimmedContent := trimmed content in
  let normalizedTarget := trimmed targetUserCode in
  if is_empty trimmedContent || is_empty normalizedTarget then s
  else invoke "sendPrivate" [JStr trimmedContent; JStr normalizedTarget; JStr uuid]
         (append_to ("dm:" +:+ normalizedTarget) (own_row uuid now trimmedContent s) s).

Definition requestUsers (s : State) : State := invoke "requestUsers" [] s.
Definition requestRooms (s : State) : State := invoke "requestRooms" [] s.

(** The handler of [refreshTimer_]. *)
Definition refresh_timeout (s : State) : State :=
  if connected_ s then requestRooms (requestUsers s) else s.

Definition requestActiveHistory (beforeMessageId searchQuery : string) (s : State) : State :=
  if negb (connected_ s) || historyLoading_ s then s
  else
    let isPrivate := has_prefix "dm:" (activeKey s) in
    let room := if isPrivate then "" else mid 5 (activeKey s) in
    let peer := if isPrivate then mid 3 (activeKey s) else "" in
    invoke "requestHistory" [JStr room; JStr peer; JBool isPrivate; JStr beforeMessageId; JInt 50; JStr searchQuery]
      (s <| historyLoading_ := true |>).

Definition searchActiveHistory (query : string) (s : State) : State :=
  let s := s <| historySearchQuery_ := trimmed query |> in
  if historyLoading_ s then s else requestActiveHistory "" (historySearchQuery_ s) s.

Definition createRoom (room : string) (isPrivate : bool) (s : State) : State :=
  if is_empty (trimmed room) then s else invoke "createRoom" [JStr (trimmed room); JBool isPrivate] s.

Definition sendRoomAction (action room targetUserCode : string) (s : State) : State :=
  invoke "sendRoomAction" [JStr action; JStr room; JStr targetUserCode] s.

Definition sendAdminAction (action targetUserCode messageId : string) (s : State) : State :=
  invoke "sendAdminAction" [JStr action; JStr targetUserCode; JStr messageId] s.

(** ** Choosing a conversation *)

(** [row >= 0 && roomModel_->valueAt(row, canManage).toBool()], stored and announced when it changed. *)
Definition refreshCanManage (canManage : bool) (s : State) : State :=
  if Bool.eqb (activeRoomCanManage_ s) canManage then s
  else emit "activeRoomCanManageChanged" [] (s <| activeRoomCanManage_ := canManage |>).

Definition selectRoom (room : string) (s : State) : State :=
  let s := s <| historySearchQuery_ := "" |> <| cache ::= activate ("room:" +:+ room) |> in
  let row := findRow "roomName" (JStr room) (roomModel_ s) in
  let canManage := (0 <=? row) && to_bool (valueAt row "canManage" (roomModel_ s)) in
  let s := if 0 <=? row then s <| roomModel_ ::= updateRow row (vmap [("unreadCount", JInt 0)]) |> else s in
  let s := refreshCanManage canManage s in
  let s := emit "activeMessageModelChanged" [] s in
  let s :=
    if connected_ s then
      let s := if eq_ci (joinedRoom_ s) room then s
               else (invoke "joinRoom" [JStr room] s) <| joinedRoom_ := room |> in
      requestActiveHistory "" "" s
    else s in
  if reconnecting_ s then emit "reconnectingChanged" [] (s <| reconnecting_ := false |>) else s.

Definition selectDirectMessage (userCode : string) (s : State) : State :=
  let s := s <| historySearchQuery_ := "" |> <| cache ::= activate ("dm:" +:+ userCode) |> in
  let row := find_user userCode (directMessageModel_ s) in
  let s := if 0 <=? row then s <| directMessageModel_ ::= updateRow row (vmap [("unreadCount", JInt 0)]) |> else s in
  let s := emit "activeMessageModelChanged" [] s in
  if connected_ s then requestActiveHistory "" "" s else s.

Definition openPrivateChat (displayName userCode : string) (s : State) : State :=
  if is_empty (trimmed userCode) || eq_ci userCode (localUserCode_ s) then s
  else
    let found := 0 <=? find_user userCode (directMessageModel_ s) in
    let s := if found then s
             else s <| directMessageModel_ ::=
                    append (vmap [("displayName", JStr displayName); ("userCode", JStr userCode); ("unreadCount", JInt 0)]) |> in
    selectDirectMessage userCode s.

(** ** Messages on the screen *)

Definition removeLocalMessage (messageId : string) (s : State) : State :=
  if is_empty messageId then s else on_models (removeRowsByValue "messageId" (JStr messageId)) s.

Definition canRecallMessage (messageId : string) (s : State) : bool :=
  if is_empty messageId then false
  else admin_ s ||
    existsb (fun km =>
      let row := findRow "messageId" (JStr messageId) km.2 in
      (0 <=? row) && eq_ci (to_str (valueAt row "userCode" km.2)) (localUserCode_ s)) (models s).

Definition recallMessage (messageId commandId : string) (s : State) : State * bool :=
  if canRecallMessage messageId s
  then (invoke "sendAdminAction" [JStr "recall"; JStr ""; JStr messageId; JStr commandId] s, true)
  else (s, false).

(** The test of [retryMessage] on one model. *)
Definition retryable (messageId : string) (m : ListModel) : bool :=
  let row := findRow "messageId" (JStr messageId) m in
  (0 <=? row) && to_bool (valueAt row "selfMessage" m) &&
  String.eqb (to_str (valueAt row "deliveryState" m)) "failed".

Definition retryMessage (messageId : string) (s : State) : State * bool :=
  if is_empty messageId then (s, false)
  else
    match List.find (fun km => retryable messageId km.2) (models s) with
    | None => (s, false)
    | Some (key, m) =>
        let content := to_str (valueAt (findRow "messageId" (JStr messageId) m) "content" m) in
        let s := match conversationModels_ (cache s) !! key with
                 | Some id => s <| cache ::= on_model id (update_message messageId (delivery "queued")) |>
                 | None => s
                 end in
        (if has_prefix "dm:" key
         then invoke "sendPrivate" [JStr content; JStr (mid 3 key); JStr messageId] s
         else invoke "sendChatToRoom" [JStr content; JStr (mid 5 key); JStr messageId] s, true)
    end.

(** The handler of [messageDeliveryFailed]. *)
Definition messageDeliveryFailed (messageId : string) (s : State) : State :=
  on_models (update_message messageId (delivery "failed")) s.

(** ** The connection's signals *)

Definition lobby_row : row := vmap [("roomName", JStr "lobby"); ("memberCount", JInt 0); ("unreadCount", JInt 0)].

Definition resetSessionData (s : State) : State :=
  let s := s <| roomModel_ ::= replaceRows [lobby_row] |> <| directMessageModel_ ::= replaceRows [] |>
             <| memberModel_ ::= replaceRows [] |> in
  let s := s <| cache ::= reset_cache |> <| joinedRoom_ := "lobby" |> in
  let s := s <| historyLoading_ := false |> <| historySearchQuery_ := "" |> <| onlineMemberCount_ := 0 |> in
  emit "activeMessageModelChanged" [] (emit "onlineMemberCountChanged" [] s).

Definition setAdmin (isAdmin : bool) (s : State) : State :=
  if Bool.eqb (admin_ s) isAdmin then s else emit "adminChanged" [] (s <| admin_ := isAdmin |>).

Definition handleConnected (isAdmin : bool) (s : State) : State :=
  let recovered := reconnecting_ s in
  let s := if recovered then s else resetSessionData s in
  let s := if reconnecting_ s then emit "reconnectingChanged" [] (s <| reconnecting_ := false |>) else s in
  let s := setAdmin isAdmin (s <| connected_ := true |>) in
  let s := (emit "connectedChanged" [] s) <| refreshTimer_ := true |> in
  let s := setStatus (if recovered then "已重新连接" else if isAdmin then "已连接（管理员）" else "已连接") s in
  requestActiveHistory "" "" (requestUsers (requestRooms s)).

Definition handleConnectionFailed (now reason : string) (s : State) : State :=
  let s := s <| refreshTimer_ := false |> <| connected_ := false |> in
  let s := if admin_ s then emit "adminChanged" [] (s <| admin_ := false |>) else s in
  let s := setStatus ("连接失败：" +:+ reason) (emit "connectedChanged" [] s) in
  emit "connectionFailed" [JStr reason] (appendSystemMessage now (statusText_ s) s).

Definition handleConnectionLost (reason : string) (s : State) : State :=
  let s := s <| refreshTimer_ := false |> <| connected_ := false |> in
  let s := emit "connectedChanged" [] s in
  let s := if reconnecting_ s then s else emit "reconnectingChanged" [] (s <| reconnecting_ := true |>) in
  let s := setStatus (if is_empty reason then "连接中断，正在重新连接" else "连接中断，正在重新连接：" +:+ reason) s in
  emit "connectionLost" [JStr reason] (invoke "scheduleReconnect" [] s).

Definition handleReconnectScheduled (attempt delayMs : Z) (s : State) : State :=
  setStatus ("正在重新连接（第 " +:+ to_string attempt +:+ " 次）") s.

Definition handleReconnectAttempt (attempt : Z) (s : State) : State :=
  setStatus ("正在重新连接（第 " +:+ to_string attempt +:+ " 次）") s.

Definition handleReconnectFailed (reason : string) (s : State) : State :=
  setStatus ("重新连接失败，等待下一次重试：" +:+ reason) s.

(** ** History *)

(** One message of a page: [None] when it has no id or is already shown. *)
Definition history_row (now : string) (shownModel : ListModel) (localCode : string) (detail : row) : option row :=
  let messageId := to_str (value "messageId" detail) in
  if is_empty messageId || has_message messageId shownModel then None
  else
    let time := default now (isoLocalTime (to_str (value "createdAt" detail))) in
    let userCode := to_str (value "userCode" detail) in
    Some (vmap [("messageId", JStr messageId); ("displayName", value "displayName" detail); ("userCode", JStr userCode);
                ("time", JStr time); ("content", value "content" detail); ("selfMessage", JBool (eq_ci userCode localCode));
                ("systemMessage", JBool false); ("deliveryState", default (JStr "sent") (obj_get "deliveryState" detail))]).

Definition handleHistory (now room targetUserCode : string) (isPrivate : bool) (messages : list row) (searchQuery : string)
    (s : State) : State :=
  let s := s <| historyLoading_ := false |> in
  let expectedKey := if isPrivate then "dm:" +:+ targetUserCode else "room:" +:+ room in
  if negb (eq_ci expectedKey (activeKey s)) then s
  else if negb (String.eqb searchQuery (historySearchQuery_ s)) then requestActiveHistory "" (historySearchQuery_ s) s
  else
    let rows := omap (history_row now (current_model s) (localUserCode_ s)) messages in
    if bool_decide (rows = []) then s
    else s <| cache ::= fun c => on_model (messageModel_ c) (prependRows rows) c |>.

(** ** Messages from the server *)

Record Incoming := mk_incoming {
  in_type : string;
  in_messageId : string;
  in_commandId : string;
  in_username : string;
  in_userCode : string;
  in_content : string;
  in_room : string;
  in_targetUserCode : string;
  in_deliveryState : string;
  in_users : list string;
  in_rooms : list string;
  in_userDetails : list row;
  in_roomDetails : list row;
  in_isAdmin : bool;
}.

Definition handle_delivery_receipt (msg : Incoming) (s : State) : State :=
  let state := if is_empty (in_deliveryState msg) then in_content msg else in_deliveryState msg in
  if is_empty (in_messageId msg) || (negb (String.eqb state "sent") && negb (String.eqb state "delivered")) then s
  else on_models (update_message (in_messageId msg) (delivery state)) s.

(** The loop that replaces the first request with the same id. *)
Fixpoint replace_request (id : string) (request : row) (pending : list row) : list row * bool :=
  match pending with
  | [] => ([], false)
  | r :: rest =>
      if String.eqb (to_str (value "id" r)) id then (request :: rest, true)
      else let '(rest', replaced) := replace_request id request rest in (r :: rest', replaced)
  end.

Definition handle_approval_request (msg : Incoming) (s : State) : State :=
  if is_empty (in_messageId msg) || is_empty (in_username msg) || is_empty (in_userCode msg) then s
  else
    let request := vmap [("id", JStr (in_messageId msg)); ("displayName", JStr (in_username msg));
                         ("userCode", JStr (in_userCode msg)); ("requestedAt", JStr (in_content msg))] in
    let '(pending, replaced) := replace_request (in_messageId msg) request (pendingConnectionApprovals_ s) in
    emit "pendingConnectionApprovalsChanged" []
      (s <| pendingConnectionApprovals_ := if replaced then pending else pending ++ [request] |>).

Definition handle_approval_result (now : string) (msg : Incoming) (s : State) : State :=
  let other := fun r => negb (String.eqb (to_str (value "id" r)) (in_messageId msg)) in
  let pending := List.filter other (pendingConnectionApprovals_ s) in
  let removed := negb (length pending =? length (pendingConnectionApprovals_ s))%nat in
  let s := s <| pendingConnectionApprovals_ := pending |> in
  let s := if removed then emit "pendingConnectionApprovalsChanged" [] s else s in
  if String.eqb (in_content msg) "approved" then appendSystemMessage now "已批准成员连接，成员正在加入聊天室。" s
  else if String.eqb (in_content msg) "denied" then appendSystemMessage now "已拒绝成员连接请求。" s
  else s.

(** A member as the server lists it. *)
Record Member := mk_member { mb_name : string; mb_code : string; mb_room : string; mb_admin : bool }.

Definition member_of_detail (detail : row) : Member :=
  mk_member (to_str (value "displayName" detail)) (to_str (value "userCode" detail))
    (to_str (default (JStr "lobby") (obj_get "room" detail))) (to_bool (value "admin" detail)).

(** ["name#code@room"] *)
Definition member_of_identity (identity : string) : Member :=
  let hash := indexOf "#"%char 0 identity in
  let roomSeparator := indexOf "@"%char (hash + 1) identity in
  let name := if 0 <? hash then take_str (Z.to_nat hash) identity else identity in
  let code := if 0 <? hash
              then if hash <? roomSeparator
                   then substr (Z.to_nat (hash + 1)) (Z.to_nat (roomSeparator - hash - 1)) identity
                   else mid (Z.to_nat (hash + 1)) identity
              else "" in
  let userRoom := if hash <? roomSeparator then mid (Z.to_nat (roomSeparator + 1)) identity else "lobby" in
  mk_member name code userRoom false.

Definition member_row (m : Member) : row :=
  vmap [("displayName", JStr (mb_name m)); ("userCode", JStr (mb_code m)); ("online", JBool true); ("admin", JBool (mb_admin m))].

(** [unreadByUser] and [unreadByRoom]: the last row with a key wins. *)
Definition unread_by (key_of : row -> string) (m : ListModel) : gmap string Z :=
  foldl (fun acc r => <[key_of r := to_int (value "unreadCount" r)]> acc) ∅ (lm_rows m).

Definition direct_row (unread : gmap string Z) (m : Member) : row :=
  vmap [("displayName", JStr (mb_name m)); ("userCode", JStr (mb_code m));
        ("unreadCount", JInt (default 0 (unread !! toLower (mb_code m))))].

(** [roomMemberCounts_[room] = value(room, 0) + 1] for every member. *)
Definition count_members (ms : list Member) : gmap string Z :=
  foldl (fun acc m => <[mb_room m := default 0 (acc !! mb_room m) + 1]> acc) ∅ ms.

Definition is_peer (localCode : string) (m : Member) : bool := negb (is_empty localCode) && negb (eq_ci (mb_code m) localCode).

Definition handle_users_response (msg : Incoming) (s : State) : State :=
  let unreadByUser := unread_by (fun r => toLower (to_str (value "userCode" r))) (directMessageModel_ s) in
  let members := if bool_decide (in_userDetails msg = []) then map member_of_identity (in_users msg)
                 else map member_of_detail (in_userDetails msg) in
  let s := s <| roomMemberCounts_ := count_members members |> <| memberModel_ ::= replaceRows (map member_row members) |>
             <| directMessageModel_ ::=
                  replaceRows (map (direct_row unreadByUser) (List.filter (is_peer (localUserCode_ s)) members)) |> in
  let updates := map (fun r => vmap [("memberCount", JInt (default 0 (roomMemberCounts_ s !! to_str (value "roomName" r))))])
                     (lm_rows (roomModel_ s)) in
  let s := s <| roomModel_ ::= updateRows updates |> in
  if onlineMemberCount_ s =? rowCount (memberModel_ s) then s
  else emit "onlineMemberCountChanged" [] (s <| onlineMemberCount_ := rowCount (memberModel_ s) |>).

Definition room_row (counts unread : gmap string Z) (roomName ownerCode : string) (isPrivate canManage : bool) : row :=
  vmap [("roomName", JStr roomName); ("memberCount", JInt (default 0 (counts !! roomName)));
        ("unreadCount", JInt (default 0 (unread !! roomName))); ("ownerCode", JStr ownerCode);
        ("private", JBool isPrivate); ("canManage", JBool canManage)].

Definition handle_rooms_response (msg : Incoming) (s : State) : State :=
  let unreadByRoom := unread_by (fun r => to_str (value "roomName" r)) (roomModel_ s) in
  let mk := room_row (roomMemberCounts_ s) unreadByRoom in
  let rows :=
    if bool_decide (in_roomDetails msg = []) then map (fun room => mk room "" false (admin_ s)) (in_rooms msg)
    else map (fun d => mk (to_str (value "roomName" d)) (to_str (value "ownerCode" d))
                          (to_bool (value "private" d)) (to_bool (value "canManage" d))) (in_roomDetails msg) in
  let s := s <| roomModel_ ::= replaceRows rows |> in
  let activeRoom := if has_prefix "room:" (activeKey s) then mid 5 (activeKey s) else "" in
  let activeRow := findRow "roomName" (JStr activeRoom) (roomModel_ s) in
  refreshCanManage ((0 <=? activeRow) && to_bool (valueAt activeRow "canManage" (roomModel_ s))) s.

(** ** Chat messages *)

Definition is_private_type (type : string) : bool :=
  String.eqb type "private_message" || String.eqb type "private_chat" || String.eqb type "offline_message".

Definition is_self (msg : Incoming) (s : State) : bool :=
  negb (is_empty (localUserCode_ s)) && eq_ci (in_userCode msg) (localUserCode_ s).

Definition conversation_key (msg : Incoming) (s : State) : string :=
  if is_private_type (in_type msg)
  then "dm:" +:+ (if is_self msg s then in_targetUserCode msg else in_userCode msg)
  else "room:" +:+ (if is_empty (in_room msg) then "lobby" else in_room msg).

Definition effective_username (msg : Incoming) (s : State) : string :=
  if is_empty (trimmed (in_username msg))
  then if is_self msg s then localUserName_ s
       else if is_empty (trimmed (in_userCode msg)) then "未知用户" else in_userCode msg
  else in_username msg.

Definition message_row_of (now effectiveMessageId : string) (msg : Incoming) (s : State) : row :=
  vmap [("messageId", JStr effectiveMessageId); ("displayName", JStr (effective_username msg s));
        ("userCode", JStr (in_userCode msg)); ("time", JStr now); ("content", JStr (in_content msg));
        ("selfMessage", JBool (is_self msg s)); ("systemMessage", JBool false);
        ("deliveryState", JStr (if is_empty (in_deliveryState msg) then "sent" else in_deliveryState msg))].

(** [local-%1] of the incremented counter when the message has no id. *)
Definition effective_id (msg : Incoming) (s : State) : string :=
  if is_empty (in_messageId msg) then "local-" +:+ to_string (wrap32 (localMessageCounter_ s + 1)) else in_messageId msg.

Definition handle_chat (now : string) (msg : Incoming) (s : State) : State :=
  let key := conversation_key msg s in
  let id := effective_id msg s in
  let r := message_row_of now id msg s in
  let s := if is_empty (in_messageId msg) then s <| localMessageCounter_ ::= fun n => wrap32 (n + 1) |> else s in
  let r := match pendingAttachmentMetadata_ s !! id with Some a => obj_set "attachment" (JObj a) r | None => r end in
  let s := s <| pendingAttachmentMetadata_ ::= delete id |> in
  let s := append_to key r s in
  if negb (is_self msg s) && negb (String.eqb key (activeKey s))
  then incrementUnreadForConversation key (in_username msg) (in_userCode msg) s else s.

Definition handle_error (msg : Incoming) (s : State) : State :=
  let associated := negb (is_empty (in_messageId msg)) && existsb (fun km => has_message (in_messageId msg) km.2) (models s) in
  let s := if is_empty (in_messageId msg) then s
           else on_models (update_message (in_messageId msg) (delivery "failed")) s in
  let s := if is_empty (in_commandId msg) then s
           else emit "recallFailed" [JStr (in_commandId msg); JStr (in_content msg)] s in
  if negb associated && is_empty (in_commandId msg) then setStatus (in_content msg) s else s.

Definition handleMessage (now : string) (msg : Incoming) (s : State) : State :=
  let type := in_type msg in
  if String.eqb type "delivery_receipt" then handle_delivery_receipt msg s
  else if String.eqb type "login_ok" then setAdmin (in_isAdmin msg) s
  else if String.eqb type "connection_approval_request" then handle_approval_request msg s
  else if String.eqb type "connection_approval_result" then handle_approval_result now msg s
  else if String.eqb type "users_response" then handle_users_response msg s
  else if String.eqb type "rooms_response" then handle_rooms_response msg s
  else if String.eqb type "chat" || is_private_type type then handle_chat now msg s
  else if String.eqb type "message_recalled" then
    if is_empty (in_messageId msg) then s
    else emit "recallSucceeded" [JStr (in_commandId msg)]
           (on_models (removeRowsByValue "messageId" (JStr (in_messageId msg))) s)
  else if String.eqb type "system" && negb (is_empty (in_room msg)) then
    append_to ("room:" +:+ in_room msg) (system_row now (in_content msg)) s
  else if String.eqb type "error" then handle_error msg s
  else if String.eqb type "system" then appendSystemMessage now (in_content msg) s
  else s.

(** ** Attachments *)

Definition attachment_of (attachmentId : string) (metadata : row) : row :=
  vmap [("attachmentId", JStr attachmentId);
        ("fileName", match obj_get "fileName" metadata with Some (JStr f) => JStr f | _ => JStr "" end);
        ("logicalSize", value "logicalSize" metadata); ("status", JStr "available");
        ("totalChunks", value "totalChunks" metadata)].

Definition handleAttachmentEvent (type attachmentId commandId content : string) (s : State) : State :=
  if negb (String.eqb type "manifest") || is_empty attachmentId || is_empty commandId then s
  else match fromJson content with
       | Some (JObj metadata) =>
           let attachment := attachment_of attachmentId metadata in
           match List.find (fun km => has_message commandId km.2) (models s) with
           | Some (key, _) =>
               match conversationModels_ (cache s) !! key with
               | Some id => s <| cache ::= on_model id (update_message commandId (vmap [("attachment", JObj attachment)])) |>
               | None => s
               end
           | None => s <| pendingAttachmentMetadata_ ::= insert commandId attachment |>
           end
       | _ => s
       end.

Definition startAttachmentUpload (room filePath : string) (targetUsers : list string) (commandId : string) (s : State) : State :=
  invoke "startAttachmentUpload" [JStr room; JStr filePath; JArr (map JStr targetUsers); JStr commandId] s.

(** [filePath] is what the file dialog returned. *)
Definition chooseAndUploadAttachment (filePath room commandId : string) (s : State) : State :=
  if is_empty filePath then s
  else
    let wanted r := to_bool (value "online" r) && negb (is_empty (to_str (value "userCode" r))) &&
                    negb (eq_ci (to_str (value "userCode" r)) (localUserCode_ s)) in
    startAttachmentUpload room filePath
      (map (fun r => to_str (value "userCode" r)) (List.filter wanted (lm_rows (memberModel_ s)))) commandId s.

Definition startAttachmentDownload (attachmentId outputPath commandId : string) (s : State) : State :=
  invoke "startAttachmentDownload" [JStr attachmentId; JStr outputPath; JStr commandId] s.

(** [outputPath] is what the file dialog returned. *)
Definition sendAttachmentDownload (outputPath attachmentId commandId : string) (s : State) : State :=
  if is_empty outputPath then s else startAttachmentDownload attachmentId outputPath commandId s.

(** The invokables that only queue the worker slot of the same name; a
    QByteArray is its bytes. *)
Inductive worker_request :=
  | SendAttachmentInit (room : string) (logicalSize : Z) (commandId : string)
  | SendAttachmentChunk (uploadId : string) (chunkIndex : Z) (ciphertext cipherSha256 commandId : string)
  | ResumeAttachment (uploadId commandId : string)
  | SendAttachmentCommit (uploadId commandId : string)
  | FetchMlsKeyPackage (room targetUserCode commandId : string)
  | AddMlsMember (room groupId targetUserCode commandId : string)
  | RemoveMlsMember (room groupId targetUserCode commandId : string)
  | InspectMlsGroup (groupId commandId : string)
  | ProtectMls (groupId plaintext commandId : string)
  | UnprotectMls (groupId ciphertext commandId : string).

Definition forward (q : worker_request) (s : State) : State :=
  match q with
  | SendAttachmentInit room size c => invoke "sendAttachmentInit" [JStr room; JInt size; JStr c] s
  | SendAttachmentChunk u i data sha c => invoke "sendAttachmentChunk" [JStr u; JInt i; JStr data; JStr sha; JStr c] s
  | ResumeAttachment u c => invoke "resumeAttachment" [JStr u; JStr c] s
  | SendAttachmentCommit u c => invoke "sendAttachmentCommit" [JStr u; JStr c] s
  | FetchMlsKeyPackage room t c => invoke "fetchMlsKeyPackage" [JStr room; JStr t; JStr c] s
  | AddMlsMember room g t c => invoke "addMlsMember" [JStr room; JStr g; JStr t; JStr c] s
  | RemoveMlsMember room g t c => invoke "removeMlsMember" [JStr room; JStr g; JStr t; JStr c] s
  | InspectMlsGroup g c => invoke "inspectMlsGroup" [JStr g; JStr c] s
  | ProtectMls g p c => invoke "protectMls" [JStr g; JStr p; JStr c] s
  | UnprotectMls g p c => invoke "unprotectMls" [JStr g; JStr p; JStr c] s
  end.

End Controller.
