(* ===== verification/ControllerInvariant.v ===== *)
(** * ControllerInvariant: what every controller handler keeps

    The invariant of the controller's models and of the conversation cache, and
    the proof that every slot and invokable of
    client-cpp/gui/src/gui_chat_controller.cpp keeps it. *)

From S2P Require Import Prelude Text Json JsonCodecInstance ChatModel Conversations Controller.

(** ** Models of messages *)

Definition list_ok (m : ListModel) : Prop := fits m /\ in_sync m.

(** A conversation model: within its bound, its views up to date, no message
    id twice. *)
Definition good (m : ListModel) : Prop := lm_roles m = kMessageRoles /\ list_ok m /\ NoDup (ids (lm_rows m)).

Lemma new_model_ok roles : list_ok (new_model roles).
Proof. split; [done | constructor]. Qed.

Lemma new_model_good : good (new_model kMessageRoles).
Proof. split_and!; [done | apply new_model_ok | constructor]. Qed.

Lemma updateRow_ok i v m : list_ok m -> list_ok (updateRow i v m).
Proof. intros [Hf Hs]. split; [unfold fits; by rewrite updateRow_count | by apply updateRow_sync]. Qed.

Lemma append_ok r m : list_ok m -> list_ok (append r m).
Proof. intros [Hf Hs]. split; [by apply appendRows_fits | by apply appendRows_sync]. Qed.

Lemma replaceRows_ok rows m : list_ok m -> list_ok (replaceRows rows m).
Proof. intros [Hf Hs]. split; [by apply replaceRows_fits | by apply replaceRows_sync]. Qed.

Lemma updateRows_ok rows m : list_ok m -> list_ok (updateRows rows m).
Proof. intros [Hf Hs]. split; [by apply updateRows_fits | by apply updateRows_sync]. Qed.

Lemma prependRows_ok rows m : list_ok m -> list_ok (prependRows rows m).
Proof. intros [Hf Hs]. split; [by apply prependRows_fits | by apply prependRows_sync]. Qed.

Lemma bump_unread_ok i m : list_ok m -> list_ok (bump_unread i m).
Proof. apply updateRow_ok. Qed.

#[export] Hint Resolve new_model_ok updateRow_ok append_ok replaceRows_ok updateRows_ok prependRows_ok bump_unread_ok
  new_model_good : lanchat.

(** Roles never change. *)
Lemma updateRow_roles i v m : lm_roles (updateRow i v m) = lm_roles m.
Proof. unfold updateRow. by destruct (_ || _ || _)%bool. Qed.

Lemma removeRow_roles i m : lm_roles (removeRow i m) = lm_roles m.
Proof. unfold removeRow. by destruct (_ || _)%bool. Qed.

Lemma appendRows_roles rows m : lm_roles (appendRows rows m) = lm_roles m.
Proof.
  rewrite appendRows_push. assert (forall inc m', lm_roles (push inc m') = lm_roles m') as Hp.
  { intros inc m'. unfold push. destruct (bool_decide _); [done |]. cbv zeta.
    destruct (_ && _)%bool; [done |]. by destruct (0 <? _). }
  destruct (bool_decide (rows = [])); [done |]. destruct (bool_decide (_ ∈ _)); rewrite Hp; [| done].
  apply (dedup_ind (fun m' => lm_roles m' = lm_roles m)); [| done]. intros. by rewrite updateRow_roles.
Qed.

Lemma prependRows_roles rows m : lm_roles (prependRows rows m) = lm_roles m.
Proof.
  unfold prependRows. destruct (bool_decide (rows = [])); [done |]. cbv zeta.
  destruct (_ && _)%bool; [done |]. by destruct (0 <? _).
Qed.

(** Rows that keep their ids. *)
Definition keeps_id (values : row) : Prop := NoDup (map fst values) /\ obj_get "messageId" values = None.

Lemma updateRow_good i values m : keeps_id values -> good m -> good (updateRow i values m).
Proof.
  intros [Hn Hk] (Hr & Ho & Hd). split_and!; [by rewrite updateRow_roles | by apply updateRow_ok |].
  unfold updateRow. destruct (_ || _ || _)%bool; [done |]. rewrite announce_rows. unfold ids in *.
  rewrite alter_ids; [done |]. intros r _. unfold message_id_of. by rewrite (value_merge _ _ _ Hn), Hk.
Qed.

Lemma update_message_good messageId values m : keeps_id values -> good m -> good (update_message messageId values m).
Proof. intros Hk Hg. unfold update_message. destruct (_ <=? _); [by apply updateRow_good | done]. Qed.

Lemma append_good r m : message_row r -> good m -> good (append r m).
Proof.
  intros Hr (Hro & [Hf Hs] & Hd). split_and!.
  - unfold append. by rewrite appendRows_roles.
  - by apply append_ok.
  - apply appendRows_ids; [rewrite Hro; left | done | constructor; [done | constructor] | done].
Qed.

Lemma removeRow_good i m : good m -> good (removeRow i m).
Proof.
  intros (Hro & [Hf Hs] & Hd).
  split_and!; [by rewrite removeRow_roles | split; [by apply removeRow_fits | by apply removeRow_sync] |].
  unfold removeRow. destruct (_ || _)%bool; [done |]. rewrite announce_rows, ids_app.
  rewrite <- (take_drop (Z.to_nat i) (lm_rows m)), ids_app in Hd.
  apply NoDup_app in Hd as (H1 & H2 & H3). destruct (lm_rows m !! Z.to_nat i) as [x |] eqn:E.
  - rewrite (drop_S _ x _ E) in H2, H3. change (x :: drop ?n ?l) with ([x] ++ drop n l) in *.
    rewrite ids_app in H2, H3. apply NoDup_app in H3 as (_ & _ & H3). apply NoDup_app. split_and!; [done | | done].
    intros y Hy Hy'. apply (H2 y Hy). apply elem_of_app. auto.
  - apply lookup_ge_None in E. rewrite (drop_ge _ (S _)) by lia. by rewrite app_nil_r.
Qed.

Lemma removeRowsByValue_good k v m : good m -> good (removeRowsByValue k v m).
Proof. intros Hg. apply (remove_down_ind good); [by intros; apply removeRow_good | done]. Qed.

Lemma clear_good m : good m -> good (clear m).
Proof.
  intros (Hro & Ho & Hd). unfold clear. split_and!; [| by apply replaceRows_ok |].
  - unfold replaceRows. by destruct (bool_decide _).
  - unfold replaceRows. destruct (bool_decide _); [done |]. rewrite announce_rows. constructor.
Qed.

(** A page of new messages. *)
Lemma prepend_good rows m :
  NoDup (ids (rows ++ lm_rows m)) -> good m -> good (prependRows rows m).
Proof.
  intros Hn (Hro & [Hf Hs] & Hd). split_and!; [by rewrite prependRows_roles | by apply prependRows_ok |].
  rewrite prependRows_rows, clip_takelast by done. unfold takelast.
  rewrite <- (take_drop (Z.to_nat (len rows - kMaxRowsPerModel)) rows), <- app_assoc, ids_app in Hn.
  apply NoDup_app in Hn as (_ & _ & Hn). set (l := drop _ rows ++ _) in *.
  rewrite <- (take_drop (Z.to_nat kMaxRowsPerModel) l), ids_app in Hn. by apply NoDup_app in Hn as (Hn & _ & _).
Qed.

(** ** The cache of conversations *)

(** The cache, after at most [n] uses of a conversation. *)
Record cinv (n : Z) (c : Cache) : Prop := mk_cinv {
  cv_inv : cache_inv c;
  cv_seq : accessSequence_ c <= n;
  cv_good : map_Forall (fun _ m => good m) (heap c);
}.

Lemma cinv_le n n' c : n <= n' -> cinv n c -> cinv n' c.
Proof. intros Hn [Hi Hs Hg]. split; [done | lia | done]. Qed.

Lemma on_model_cinv n id f c :
  (forall m, heap c !! id = Some m -> good m -> good (f m)) -> cinv n c -> cinv n (on_model id f c).
Proof.
  intros Hf [Hi Hs Hg]. split; [by apply on_model_inv | done |]. cbn. intros i m Hm.
  destruct (decide (i = id)) as [-> | Hne].
  - rewrite lookup_alter_eq in Hm. apply fmap_Some in Hm as (m' & Hm' & ->). apply Hf; [done | by eapply Hg].
  - rewrite lookup_alter_ne in Hm by done. by eapply Hg.
Qed.

Lemma for_each_cinv n f c : (forall m, good m -> good (f m)) -> cinv n c -> cinv n (for_each_model f c).
Proof.
  intros Hf [Hi Hs Hg]. split; [by apply for_each_model_inv | done |]. intros i m Hm.
  rewrite (for_each_model_heap f c i (ci_wf c Hi)) in Hm. apply fmap_Some in Hm as (m' & Hm' & ->).
  apply Hf. by eapply Hg.
Qed.

Lemma trim_heap fuel p c : heap (trim_loop fuel p c) ⊆ heap c.
Proof.
  revert c. induction fuel as [| f IH]; intros c; cbn [trim_loop]; [done |].
  destruct (_ <=? _)%nat; [done |]. destruct (is_empty _); [done |]. etrans; [apply IH |].
  unfold drop_model. destruct (conversationModels_ c !! _); [apply delete_subseteq | done].
Qed.

Lemma ensure_heap key c i m :
  heap (ensureConversationModel key c).1 !! i = Some m -> heap c !! i = Some m \/ m = new_model kMessageRoles.
Proof.
  unfold ensureConversationModel. destruct (conversationModels_ c !! key); [by left |]. cbn [fst].
  intros Hm. eapply lookup_weaken in Hm; [| apply trim_heap]. cbn in Hm.
  apply lookup_insert_Some in Hm as [[_ <-] | [_ Hm]]; auto.
Qed.

Lemma ensure_cinv n key c : n < UINT64_MAX - 1 -> key <> "" -> cinv n c -> cinv (n + 1) (ensureConversationModel key c).1.
Proof.
  intros Hn Hk [Hi Hs Hg]. destruct (ensure_inv key c Hi Hk) as [Hi' Hs']; [lia |].
  split; [done | lia |]. intros i m Hm. apply ensure_heap in Hm as [Hm | ->]; [by eapply Hg | apply new_model_good].
Qed.

Lemma activate_cinv n key c : n < UINT64_MAX - 1 -> key <> "" -> cinv n c -> cinv (n + 1) (activate key c).
Proof.
  intros Hn Hk Hc. destruct (ensure_cinv n key c Hn Hk Hc) as [_ Hs' Hg'].
  destruct (activate_spec key c (cv_inv n c Hc) Hk) as (Hi & Hs & _); [destruct Hc; lia |].
  unfold activate in *. destruct (ensureConversationModel key c) as [c' id]. split; done.
Qed.

Lemma reset_cinv n c : n < UINT64_MAX - 1 -> cinv n c -> cinv (n + 1) (reset_cache c).
Proof.
  intros Hn Hc. destruct (reset_cache_spec c (cv_inv n c Hc)) as [Hi Hs]; [destruct Hc; lia |].
  split; [done | destruct Hc; lia |]. pose proof (for_each_cinv n clear c clear_good Hc) as [_ _ Hg].
  unfold reset_cache in *. set (c1 := (for_each_model clear c) <| activeConversationKey_ := _ |>) in *.
  pose proof (ensure_heap "room:lobby" c1) as He.
  destruct (ensureConversationModel _ c1) as [c2 id]. intros i m Hm.
  destruct (He i m Hm) as [Hm' | ->]; [by eapply Hg | apply new_model_good].
Qed.

Lemma initial_cinv : cinv 1 initial_cache.
Proof.
  split; [apply initial_cache_inv | done |]. intros i m Hm. cbn in Hm.
  apply lookup_singleton_Some in Hm as [_ <-]. apply new_model_good.
Qed.

(** ** The controller's state *)

Record sinv (n : Z) (s : State) : Prop := mk_sinv {
  sv_cache : cinv n (cache s);
  sv_room : list_ok (roomModel_ s);
  sv_direct : list_ok (directMessageModel_ s);
  sv_member : list_ok (memberModel_ s);
}.

(** The fields the invariant reads. *)
Definition core (s : State) := (cache s, roomModel_ s, directMessageModel_ s, memberModel_ s).

Lemma sinv_core s s' n : core s = core s' -> sinv n s -> sinv n s'.
Proof. intros [= E1 E2 E3 E4] [H1 H2 H3 H4]. split; congruence. Qed.

Lemma sinv_le n n' s : n <= n' -> sinv n s -> sinv n' s.
Proof. intros Hn [H1 H2 H3 H4]. split; [by eapply cinv_le | done ..]. Qed.

Lemma sinv_succ n s : sinv n s -> sinv (n + 1) s.
Proof. apply sinv_le. lia. Qed.

Lemma cache_sinv n n' f s : n <= n' -> (cinv n (cache s) -> cinv n' (f (cache s))) -> sinv n s -> sinv n' (s <| cache ::= f |>).
Proof. intros Hn Hf [H1 H2 H3 H4]. split; auto. Qed.

Lemma room_sinv n f s : (list_ok (roomModel_ s) -> list_ok (f (roomModel_ s))) -> sinv n s -> sinv n (s <| roomModel_ ::= f |>).
Proof. intros Hf [H1 H2 H3 H4]. split; auto. Qed.

Lemma direct_sinv n f s : (list_ok (directMessageModel_ s) -> list_ok (f (directMessageModel_ s))) ->
  sinv n s -> sinv n (s <| directMessageModel_ ::= f |>).
Proof. intros Hf [H1 H2 H3 H4]. split; auto. Qed.

Lemma member_sinv n f s : (list_ok (memberModel_ s) -> list_ok (f (memberModel_ s))) ->
  sinv n s -> sinv n (s <| memberModel_ ::= f |>).
Proof. intros Hf [H1 H2 H3 H4]. split; auto. Qed.

(** A step outside the four fields. *)
Ltac sinv_frame s := apply (sinv_core s); [reflexivity |].

Lemma setStatus_sinv n t s : sinv n s -> sinv n (setStatus t s).
Proof. intros Hs. unfold setStatus. destruct (String.eqb _ _); [done | by sinv_frame s]. Qed.

Lemma setAdmin_sinv n b s : sinv n s -> sinv n (setAdmin b s).
Proof. intros Hs. unfold setAdmin. destruct (Bool.eqb _ _); [done | by sinv_frame s]. Qed.

Lemma refreshCanManage_sinv n b s : sinv n s -> sinv n (refreshCanManage b s).
Proof. intros Hs. unfold refreshCanManage. destruct (Bool.eqb _ _); [done | by sinv_frame s]. Qed.

Lemma requestActiveHistory_sinv n a b s : sinv n s -> sinv n (requestActiveHistory a b s).
Proof. intros Hs. unfold requestActiveHistory. destruct (_ || _)%bool; [done | by sinv_frame s]. Qed.

(** Unfold a handler without expanding its [let]s. *)
Tactic Notation "open_handler" reference(f) := cbv delta [f]; cbv beta.

(** Walk through a handler: a [let] of a state is an intermediate state. *)
Ltac sinv_walk :=
  repeat first
    [ assumption
    | lazymatch goal with
      | |- sinv ?n (let x := ?t in @?b x) =>
          let u := fresh "u" in
          lazymatch type of t with
          | State => cut (sinv n t); [change (sinv n t -> sinv n (b t)); generalize t; intros u ?; cbv beta | ]
          | _ => change (sinv n (b t)); generalize t; intros u; cbv beta
          end
      | |- sinv _ (if ?b then _ else _) => destruct b
      | |- sinv _ (match ?b with _ => _ end) => destruct b
      | |- sinv _ (emit _ _ ?s) => sinv_frame s
      | |- sinv _ (invoke _ _ ?s) => sinv_frame s
      | |- sinv _ (requestUsers ?s) => sinv_frame s
      | |- sinv _ (requestRooms ?s) => sinv_frame s
      | |- sinv _ (setStatus _ _) => apply setStatus_sinv
      | |- sinv _ (setAdmin _ _) => apply setAdmin_sinv
      | |- sinv _ (refreshCanManage _ _) => apply refreshCanManage_sinv
      | |- sinv _ (requestActiveHistory _ _ _) => apply requestActiveHistory_sinv
      | |- sinv _ (field_update roomModel_ _ ?s) => apply room_sinv; [auto with lanchat | ]
      | |- sinv _ (field_update directMessageModel_ _ ?s) => apply direct_sinv; [auto with lanchat | ]
      | |- sinv _ (field_update memberModel_ _ ?s) => apply member_sinv; [auto with lanchat | ]
      | |- sinv _ (field_update cache _ ?s) => fail
      | |- sinv _ (field_update _ _ ?s) => sinv_frame s
      end
    | solve [auto with lanchat] ].

(** Rows with literal keys. *)
Ltac literal_row := split; [apply (bool_decide_unpack _); vm_compute; exact I | first [reflexivity | eexists; reflexivity]].

Section Invariant.
  Context `{QtText} `{GuiEnv}.

Lemma delivery_keeps_id state : keeps_id (delivery state).
Proof. literal_row. Qed.

Lemma attachment_keeps_id a : keeps_id (vmap [("attachment", JObj a)]).
Proof. literal_row. Qed.

Lemma system_row_message now content : message_row (system_row now content).
Proof. literal_row. Qed.

Lemma own_row_message i now content s : message_row (own_row i now content s).
Proof. literal_row. Qed.

Lemma message_row_of_message now i msg s : message_row (message_row_of now i msg s).
Proof. literal_row. Qed.

Lemma message_row_attachment now i msg s a : message_row (obj_set "attachment" (JObj a) (message_row_of now i msg s)).
Proof. literal_row. Qed.

Hint Resolve delivery_keeps_id attachment_keeps_id system_row_message own_row_message message_row_of_message
  message_row_attachment : lanchat.

Lemma on_models_sinv n f s : (forall m, good m -> good (f m)) -> sinv n s -> sinv n (on_models f s).
Proof. intros Hf. apply cache_sinv; [lia | by apply for_each_cinv]. Qed.

Lemma append_to_sinv n key r s : n < UINT64_MAX - 1 -> key <> "" -> message_row r -> sinv n s -> sinv (n + 1) (append_to key r s).
Proof.
  intros Hn Hk Hr [H1 H2 H3 H4]. unfold append_to. pose proof (ensure_cinv n key (cache s) Hn Hk H1) as Hc.
  destruct (ensureConversationModel key (cache s)) as [c id]. split; [| done ..]. cbn.
  apply on_model_cinv; [| done]. intros m _. by apply append_good.
Qed.

Lemma appendSystemMessage_sinv n now content s : sinv n s -> sinv n (appendSystemMessage now content s).
Proof.
  apply cache_sinv; [lia |]. apply on_model_cinv. intros m _. apply append_good, system_row_message.
Qed.

Lemma incrementUnread_sinv n a b c s : sinv n s -> sinv n (incrementUnreadForConversation a b c s).
Proof. intros Hs. open_handler incrementUnreadForConversation. sinv_walk. Qed.


Lemma setIdentity_sinv n a b s : sinv n s -> sinv n (setIdentity a b s).
Proof. intros Hs. open_handler setIdentity. sinv_walk. Qed.

Lemma saveConnectionPreferences_sinv n a b c d e s : sinv n s -> sinv n (saveConnectionPreferences a b c d e s).
Proof. intros Hs. open_handler saveConnectionPreferences. sinv_walk. Qed.

Hint Resolve setIdentity_sinv saveConnectionPreferences_sinv : lanchat.

Lemma connectToServerWithTlsName_sinv n a b c d e f s : sinv n s -> sinv n (connectToServerWithTlsName a b c d e f s).
Proof. intros Hs. open_handler connectToServerWithTlsName. sinv_walk. Qed.

Lemma connectToLocalHost_sinv n a b c d e f s : sinv n s -> sinv n (connectToLocalHost a b c d e f s).
Proof. intros Hs. open_handler connectToLocalHost. sinv_walk. Qed.

Lemma disconnectFromServer_sinv n s : sinv n s -> sinv n (disconnectFromServer s).
Proof. intros Hs. open_handler disconnectFromServer. sinv_walk. Qed.

Lemma sendRoomMessage_sinv n a b c d s : n < UINT64_MAX - 1 -> sinv n s -> sinv (n + 1) (sendRoomMessage a b c d s).
Proof.
  intros Hn Hs. unfold sendRoomMessage. destruct (is_empty (trimmed c)); [by apply sinv_succ |].
  sinv_walk. by apply append_to_sinv; auto with lanchat.
Qed.

Lemma sendPrivateMessage_sinv n a b c d s : n < UINT64_MAX - 1 -> sinv n s -> sinv (n + 1) (sendPrivateMessage a b c d s).
Proof.
  intros Hn Hs. unfold sendPrivateMessage. destruct (_ || _)%bool; [by apply sinv_succ |].
  sinv_walk. by apply append_to_sinv; auto with lanchat.
Qed.

Lemma activate_sinv n key s : n < UINT64_MAX - 1 -> key <> "" -> sinv n s -> sinv (n + 1) (s <| cache ::= activate key |>).
Proof. intros Hn Hk. apply cache_sinv; [lia | by apply activate_cinv]. Qed.

Lemma selectRoom_sinv n room s : n < UINT64_MAX - 1 -> sinv n s -> sinv (n + 1) (selectRoom room s).
Proof.
  intros Hn Hs. open_handler selectRoom. sinv_walk.
  apply activate_sinv; [done | done |]. by sinv_frame s.
Qed.

Lemma selectDirectMessage_sinv n code s : n < UINT64_MAX - 1 -> sinv n s -> sinv (n + 1) (selectDirectMessage code s).
Proof.
  intros Hn Hs. open_handler selectDirectMessage. sinv_walk.
  apply activate_sinv; [done | done |]. by sinv_frame s.
Qed.

Lemma openPrivateChat_sinv n a b s : n < UINT64_MAX - 1 -> sinv n s -> sinv (n + 1) (openPrivateChat a b s).
Proof.
  intros Hn Hs. unfold openPrivateChat. destruct (_ || _)%bool; [by apply sinv_succ |].
  apply selectDirectMessage_sinv; [done |]. sinv_walk.
Qed.

Lemma removeLocalMessage_sinv n a s : sinv n s -> sinv n (removeLocalMessage a s).
Proof. intros Hs. unfold removeLocalMessage. sinv_walk. by apply on_models_sinv; [apply removeRowsByValue_good |]. Qed.

Lemma recallMessage_sinv n a b s : sinv n s -> sinv n (recallMessage a b s).1.
Proof. intros Hs. unfold recallMessage. destruct (canRecallMessage a s); cbn [fst]; sinv_walk. Qed.

Lemma update_at_sinv n id messageId values s : keeps_id values -> sinv n s ->
  sinv n (s <| cache ::= on_model id (update_message messageId values) |>).
Proof.
  intros Hk. apply cache_sinv; [lia |]. apply on_model_cinv. intros m _. by apply update_message_good.
Qed.

Lemma retryMessage_sinv n a s : sinv n s -> sinv n (retryMessage a s).1.
Proof.
  intros Hs. unfold retryMessage. destruct (is_empty a); [done |].
  destruct (List.find _ _) as [[key m] |]; [| done]. cbn [fst]. sinv_walk; apply update_at_sinv; auto with lanchat.
Qed.

Lemma messageDeliveryFailed_sinv n a s : sinv n s -> sinv n (messageDeliveryFailed a s).
Proof. intros Hs. apply on_models_sinv; [| done]. intros m. apply update_message_good, delivery_keeps_id. Qed.

Lemma resetSessionData_sinv n s : n < UINT64_MAX - 1 -> sinv n s -> sinv (n + 1) (resetSessionData s).
Proof.
  intros Hn Hs. unfold resetSessionData. sinv_walk.
  apply cache_sinv with (n := n); [lia | by apply reset_cinv |]. sinv_walk.
Qed.

Lemma handleConnected_sinv n b s : n < UINT64_MAX - 1 -> sinv n s -> sinv (n + 1) (handleConnected b s).
Proof.
  intros Hn Hs. open_handler handleConnected. sinv_walk; [by apply sinv_succ | by apply resetSessionData_sinv].
Qed.

Lemma handleConnectionFailed_sinv n a b s : sinv n s -> sinv n (handleConnectionFailed a b s).
Proof. intros Hs. open_handler handleConnectionFailed. sinv_walk. apply appendSystemMessage_sinv. sinv_walk. Qed.

Lemma handleConnectionLost_sinv n a s : sinv n s -> sinv n (handleConnectionLost a s).
Proof. intros Hs. open_handler handleConnectionLost. sinv_walk. Qed.

(** *** History pages *)

(** The ids of a page that lists no message twice. *)
Definition page_distinct (messages : list row) : Prop :=
  NoDup (filter (fun i => i <> "") (map (fun d => to_str (value "messageId" d)) messages)).

Lemma history_row_id now m code d r : history_row now m code d = Some r ->
  exists i, i = to_str (value "messageId" d) /\ i <> "" /\ message_id_of r = JStr i /\
            JStr i ∉ map message_id_of (lm_rows m).
Proof.
  unfold history_row. set (i := to_str (value "messageId" d)).
  destruct (is_empty i || has_message i m)%bool eqn:E; [done |]. intros [= <-]. exists i.
  apply orb_false_iff in E as [E1 E2]. apply is_empty_false in E1. split_and!; [done | done | done |].
  unfold has_message, findRow in E2. intros Hin. apply list_elem_of_fmap in Hin as (r' & Er & Hin).
  destruct (find_index_spec (fun r => bool_decide (value "messageId" r = JStr i)) (lm_rows m) 0)
    as [[_ Hall] | (k & r1 & E' & _ & _)].
  - rewrite Forall_forall in Hall. specialize (Hall r' Hin). bool_hyps. by apply Hall.
  - rewrite E' in E2. bool_hyps. lia.
Qed.

Lemma history_ids now m code messages :
  page_distinct messages -> NoDup (ids (lm_rows m)) ->
  NoDup (ids (omap (history_row now m code) messages ++ lm_rows m)).
Proof.
  intros Hp Hm. rewrite ids_app. set (rows := omap _ messages).
  assert (forall x, x ∈ ids rows -> exists d i, d ∈ messages /\ i = to_str (value "messageId" d) /\ i <> "" /\
            x = JStr i /\ JStr i ∉ map message_id_of (lm_rows m)) as Hsrc.
  { intros x Hx. unfold ids in Hx. apply list_elem_of_filter in Hx as [_ Hx].
    apply list_elem_of_fmap in Hx as (r & -> & Hr). apply list_elem_of_omap in Hr as (d & Hd & Hr).
    destruct (history_row_id _ _ _ _ _ Hr) as (i & Hi & Hne & Hid & Hn). exists d, i. by rewrite Hid. }
  apply NoDup_app. split_and!; [| | done].
  - clear Hsrc. unfold rows. clear rows. unfold page_distinct in Hp. revert Hp.
    induction messages as [| d messages IH]; intros Hp; [constructor |]. cbn [omap list_omap map] in *.
    rewrite filter_cons in Hp. destruct (history_row now m code d) as [r |] eqn:Er.
    + destruct (history_row_id _ _ _ _ _ Er) as (i & -> & Hne & Hid & _). rewrite decide_True in Hp by done.
      apply NoDup_cons in Hp as [Hni Hp]. change (r :: ?l) with ([r] ++ l). rewrite ids_app.
      rewrite (ids_single r _ Hid), (proj2 (is_empty_false _) Hne). apply NoDup_cons. split; [| by apply IH].
      intros Hin. apply Hni. unfold ids in Hin. apply list_elem_of_filter in Hin as [_ Hin].
      apply list_elem_of_fmap in Hin as (r' & Er' & Hr'). apply list_elem_of_omap in Hr' as (d' & Hd' & Hr').
      destruct (history_row_id _ _ _ _ _ Hr') as (i' & -> & _ & Hid' & _).
      rewrite Hid' in Er'. injection Er' as E3. apply list_elem_of_filter. split; [done |].
      rewrite E3. apply list_elem_of_fmap. by exists d'.
    + apply IH. case_decide; [by apply NoDup_cons in Hp as [_ Hp] | done].
  - intros x Hx Hx'. destruct (Hsrc x Hx) as (d & i & _ & _ & _ & -> & Hn). apply Hn.
    unfold ids in Hx'. by apply list_elem_of_filter in Hx' as [_ Hx'].
Qed.

Lemma handleHistory_sinv n a b c p messages q s :
  page_distinct messages -> sinv n s -> sinv n (handleHistory a b c p messages q s).
Proof.
  intros Hp Hs. unfold handleHistory. destruct (negb (eq_ci _ _)); [by sinv_frame s |].
  destruct (negb (String.eqb _ _)); [sinv_walk |]. destruct (bool_decide _); [by sinv_frame s |].
  apply cache_sinv with (n := n); [lia | | by sinv_frame s]. cbn. intros Hc.
  apply on_model_cinv; [| done]. intros m Hm Hg. apply prepend_good; [| done].
  unfold current_model. cbn. rewrite Hm. cbn. apply history_ids; [done | apply Hg].
Qed.

(** *** Messages *)

Lemma handle_chat_sinv n now msg s : n < UINT64_MAX - 1 -> sinv n s -> sinv (n + 1) (handle_chat now msg s).
Proof.
  intros Hn Hs. unfold handle_chat.
  set (s1 := if is_empty (in_messageId msg) then _ else s).
  set (s2 := s1 <| pendingAttachmentMetadata_ ::= _ |>).
  assert (sinv n s2) as H2 by (unfold s2, s1; sinv_walk).
  set (r := match _ with Some a => _ | None => _ end). set (key := conversation_key msg s).
  assert (sinv (n + 1) (append_to key r s2)) as H3.
  { apply append_to_sinv; [done | | | done].
    - unfold key, conversation_key. by destruct (is_private_type _).
    - unfold r. destruct (pendingAttachmentMetadata_ s1 !! _); auto with lanchat. }
  destruct (_ && _)%bool; [by apply incrementUnread_sinv | done].
Qed.

Lemma handle_users_response_sinv n msg s : sinv n s -> sinv n (handle_users_response msg s).
Proof. intros Hs. open_handler handle_users_response. sinv_walk. Qed.

Lemma handle_rooms_response_sinv n msg s : sinv n s -> sinv n (handle_rooms_response msg s).
Proof. intros Hs. open_handler handle_rooms_response. sinv_walk. Qed.

Lemma handle_approval_request_sinv n msg s : sinv n s -> sinv n (handle_approval_request msg s).
Proof.
  intros Hs. unfold handle_approval_request. destruct (_ || _ || _)%bool; [done |].
  destruct (replace_request _ _ _) as [pending replaced]. by sinv_frame s.
Qed.

Lemma handle_approval_result_sinv n now msg s : sinv n s -> sinv n (handle_approval_result now msg s).
Proof.
  intros Hs. open_handler handle_approval_result. sinv_walk; apply appendSystemMessage_sinv; sinv_walk.
Qed.

Lemma handle_delivery_receipt_sinv n msg s : sinv n s -> sinv n (handle_delivery_receipt msg s).
Proof.
  intros Hs. open_handler handle_delivery_receipt. sinv_walk. apply on_models_sinv; [| done].
  intros m. apply update_message_good, delivery_keeps_id.
Qed.

Lemma handle_error_sinv n msg s : sinv n s -> sinv n (handle_error msg s).
Proof.
  intros Hs. open_handler handle_error. sinv_walk. apply on_models_sinv; [| done].
  intros m. apply update_message_good, delivery_keeps_id.
Qed.

Lemma handleMessage_sinv n now msg s : n < UINT64_MAX - 1 -> sinv n s -> sinv (n + 1) (handleMessage now msg s).
Proof.
  intros Hn Hs. unfold handleMessage.
  repeat match goal with |- sinv _ (if ?b then _ else _) => destruct b end; try (by apply sinv_succ).
  - by apply sinv_succ, handle_delivery_receipt_sinv.
  - by apply sinv_succ, setAdmin_sinv.
  - by apply sinv_succ, handle_approval_request_sinv.
  - by apply sinv_succ, handle_approval_result_sinv.
  - by apply sinv_succ, handle_users_response_sinv.
  - by apply sinv_succ, handle_rooms_response_sinv.
  - by apply handle_chat_sinv.
  - apply sinv_succ. sinv_walk. by apply on_models_sinv; [apply removeRowsByValue_good |].
  - by apply append_to_sinv; auto with lanchat.
  - by apply sinv_succ, handle_error_sinv.
  - by apply sinv_succ, appendSystemMessage_sinv.
Qed.

Lemma handleAttachmentEvent_sinv n a b c d s : sinv n s -> sinv n (handleAttachmentEvent a b c d s).
Proof.
  intros Hs. unfold handleAttachmentEvent. destruct (_ || _ || _)%bool; [done |].
  destruct (fromJson d) as [[] |]; try done. destruct (List.find _ _) as [[key m] |]; [| by sinv_frame s].
  destruct (conversationModels_ (cache s) !! key); [| done]. apply update_at_sinv; auto with lanchat.
Qed.

End Invariant.

(** ** Any sequence of events *)

(** What reaches the controller: a call from the user interface or a signal of
    the worker or of the timer. *)
Inductive event :=
  | EvBundledCa (path : string)
  | EvConnect (serverIp : string) (serverPort : Z) (username userCode caFile tlsServerName : string)
  | EvConnectLocal (serverExe certFile keyFile dbFile username userCode : string)
  | EvDisconnect
  | EvSendRoom (uuid now content room : string)
  | EvSendPrivate (uuid now content targetUserCode : string)
  | EvRefresh
  | EvRequestUsers
  | EvRequestRooms
  | EvSearch (query : string)
  | EvCreateRoom (room : string) (isPrivate : bool)
  | EvRoomAction (action room targetUserCode : string)
  | EvAdminAction (action targetUserCode messageId : string)
  | EvSelectRoom (room : string)
  | EvSelectDirect (userCode : string)
  | EvOpenPrivate (displayName userCode : string)
  | EvRemoveLocal (messageId : string)
  | EvRecall (messageId commandId : string)
  | EvRetry (messageId : string)
  | EvDeliveryFailed (messageId : string)
  | EvConnected (isAdmin : bool)
  | EvConnectionFailed (now reason : string)
  | EvConnectionLost (reason : string)
  | EvReconnectScheduled (attempt delayMs : Z)
  | EvReconnectAttempt (attempt : Z)
  | EvReconnectFailed (reason : string)
  | EvHistory (now room targetUserCode : string) (isPrivate : bool) (messages : list row) (searchQuery : string)
  | EvMessage (now : string) (msg : Incoming)
  | EvAttachment (type attachmentId commandId content : string)
  | EvChooseUpload (filePath room commandId : string)
  | EvDownload (outputPath attachmentId commandId : string)
  | EvForward (q : worker_request).

(** The server lists no message twice in one page. *)
Definition page_ok (e : event) : Prop :=
  match e with EvHistory _ _ _ _ messages _ => page_distinct messages | _ => True end.

Section Events.
  Context `{QtText} `{GuiEnv}.

Definition handle (e : event) (s : State) : State :=
  match e with
  | EvBundledCa path => setBundledCaFile path s
  | EvConnect a b c d f g => connectToServerWithTlsName a b c d f g s
  | EvConnectLocal a b c d f g => connectToLocalHost a b c d f g s
  | EvDisconnect => disconnectFromServer s
  | EvSendRoom a b c d => sendRoomMessage a b c d s
  | EvSendPrivate a b c d => sendPrivateMessage a b c d s
  | EvRefresh => refresh_timeout s
  | EvRequestUsers => requestUsers s
  | EvRequestRooms => requestRooms s
  | EvSearch q => searchActiveHistory q s
  | EvCreateRoom a b => createRoom a b s
  | EvRoomAction a b c => sendRoomAction a b c s
  | EvAdminAction a b c => sendAdminAction a b c s
  | EvSelectRoom room => selectRoom room s
  | EvSelectDirect code => selectDirectMessage code s
  | EvOpenPrivate a b => openPrivateChat a b s
  | EvRemoveLocal a => removeLocalMessage a s
  | EvRecall a b => (recallMessage a b s).1
  | EvRetry a => (retryMessage a s).1
  | EvDeliveryFailed a => messageDeliveryFailed a s
  | EvConnected b => handleConnected b s
  | EvConnectionFailed a b => handleConnectionFailed a b s
  | EvConnectionLost a => handleConnectionLost a s
  | EvReconnectScheduled a b => handleReconnectScheduled a b s
  | EvReconnectAttempt a => handleReconnectAttempt a s
  | EvReconnectFailed a => handleReconnectFailed a s
  | EvHistory a b c d messages q => handleHistory a b c d messages q s
  | EvMessage now msg => handleMessage now msg s
  | EvAttachment a b c d => handleAttachmentEvent a b c d s
  | EvChooseUpload a b c => chooseAndUploadAttachment a b c s
  | EvDownload a b c => sendAttachmentDownload a b c s
  | EvForward q => forward q s
  end.

Definition run_events (es : list event) (s : State) : State := foldl (fun s e => handle e s) s es.

Lemma handle_sinv n e s : n < UINT64_MAX - 1 -> page_ok e -> sinv n s -> sinv (n + 1) (handle e s).
Proof.
  intros Hn Hp Hs. destruct e as [ | | | | | | | | | | | | | | | | | | | | | | | | | | | | | | | []]; cbn [handle];
    first [ by apply sinv_succ; sinv_frame s
          | by apply sendRoomMessage_sinv | by apply sendPrivateMessage_sinv | by apply selectRoom_sinv
          | by apply selectDirectMessage_sinv | by apply openPrivateChat_sinv | by apply handleConnected_sinv
          | by apply handleMessage_sinv
          | apply sinv_succ;
            first [ by apply connectToServerWithTlsName_sinv | by apply connectToLocalHost_sinv
                  | by apply disconnectFromServer_sinv | by apply removeLocalMessage_sinv | by apply recallMessage_sinv
                  | by apply retryMessage_sinv | by apply messageDeliveryFailed_sinv
                  | by apply handleConnectionFailed_sinv | by apply handleConnectionLost_sinv
                  | by apply setStatus_sinv | by apply handleHistory_sinv | by apply handleAttachmentEvent_sinv
                  | unfold refresh_timeout, searchActiveHistory, createRoom, chooseAndUploadAttachment,
                      startAttachmentUpload, sendAttachmentDownload, startAttachmentDownload; sinv_walk; done ] ].
Qed.

Lemma run_events_sinv es n s : n + len es < UINT64_MAX -> Forall page_ok es -> sinv n s -> sinv (n + len es) (run_events es s).
Proof.
  intros Hn Hp. revert n s Hn. induction Hp as [| e es He _ IH]; intros n s Hn Hs.
  { unfold len. cbn [length]. by rewrite Z.add_0_r. }
  assert (len (e :: es) = 1 + len es) as El by (unfold len; cbn [length]; lia).
  pose proof (len_nonneg es). rewrite El in *. rewrite Z.add_assoc. cbn [run_events foldl]. apply IH; [lia |].
  apply handle_sinv; [lia | done | done].
Qed.

(** C2: whatever sequence of calls and signals the controller handles, the view's
    model is the live model of the active conversation, every cached
    conversation has its own live model and there are at most eight of them, no
    model is left without a conversation, and every conversation model holds at
    most 1000 rows, shows its views exactly its rows and has no message id in
    two rows.  The other three models keep their bound and their views too.  The
    server is taken to list no message twice within one page of history, and
    the number of events to fit the 64-bit access counter. *)
Theorem controller_invariant saved es :
  len es < UINT64_MAX - 1 -> Forall page_ok es ->
  let s := run_events es (initial_state saved) in
  cache_inv (cache s) /\ map_Forall (fun _ m => good m) (heap (cache s)) /\
  list_ok (roomModel_ s) /\ list_ok (directMessageModel_ s) /\ list_ok (memberModel_ s).
Proof.
  intros Hl Hp. destruct (run_events_sinv es 1 (initial_state saved)) as [[H1 _ H2] H3 H4 H5]; [lia | done | | done].
  split; [apply initial_cinv | apply new_model_ok ..].
Qed.

End Events.

(** ** Witness *)

(** A machine with one certificate file, on which every date is valid. *)
#[export] Instance ex_env : GuiEnv := {|
  fileExists := fun p => String.eqb p "ca.pem";
  absoluteFilePath := fun p => "C:/" +:+ p;
  isoLocalTime := fun _ => Some "09:30";
  fromJson := fun s => match json_parse s with Ok j => Some j | Fail _ => None end;
|}.

Definition ex_chat (room i code text : string) : Incoming :=
  mk_incoming "chat" i "" "Bob" code text room "" "" [] [] [] [] false.

(** A session that opens more conversations than the cache holds. *)
Definition ex_events : list event :=
  [EvConnected false] ++ map EvSelectRoom ["a"; "b"; "c"; "d"; "e"; "f"; "g"; "h"; "i"] ++
  [EvMessage "10:00" (ex_chat "i" "m1" "B002" "hi"); EvMessage "10:01" (ex_chat "i" "m1" "B002" "hi again");
   EvHistory "10:02" "i" "" false [vmap [("messageId", JStr "m0"); ("userCode", JStr "A001")]; vmap [("messageId", JStr "m1")]] ""].

Lemma controller_invariant_witness :
  let s := run_events ex_events (initial_state []) in
  cache_inv (cache s) /\ base.size (conversationModels_ (cache s)) = 8%nat /\
  map (value "messageId") (lm_rows (current_model s)) = [JStr "m0"; JStr "m1"].
Proof.
  split; [| split; vm_compute; reflexivity].
  apply (controller_invariant [] ex_events).
  - vm_compute. reflexivity.
  - unfold ex_events. repeat (constructor; [first [exact I | apply (bool_decide_unpack _); vm_compute; exact I] |]). constructor.
Defined.
