(* ===== verification/ControllerBehaviour.v ===== *)
(** * ControllerBehaviour: what the controller does with messages

    Where an incoming message goes and what it does to the unread counts, who
    may recall and what is resent, the member list, and how the session data
    fares when a connection is lost and found again
    (client-cpp/gui/src/gui_chat_controller.cpp). *)

From Stdlib Require Import Ascii.
From S2P Require Import Prelude Text Json JsonCodecInstance ChatModel Conversations Controller ControllerInvariant.

(** ** Appending to a conversation *)

Lemma on_model_of key id f c : cache_wf c -> conversationModels_ c !! key = Some id ->
  model_of key (on_model id f c) = f <$> model_of key c /\
  forall k, k <> key -> model_of k (on_model id f c) = model_of k c.
Proof.
  intros Hw Hk. unfold model_of. cbn. split.
  - rewrite Hk. cbn. by rewrite lookup_alter_eq.
  - intros k Hne. destruct (conversationModels_ c !! k) as [i |] eqn:Ek; [| done]. cbn.
    rewrite lookup_alter_ne; [done |]. intros ->. apply Hne. by eapply (cw_inj c Hw).
Qed.

(** The conversation [key] gets the row; every other conversation that is still
    cached, the active one among them, is as before. *)
Definition appended (key : string) (r : row) (c c' : Cache) : Prop :=
  model_of key c' = Some (append r (default (new_model kMessageRoles) (model_of key c))) /\
  (forall k, k <> key -> is_Some (model_of k c') -> model_of k c' = model_of k c) /\
  (activeConversationKey_ c <> key -> model_of (activeConversationKey_ c) c' = model_of (activeConversationKey_ c) c) /\
  activeConversationKey_ c' = activeConversationKey_ c.

Lemma append_to_appended key r s :
  cache_inv (cache s) -> accessSequence_ (cache s) < UINT64_MAX - 1 -> key <> "" ->
  appended key r (cache s) (cache (append_to key r s)).
Proof.
  intros Hc Hs Hk. unfold append_to. destruct (ensureConversationModel key (cache s)) as [c id] eqn:E.
  apply ensure_spec in E; [| apply Hc | apply Hc | done | done].
  destruct E as [J1 J2 J3 _ J4 J5 J6 _ [J8 _]]. destruct (on_model_of key id (append r) c J1 J3) as [M1 M2].
  cbn [cache]. unfold appended. split_and!.
  - cbn. rewrite M1, J4. done.
  - intros k Hne. cbn. rewrite (M2 k Hne). intros Hl. apply J6; [done |].
    unfold model_of in Hl. by destruct (conversationModels_ c !! k); [| destruct Hl].
  - intros Hne. cbn. rewrite (M2 _ Hne). by apply J5.
  - done.
Qed.

Lemma append_to_same key r s :
  roomModel_ (append_to key r s) = roomModel_ s /\ directMessageModel_ (append_to key r s) = directMessageModel_ s /\
  localUserCode_ (append_to key r s) = localUserCode_ s /\ outs (append_to key r s) = outs s.
Proof. unfold append_to. by destruct (ensureConversationModel key (cache s)). Qed.

(** ** Unread counts *)

(** The unread count the room list shows for a room, and the contact list for
    a user code. *)
Definition shown_unread (p : row -> bool) (m : ListModel) : option Z :=
  (fun r => to_int (value "unreadCount" r)) <$> List.find p (lm_rows m).

Definition room_row_of (room : string) (r : row) : bool := bool_decide (value "roomName" r = JStr room).
Definition user_row_of `{QtText} (code : string) (r : row) : bool := eq_ci (to_str (value "userCode" r)) code.

Definition room_unread (room : string) (s : State) : option Z := shown_unread (room_row_of room) (roomModel_ s).
Definition direct_unread `{QtText} (code : string) (s : State) : option Z := shown_unread (user_row_of code) (directMessageModel_ s).

Lemma find_index_find p rows i0 :
  match List.find p rows with
  | None => find_index p rows i0 = -1
  | Some r => exists n, find_index p rows i0 = i0 + Z.of_nat n /\ rows !! n = Some r /\ p r = true /\
                        Forall (fun r' => p r' = false) (take n rows)
  end.
Proof.
  revert i0. induction rows as [| r rows IH]; intros i0; cbn; [done |]. destruct (p r) eqn:E.
  - exists 0%nat. split_and!; [lia | done | done | constructor].
  - specialize (IH (i0 + 1)). destruct (List.find p rows) as [r' |]; [| done].
    destruct IH as (n & E1 & E2 & E3 & E4). exists (S n). split_and!; [lia | done | done | by constructor].
Qed.

Lemma find_alter (p : row -> bool) f rows n r :
  (forall x, p (f x) = p x) -> rows !! n = Some r ->
  List.find p (alter f n rows) =
    match List.find p (take n rows) with
    | Some x => Some x
    | None => if p r then Some (f r) else List.find p rows
    end.
Proof.
  intros Hp. revert n. induction rows as [| x rows IH]; intros [| n] Hr; try done; cbn in *.
  - injection Hr as ->. rewrite Hp. by destruct (p r).
  - destruct (p x); [done |]. by apply IH.
Qed.

Lemma find_none_Forall (p : row -> bool) rows : Forall (fun r => p r = false) rows -> List.find p rows = None.
Proof. induction 1 as [| r rows Hr _ IH]; cbn; [done |]. by rewrite Hr. Qed.

Lemma find_take_some (p : row -> bool) n rows x : List.find p (take n rows) = Some x -> List.find p rows = Some x.
Proof.
  revert n. induction rows as [| r rows IH]; intros [| n]; cbn; try done. destruct (p r); [done | apply IH].
Qed.

(** Raising the count of the first row that satisfies [p] raises it for the
    tests that hold of exactly those rows and leaves the disjoint ones alone. *)
Lemma bump_unread_shown p q m i :
  find_index p (lm_rows m) 0 = i -> 0 <= i ->
  (forall r v, p (merge r (vmap [("unreadCount", v)])) = p r) ->
  (forall r v, q (merge r (vmap [("unreadCount", v)])) = q r) ->
  ((forall r, q r = p r) -> shown_unread q (bump_unread i m) = (fun z => wrap32 (z + 1)) <$> shown_unread q m) /\
  ((forall r, p r = true -> q r = false) -> shown_unread q (bump_unread i m) = shown_unread q m).
Proof.
  intros Hi H0 Hp Hq. pose proof (find_index_find p (lm_rows m) 0) as Hf.
  destruct (List.find p (lm_rows m)) as [r |] eqn:Er; [| lia].
  destruct Hf as (n & E1 & E2 & E3 & E4). rewrite Hi, Z.add_0_l in E1. clear Hi. subst i.
  pose proof (lookup_lt_Some _ _ _ E2) as Hlt.
  assert (valueAt (Z.of_nat n) "unreadCount" m = value "unreadCount" r) as Ev.
  { unfold valueAt, rowCount, len. rewrite Nat2Z.id, E2. destruct (_ || _)%bool eqn:Eg; [| done]. bool_hyps.
    destruct Eg; bool_hyps; lia. }
  assert (lm_rows (bump_unread (Z.of_nat n) m) =
    alter (fun x => merge x (vmap [("unreadCount", JInt (wrap32 (to_int (value "unreadCount" r) + 1)))])) n (lm_rows m)) as Erows.
  { unfold bump_unread, updateRow. rewrite Ev. destruct (_ || _ || _)%bool eqn:Eg.
    - exfalso. apply orb_true_iff in Eg as [Eg | Eg]; [| done]. unfold rowCount, len in Eg. bool_hyps.
      destruct Eg; bool_hyps; lia.
    - by rewrite announce_rows, Nat2Z.id. }
  unfold shown_unread. rewrite Erows, (find_alter q _ _ n r); [| intros x; apply Hq | done]. split.
  - intros Hpq. rewrite (find_none_Forall q).
    2: { eapply Forall_impl; [exact E4 |]. intros x Hx. cbn in Hx. by rewrite Hpq. }
    rewrite Hpq, E3. cbn [fmap option_fmap option_map]. rewrite (value_merge _ r) by (apply (bool_decide_unpack _); vm_compute; exact I).
    cbn [obj_get]. assert (List.find q (lm_rows m) = Some r) as ->; [| done].
    rewrite <- Er. clear -Hpq. induction (lm_rows m) as [| x l IH]; cbn; [done |]. by rewrite Hpq, IH.
  - intros Hdis. rewrite (Hdis r E3). destruct (List.find q (take n (lm_rows m))) as [x |] eqn:Ex; [| done].
    by rewrite (find_take_some q n _ x Ex).
Qed.

Section Behaviour.
  Context `{QtText} `{GuiEnv}.

Lemma unread_merge k r v : k <> "unreadCount" -> value k (merge r (vmap [("unreadCount", v)])) = value k r.
Proof.
  intros Hk. rewrite (value_merge k r) by (apply (bool_decide_unpack _); vm_compute; exact I).
  cbn [obj_get vmap obj_build map fold_left fst snd obj_set]. by apply String.eqb_neq in Hk as ->.
Qed.

Lemma room_row_stable room r v : room_row_of room (merge r (vmap [("unreadCount", v)])) = room_row_of room r.
Proof. unfold room_row_of. by rewrite unread_merge. Qed.

Lemma user_row_stable code r v : user_row_of code (merge r (vmap [("unreadCount", v)])) = user_row_of code r.
Proof. unfold user_row_of. by rewrite unread_merge. Qed.

Lemma find_index_neg p rows : find_index p rows 0 < 0 -> List.find p rows = None.
Proof.
  intros Hn. pose proof (find_index_find p rows 0) as Hf. destruct (List.find p rows); [| done].
  destruct Hf as (n & E & _). lia.
Qed.

(** A room message raises the count of its room. *)
Lemma increment_room room username userCode s :
  let s' := incrementUnreadForConversation ("room:" +:+ room) username userCode s in
  directMessageModel_ s' = directMessageModel_ s /\
  room_unread room s' = (fun z => wrap32 (z + 1)) <$> room_unread room s /\
  (forall other, other <> room -> room_unread other s' = room_unread other s).
Proof.
  unfold incrementUnreadForConversation, room_unread. rewrite has_prefix_app.
  change (mid 5 ("room:" +:+ room)) with (drop_str (String.length "room:") ("room:" +:+ room)). rewrite drop_str_app.
  destruct (0 <=? findRow "roomName" (JStr room) (roomModel_ s)) eqn:E; bool_hyps.
  - split; [done |]. cbn [roomModel_ field_update].
    split; [| intros other Hne];
      (eapply (bump_unread_shown (room_row_of room)); [reflexivity | exact E | apply room_row_stable | apply room_row_stable |]).
    + done.
    + intros r Hr. unfold room_row_of in *. bool_hyps. rewrite Hr. apply bool_decide_eq_false_2. congruence.
  - split_and!; [done | | done]. unfold shown_unread.
    by rewrite (find_index_neg (room_row_of room)).
Qed.

Lemma dm_key code : has_prefix "room:" ("dm:" +:+ code) = false /\ mid 3 ("dm:" +:+ code) = code.
Proof. split; [done | apply (drop_str_app "dm:")]. Qed.

Lemma push_new_row r m : fits m -> value "messageId" r = JNull ->
  lm_rows (append r m) = takelast kMaxRowsPerModel (lm_rows m ++ [r]).
Proof.
  intros Hf Hid. unfold append. rewrite appendRows_push. cbn [dedup]. rewrite Hid. cbn [to_str is_empty dedup].
  rewrite bool_decide_eq_false_2 by done. destruct (bool_decide (_ ∈ _)); by rewrite push_rows.
Qed.

Lemma find_last_new (p : row -> bool) l r : Forall (fun x => p x = false) l -> p r = true -> List.find p (l ++ [r]) = Some r.
Proof. intros Hl Hr. induction Hl as [| x l Hx _ IH]; cbn; [by rewrite Hr | by rewrite Hx]. Qed.

(** A private message raises the count of its sender, who is added to the
    contacts when new. *)
Lemma increment_direct username code s :
  fits (directMessageModel_ s) ->
  let s' := incrementUnreadForConversation ("dm:" +:+ code) username code s in
  roomModel_ s' = roomModel_ s /\
  direct_unread code s' = Some (match direct_unread code s with Some z => wrap32 (z + 1) | None => 1 end) /\
  (is_Some (direct_unread code s) -> forall other, eq_ci other code = false -> direct_unread other s' = direct_unread other s).
Proof.
  intros Hf. unfold incrementUnreadForConversation, direct_unread. destruct (dm_key code) as [-> ->].
  destruct (find_user code (directMessageModel_ s) <? 0) eqn:E; bool_hyps; cbn [roomModel_ directMessageModel_ field_update].
  - pose proof (find_index_neg (user_row_of code) _ E) as Hn. unfold shown_unread. rewrite Hn.
    split_and!; [done | | by intros [? ?]]. rewrite push_new_row by done.
    set (r := vmap _). assert (user_row_of code r = true) as Hr by apply String.eqb_refl.
    assert (Forall (fun x => user_row_of code x = false) (lm_rows (directMessageModel_ s))) as Hall.
    { apply Forall_forall. intros x Hx. apply list_elem_of_In in Hx. by apply (List.find_none _ _ Hn). }
    rewrite takelast_app; [| done | done]. rewrite (find_last_new _ _ r); [done | | done].
    unfold takelast. by apply Forall_drop.
  - split; [done |]. pose proof (find_index_find (user_row_of code) (lm_rows (directMessageModel_ s)) 0) as Hfi.
    unfold find_user in E. fold (user_row_of code) in E.
    destruct (List.find (user_row_of code) (lm_rows (directMessageModel_ s))) as [r |] eqn:Er; [| unfold user_row_of in *; lia].
    split; [| intros _ other Hne].
    + destruct (bump_unread_shown (user_row_of code) (user_row_of code) (directMessageModel_ s) _ eq_refl E
        (user_row_stable code) (user_row_stable code)) as [Hb _].
      unfold find_user. fold (user_row_of code). rewrite (Hb (fun _ => eq_refl)). unfold shown_unread. by rewrite Er.
    + apply (bump_unread_shown (user_row_of code) (user_row_of other) (directMessageModel_ s) _ eq_refl E
        (user_row_stable code) (user_row_stable other)).
      intros x Hx. unfold user_row_of, eq_ci in *. apply String.eqb_eq in Hx. rewrite Hx.
      apply String.eqb_neq in Hne. apply String.eqb_neq. congruence.
Qed.

(** ** Incoming chat messages *)

Definition chat_types : list string := ["chat"; "private_message"; "private_chat"; "offline_message"].

Lemma chat_dispatch now msg s : in_type msg ∈ chat_types -> handleMessage now msg s = handle_chat now msg s.
Proof.
  unfold chat_types, handleMessage. intros Ht. repeat (apply elem_of_cons in Ht as [-> | Ht]; [reflexivity |]).
  by apply not_elem_of_nil in Ht.
Qed.

Lemma increment_cache a b c s : cache (incrementUnreadForConversation a b c s) = cache s.
Proof.
  unfold incrementUnreadForConversation. destruct (has_prefix _ _).
  - by destruct (0 <=? _).
  - by destruct (_ <? 0).
Qed.

(** The row [handle_chat] appends, and the state it appends it to. *)
Definition chat_row (now : string) (msg : Incoming) (s : State) : row :=
  let r := message_row_of now (effective_id msg s) msg s in
  match pendingAttachmentMetadata_ s !! effective_id msg s with
  | Some a => obj_set "attachment" (JObj a) r
  | None => r
  end.

Lemma handle_chat_eq now msg s :
  exists s0, core s0 = core s /\ localUserCode_ s0 = localUserCode_ s /\
    handle_chat now msg s =
      let s1 := append_to (conversation_key msg s) (chat_row now msg s) s0 in
      if negb (is_self msg s) && negb (String.eqb (conversation_key msg s) (activeKey s1))
      then incrementUnreadForConversation (conversation_key msg s) (in_username msg) (in_userCode msg) s1 else s1.
Proof.
  unfold handle_chat. set (s1 := if is_empty (in_messageId msg) then _ else s).
  assert (core s1 = core s /\ localUserCode_ s1 = localUserCode_ s /\
          pendingAttachmentMetadata_ s1 = pendingAttachmentMetadata_ s) as (E1 & E2 & E3)
    by (unfold s1; by destruct (is_empty _)).
  exists (s1 <| pendingAttachmentMetadata_ ::= delete (effective_id msg s) |>). split_and!; [done | done |].
  cbv zeta. unfold chat_row. rewrite <- E3. unfold is_self at 1.
  set (r := match _ with Some a => _ | None => _ end). set (s2 := s1 <| pendingAttachmentMetadata_ ::= _ |>).
  destruct (append_to_same (conversation_key msg s) r s2) as (_ & _ & E4 & _). rewrite E4.
  change (localUserCode_ s2) with (localUserCode_ s1). rewrite E2. done.
Qed.

Lemma conversation_key_nonempty msg s : conversation_key msg s <> "".
Proof. unfold conversation_key. by destruct (is_private_type _). Qed.

(** C21: an incoming chat message is appended to exactly one conversation: the
    room's for a room message (the lobby when it names none), and for a private
    message the one with the other party, whoever of the two sent it.  The row
    carries the sender, the text and the server's message id; every other cached
    conversation and the open one keep their rows, and the open conversation
    stays open. *)
Theorem incoming_message_routed now msg s :
  in_type msg ∈ chat_types -> cache_inv (cache s) -> accessSequence_ (cache s) < UINT64_MAX - 1 ->
  let self := negb (is_empty (localUserCode_ s)) && eq_ci (in_userCode msg) (localUserCode_ s) in
  let key := if String.eqb (in_type msg) "chat"
             then "room:" +:+ (if is_empty (in_room msg) then "lobby" else in_room msg)
             else "dm:" +:+ (if self then in_targetUserCode msg else in_userCode msg) in
  exists r, appended key r (cache s) (cache (handleMessage now msg s)) /\
    value "content" r = JStr (in_content msg) /\ value "userCode" r = JStr (in_userCode msg) /\
    value "selfMessage" r = JBool self /\
    (in_messageId msg <> "" -> value "messageId" r = JStr (in_messageId msg)).
Proof.
  intros Ht Hc Hs self key. rewrite chat_dispatch by done.
  assert (conversation_key msg s = key) as Ek.
  { unfold conversation_key, key. unfold chat_types in Ht.
    repeat (apply elem_of_cons in Ht as [-> | Ht]; [reflexivity |]). by apply not_elem_of_nil in Ht. }
  destruct (handle_chat_eq now msg s) as (s0 & Hcore & _ & ->). rewrite Ek. injection Hcore as E1 _ _ _.
  exists (chat_row now msg s). split; [| split_and!].
  - cbv zeta. pose proof (append_to_appended key (chat_row now msg s) s0) as Ha. rewrite E1 in Ha.
    specialize (Ha Hc Hs). destruct (negb (is_self msg s) && _)%bool; [rewrite increment_cache |]; apply Ha; rewrite <- Ek; apply conversation_key_nonempty.
  - unfold chat_row. by destruct (pendingAttachmentMetadata_ s !! _).
  - unfold chat_row. by destruct (pendingAttachmentMetadata_ s !! _).
  - unfold chat_row. by destruct (pendingAttachmentMetadata_ s !! _).
  - intros Hi%is_empty_false. assert (effective_id msg s = in_messageId msg) as Ei by (unfold effective_id; by rewrite Hi).
    rewrite <- Ei. unfold chat_row. by destruct (pendingAttachmentMetadata_ s !! _).
Qed.

(** unread counts.  A message of the user's own, or of the open
    conversation, changes no count.  Any other room message raises the count of
    its room by one and no other; any other private message raises the count of
    its sender by one, or adds the sender with a count of one. *)
Theorem unread_counts now msg s :
  in_type msg ∈ chat_types -> cache_inv (cache s) -> accessSequence_ (cache s) < UINT64_MAX - 1 ->
  fits (directMessageModel_ s) ->
  let s' := handleMessage now msg s in
  let key := conversation_key msg s in
  (is_self msg s = true \/ key = activeKey s ->
     roomModel_ s' = roomModel_ s /\ directMessageModel_ s' = directMessageModel_ s) /\
  (is_self msg s = false -> key <> activeKey s ->
     (forall room, key = "room:" +:+ room ->
        directMessageModel_ s' = directMessageModel_ s /\
        room_unread room s' = (fun z => wrap32 (z + 1)) <$> room_unread room s /\
        (forall other, other <> room -> room_unread other s' = room_unread other s)) /\
     (forall code, key = "dm:" +:+ code ->
        roomModel_ s' = roomModel_ s /\
        direct_unread code s' = Some (match direct_unread code s with Some z => wrap32 (z + 1) | None => 1 end) /\
        (is_Some (direct_unread code s) ->
         forall other, eq_ci other code = false -> direct_unread other s' = direct_unread other s))).
Proof.
  intros Ht Hc Hs Hf s' key. unfold s'. rewrite chat_dispatch by done. clear s'.
  destruct (handle_chat_eq now msg s) as (s0 & Hcore & _ & ->). injection Hcore as E1 E2 E3 _.
  fold key. set (s1 := append_to key (chat_row now msg s) s0).
  destruct (append_to_same key (chat_row now msg s) s0) as (F2 & F3 & _ & _). fold s1 in F2, F3.
  assert (activeKey s1 = activeKey s) as Ea.
  { unfold activeKey. pose proof (append_to_appended key (chat_row now msg s) s0) as Ha. rewrite E1 in Ha.
    destruct (Ha Hc Hs (conversation_key_nonempty msg s)) as (_ & _ & _ & Hk). exact Hk. }
  cbv zeta. rewrite Ea. split.
  - intros Hor. replace (negb (is_self msg s) && _)%bool with false; [split; congruence |].
    destruct Hor as [-> | ->]; [done |]. by rewrite String.eqb_refl, andb_false_r.
  - intros Hself Hne. rewrite Hself. apply String.eqb_neq in Hne. rewrite Hne. cbn [negb andb]. split.
    + intros room Ek. rewrite Ek. destruct (increment_room room (in_username msg) (in_userCode msg) s1) as (J1 & J2 & J3).
      unfold room_unread in *. rewrite J1, J2, F3, F2, E2, E3. split_and!; [done | done |].
      intros other Ho. by rewrite (J3 other Ho), F2, E2.
    + intros code Ek. rewrite Ek. assert (in_userCode msg = code) as Ecode.
      { unfold key, conversation_key in Ek. rewrite Hself in Ek. destruct (is_private_type _); [| done].
        by apply (str_app_inj_l "dm:") in Ek. }
      rewrite Ecode. destruct (increment_direct (in_username msg) code s1) as (J1 & J2 & J3); [by rewrite F3, E3 |].
      unfold direct_unread in *. rewrite J1, J2, F2, F3, E2, E3. split_and!; [done | done |].
      intros Hl other Ho. rewrite J3, F3, E3; [done | by rewrite F3, E3 | done].
Qed.

(** ** Finding a message *)

Lemma elem_of_models key m s : (key, m) ∈ models s <-> model_of key (cache s) = Some m.
Proof.
  unfold models, model_of. rewrite list_elem_of_omap. split.
  - intros ([k i] & Hin & E). apply elem_of_map_to_list in Hin. cbn [fst snd] in E.
    apply fmap_Some in E as (m' & Hm & [= -> ->]). by rewrite Hin.
  - destruct (conversationModels_ (cache s) !! key) as [i |] eqn:Ei; [| done]. cbn. intros Hm.
    exists (key, i). split; [by apply elem_of_map_to_list |]. cbn. by rewrite Hm.
Qed.

Lemma ids_before rows i j r r' t : NoDup (ids rows) -> t <> "" -> (i < j)%nat ->
  rows !! i = Some r -> rows !! j = Some r' -> message_id_of r = JStr t -> message_id_of r' = JStr t -> False.
Proof.
  intros Hn Ht Hij Hi Hj Er Er'. rewrite <- (take_drop j rows), ids_app in Hn. apply NoDup_app in Hn as (_ & Hd & _).
  apply (Hd (JStr t)); apply ids_elem; (split; [done |]); apply list_elem_of_fmap.
  - exists r. split; [done |]. apply (list_elem_of_lookup_2 _ i). by rewrite lookup_take_lt.
  - exists r'. split; [done |]. apply (list_elem_of_lookup_2 _ 0). by rewrite lookup_drop, Nat.add_0_r.
Qed.

(** In a conversation model [findRow] finds the one row with the id. *)
Lemma findRow_unique m t r : good m -> t <> "" -> r ∈ lm_rows m -> message_id_of r = JStr t ->
  exists n, findRow "messageId" (JStr t) m = Z.of_nat n /\ lm_rows m !! n = Some r.
Proof.
  intros (_ & _ & Hn) Ht Hr Et. apply list_elem_of_lookup in Hr as [j Hj].
  destruct (find_index_spec (fun r => bool_decide (value "messageId" r = JStr t)) (lm_rows m) 0)
    as [[_ Hall] | (k & r1 & E & Hk & Hp)].
  - rewrite Forall_lookup in Hall. specialize (Hall j r Hj). bool_hyps. done.
  - exists k. split; [unfold findRow; rewrite E; lia |]. bool_hyps.
    destruct (lt_eq_lt_dec k j) as [[Hlt | ->] | Hgt]; [| done |]; exfalso.
    + by eapply (ids_before (lm_rows m) k j).
    + by eapply (ids_before (lm_rows m) j k).
Qed.

Lemma valueAt_row n role m r : lm_rows m !! n = Some r -> valueAt (Z.of_nat n) role m = value role r.
Proof.
  intros Hr. pose proof (lookup_lt_Some _ _ _ Hr). unfold valueAt, rowCount, len. rewrite Nat2Z.id, Hr.
  destruct (_ || _)%bool eqn:Eg; [| done]. bool_hyps. destruct Eg; bool_hyps; lia.
Qed.

Lemma findRow_found m t : 0 <= findRow "messageId" (JStr t) m ->
  exists n r, findRow "messageId" (JStr t) m = Z.of_nat n /\ lm_rows m !! n = Some r /\ message_id_of r = JStr t.
Proof.
  intros Hf0. unfold findRow in *.
  destruct (find_index_spec (fun r => bool_decide (value "messageId" r = JStr t)) (lm_rows m) 0)
    as [[E _] | (k & r1 & E & Hk & Hp)]; rewrite E in *; [lia |]. bool_hyps. by exists k, r1.
Qed.

(** The messages on the screen that match. *)
Definition on_screen (s : State) (messageId : string) (P : row -> Prop) : Prop :=
  exists key m r, model_of key (cache s) = Some m /\ r ∈ lm_rows m /\ value "messageId" r = JStr messageId /\ P r.

Lemma models_good key m s : map_Forall (fun _ m => good m) (heap (cache s)) -> model_of key (cache s) = Some m -> good m.
Proof. unfold model_of. intros Hg Hm. apply bind_Some in Hm as (i & _ & Hm). by eapply Hg. Qed.

(** a recall is sent for a message exactly when the user is an administrator
    or the message is one of the user's own on the screen; otherwise nothing is
    queued and nothing changes. *)
Theorem recall_authorised messageId commandId s :
  map_Forall (fun _ m => good m) (heap (cache s)) ->
  let '(s', sent) := recallMessage messageId commandId s in
  (sent = true <-> messageId <> "" /\
     (admin_ s = true \/ on_screen s messageId (fun r => eq_ci (to_str (value "userCode" r)) (localUserCode_ s) = true))) /\
  s' = if sent then s <| outs ::= fun o => o ++ [Invoke "sendAdminAction" [JStr "recall"; JStr ""; JStr messageId; JStr commandId]] |>
       else s.
Proof.
  intros Hg. unfold recallMessage.
  assert (canRecallMessage messageId s = true <-> messageId <> "" /\
     (admin_ s = true \/ on_screen s messageId (fun r => eq_ci (to_str (value "userCode" r)) (localUserCode_ s) = true))) as Hcan.
  { unfold canRecallMessage. destruct (is_empty messageId) eqn:Ei.
    { apply is_empty_true in Ei. naive_solver. }
    apply is_empty_false in Ei. rewrite orb_true_iff, existsb_exists. split.
    - intros [Ha | ([key m] & Hin & Hm)]; [by auto |]. split; [done |]. right. cbn [snd] in Hm.
      apply list_elem_of_In, elem_of_models in Hin. apply andb_true_iff in Hm as [Hf0 Hm]. bool_hyps.
      destruct (findRow_found m messageId Hf0) as (n & r & En & Hr & Hid). rewrite En, (valueAt_row n _ m r Hr) in Hm.
      exists key, m, r. split_and!; [done | by eapply list_elem_of_lookup_2 | done | done].
    - intros [_ [Ha | (key & m & r & Hm & Hr & Hid & Hc)]]; [by auto |]. right. exists (key, m).
      split; [by apply list_elem_of_In, elem_of_models |]. cbn [snd].
      destruct (findRow_unique m messageId r) as (n & En & Hn); [by eapply models_good | done | done | done |].
      rewrite En, (valueAt_row n _ m r Hn), Hc, andb_true_r. apply Z.leb_le. lia. }
  destruct (canRecallMessage messageId s); (split; [| done]); [naive_solver |].
  split; [done |]. intros Hx. by apply Hcan in Hx.
Qed.

(** ** Sending again *)

Definition own_failed (r : row) : Prop :=
  to_bool (value "selfMessage" r) = true /\ to_str (value "deliveryState" r) = "failed".

Lemma retryable_iff messageId m : good m -> messageId <> "" ->
  retryable messageId m = true <-> exists r, r ∈ lm_rows m /\ value "messageId" r = JStr messageId /\ own_failed r.
Proof.
  intros Hg Hne. unfold retryable, own_failed. rewrite !andb_true_iff, Z.leb_le, String.eqb_eq. split.
  - intros [[Hf Hself] Hstate]. destruct (findRow_found m messageId Hf) as (n & r & En & Hr & Hid).
    rewrite En, (valueAt_row n _ m r Hr) in Hself. rewrite En, (valueAt_row n _ m r Hr) in Hstate. exists r. split_and!; try done. by eapply list_elem_of_lookup_2.
  - intros (r & Hr & Hid & Hself & Hstate). destruct (findRow_unique m messageId r Hg Hne Hr Hid) as (n & En & Hn).
    rewrite En, (valueAt_row n "selfMessage" m r Hn), (valueAt_row n "deliveryState" m r Hn). split_and!; [lia | done | done].
Qed.

Lemma update_message_row messageId values m n r :
  findRow "messageId" (JStr messageId) m = Z.of_nat n -> lm_rows m !! n = Some r -> values <> [] ->
  lm_rows (update_message messageId values m) !! n = Some (merge r values).
Proof.
  intros En Hn Hv. pose proof (lookup_lt_Some _ _ _ Hn). unfold update_message. rewrite En, (proj2 (Z.leb_le 0 _)) by lia.
  unfold updateRow. rewrite bool_decide_eq_false_2 by done. destruct (_ || _)%bool eqn:Eg.
  - unfold rowCount, len in Eg. rewrite orb_false_r in Eg. bool_hyps. destruct Eg; bool_hyps; lia.
  - by rewrite announce_rows, Nat2Z.id, list_lookup_alter_eq, Hn.
Qed.

(** The queued call that sends a message to its conversation again. *)
Definition resends (key content messageId : string) (o : output) : Prop :=
  (forall peer, key = "dm:" +:+ peer -> o = Invoke "sendPrivate" [JStr content; JStr peer; JStr messageId]) /\
  (forall room, key = "room:" +:+ room -> o = Invoke "sendChatToRoom" [JStr content; JStr room; JStr messageId]).

Lemma resend_call key content messageId s :
  exists o, resends key content messageId o /\
    (if has_prefix "dm:" key then invoke "sendPrivate" [JStr content; JStr (mid 3 key); JStr messageId] s
     else invoke "sendChatToRoom" [JStr content; JStr (mid 5 key); JStr messageId] s) = s <| outs ::= fun l => l ++ [o] |>.
Proof.
  destruct (has_prefix "dm:" key) eqn:E; eexists; (split; [split |]; [.. | reflexivity]).
  - intros peer ->. by destruct (dm_key peer) as [_ ->].
  - intros room ->. done.
  - intros peer ->. by rewrite has_prefix_app in E.
  - intros room ->. by rewrite (drop_str_app "room:" room : mid 5 ("room:" +:+ room) = room).
Qed.

(** sending again succeeds exactly for a message of the user's own on the
    screen that failed.  The message is then queued for the same conversation
    with the same text and id, its row shows it as queued, and no other
    conversation changes; otherwise nothing changes. *)
Theorem retry_resends messageId s :
  cache_inv (cache s) -> map_Forall (fun _ m => good m) (heap (cache s)) ->
  let '(s', ok) := retryMessage messageId s in
  (ok = true <-> messageId <> "" /\ on_screen s messageId own_failed) /\
  (ok = false -> s' = s) /\
  (ok = true -> exists key m r o,
     model_of key (cache s) = Some m /\ r ∈ lm_rows m /\ value "messageId" r = JStr messageId /\ own_failed r /\
     resends key (to_str (value "content" r)) messageId o /\ outs s' = outs s ++ [o] /\
     (exists m' r', model_of key (cache s') = Some m' /\ r' ∈ lm_rows m' /\
        value "deliveryState" r' = JStr "queued" /\
        (forall role, role <> "deliveryState" -> value role r' = value role r)) /\
     (forall k, k <> key -> model_of k (cache s') = model_of k (cache s))).
Proof.
  intros Hc Hg. unfold retryMessage. destruct (is_empty messageId) eqn:Ei.
  { apply is_empty_true in Ei as ->. split_and!; [naive_solver | done | done]. }
  apply is_empty_false in Ei. destruct (List.find _ (models s)) as [[key m] |] eqn:Ef.
  - apply List.find_some in Ef as [Hin Hr]. apply list_elem_of_In, elem_of_models in Hin. cbn [snd] in Hr.
    pose proof (models_good key m s Hg Hin) as Hgm. apply (retryable_iff _ _ Hgm Ei) in Hr as (r & Hr & Hid & Hof).
    destruct (findRow_unique m messageId r Hgm Ei Hr Hid) as (n & En & Hn).
    rewrite En, (valueAt_row n _ m r Hn). pose proof Hin as Hin'. unfold model_of in Hin'.
    apply bind_Some in Hin' as (i & Hi & _). rewrite Hi.
    set (s1 := s <| cache ::= _ |>). destruct (resend_call key (to_str (value "content" r)) messageId s1) as (o & Ho & ->).
    split_and!; [| done |].
    + split; [| done]. intros _. split; [done |]. by exists key, m, r.
    + intros _. exists key, m, r, o.
      destruct (on_model_of key i (update_message messageId (delivery "queued")) (cache s) (ci_wf _ Hc) Hi) as [M1 M2].
      split_and!; try done. exists (update_message messageId (delivery "queued") m), (merge r (delivery "queued")).
      split_and!.
      * etrans; [exact M1 |]. by rewrite Hin.
      * eapply list_elem_of_lookup_2. by apply (update_message_row messageId _ m n r).
      * by rewrite (value_merge _ r) by (apply delivery_keeps_id).
      * intros role Hne. rewrite (value_merge _ r) by (apply delivery_keeps_id). cbn.
        by apply String.eqb_neq in Hne as ->.
  - split_and!; [| done | done]. split; [done |]. intros [_ (key & m & r & Hm & Hr & Hid & Hof)]. exfalso.
    apply elem_of_models, list_elem_of_In in Hm as Hin. pose proof (List.find_none _ _ Ef _ Hin) as Hx. cbn in Hx.
    enough (retryable messageId m = true) by congruence. apply retryable_iff; [| done | by exists r].
    by eapply models_good, elem_of_models.
Qed.

(** ** Losing and finding the connection *)

Lemma core_cache s s' : core s = core s' -> cache s = cache s'.
Proof. by intros [=]. Qed.

Lemma resetSessionData_cache s : cache (resetSessionData s) = reset_cache (cache s).
Proof. done. Qed.

Lemma setStatus_core t s : core (setStatus t s) = core s.
Proof. unfold setStatus. by destruct (String.eqb _ _). Qed.

Lemma setAdmin_core b s : core (setAdmin b s) = core s.
Proof. unfold setAdmin. by destruct (Bool.eqb _ _). Qed.

Lemma requestActiveHistory_core a b s : core (requestActiveHistory a b s) = core s.
Proof. unfold requestActiveHistory. by destruct (_ || _)%bool. Qed.

Lemma handleConnected_core b s : core (handleConnected b s) = core (if reconnecting_ s then s else resetSessionData s).
Proof.
  unfold handleConnected. rewrite requestActiveHistory_core. set (s1 := if reconnecting_ s then s else resetSessionData s).
  change (core (requestUsers (requestRooms ?x))) with (core x). rewrite setStatus_core.
  change (core (field_update refreshTimer_ _ (emit _ _ ?x))) with (core x). rewrite setAdmin_core.
  by destruct (reconnecting_ s1).
Qed.

Lemma setStatus_flags t s : connected_ (setStatus t s) = connected_ s /\ reconnecting_ (setStatus t s) = reconnecting_ s.
Proof. unfold setStatus. by destruct (String.eqb _ _). Qed.

Lemma handleConnectionLost_spec reason s :
  core (handleConnectionLost reason s) = core s /\ connected_ (handleConnectionLost reason s) = false /\
  reconnecting_ (handleConnectionLost reason s) = true.
Proof.
  unfold handleConnectionLost. set (t := if is_empty reason then _ else _). set (s1 := if reconnecting_ _ then _ else _).
  destruct (setStatus_flags t s1) as [E1 E2].
  assert (core s1 = core s /\ connected_ s1 = false /\ reconnecting_ s1 = true) as (F1 & F2 & F3).
  { unfold s1. destruct (reconnecting_ (emit _ _ _)) eqn:E; by split_and!. }
  change (core (emit _ _ (invoke _ _ ?x))) with (core x). rewrite setStatus_core. split_and!; [done | |].
  - etrans; [exact E1 | done].
  - etrans; [exact E2 | done].
Qed.

Lemma refreshCanManage_same b s :
  cache (refreshCanManage b s) = cache s /\ connected_ (refreshCanManage b s) = connected_ s /\
  reconnecting_ (refreshCanManage b s) = reconnecting_ s.
Proof. unfold refreshCanManage. by destruct (Bool.eqb _ _). Qed.

Lemma selectRoom_disconnected room s : connected_ s = false ->
  cache (selectRoom room s) = activate ("room:" +:+ room) (cache s) /\ reconnecting_ (selectRoom room s) = false.
Proof.
  intros Hc. unfold selectRoom. set (s1 := if 0 <=? _ then _ else _).
  assert (cache s1 = activate ("room:" +:+ room) (cache s) /\ connected_ s1 = false) as [E1 E2]
    by (unfold s1; by destruct (0 <=? _)).
  match goal with |- context [refreshCanManage ?b s1] => set (s2 := refreshCanManage b s1);
    destruct (refreshCanManage_same b s1) as (F1 & F2 & _); fold s2 in F1, F2 end.
  change (connected_ (emit _ _ s2)) with (connected_ s2). rewrite F2, E2.
  change (reconnecting_ (emit _ _ s2)) with (reconnecting_ s2).
  destruct (reconnecting_ s2) eqn:Er; (split; [| done]); (etrans; [exact F1 | exact E1]).
Qed.

Lemma reset_cache_empty c key m : cache_inv c -> model_of key (reset_cache c) = Some m -> lm_rows m = [].
Proof.
  intros Hc Hm. unfold model_of in Hm. apply bind_Some in Hm as (i & _ & Hm). unfold reset_cache in Hm.
  set (c1 := (for_each_model clear c) <| activeConversationKey_ := _ |>) in *.
  pose proof (ensure_heap "room:lobby" c1 i m) as He.
  destruct (ensureConversationModel _ c1) as [c2 id]. destruct (He Hm) as [Hm' | ->]; [| done].
  change (heap c1) with (heap (for_each_model clear c)) in Hm'.
  rewrite (for_each_model_heap clear c i (ci_wf c Hc)) in Hm'. apply fmap_Some in Hm' as (m0 & _ & ->).
  unfold clear, replaceRows. destruct (bool_decide _) eqn:E; bool_hyps; [done | by rewrite announce_rows].
Qed.

(** when the connection comes back after a loss, every conversation, the open
    one and the lists keep what they showed; but if the user opened a room in
    the meantime, every message is dropped: [selectRoom] takes back
    [reconnecting_], so the next [handleConnected] starts a new session. *)
Theorem reconnect_keeps_session reason room isAdmin s :
  cache_inv (cache s) -> accessSequence_ (cache s) < UINT64_MAX - 1 ->
  let lost := handleConnectionLost reason s in
  core (handleConnected isAdmin lost) = core s /\
  (forall key m, model_of key (cache (handleConnected isAdmin (selectRoom room lost))) = Some m -> lm_rows m = []).
Proof.
  intros Hc Hs lost. destruct (handleConnectionLost_spec reason s) as (E1 & E2 & E3). fold lost in E1, E2, E3. split.
  - by rewrite handleConnected_core, E3.
  - intros key m. destruct (selectRoom_disconnected room lost E2) as [F1 F2].
    pose proof (handleConnected_core isAdmin (selectRoom room lost)) as Hk. rewrite F2 in Hk. apply core_cache in Hk, E1.
    rewrite Hk, resetSessionData_cache, F1, E1. apply reset_cache_empty. by apply activate_spec.
Qed.

(** No page of history was asked for since [o], and one is outstanding. *)
Definition quiet (o : list output) (s : State) : Prop :=
  historyLoading_ s = true /\ forall args, Invoke "requestHistory" args ∈ outs s -> Invoke "requestHistory" args ∈ o.

Lemma quiet_frame o s s' : historyLoading_ s' = historyLoading_ s -> outs s' = outs s -> quiet o s -> quiet o s'.
Proof. intros E1 E2 [H1 H2]. split; congruence || by rewrite E2. Qed.

Lemma quiet_emit o signal args s : quiet o s -> quiet o (emit signal args s).
Proof.
  intros [H1 H2]. split; [done |]. intros a. cbn. rewrite elem_of_app, list_elem_of_singleton. intros [Hin | Hin]; auto. done.
Qed.

Lemma quiet_invoke o slot args s : slot <> "requestHistory" -> quiet o s -> quiet o (invoke slot args s).
Proof.
  intros Hs [H1 H2]. split; [done |]. intros a. cbn. rewrite elem_of_app, list_elem_of_singleton.
  intros [Hin | [= E _]]; auto. by rewrite E in Hs.
Qed.

Lemma quiet_request o a b s : quiet o s -> quiet o (requestActiveHistory a b s).
Proof. intros Hq. unfold requestActiveHistory. by rewrite (proj1 Hq), orb_true_r. Qed.

Lemma quiet_setStatus o t s : quiet o s -> quiet o (setStatus t s).
Proof. intros Hq. unfold setStatus. destruct (String.eqb _ _); [done |]. by apply quiet_emit, (quiet_frame _ s). Qed.

Lemma quiet_setAdmin o b s : quiet o s -> quiet o (setAdmin b s).
Proof. intros Hq. unfold setAdmin. destruct (Bool.eqb _ _); [done |]. by apply quiet_emit, (quiet_frame _ s). Qed.

Lemma quiet_canManage o b s : quiet o s -> quiet o (refreshCanManage b s).
Proof. intros Hq. unfold refreshCanManage. destruct (Bool.eqb _ _); [done |]. by apply quiet_emit, (quiet_frame _ s). Qed.

Lemma quiet_append_to o k r s : quiet o s -> quiet o (append_to k r s).
Proof. intros Hq. unfold append_to. destruct (ensureConversationModel k (cache s)). by apply (quiet_frame _ s). Qed.

(** Walk through a handler. *)
Ltac quiet_walk :=
  repeat first
    [ assumption
    | lazymatch goal with
      | |- quiet ?o (let x := ?t in @?b x) =>
          let u := fresh "u" in
          lazymatch type of t with
          | State => cut (quiet o t); [change (quiet o t -> quiet o (b t)); generalize t; intros u ?; cbv beta | ]
          | _ => change (quiet o (b t)); generalize t; intros u; cbv beta
          end
      | |- quiet _ (if ?b then _ else _) => destruct b
      | |- quiet _ (match ?b with _ => _ end) => destruct b
      | |- quiet _ (emit _ _ _) => apply quiet_emit
      | |- quiet _ (invoke _ _ _) => apply quiet_invoke; [done |]
      | |- quiet _ (requestUsers _) => apply quiet_invoke; [done |]
      | |- quiet _ (requestRooms _) => apply quiet_invoke; [done |]
      | |- quiet _ (requestActiveHistory _ _ _) => apply quiet_request
      | |- quiet _ (setStatus _ _) => apply quiet_setStatus
      | |- quiet _ (setAdmin _ _) => apply quiet_setAdmin
      | |- quiet _ (refreshCanManage _ _) => apply quiet_canManage
      | |- quiet _ (append_to _ _ _) => apply quiet_append_to
      | |- quiet _ (appendSystemMessage _ _ ?s) => apply (quiet_frame _ s); [reflexivity | reflexivity |]
      | |- quiet _ (on_models _ ?s) => apply (quiet_frame _ s); [reflexivity | reflexivity |]
      | |- quiet _ (field_update _ _ ?s) => apply (quiet_frame _ s); [reflexivity | reflexivity |]
      end ].

Lemma quiet_lost o a s : quiet o s -> quiet o (handleConnectionLost a s).
Proof. intros Hq. open_handler handleConnectionLost. quiet_walk. Qed.

Lemma quiet_connected o b s : reconnecting_ s = true -> quiet o s -> quiet o (handleConnected b s).
Proof. intros Hr Hq. unfold handleConnected. rewrite !Hr. quiet_walk. Qed.

Lemma quiet_selectDirect o a s : quiet o s -> quiet o (selectDirectMessage a s).
Proof. intros Hq. open_handler selectDirectMessage. quiet_walk. Qed.

Lemma quiet_identity o a b s : quiet o s -> quiet o (setIdentity a b s).
Proof. intros Hq. open_handler setIdentity. quiet_walk. Qed.

Lemma quiet_increment o a b c s : quiet o s -> quiet o (incrementUnreadForConversation a b c s).
Proof. intros Hq. open_handler incrementUnreadForConversation. quiet_walk. Qed.

Lemma quiet_message o now msg s : quiet o s -> quiet o (handleMessage now msg s).
Proof.
  intros Hq. unfold handleMessage.
  repeat match goal with |- quiet _ (if ?b then _ else _) => destruct b end; quiet_walk.
  - open_handler handle_delivery_receipt. quiet_walk.
  - unfold handle_approval_request. destruct (_ || _ || _)%bool; [done |].
    destruct (replace_request _ _ _) as [pending replaced]. quiet_walk.
  - open_handler handle_approval_result. quiet_walk.
  - open_handler handle_users_response. quiet_walk.
  - open_handler handle_rooms_response. quiet_walk.
  - open_handler handle_chat. quiet_walk. by apply quiet_increment.
  - open_handler handle_error. quiet_walk.
Qed.

(** The events that end an outstanding request: a page, or a new session. *)
Definition ends_request (e : event) : bool :=
  match e with EvHistory _ _ _ _ _ _ | EvConnected _ => true | _ => false end.

Lemma quiet_handle o e s : ends_request e = false -> quiet o s -> quiet o (handle e s).
Proof.
  intros He Hq. destruct e as [ | | | | | | | | | | | | | | | | | | | | | | | | | | | | | | | []]; try done; cbn [handle];
    try (unfold refresh_timeout, createRoom, sendRoomAction, sendAdminAction, handleReconnectScheduled,
      handleReconnectAttempt, handleReconnectFailed, messageDeliveryFailed, removeLocalMessage, setBundledCaFile,
      forward, startAttachmentDownload; quiet_walk; done).
  - open_handler connectToServerWithTlsName. quiet_walk; [by apply quiet_identity | open_handler saveConnectionPreferences; quiet_walk].
  - open_handler connectToLocalHost. quiet_walk; [by apply quiet_identity | open_handler saveConnectionPreferences; quiet_walk].
  - open_handler disconnectFromServer. quiet_walk.
  - open_handler sendRoomMessage. quiet_walk.
  - open_handler sendPrivateMessage. quiet_walk.
  - open_handler searchActiveHistory. quiet_walk.
  - open_handler selectRoom. quiet_walk.
  - by apply quiet_selectDirect.
  - unfold openPrivateChat. destruct (_ || _)%bool; [done |]. apply quiet_selectDirect. quiet_walk.
  - unfold recallMessage. destruct (canRecallMessage _ _); cbn [fst]; quiet_walk.
  - unfold retryMessage. destruct (is_empty _); [done |]. destruct (List.find _ _) as [[key m] |]; [| done].
    cbn [fst]. quiet_walk.
  - open_handler handleConnectionFailed. quiet_walk.
  - by apply quiet_lost.
  - by apply quiet_message.
  - unfold handleAttachmentEvent. destruct (_ || _ || _)%bool; [done |].
    destruct (fromJson _) as [[] |]; try done. destruct (List.find _ _) as [[key m] |]; quiet_walk.
  - unfold chooseAndUploadAttachment, startAttachmentUpload. quiet_walk.
  - unfold sendAttachmentDownload, startAttachmentDownload. quiet_walk.
Qed.

(** a page of history that is outstanding when the connection is lost is never
    given up.  The connection comes back with [historyLoading_] still set, so
    no history is requested for the open conversation, nor does any later call
    or signal request any, until a page arrives or a new session starts. *)
Theorem history_wedged_by_reconnect reason isAdmin es s :
  historyLoading_ s = true -> forallb (fun e => negb (ends_request e)) es = true ->
  let s' := run_events (EvConnectionLost reason :: EvConnected isAdmin :: es) s in
  historyLoading_ s' = true /\
  (forall args, Invoke "requestHistory" args ∈ outs s' -> Invoke "requestHistory" args ∈ outs s).
Proof.
  intros Hl He. assert (quiet (outs s) s) as Hq by done.
  cbn [run_events foldl handle]. destruct (handleConnectionLost_spec reason s) as (_ & _ & Hr).
  apply quiet_lost with (a := reason) in Hq. apply (quiet_connected _ isAdmin _ Hr) in Hq.
  fold (quiet (outs s) (foldl (fun s e => handle e s) (handleConnected isAdmin (handleConnectionLost reason s)) es)).
  revert Hq. generalize (handleConnected isAdmin (handleConnectionLost reason s)).
  revert He. generalize (outs s). clear. intros o. induction es as [| e es IH]; intros He s Hq; [done |].
  cbn in He. apply andb_true_iff in He as [He Hes]. apply negb_true_iff in He. apply IH; [done | by apply quiet_handle].
Qed.

(** ** The member list *)

Lemma indexOf_app c pre t : string_forall (fun x => negb (Ascii.eqb c x)) pre = true ->
  find_from (Ascii.eqb c) 0 (pre +:+ String c t) = Some (String.length pre).
Proof. intros Hp. apply find_from_app_stop; [done | apply Ascii.eqb_refl]. Qed.

(** an identity ["name#code@room"] is taken apart into exactly its name, code
    and room, whatever the room is called, as long as the name is not empty and
    has no ['#'] and the code has no ['@']. *)
Theorem identity_parts name code room :
  name <> "" -> string_forall (fun c => negb (Ascii.eqb "#"%char c)) name = true ->
  string_forall (fun c => negb (Ascii.eqb "@"%char c)) code = true ->
  member_of_identity (name +:+ "#" +:+ code +:+ "@" +:+ room) = mk_member name code room false.
Proof.
  intros Hne Hn Hc. set (rest := code +:+ "@" +:+ room). set (i := name +:+ "#" +:+ rest).
  assert (indexOf "#"%char 0 i = Z.of_nat (String.length name)) as Eh.
  { change (match find_from (Ascii.eqb "#"%char) 0 (name +:+ String "#"%char rest) with
            | Some k => Z.of_nat k | None => -1 end = Z.of_nat (String.length name)).
    by rewrite (indexOf_app _ name rest Hn). }
  assert (drop_str (S (String.length name)) i = rest) as Ed.
  { unfold i. rewrite <- Nat.add_1_r, <- drop_str_drop, drop_str_app. done. }
  assert (indexOf "@"%char (Z.of_nat (String.length name) + 1) i = Z.of_nat (String.length name + 1 + String.length code)) as Er.
  { unfold indexOf, find_first. replace (Z.to_nat (Z.of_nat (String.length name) + 1)) with (S (String.length name)) by lia.
    rewrite Ed, find_from_base. pose proof (indexOf_app _ code room Hc) as E.
    change (code +:+ String "@"%char room) with rest in E. rewrite E. cbn. lia. }
  assert (0 < String.length name)%nat as Hlen by (destruct name; [done | cbn; lia]).
  unfold member_of_identity. rewrite Eh, Er, (proj2 (Z.ltb_lt 0 _)) by lia.
  rewrite (proj2 (Z.ltb_lt _ (Z.of_nat (String.length name + 1 + String.length code)))) by lia. f_equal.
  - rewrite Nat2Z.id. apply take_str_app.
  - unfold substr. replace (Z.to_nat (Z.of_nat (String.length name) + 1)) with (S (String.length name)) by lia.
    rewrite Ed. replace (Z.to_nat _) with (String.length code) by lia. apply take_str_app.
  - unfold mid. replace (Z.to_nat _) with (S (String.length name) + (String.length code + 1))%nat by lia.
    rewrite <- drop_str_drop, Ed. unfold rest. rewrite <- drop_str_drop, drop_str_app. done.
Qed.

Lemma replaceRows_rows rows m : lm_rows (replaceRows rows m) = clip rows.
Proof. unfold replaceRows. destruct (bool_decide _) eqn:E; bool_hyps; [done | by rewrite announce_rows]. Qed.

Lemma count_members_spec ms room :
  default 0 (count_members ms !! room) = len (List.filter (fun m => String.eqb (mb_room m) room) ms).
Proof.
  unfold count_members. enough (forall acc : gmap string Z, default 0 (foldl (fun acc m => <[mb_room m := default 0 (acc !! mb_room m) + 1]> acc) acc ms !! room)
    = default 0 (acc !! room) + len (List.filter (fun m => String.eqb (mb_room m) room) ms)) as G.
  { rewrite G, lookup_empty. done. }
  induction ms as [| m ms IH]; intros acc; cbn [foldl List.filter].
  { unfold len. cbn. lia. }
  rewrite IH. destruct (String.eqb_spec (mb_room m) room) as [<- | Hne].
  - rewrite lookup_insert_eq. cbn. unfold len. cbn [length]. lia.
  - by rewrite lookup_insert_ne.
Qed.

Lemma unread_by_spec key_of m k :
  unread_by key_of m !! k = (fun r => to_int (value "unreadCount" r)) <$> last (List.filter (fun r => String.eqb (key_of r) k) (lm_rows m)).
Proof.
  unfold unread_by. enough (forall acc : gmap string Z, foldl (fun acc r => <[key_of r := to_int (value "unreadCount" r)]> acc) acc (lm_rows m) !! k
    = match (fun r => to_int (value "unreadCount" r)) <$> last (List.filter (fun r => String.eqb (key_of r) k) (lm_rows m)) with
      | Some z => Some z | None => acc !! k end) as G.
  { rewrite G. by destruct (last _). }
  induction (lm_rows m) as [| r rows IH]; intros acc; cbn [foldl List.filter]; [done |].
  rewrite IH. destruct (String.eqb_spec (key_of r) k) as [<- | Hne].
  - rewrite lookup_insert_eq, last_cons. by destruct (last _).
  - by rewrite lookup_insert_ne.
Qed.

(** The members a response lists. *)
Definition listed (msg : Incoming) : list Member :=
  if bool_decide (in_userDetails msg = []) then map member_of_identity (in_users msg)
  else map member_of_detail (in_userDetails msg).

(** after a member list, the member view holds the listed members and their
    number, the count of each room is the number of its listed members, the
    contacts are the listed members other than the user, and a contact keeps
    the unread count it had. *)
Theorem users_response_spec now msg s :
  in_type msg = "users_response" -> (length (listed msg) <= 1000)%nat ->
  let s' := handleMessage now msg s in
  lm_rows (memberModel_ s') = map member_row (listed msg) /\ onlineMemberCount_ s' = len (listed msg) /\
  (forall room, default 0 (roomMemberCounts_ s' !! room) = len (List.filter (fun m => String.eqb (mb_room m) room) (listed msg))) /\
  (forall r, r ∈ lm_rows (directMessageModel_ s') ->
     exists m, m ∈ listed msg /\ value "userCode" r = JStr (mb_code m) /\ eq_ci (mb_code m) (localUserCode_ s) = false /\
       value "unreadCount" r =
         JInt (default 0 ((fun r => to_int (value "unreadCount" r)) <$>
           last (List.filter (fun r => String.eqb (toLower (to_str (value "userCode" r))) (toLower (mb_code m)))
                   (lm_rows (directMessageModel_ s)))))).
Proof.
  intros Ht Hl. unfold handleMessage. rewrite Ht. cbn [String.eqb Ascii.eqb Bool.eqb]. unfold handle_users_response.
  fold (listed msg). set (unread := unread_by _ (directMessageModel_ s)).
  set (peers := List.filter (is_peer (localUserCode_ s)) (listed msg)).
  assert (forall l : list Member, (length l <= 1000)%nat -> forall f : Member -> row, clip (map f l) = map f l) as Hclip.
  { intros l Hle f. rewrite clip_takelast. apply takelast_short. unfold len. rewrite length_map.
    apply (proj1 (Nat2Z.inj_le _ _)) in Hle. exact Hle. }
  set (s1 := s <| roomMemberCounts_ := _ |> <| memberModel_ ::= _ |> <| directMessageModel_ ::= _ |> <| roomModel_ ::= _ |>).
  assert (lm_rows (memberModel_ s1) = map member_row (listed msg)) as Em.
  { etrans; [apply replaceRows_rows |]. by apply Hclip. }
  assert (rowCount (memberModel_ s1) = len (listed msg)) as Ec by (unfold rowCount, len; by rewrite Em, length_map).
  assert (forall r, r ∈ lm_rows (directMessageModel_ s1) -> exists m, m ∈ listed msg /\ value "userCode" r = JStr (mb_code m) /\
    eq_ci (mb_code m) (localUserCode_ s) = false /\ value "unreadCount" r =
         JInt (default 0 ((fun r => to_int (value "unreadCount" r)) <$>
           last (List.filter (fun r => String.eqb (toLower (to_str (value "userCode" r))) (toLower (mb_code m)))
                   (lm_rows (directMessageModel_ s)))))) as Hd.
  { intros r Hr. assert (r ∈ map (direct_row unread) peers) as Hr'.
    { change (directMessageModel_ s1) with (replaceRows (map (direct_row unread) peers) (directMessageModel_ s)) in Hr.
      rewrite replaceRows_rows, clip_takelast in Hr. unfold takelast in Hr. 
      apply list_elem_of_lookup in Hr as [i Hi]. rewrite lookup_drop in Hi. by eapply list_elem_of_lookup_2. }
    apply list_elem_of_fmap in Hr' as (m & -> & Hm). apply list_elem_of_In, List.filter_In in Hm as [Hin Hp].
    unfold is_peer in Hp. apply andb_true_iff in Hp as [_ Hp]. apply negb_true_iff in Hp.
    exists m. split_and!; [by apply list_elem_of_In | done | done |].
    by rewrite <- (unread_by_spec (fun r => toLower (to_str (value "userCode" r)))). }
  assert (forall room, default 0 (roomMemberCounts_ s1 !! room) = len (List.filter (fun m => String.eqb (mb_room m) room) (listed msg))) as Hr
    by (intros room; apply count_members_spec).
  destruct (onlineMemberCount_ s1 =? rowCount (memberModel_ s1)) eqn:En; bool_hyps.
  - split_and!; [done | congruence | done | done].
  - split_and!; [done | done | done | done].
Qed.

End Behaviour.

(** ** Witnesses *)

(** A session with a message of the user's own that failed, and a contact. *)
Definition ex_session : list event :=
  [EvConnected false; EvSendRoom "u1" "10:00" " hello " "lobby"; EvDeliveryFailed "u1"; EvOpenPrivate "Bob" "B002";
   EvSelectRoom "lobby"].

Definition ex_state : State := run_events ex_session (initial_state []).

Lemma ex_state_sinv : sinv 6 ex_state.
Proof.
  apply (run_events_sinv ex_session 1 (initial_state [])); [done | by repeat constructor |].
  split; [apply initial_cinv | apply new_model_ok ..].
Qed.

Lemma ex_state_seq : accessSequence_ (cache ex_state) < UINT64_MAX - 1.
Proof. pose proof (cv_seq _ _ (sv_cache _ _ ex_state_sinv)). unfold UINT64_MAX. lia. Qed.

Definition ex_private : Incoming := mk_incoming "private_message" "m7" "" "Bob" "b002" "psst" "" "A001" "" [] [] [] [] false.

Lemma incoming_message_routed_witness :
  exists r, appended "dm:b002" r (cache ex_state) (cache (handleMessage "10:05" ex_private ex_state)) /\
            value "content" r = JStr "psst".
Proof.
  destruct (incoming_message_routed "10:05" ex_private ex_state) as (r & Ha & Hc & _).
  - right. left.
  - apply ex_state_sinv.
  - apply ex_state_seq.
  - exists r. split; [exact Ha | exact Hc].
Defined.

Lemma unread_counts_witness :
  direct_unread "B002" ex_state = Some 0 /\
  direct_unread "b002" (handleMessage "10:05" ex_private ex_state) = Some 1.
Proof.
  split; [vm_compute; reflexivity |].
  destruct (unread_counts "10:05" ex_private ex_state) as [_ Hu].
  - right. left.
  - apply ex_state_sinv.
  - apply ex_state_seq.
  - apply ex_state_sinv.
  - destruct Hu as [_ Hu]; [vm_compute; reflexivity | vm_compute; discriminate |].
    destruct (Hu "b002") as (_ & E & _); [reflexivity |]. rewrite E. vm_compute. reflexivity.
Defined.

Lemma recall_authorised_witness :
  (recallMessage "u1" "c1" ex_state).2 = true /\
  on_screen ex_state "u1" (fun r => eq_ci (to_str (value "userCode" r)) (localUserCode_ ex_state) = true).
Proof.
  assert ((recallMessage "u1" "c1" ex_state).2 = true) as E by (vm_compute; reflexivity). split; [exact E |].
  pose proof (recall_authorised "u1" "c1" ex_state (cv_good _ _ (sv_cache _ _ ex_state_sinv))) as Hr.
  assert (admin_ ex_state = false) as Ea by (vm_compute; reflexivity).
  destruct (recallMessage "u1" "c1" ex_state) as [s' sent]. cbn [snd] in E. destruct Hr as [Hr _].
  apply Hr in E as [_ [E | E]]; [congruence | exact E].
Defined.

Lemma retry_resends_witness :
  (retryMessage "u1" ex_state).2 = true /\
  outs (retryMessage "u1" ex_state).1 =
    (outs ex_state ++ [Invoke "sendChatToRoom" [JStr "hello"; JStr "lobby"; JStr "u1"]])%list /\
  on_screen ex_state "u1" own_failed.
Proof.
  assert ((retryMessage "u1" ex_state).2 = true) as E by (vm_compute; reflexivity).
  split; [exact E | split; [vm_compute; reflexivity |]].
  pose proof (retry_resends "u1" ex_state (cv_inv _ _ (sv_cache _ _ ex_state_sinv)) (cv_good _ _ (sv_cache _ _ ex_state_sinv))) as Hr.
  destruct (retryMessage "u1" ex_state) as [s' ok]. cbn [snd] in E. destruct Hr as [Hr _]. apply Hr in E as [_ E]. exact E.
Defined.

Lemma reconnect_keeps_session_witness :
  core (handleConnected false (handleConnectionLost "reset" ex_state)) = core ex_state /\
  lm_rows (current_model ex_state) <> [].
Proof.
  split; [| vm_compute; discriminate].
  apply (reconnect_keeps_session "reset" "lobby" false ex_state); [apply ex_state_sinv | apply ex_state_seq].
Defined.

Lemma history_wedged_by_reconnect_witness :
  historyLoading_ (run_events [EvConnectionLost "reset"; EvConnected false; EvSelectRoom "dev"; EvSearch "x"] ex_state) = true.
Proof.
  apply (history_wedged_by_reconnect "reset" false [EvSelectRoom "dev"; EvSearch "x"] ex_state).
  - vm_compute. reflexivity.
  - reflexivity.
Defined.

Lemma identity_parts_witness : member_of_identity "Bob#B002@dev" = mk_member "Bob" "B002" "dev" false.
Proof. apply (identity_parts "Bob" "B002" "dev"); [discriminate | reflexivity | reflexivity]. Defined.

Definition ex_users : Incoming :=
  mk_incoming "users_response" "" "" "" "" "" "" "" "" ["Alice#A001@lobby"; "Bob#B002@dev"] [] [] [] false.

Lemma users_response_spec_witness :
  let s' := handleMessage "10:06" ex_users (handleMessage "10:05" ex_private ex_state) in
  onlineMemberCount_ s' = 2 /\ direct_unread "B002" s' = Some 1.
Proof.
  cbv zeta. split; [| vm_compute; reflexivity].
  destruct (users_response_spec "10:06" ex_users (handleMessage "10:05" ex_private ex_state)) as (_ & E & _).
  - reflexivity.
  - vm_compute. lia.
  - rewrite E. vm_compute. reflexivity.
Defined.
