(* ===== verification/LocalHost.v ===== *)
(** * LocalHost: the server process a worker hosts

    Models the hosting part of client-cpp/gui/src/gui_connection_worker.cpp: the
    decision between a server that already listens and one of its own, the
    start of the process, the wait until it listens, and the stop.  The
    operating system's answers (paths, existing files, the probe of the port,
    what the process does) are inputs; what is done to the process is recorded
    in order.  [Worker] connects once the server is ready. *)

From S2P Require Import Prelude Text.

Definition kLocalHostPort : Z := 8888.
Definition kLocalHostRetryAttempts : Z := 8.

(** How a QProcess is set up. *)
Record HostCommand := mk_command {
  hc_program : string;
  hc_workingDirectory : string;
  hc_arguments : list string;
  hc_log : option string;            (* where its output goes when diagnostics are on *)
}.

Inductive host_event :=
  | HostStart (c : HostCommand)
  | HostTerminate
  | HostKill
  | HostReleased.                    (* the QProcess is destroyed, which kills what still runs *)

Record Hosted := mk_hosted {
  hostProcess_ : option HostCommand;
  host_events : list host_event;
}.

#[export] Instance eta_Hosted : EtaRecord Hosted := fun h =>
  {| hostProcess_ := hostProcess_ h; host_events := host_events h |}.

Definition no_host : Hosted := mk_hosted None [].

Definition happens (e : host_event) (h : Hosted) : Hosted := h <| host_events ::= fun l => l ++ [e] |>.

(** [hostProcess_.reset()] on a process that is there. *)
Definition release (h : Hosted) : Hosted := happens HostReleased (h <| hostProcess_ := None |>).

(** [running]: state() is not NotRunning; [finishes]: waitForFinished(1500). *)
Record stop_answers := mk_stop { sa_running : bool; sa_finishes : bool }.

Definition stopHostedServer (a : stop_answers) (h : Hosted) : Hosted :=
  match hostProcess_ h with
  | None => h
  | Some _ =>
      let h := if sa_running a
               then let h := happens HostTerminate h in if sa_finishes a then h else happens HostKill h
               else h in
      release h
  end.

(** One round of the wait for the server: what it wrote, whether it still runs
    and whether the port answers.  The list of rounds ends where the timer has
    reached kLocalHostStartupTimeoutMs. *)
Record startup_round := mk_round { sr_errors : string; sr_output : string; sr_running : bool; sr_listening : bool }.

Fixpoint startup (rounds : list startup_round) (startupLog : string) : string * bool :=
  match rounds with
  | [] => (startupLog, false)
  | r :: rounds =>
      let startupLog := startupLog +:+ sr_errors r +:+ sr_output r in
      if negb (sr_running r) then (startupLog, false)
      else if sr_listening r then (startupLog, true)
      else startup rounds startupLog
  end.

(** What [connectToLocalHost] meets. *)
Record host_world := mk_world {
  hw_isAbsolute : string -> bool;
  hw_absoluteFilePath : string -> string;             (* of the path itself *)
  hw_applicationPath : string -> string;              (* relative to the application *)
  hw_absolutePath : string -> string;                 (* the directory of a file *)
  hw_exists : string -> bool;                         (* before the server is started *)
  hw_listening : bool * bool;                         (* the first and the second probe *)
  hw_logFile : option string;                         (* NetworkDiagnostics::enabled and its host log *)
  hw_stop : stop_answers;                             (* of the previous process *)
  hw_started : outcome unit;                          (* waitForStarted(3000), with errorString *)
  hw_rounds : list startup_round;
  hw_rest : string * string;                          (* error and standard output read after the wait *)
  hw_abandon : stop_answers;                          (* of the process that was started *)
  hw_stillRunning : bool;                             (* state() is Running after the wait *)
  hw_lastErrors : string;
  hw_existsAfter : string -> bool;
}.

Definition resolvePath (env : host_world) (path : string) : string :=
  if hw_isAbsolute env path then hw_absoluteFilePath env path else hw_applicationPath env path.

Definition server_command (env : host_world) (serverExe certFile keyFile dbFile username userCode : string) : HostCommand :=
  mk_command serverExe (hw_absolutePath env serverExe)
    ["-cert"; certFile; "-key"; keyFile; "-auto-cert"; "-db"; dbFile; "-admin-code"; userCode;
     "-lan-discovery"; "-discovery-name"; username] (hw_logFile env).

Section Hosting.
  Context `{QtText}.

(** The process part of [connectToLocalHost], on resolved paths: the reason that
    is reported, or how often to try to connect. *)
Definition hostLocally (env : host_world) (serverExe certFile keyFile dbFile username userCode : string) (h : Hosted)
    : Hosted * outcome Z :=
  if negb (hw_exists env serverExe) then (h, Fail "本地 Go Server 文件不存在，请检查 Host 路径")
  else
    let localIdentityReady := hw_exists env certFile && hw_exists env keyFile in
    if (hw_listening env).1 && localIdentityReady then (h, Ok 2)
    else if (hw_listening env).2
    then (h, Fail "Local port 8888 is already in use before the local TLS identity was initialized.")
    else
      let h := stopHostedServer (hw_stop env) h in
      let command := server_command env serverExe certFile keyFile dbFile username userCode in
      let h := happens (HostStart command) (h <| hostProcess_ := Some command |>) in
      match hw_started env with
      | Fail errorString => (release h, Fail ("无法启动本地 Go Server：" +:+ errorString))
      | Ok _ =>
          let '(startupLog, listening) := startup (hw_rounds env) "" in
          if negb listening then
            let detail := trimmed (startupLog +:+ (hw_rest env).1 +:+ (hw_rest env).2) in
            (stopHostedServer (hw_abandon env) h,
             Fail ("Local Go Server did not become ready" +:+ (if is_empty detail then "" else ": " +:+ detail)))
          else if negb (hw_stillRunning env) then
            let error := trimmed (hw_lastErrors env) in
            (release h, Fail ("本地 Go Server 启动后退出" +:+ (if is_empty error then "" else "：" +:+ error)))
          else if negb (hw_existsAfter env certFile) || negb (hw_existsAfter env keyFile)
          then (stopHostedServer (hw_abandon env) h, Fail "本地 Go Server 未生成 TLS 证书，请检查 Host 路径和目录写入权限。")
          else (h, Ok kLocalHostRetryAttempts)
      end.

(** ** Ownership *)

(** Follows the events: the process that is owned, or nothing when a second one
    is started or a process that is not there is handled. *)
Definition own (o : option (option HostCommand)) (e : host_event) : option (option HostCommand) :=
  match o, e with
  | Some None, HostStart c => Some (Some c)
  | Some (Some c), HostTerminate | Some (Some c), HostKill => Some (Some c)
  | Some (Some _), HostReleased => Some None
  | _, _ => None
  end.

Definition owned (h : Hosted) : Prop := foldl own (Some None) (host_events h) = Some (hostProcess_ h).

Lemma happens_owned e h p : owned h -> own (Some (hostProcess_ h)) e = Some p -> owned (happens e (h <| hostProcess_ := p |>)).
Proof. unfold owned. intros Ho He. cbn. by rewrite foldl_app, Ho. Qed.

Lemma happens_step e h p h' : owned h -> own (Some (hostProcess_ h)) e = Some p -> h' = happens e (h <| hostProcess_ := p |>) ->
  owned h' /\ hostProcess_ h' = p.
Proof. intros Ho He ->. split; [by apply happens_owned | done]. Qed.

Lemma release_owned h c : owned h -> hostProcess_ h = Some c -> owned (release h).
Proof. intros Ho Hc. apply happens_owned; [done |]. by rewrite Hc. Qed.

Lemma stop_owned a h : owned h -> owned (stopHostedServer a h).
Proof.
  intros Ho. unfold stopHostedServer. destruct (hostProcess_ h) as [c |] eqn:Ec; [| done].
  assert (forall e, e = HostTerminate \/ e = HostKill -> forall h, owned h -> hostProcess_ h = Some c ->
    owned (happens e h) /\ hostProcess_ (happens e h) = Some c) as G.
  { intros e He h0 H0 Hc. apply (happens_step e h0 (Some c)); [done | rewrite Hc; by destruct He as [-> | ->] |].
    destruct h0. cbn in *. by subst. }
  destruct (sa_running a); [| by apply (release_owned h c)]. cbv zeta.
  destruct (G HostTerminate (or_introl eq_refl) h Ho Ec) as [Ho1 Ec1].
  destruct (sa_finishes a); [by apply (release_owned _ c) |].
  destruct (G HostKill (or_intror eq_refl) _ Ho1 Ec1) as [Ho2 Ec2]. by apply (release_owned _ c).
Qed.

Lemma stop_none a h : hostProcess_ (stopHostedServer a h) = None.
Proof. unfold stopHostedServer. by destruct (hostProcess_ h) as [c |] eqn:Ec. Qed.

Lemma hostLocally_owned env a b c d e f h : owned h -> owned (hostLocally env a b c d e f h).1.
Proof.
  intros Ho. unfold hostLocally. repeat match goal with |- owned (if ?b then _ else _).1 => destruct b; [done |] end. cbv zeta.
  set (command := server_command _ _ _ _ _ _ _). set (h0 := stopHostedServer _ h).
  assert (owned h0 /\ hostProcess_ h0 = None) as [H0 E0] by (split; [by apply stop_owned | apply stop_none]).
  set (h1 := happens (HostStart command) _).
  assert (owned h1 /\ hostProcess_ h1 = Some command) as [H1 E1].
  { apply (happens_step (HostStart command) h0 (Some command)); [done | by rewrite E0 | done]. }
  destruct (hw_started env); [| by apply (release_owned h1 command)]. destruct (startup _ _) as [startupLog []]; cbn [negb].
  - destruct (negb (hw_stillRunning env)); [by apply (release_owned h1 command) |].
    destruct (negb _ || negb _); [by apply stop_owned | done].
  - by apply stop_owned.
Qed.

(** A server comes to listen before it ends and before the time is over. *)
Definition comes_up (rounds : list startup_round) : Prop :=
  exists before r after, rounds = before ++ r :: after /\ sr_running r = true /\ sr_listening r = true /\
    Forall (fun r => sr_running r = true) before.

Lemma startup_listening rounds log :
  (startup rounds log).2 = true <-> comes_up rounds.
Proof.
  revert log. induction rounds as [| r rounds IH]; intros log; cbn [startup].
  { split; [done |]. intros (before & r & after & E & _). by destruct before. }
  destruct (sr_running r) eqn:Er; cbn [negb].
  - destruct (sr_listening r) eqn:El.
    + split; [| done]. intros _. exists [], r, rounds. by repeat constructor.
    + rewrite IH. split.
      * intros (before & r' & after & -> & Hr & Hl & Hb). exists (r :: before), r', after. by repeat constructor.
      * intros (before & r' & after & E & Hr & Hl & Hb). destruct before as [| r0 before].
        -- injection E as -> ->. congruence.
        -- injection E as -> ->. exists before, r', after. by inversion Hb.
  - split; [done |]. intros (before & r' & after & E & Hr & Hl & Hb). destruct before as [| r0 before].
    + injection E as -> ->. congruence.
    + injection E as -> ->. inversion Hb. congruence.
Qed.

(** When a server is ready to be connected to. *)
Definition server_ready (env : host_world) (serverExe certFile keyFile : string) : Prop :=
  let identity exists_ := exists_ certFile = true /\ exists_ keyFile = true in
  hw_exists env serverExe = true /\
  (((hw_listening env).1 = true /\ identity (hw_exists env)) \/
   ((hw_listening env).2 = false /\ hw_started env = Ok tt /\ comes_up (hw_rounds env) /\
    hw_stillRunning env = true /\ identity (hw_existsAfter env))).

Lemma hostLocally_ready env a b c d e f h n :
  (hostLocally env a b c d e f h).2 = Ok n -> server_ready env a b c /\ (n = 2 \/ n = kLocalHostRetryAttempts).
Proof.
  unfold hostLocally, server_ready. destruct (hw_exists env a); [| done]. cbn [negb].
  destruct ((hw_listening env).1 && _) eqn:E1.
  { cbn. intros [= <-]. bool_hyps. split; [| by left]. split; [done |]. by left. }
  destruct (hw_listening env).2; [done |]. cbv zeta. destruct (hw_started env) as [[] |]; [| done].
  rewrite <- (startup_listening _ ""). destruct (startup _ _) as [startupLog []]; [| done]. cbn [negb snd].
  destruct (hw_stillRunning env); [| done]. cbn [negb].
  destruct (negb _ || negb _) eqn:E2; [done |]. cbn. intros [= <-]. bool_hyps. split; [| by right]. split; [done |]. by right.
Qed.

Lemma hostLocally_unready env a b c d e f h :
  server_ready env a b c -> exists n, (hostLocally env a b c d e f h).2 = Ok n.
Proof.
  unfold hostLocally, server_ready. intros [-> Hr]. cbn [negb]. destruct ((hw_listening env).1 && _) eqn:E1; [by eexists |].
  destruct Hr as [(El & Ec & Ek) | (-> & -> & Hu & -> & -> & ->)]; [by rewrite El, Ec, Ek in E1 |].
  cbv zeta. apply (startup_listening _ "") in Hu. destruct (startup _ _) as [startupLog up]. cbn in Hu. subst up. by eexists.
Qed.

End Hosting.
