(* ===== verification/Worker.v ===== *)
(** * Worker: the session of the connection worker

    Models client-cpp/gui/src/reconnect_policy.{hpp,cpp} and the session part of
    client-cpp/gui/src/gui_connection_worker.{hpp,cpp}: connecting with retries,
    disconnecting, the reconnection timer with its generations, the slots that
    hand a message to the connection, and what the receive loop reports for an
    incoming message.  The results of a login and of a send, the OpenSSL set-up
    and the moment a timer fires are inputs, as are the two values the receive
    loop takes from the attachment transfers.  A worker may host a server of its
    own ([LocalHost]).  This is the build without LAN_CHAT_ENABLE_MLSPP; the
    attachment slots are in [Attachments], the MLS slots in [MlsGroups], and
    [MlsSession] puts the whole worker together. *)

From S2P Require Import Prelude Text Protocol Json JsonCodecInstance ChatModel Conversations Controller Message LocalHost.

(** ** The reconnection policy *)

Record ReconnectPolicy := mk_policy {
  active_ : bool;
  attemptCount_ : Z;
  generation_ : Z;
}.

#[export] Instance eta_ReconnectPolicy : EtaRecord ReconnectPolicy := fun p =>
  {| active_ := active_ p; attemptCount_ := attemptCount_ p; generation_ := generation_ p |}.

Definition initial_policy : ReconnectPolicy := mk_policy true 0 0.

Definition kInitialDelayMs : Z := 500.
Definition kMaximumDelayMs : Z := 8000.

Definition scheduleNextAttempt (p : ReconnectPolicy) : ReconnectPolicy * Z :=
  if active_ p then
    let exponent := Z.min (attemptCount_ p) 4 in
    let delayMs := Z.min (kInitialDelayMs * Z.shiftl 1 exponent) kMaximumDelayMs in
    (p <| attemptCount_ := wrap32 (attemptCount_ p + 1) |>, delayMs)
  else (p, -1).

Definition markConnected (p : ReconnectPolicy) : ReconnectPolicy :=
  mk_policy true 0 (wrap32 (generation_ p + 1)).

Definition policy_cancel (p : ReconnectPolicy) : ReconnectPolicy :=
  p <| active_ := false |> <| generation_ := wrap32 (generation_ p + 1) |>.

(** ** The worker *)

Record SavedConnection := mk_saved {
  sc_serverIp : string;
  sc_serverPort : Z;
  sc_username : string;
  sc_userCode : string;
  sc_caFile : string;
  sc_tlsServerName : string;
  sc_valid : bool;
}.

Inductive signal :=
  | Disconnected
  | Connected (isAdmin : bool)
  | ConnectionFailed (reason : string)
  | ConnectionLost (reason : string)
  | ReconnectScheduled (attempt delayMs : Z)
  | ReconnectAttempt (attempt : Z)
  | ReconnectFailed (reason : string)
  | MessageDeliveryFailed (messageId : string)
  | MessageReceived (m : Incoming)
  | HistoryReceived (room targetUserCode : string) (isPrivate : bool) (messages : list row) (hasMore : bool) (searchQuery : string)
  | AttachmentEvent (type attachmentId uploadId commandId : string) (chunkSize chunkIndex : Z)
      (ciphertext cipherSha256 expiresAt : string) (receivedIndexes : list Z) (content : string) (logicalSize : Z)
  | MlsKeyPackageAvailable (userCode fingerprint : string)
  | MlsCommandResult (commandId : string) (ok : bool) (code message : string)
  | MlsWelcomeEvent (groupId : string) (epoch : Z) (status : string)
  | MlsGroupStateReport (commandId : string) (ok : bool) (groupId : string) (epoch : Z) (reason : string)
  | MlsDataResult (commandId : string) (ok : bool) (data reason : string).

Record Worker := mk_worker {
  connection_ : option bool;      (* the connection object, and whether it is ready *)
  running_ : bool;                (* the receive loop *)
  savedConnection_ : SavedConnection;
  reconnectPolicy_ : ReconnectPolicy;
  reconnectTimerActive_ : bool;
  timers : list Z;                (* the generations captured by the pending single-shot timers *)
  lastConnectionFailure_ : string;
  explicitDisconnect_ : bool;
  attempts_ : list SavedConnection; (* every call of connect_and_login, with its target *)
  sent_ : list Message;           (* messages handed to the connection *)
  signals : list signal;
  hosted : Hosted;                (* the server process of its own *)
}.

#[export] Instance eta_Worker : EtaRecord Worker := fun w =>
  {| connection_ := connection_ w; running_ := running_ w; savedConnection_ := savedConnection_ w;
     reconnectPolicy_ := reconnectPolicy_ w; reconnectTimerActive_ := reconnectTimerActive_ w; timers := timers w;
     lastConnectionFailure_ := lastConnectionFailure_ w; explicitDisconnect_ := explicitDisconnect_ w;
     attempts_ := attempts_ w; sent_ := sent_ w; signals := signals w; hosted := hosted w |}.

Definition no_saved : SavedConnection := mk_saved "" 0 "" "" "" "" false.

Definition initial_worker : Worker :=
  mk_worker None false no_saved initial_policy false [] "" false [] [] [] no_host.

Definition signalled (g : signal) (w : Worker) : Worker := w <| signals ::= fun l => l ++ [g] |>.

(** The receive thread is asked to stop and joined. *)
Definition stopReceiveLoop (w : Worker) : Worker :=
  if running_ w
  then w <| running_ := false |> <| connection_ ::= fmap (fun _ => false) |>
  else w.

Definition userFacingLoginFailure (reason : string) : string :=
  if String.eqb reason "The room owner declined this connection" then "房主拒绝了此次连接请求。"
  else if String.eqb reason "The room owner did not approve the connection in time" then "等待房主确认连接超时，请稍后重试。"
  else "登录被拒绝：" +:+ reason.

(** What [connect_and_login] did. *)
Inductive login :=
  | LoggedIn (isAdmin : bool)
  | Refused (reason : string) (rejected : bool).

(** The loop of [connectToServerWithRetries]; [k] attempts are left.  A login is
    one step here: the source sets [running_], starts the receive thread and
    emits [connected] in this order, so what that thread receives or loses
    before [connected] is emitted comes after it in the model. *)
Fixpoint retry_loop (k : nat) (attempt : nat) (logins : nat -> login) (target : SavedConnection) (reportFailure : bool)
    (lastReason : string) (w : Worker) : Worker * bool :=
  match k with
  | O =>
      let failure := if is_empty lastReason then "Connection failed" else lastReason in
      let w := w <| lastConnectionFailure_ := failure |> in
      (if reportFailure then signalled (ConnectionFailed failure) w else w, false)
  | S k' =>
      let w := w <| attempts_ ::= fun l => l ++ [target] |> in
      match logins attempt with
      | LoggedIn isAdmin =>
          (signalled (Connected isAdmin) (w <| connection_ := Some true |> <| running_ := true |>), true)
      | Refused reason rejected =>
          let w := w <| lastConnectionFailure_ := reason |> <| connection_ := None |> in
          if rejected then
            let failure := userFacingLoginFailure reason in
            let w := w <| lastConnectionFailure_ := failure |> in
            (if reportFailure then signalled (ConnectionFailed failure) w else w, false)
          else retry_loop k' (S attempt) logins target reportFailure reason w
      end
  end.

(** [prepared] is the result of [OpenSslRuntime::prepare]. *)
Definition connectToServerWithRetries (prepared : outcome unit) (logins : nat -> login) (target : SavedConnection)
    (attempts : Z) (reportFailure : bool) (w : Worker) : Worker * bool :=
  match prepared with
  | Fail reason =>
      let w := w <| lastConnectionFailure_ := reason |> in
      (if reportFailure then signalled (ConnectionFailed reason) w else w, false)
  | Ok _ => retry_loop (Z.to_nat (Z.max 1 attempts)) 0 logins target reportFailure "" w
  end.

Definition connectToServer (prepared : outcome unit) (logins : nat -> login)
    (serverIp : string) (serverPort : Z) (username userCode caFile tlsServerName : string) (w : Worker) : Worker :=
  let w := stopReceiveLoop w in
  let target := mk_saved serverIp serverPort username userCode caFile tlsServerName true in
  let w := w <| explicitDisconnect_ := false |> <| reconnectPolicy_ ::= markConnected |>
             <| reconnectTimerActive_ := false |> <| savedConnection_ := target |> in
  (connectToServerWithRetries prepared logins target 1 true w).1.

(** The target of a local connection. *)
Definition local_target (certFile username userCode : string) : SavedConnection :=
  mk_saved "127.0.0.1" kLocalHostPort username userCode certFile "" true.

(** The session is made ready for a new target. *)
Definition new_session (target : SavedConnection) (w : Worker) : Worker :=
  (stopReceiveLoop w) <| connection_ := None |> <| explicitDisconnect_ := false |> <| reconnectPolicy_ ::= markConnected |>
    <| reconnectTimerActive_ := false |> <| savedConnection_ := target |>.

(** [connectToLocalHost] up to the connection: the worker and how often to try,
    or nothing when a failure was reported. *)
Definition prepareLocalHost `{QtText} (env : host_world) (serverExe certFile keyFile dbFile username userCode : string) (w : Worker)
    : Worker * option (SavedConnection * Z) :=
  let serverExe := resolvePath env serverExe in
  let certFile := resolvePath env certFile in
  let keyFile := resolvePath env keyFile in
  let dbFile := resolvePath env dbFile in
  let target := local_target certFile username userCode in
  let w := new_session target w in
  let '(h, ready) := hostLocally env serverExe certFile keyFile dbFile username userCode (hosted w) in
  let w := w <| hosted := h |> in
  match ready with
  | Fail reason => (signalled (ConnectionFailed reason) w, None)
  | Ok attempts => (w, Some (target, attempts))
  end.

Definition connectToLocalHost `{QtText} (env : host_world) (prepared : outcome unit) (logins : nat -> login)
    (serverExe certFile keyFile dbFile username userCode : string) (w : Worker) : Worker :=
  match prepareLocalHost env serverExe certFile keyFile dbFile username userCode w with
  | (w, None) => w
  | (w, Some (target, attempts)) => (connectToServerWithRetries prepared logins target attempts true w).1
  end.

Definition disconnectFromServer (stop : stop_answers) (w : Worker) : Worker :=
  let w := w <| explicitDisconnect_ := true |> <| reconnectPolicy_ ::= policy_cancel |> <| reconnectTimerActive_ := false |> in
  signalled Disconnected ((stopReceiveLoop w) <| connection_ := None |> <| hosted ::= stopHostedServer stop |>).

(** [~GuiConnectionWorker] *)
Definition destroyWorker (stop : stop_answers) (w : Worker) : Worker := (stopReceiveLoop w) <| hosted ::= stopHostedServer stop |>.

Definition scheduleReconnect (w : Worker) : Worker :=
  if explicitDisconnect_ w || negb (sc_valid (savedConnection_ w)) || reconnectTimerActive_ w then w
  else
    let w := (stopReceiveLoop w) <| connection_ := None |> in
    let '(p, delayMs) := scheduleNextAttempt (reconnectPolicy_ w) in
    let w := w <| reconnectPolicy_ := p |> in
    if delayMs <? 0 then w
    else
      let w := signalled (ReconnectScheduled (attemptCount_ p) delayMs) w in
      w <| reconnectTimerActive_ := true |> <| timers ::= fun l => l ++ [generation_ p] |>.

Definition retrySavedConnection (prepared : outcome unit) (logins : nat -> login) (w : Worker) : Worker :=
  if explicitDisconnect_ w || negb (sc_valid (savedConnection_ w)) then w
  else
    let w := signalled (ReconnectAttempt (attemptCount_ (reconnectPolicy_ w))) w in
    let '(w, ok) := connectToServerWithRetries prepared logins (savedConnection_ w) 1 false w in
    if ok then w <| reconnectPolicy_ ::= markConnected |>
    else scheduleReconnect (signalled (ReconnectFailed (lastConnectionFailure_ w)) w).

(** The [i]-th pending timer fires. *)
Definition timer_fires (i : nat) (prepared : outcome unit) (logins : nat -> login) (w : Worker) : Worker :=
  match timers w !! i with
  | None => w
  | Some reconnectGeneration =>
      let w := w <| timers ::= delete i |> in
      if negb (reconnectGeneration =? generation_ (reconnectPolicy_ w)) then w
      else retrySavedConnection prepared logins (w <| reconnectTimerActive_ := false |>)
  end.

(** ** Sending *)

(** [connection_ && connection_->is_ready()] *)
Definition link_ready (w : Worker) : bool := default false (connection_ w).

(** [if (!connection_->send(message)) { ... }]; [sent] is what [send] did, with
    [last_error()] when it failed. *)
Definition hand_over (m : Message) (sent : outcome unit) (on_failure : Worker -> Worker) (w : Worker) : Worker :=
  match sent with
  | Ok _ => w <| sent_ ::= fun l => l ++ [m] |>
  | Fail reason => signalled (ConnectionLost reason) (on_failure w)
  end.

Definition report_undelivered (messageId : string) (w : Worker) : Worker :=
  if is_empty messageId then w else signalled (MessageDeliveryFailed messageId) w.

Section Slots.
  Context `{QtText}.

Definition chat_message (content room messageId : string) : Message :=
  empty_message <| type := "chat" |> <| Message.content := trimmed content |> <| Message.room := room |>
    <| message_id := messageId |>.

Definition sendChatToRoom (content room messageId : string) (sent : outcome unit) (w : Worker) : Worker :=
  if negb (link_ready w) || is_empty (trimmed content) then report_undelivered messageId w
  else hand_over (chat_message content room messageId) sent (report_undelivered messageId) w.

Definition private_message (content targetUserCode messageId : string) : Message :=
  empty_message <| type := "private_chat" |> <| Message.content := trimmed content |>
    <| target_user_code := targetUserCode |> <| message_id := messageId |>.

Definition sendPrivate (content targetUserCode messageId : string) (sent : outcome unit) (w : Worker) : Worker :=
  if negb (link_ready w) || is_empty (trimmed content) || is_empty targetUserCode then report_undelivered messageId w
  else hand_over (private_message content targetUserCode messageId) sent (report_undelivered messageId) w.

Definition joinRoom (room : string) (sent : outcome unit) (w : Worker) : Worker :=
  if negb (link_ready w) || is_empty (trimmed room) then w
  else hand_over (empty_message <| type := "room_join" |> <| Message.room := trimmed room |>) sent id w.

Definition createRoom (room : string) (isPrivate : bool) (sent : outcome unit) (w : Worker) : Worker :=
  if negb (link_ready w) || is_empty (trimmed room) then w
  else hand_over (empty_message <| type := "room_create" |> <| Message.room := trimmed room |> <| is_private := isPrivate |>) sent id w.

Definition sendRoomAction (action room targetUserCode : string) (sent : outcome unit) (w : Worker) : Worker :=
  if negb (link_ready w) || is_empty (trimmed action) || is_empty (trimmed room) then w
  else hand_over (empty_message <| type := "room_action" |> <| Message.content := trimmed action |>
                    <| target_user_code := trimmed targetUserCode |> <| Message.room := trimmed room |>) sent id w.

Definition requestUsers (sent : outcome unit) (w : Worker) : Worker :=
  if link_ready w then hand_over (empty_message <| type := "users_request" |>) sent id w else w.

Definition requestRooms (sent : outcome unit) (w : Worker) : Worker :=
  if link_ready w then hand_over (empty_message <| type := "rooms_request" |>) sent id w else w.

(** [qBound(1, limit, 100)] *)
Definition bound_limit (limit : Z) : Z := Z.max 1 (Z.min limit 100).

Definition requestHistory (room targetUserCode : string) (isPrivate : bool) (beforeMessageId : string) (limit : Z)
    (searchQuery : string) (sent : outcome unit) (w : Worker) : Worker :=
  if link_ready w
  then hand_over (empty_message <| type := "history_request" |> <| target_user_code := trimmed targetUserCode |>
                    <| Message.room := trimmed room |> <| is_private := isPrivate |>
                    <| before_message_id := trimmed beforeMessageId |> <| search_query := trimmed searchQuery |>
                    <| Message.limit := bound_limit limit |>) sent id w
  else w.

Definition targetless_action (action : string) : bool :=
  String.eqb action "recall" || String.eqb action "approve_connection" || String.eqb action "deny_connection".

Definition sendAdminAction (action targetUserCode messageId commandId : string) (sent : outcome unit) (w : Worker) : Worker :=
  if negb (link_ready w) || is_empty (trimmed action) ||
     (negb (targetless_action (trimmed action)) && is_empty (trimmed targetUserCode)) then w
  else hand_over (empty_message <| type := "admin_action" |> <| Message.content := trimmed action |>
                    <| target_user_code := trimmed targetUserCode |> <| message_id := trimmed messageId |>
                    <| command_id := trimmed commandId |>) sent id w.

End Slots.

(** ** Receiving *)

(** A QVariantMap filled with [insert]. *)
Definition detail_map (fields : list (string * json)) : row := foldl (fun o kv => obj_set kv.1 kv.2 o) [] fields.

Definition user_detail (u : OnlineUser) : row :=
  detail_map [("displayName", JStr (ou_username u)); ("userCode", JStr (ou_user_code u)); ("room", JStr (ou_room u));
              ("admin", JBool (ou_is_admin u))].

Definition room_detail (r : RoomInfo) : row :=
  detail_map [("roomName", JStr (ri_name r)); ("ownerCode", JStr (ri_owner_code r)); ("private", JBool (ri_is_private r));
              ("canManage", JBool (ri_can_manage r))].

Definition history_detail (m : Message) : row :=
  detail_map [("messageId", JStr (message_id m)); ("displayName", JStr (username m)); ("userCode", JStr (user_code m));
              ("content", JStr (Message.content m)); ("createdAt", JStr (created_at m));
              ("deliveryState", JStr (delivery_state m)); ("recalled", JBool (recalled m))].

Definition received_of (m : Message) : Incoming :=
  mk_incoming (type m) (message_id m) (command_id m) (username m) (user_code m) (Message.content m) (Message.room m)
    (target_user_code m) (delivery_state m) (users m) (rooms m) (map user_detail (user_details m))
    (map room_detail (room_details m)) (is_admin m).

Definition is_attachment_event (t : string) : bool :=
  String.eqb t "attachment.init" || String.eqb t "attachment.chunk" || String.eqb t "attachment.resume" ||
  String.eqb t "attachment.commit" || String.eqb t "attachment.download" || String.eqb t "error".

(** One received message.  [fromBase64] is QByteArray's, [eventCommandId] the
    result of [attachmentEventCommandId] and [transferSize] the size of the
    transfer with the message's upload id, or 0. *)
Definition on_received (fromBase64 : string -> string) (eventCommandId : string) (transferSize : Z) (m : Message) (w : Worker) : Worker :=
  let w :=
    if is_attachment_event (type m) then
      signalled (AttachmentEvent (type m) (attachment_id m) (upload_id m) eventCommandId (chunk_size m) (chunk_index m)
        (fromBase64 (ciphertext m)) (cipher_sha256 m) (expires_at m) (received_indexes m) (Message.content m)
        (if String.eqb (type m) "attachment.init" then transferSize else 0)) w
    else w in
  if String.eqb (type m) "history_response"
  then signalled (HistoryReceived (Message.room m) (target_user_code m) (is_private m) (map history_detail (messages m))
                    (has_more m) (search_query m)) w
  else signalled (MessageReceived (received_of m)) w.

(** The receive loop ends because [receive] failed. *)
Definition on_receive_failed (reason : string) (w : Worker) : Worker :=
  if running_ w then signalled (ConnectionLost reason) (w <| running_ := false |>) else w.

(** ** Everything that happens to the worker *)

Inductive worker_call :=
  | WConnect (prepared : outcome unit) (logins : nat -> login) (serverIp : string) (serverPort : Z)
      (username userCode caFile tlsServerName : string)
  | WLocalHost (env : host_world) (prepared : outcome unit) (logins : nat -> login)
      (serverExe certFile keyFile dbFile username userCode : string)
  | WDisconnect (stop : stop_answers)
  | WSchedule
  | WTimer (i : nat) (prepared : outcome unit) (logins : nat -> login)
  | WSendChat (content room messageId : string) (sent : outcome unit)
  | WSendPrivate (content targetUserCode messageId : string) (sent : outcome unit)
  | WJoinRoom (room : string) (sent : outcome unit)
  | WCreateRoom (room : string) (isPrivate : bool) (sent : outcome unit)
  | WRoomAction (action room targetUserCode : string) (sent : outcome unit)
  | WRequestUsers (sent : outcome unit)
  | WRequestRooms (sent : outcome unit)
  | WRequestHistory (room targetUserCode : string) (isPrivate : bool) (beforeMessageId : string) (limit : Z)
      (searchQuery : string) (sent : outcome unit)
  | WAdminAction (action targetUserCode messageId commandId : string) (sent : outcome unit)
  | WReceived (fromBase64 : string -> string) (eventCommandId : string) (transferSize : Z) (m : Message)
  | WReceiveFailed (reason : string).

Definition worker_step `{QtText} (c : worker_call) (w : Worker) : Worker :=
  match c with
  | WConnect p l a b c d e f => connectToServer p l a b c d e f w
  | WLocalHost v p l a b c d e f => connectToLocalHost v p l a b c d e f w
  | WDisconnect a => disconnectFromServer a w
  | WSchedule => scheduleReconnect w
  | WTimer i p l => timer_fires i p l w
  | WSendChat a b c r => sendChatToRoom a b c r w
  | WSendPrivate a b c r => sendPrivate a b c r w
  | WJoinRoom a r => joinRoom a r w
  | WCreateRoom a b r => createRoom a b r w
  | WRoomAction a b c r => sendRoomAction a b c r w
  | WRequestUsers r => requestUsers r w
  | WRequestRooms r => requestRooms r w
  | WRequestHistory a b c d e f r => requestHistory a b c d e f r w
  | WAdminAction a b c d r => sendAdminAction a b c d r w
  | WReceived f c z m => on_received f c z m w
  | WReceiveFailed r => on_receive_failed r w
  end.

Definition run_worker `{QtText} (cs : list worker_call) (w : Worker) : Worker := foldl (fun w c => worker_step c w) w cs.

(** ** The reconnection timer *)

(** What decides about reconnecting. *)
Definition policy_view (w : Worker) :=
  (reconnectPolicy_ w, timers w, reconnectTimerActive_ w, explicitDisconnect_ w, savedConnection_ w).

Lemma retry_loop_view k attempt logins target report reason w :
  policy_view (retry_loop k attempt logins target report reason w).1 = policy_view w.
Proof.
  revert attempt reason w. induction k as [| k IH]; intros attempt reason w; cbn [retry_loop]; [by destruct report |].
  destruct (logins attempt) as [b | r []]; [done | by destruct report |]. by rewrite IH.
Qed.

Lemma retries_view prepared logins target n report w :
  policy_view (connectToServerWithRetries prepared logins target n report w).1 = policy_view w.
Proof. destruct prepared; [apply retry_loop_view | by destruct report]. Qed.

Lemma stopReceiveLoop_view w : policy_view (stopReceiveLoop w) = policy_view w.
Proof. unfold stopReceiveLoop. by destruct (running_ w). Qed.

(** The calls that do not decide about the connection. *)
Definition passive (c : worker_call) : bool :=
  match c with WConnect _ _ _ _ _ _ _ _ | WLocalHost _ _ _ _ _ _ _ _ _ | WDisconnect _ | WSchedule | WTimer _ _ _ => false | _ => true end.

Definition link_view (w : Worker) := (policy_view w, connection_ w, attempts_ w, hosted w).

Lemma hand_over_link m sent f w : (forall w, link_view (f w) = link_view w) -> link_view (hand_over m sent f w) = link_view w.
Proof. intros Hf. destruct sent; [done |]. cbn. rewrite <- (Hf w). done. Qed.

Lemma report_link i w : link_view (report_undelivered i w) = link_view w.
Proof. unfold report_undelivered. by destruct (is_empty i). Qed.

Section WorkerProofs.
  Context `{QtText}.

Lemma passive_link c w : passive c = true -> link_view (worker_step c w) = link_view w.
Proof.
  destruct c; intros Hp; try discriminate Hp; cbn [worker_step];
    unfold sendChatToRoom, sendPrivate, joinRoom, createRoom, sendRoomAction, requestUsers, requestRooms, requestHistory,
      sendAdminAction, on_received, on_receive_failed;
    repeat match goal with |- link_view (if ?b then _ else _) = _ => destruct b end;
    try done; try apply report_link; try (apply hand_over_link; try done; apply report_link);
    by destruct (is_attachment_event _).
Qed.

(** After at most [n] decisions: the policy is active unless the user
    disconnected, no pending timer is from the future, and exactly one is of
    the current generation while the timer counts as active, none otherwise. *)
Record winv (n : Z) (w : Worker) : Prop := mk_winv {
  wi_gen : 0 <= generation_ (reconnectPolicy_ w) <= n;
  wi_count : 0 <= attemptCount_ (reconnectPolicy_ w) <= n;
  wi_active : active_ (reconnectPolicy_ w) = negb (explicitDisconnect_ w);
  wi_old : Forall (fun g => g <= generation_ (reconnectPolicy_ w)) (timers w);
  wi_live : length (List.filter (Z.eqb (generation_ (reconnectPolicy_ w))) (timers w)) =
            (if reconnectTimerActive_ w then 1 else 0)%nat;
}.

Lemma winv_view n w w' : policy_view w = policy_view w' -> winv n w -> winv n w'.
Proof. intros [= E1 E2 E3 E4 E5] [H1 H2 H3 H4 H5]. split; rewrite <- ?E1, <- ?E2, <- ?E3, <- ?E4; done. Qed.

Lemma winv_le n n' w : n <= n' -> winv n w -> winv n' w.
Proof. intros Hn [H1 H2 H3 H4 H5]. split; (done || lia). Qed.

Lemma initial_winv : winv 0 initial_worker.
Proof. by split. Qed.

Lemma none_newer g l : Forall (fun x => x <= g) l -> List.filter (Z.eqb (g + 1)) l = [].
Proof.
  induction 1 as [| x l Hx _ IH]; cbn [List.filter]; [done |].
  destruct (Z.eqb_spec (g + 1) x) as [E | _]; [lia | done].
Qed.

Lemma bump_wrap z n : 0 <= z <= n -> n < INT32_MAX -> wrap32 (z + 1) = z + 1.
Proof. intros Hz Hn. apply wrap32_id. unfold in_int32. lia. Qed.

(** A new generation retires every pending timer. *)
Lemma new_generation_winv n p p' w w' :
  n < INT32_MAX -> winv n w -> reconnectPolicy_ w = p -> reconnectPolicy_ w' = p' ->
  generation_ p' = wrap32 (generation_ p + 1) -> 0 <= attemptCount_ p' <= n -> active_ p' = negb (explicitDisconnect_ w') ->
  timers w' = timers w -> reconnectTimerActive_ w' = false -> winv (n + 1) w'.
Proof.
  intros Hn [H1 H2 H3 H4 H5] <- <- Eg Ea Eac Et Ef. rewrite (bump_wrap _ n H1 Hn) in Eg.
  split; rewrite ?Eg, ?Et, ?Ef; try done; try lia.
  - eapply Forall_impl; [exact H4 |]. cbn. lia.
  - by rewrite none_newer.
Qed.

Lemma connect_winv n p l a b c d e f w : n < INT32_MAX -> winv n w -> winv (n + 1) (connectToServer p l a b c d e f w).
Proof.
  intros Hn Hw. unfold connectToServer. eapply winv_view; [symmetry; apply retries_view |].
  assert (winv n (stopReceiveLoop w)) as Hs by (eapply winv_view; [symmetry; apply stopReceiveLoop_view | done]).
  eapply (new_generation_winv n _ _ (stopReceiveLoop w)); try done. pose proof (wi_count n w Hw). cbn. lia.
Qed.

Lemma new_session_spec target w :
  policy_view (new_session target w) = (markConnected (reconnectPolicy_ w), timers w, false, false, target) /\
  connection_ (new_session target w) = None /\ hosted (new_session target w) = hosted w /\
  attempts_ (new_session target w) = attempts_ w /\ signals (new_session target w) = signals w /\
  sent_ (new_session target w) = sent_ w.
Proof. unfold new_session, stopReceiveLoop. destruct (running_ w); split_and!; reflexivity. Qed.

(** What [prepareLocalHost] leaves to the connection. *)
Lemma prepare_result env a b c d e f w :
  let target := local_target (resolvePath env b) e f in
  let r := hostLocally env (resolvePath env a) (resolvePath env b) (resolvePath env c) (resolvePath env d) e f (hosted w) in
  let w1 := (new_session target w) <| hosted := r.1 |> in
  prepareLocalHost env a b c d e f w =
  match r.2 with
  | Fail reason => (signalled (ConnectionFailed reason) w1, None)
  | Ok n => (w1, Some (target, n))
  end.
Proof.
  cbv zeta. unfold prepareLocalHost. cbv zeta. generalize (local_target (resolvePath env b) e f) as target. intros target.
  destruct (new_session_spec target w) as (_ & _ & Eh & _). rewrite Eh. generalize (new_session target w) as w0. intros w0.
  by destruct (hostLocally _ _ _ _ _ _ _ _) as [h []].
Qed.

Lemma prepare_view env a b c d e f w :
  policy_view (prepareLocalHost env a b c d e f w).1 =
  (markConnected (reconnectPolicy_ w), timers w, false, false, local_target (resolvePath env b) e f) /\
  hosted (prepareLocalHost env a b c d e f w).1 =
  (hostLocally env (resolvePath env a) (resolvePath env b) (resolvePath env c) (resolvePath env d) e f (hosted w)).1.
Proof.
  rewrite prepare_result. cbv zeta. generalize (local_target (resolvePath env b) e f) as target. intros target.
  rewrite <- (proj1 (new_session_spec target w)). generalize (new_session target w) as w0. intros w0.
  generalize (hostLocally env (resolvePath env a) (resolvePath env b) (resolvePath env c) (resolvePath env d) e f (hosted w)).
  intros [h []]; split; reflexivity.
Qed.

Lemma local_host_winv n env p l a b c d e f w : n < INT32_MAX -> winv n w -> winv (n + 1) (connectToLocalHost env p l a b c d e f w).
Proof.
  intros Hn Hw. unfold connectToLocalHost. destruct (prepare_view env a b c d e f w) as [Hv _].
  destruct (prepareLocalHost _ _ _ _ _ _ _ w) as [w1 r]. cbn [fst] in Hv. injection Hv as E1 E2 E3 E4 _.
  assert (winv (n + 1) w1) as H1.
  { eapply (new_generation_winv n _ _ w); try done; rewrite ?E1, ?E4; try done. pose proof (wi_count n w Hw). cbn. lia. }
  destruct r as [[target m] |]; [| done]. eapply winv_view; [symmetry; apply retries_view | done].
Qed.

Lemma disconnect_winv n a w : n < INT32_MAX -> winv n w -> winv (n + 1) (disconnectFromServer a w).
Proof.
  intros Hn Hw. unfold disconnectFromServer.
  set (w1 := w <| explicitDisconnect_ := true |> <| reconnectPolicy_ ::= policy_cancel |> <| reconnectTimerActive_ := false |>).
  assert (winv (n + 1) w1) as H1.
  { eapply (new_generation_winv n _ _ w); try done. apply Hw. }
  eapply (winv_view _ (stopReceiveLoop w1)); [done |]. eapply winv_view; [symmetry; apply stopReceiveLoop_view | done].
Qed.

Lemma filter_snoc g l : List.filter (Z.eqb g) (l ++ [g]) = (List.filter (Z.eqb g) l ++ [g])%list.
Proof. rewrite List.filter_app. cbn. by rewrite Z.eqb_refl. Qed.

(** The delay of the [n]-th attempt in a row. *)
Definition delay (n : Z) : Z := Z.min (kInitialDelayMs * Z.shiftl 1 (Z.min n 4)) kMaximumDelayMs.

Lemma delay_bounds n : 0 <= n -> 500 <= delay n <= 8000.
Proof.
  intros Hn. unfold delay, kInitialDelayMs, kMaximumDelayMs.
  assert (Z.min n 4 = 0 \/ Z.min n 4 = 1 \/ Z.min n 4 = 2 \/ Z.min n 4 = 3 \/ Z.min n 4 = 4) as Hm by lia.
  destruct Hm as [-> | [-> | [-> | [-> | ->]]]]; vm_compute; split; congruence.
Qed.

(** What [scheduleReconnect] does when it may reconnect. *)
Lemma schedule_spec n w :
  n < INT32_MAX -> winv n w -> explicitDisconnect_ w = false -> sc_valid (savedConnection_ w) = true ->
  reconnectTimerActive_ w = false ->
  let w' := scheduleReconnect w in
  let p := reconnectPolicy_ w in
  reconnectPolicy_ w' = p <| attemptCount_ := attemptCount_ p + 1 |> /\ reconnectTimerActive_ w' = true /\
  timers w' = (timers w ++ [generation_ p])%list /\ connection_ w' = None /\ attempts_ w' = attempts_ w /\
  explicitDisconnect_ w' = false /\ savedConnection_ w' = savedConnection_ w /\
  signals w' = (signals w ++ [ReconnectScheduled (attemptCount_ p + 1) (delay (attemptCount_ p))])%list.
Proof.
  intros Hn Hw He Hv Ht. unfold scheduleReconnect. rewrite He, Hv, Ht. cbn [orb negb].
  pose proof (stopReceiveLoop_view w) as Hview. injection Hview as E1 E2 E3 E4 E5.
  assert (attempts_ (stopReceiveLoop w) = attempts_ w /\ signals (stopReceiveLoop w) = signals w) as [E6 E7]
    by (unfold stopReceiveLoop; by destruct (running_ w)).
  unfold scheduleNextAttempt. cbn [reconnectPolicy_ field_update]. rewrite E1, (wi_active n w Hw), He. cbn [negb].
  rewrite (bump_wrap _ n (wi_count n w Hw) Hn). fold (delay (attemptCount_ (reconnectPolicy_ w))).
  pose proof (delay_bounds _ (proj1 (wi_count n w Hw))) as Hd. rewrite (proj2 (Z.ltb_ge _ 0)) by lia.
  cbn. split_and!; congruence.
Qed.

Lemma schedule_winv n w : n < INT32_MAX -> winv n w -> winv (n + 1) (scheduleReconnect w).
Proof.
  intros Hn Hw. destruct (explicitDisconnect_ w || negb (sc_valid (savedConnection_ w)) || reconnectTimerActive_ w)%bool eqn:Eg.
  { unfold scheduleReconnect. rewrite Eg. by apply (winv_le n); [lia |]. }
  apply orb_false_iff in Eg as [Eg Et]. apply orb_false_iff in Eg as [Ee Ev]. apply negb_false_iff in Ev.
  destruct (schedule_spec n w Hn Hw Ee Ev Et) as (E1 & E2 & E3 & _ & _ & E4 & _ & _). destruct Hw as [H1 H2 H3 H4 H5].
  split; rewrite ?E1, ?E2, ?E3, ?E4; cbn [generation_ attemptCount_ active_ field_update]; try lia; [congruence | |].
  - apply Forall_app. split; [done |]. by repeat constructor.
  - by rewrite filter_snoc, length_app, H5, Et.
Qed.

(** A pending timer leaves the list. *)
Lemma filter_delete (p : Z -> bool) l i g : l !! i = Some g ->
  length (List.filter p l) = ((if p g then 1 else 0) + length (List.filter p (delete i l)))%nat.
Proof.
  revert i. induction l as [| x l IH]; intros [| i] Hi; try done.
  - injection Hi as ->. cbn. by destruct (p g).
  - change (delete (S i) (x :: l)) with (x :: delete i l). cbn [List.filter].
    specialize (IH i Hi). destruct (p x); cbn [length]; lia.
Qed.

Lemma fired_winv n w i g : winv n w -> timers w !! i = Some g -> g = generation_ (reconnectPolicy_ w) ->
  reconnectTimerActive_ w = true /\ winv n (w <| timers ::= delete i |> <| reconnectTimerActive_ := false |>).
Proof.
  intros [H1 H2 H3 H4 H5] Hi Eg. pose proof (filter_delete (Z.eqb (generation_ (reconnectPolicy_ w))) _ i g Hi) as Hf.
  rewrite <- Eg, Z.eqb_refl, Eg in Hf. destruct (reconnectTimerActive_ w); [| lia]. split; [done |].
  split; cbn; try done; [| lia]. rewrite delete_take_drop. apply Forall_app. split; [by apply Forall_take | by apply Forall_drop].
Qed.

Lemma stale_winv n w i g : winv n w -> timers w !! i = Some g -> g <> generation_ (reconnectPolicy_ w) ->
  winv n (w <| timers ::= delete i |>).
Proof.
  intros [H1 H2 H3 H4 H5] Hi Eg. pose proof (filter_delete (Z.eqb (generation_ (reconnectPolicy_ w))) _ i g Hi) as Hf.
  rewrite (proj2 (Z.eqb_neq _ _)) in Hf by done. split; cbn; try done; [| lia].
  rewrite delete_take_drop. apply Forall_app. split; [by apply Forall_take | by apply Forall_drop].
Qed.

Lemma retry_winv n prepared logins w : n < INT32_MAX -> winv n w -> reconnectTimerActive_ w = false ->
  winv (n + 1) (retrySavedConnection prepared logins w).
Proof.
  intros Hn Hw Ht. unfold retrySavedConnection. destruct (_ || _)%bool eqn:Eg; [by apply (winv_le n); [lia |] |].
  apply orb_false_iff in Eg as [Ee _]. set (w1 := signalled _ w). pose proof (retries_view prepared logins (savedConnection_ w1) 1 false w1) as Hv.
  destruct (connectToServerWithRetries _ _ _ _ _ w1) as [w2 ok]. cbn [fst] in Hv.
  assert (winv n w2) as H2 by (eapply winv_view; [symmetry; exact Hv | by apply (winv_view n w)]).
  assert (reconnectTimerActive_ w2 = false /\ explicitDisconnect_ w2 = false) as [Ht2 He2] by (injection Hv; split; congruence).
  destruct ok.
  - eapply (new_generation_winv n _ _ w2); try done; cbn; [pose proof (wi_count n w Hw); lia | by rewrite He2].
  - apply schedule_winv; [done |]. by apply (winv_view n w2).
Qed.

Lemma step_winv n c w : n < INT32_MAX -> winv n w -> winv (n + 1) (worker_step c w).
Proof.
  intros Hn Hw. destruct (passive c) eqn:Ep.
  { apply (winv_le n); [lia |]. eapply winv_view; [| exact Hw].
    pose proof (passive_link c w Ep) as Hl. unfold link_view in Hl. congruence. }
  destruct c; try discriminate Ep; cbn [worker_step].
  - by apply connect_winv.
  - by apply local_host_winv.
  - by apply disconnect_winv.
  - by apply schedule_winv.
  - unfold timer_fires. destruct (timers w !! i) as [g |] eqn:Ei; [| by apply (winv_le n); [lia |]].
    cbn [reconnectPolicy_ field_update]. destruct (Z.eqb_spec g (generation_ (reconnectPolicy_ w))) as [E | Hne]; cbn [negb].
    + apply retry_winv; [done | by eapply fired_winv | done].
    + apply (winv_le n); [lia |]. by eapply stale_winv.
Qed.

Lemma run_winv cs n w : n + len cs <= INT32_MAX -> winv n w -> winv (n + len cs) (run_worker cs w).
Proof.
  revert n w. induction cs as [| c cs IH]; intros n w Hn Hw.
  { unfold len. cbn [length]. by rewrite Z.add_0_r. }
  assert (len (c :: cs) = 1 + len cs) as El by (unfold len; cbn [length]; lia).
  pose proof (len_nonneg cs). rewrite El in *. rewrite Z.add_assoc. cbn [run_worker foldl]. apply IH; [lia |].
  apply step_winv; [lia | done].
Qed.

(** C22: whatever happens to the worker, at most one pending timer is of the
    current generation, there is one exactly when the timer counts as active,
    and every other pending timer is outdated, so that it does nothing when it
    fires: two reconnections never run side by side. *)
Theorem one_live_timer cs :
  len cs <= INT32_MAX ->
  let w := run_worker cs initial_worker in
  let generation := generation_ (reconnectPolicy_ w) in
  length (List.filter (Z.eqb generation) (timers w)) = (if reconnectTimerActive_ w then 1 else 0)%nat /\
  (forall i g prepared logins, timers w !! i = Some g -> g <> generation ->
     timer_fires i prepared logins w = w <| timers ::= delete i |>).
Proof.
  intros Hl w generation. pose proof (run_winv cs 0 initial_worker) as Hw. fold w in Hw.
  specialize (Hw ltac:(lia) initial_winv). split; [apply Hw |].
  intros i g prepared logins Hi Hne. unfold timer_fires. rewrite Hi. cbn [reconnectPolicy_ field_update].
  by rewrite (proj2 (Z.eqb_neq _ _)).
Qed.

(** ** Giving up, and not giving up *)

Definition opens_session (c : worker_call) : bool :=
  match c with WConnect _ _ _ _ _ _ _ _ | WLocalHost _ _ _ _ _ _ _ _ _ => true | _ => false end.

(** Disconnected for good: nothing is attempted any more. *)
Definition at_rest (attempts : list SavedConnection) (w : Worker) : Prop :=
  explicitDisconnect_ w = true /\ connection_ w = None /\ attempts_ w = attempts.

Lemma at_rest_step attempts c w : opens_session c = false -> at_rest attempts w -> at_rest attempts (worker_step c w).
Proof.
  intros Ho (He & Hc & Ha). destruct (passive c) eqn:Ep.
  { pose proof (passive_link c w Ep) as Hl. unfold link_view, policy_view in Hl. unfold at_rest. split_and!; congruence. }
  destruct c; try discriminate Ep; try discriminate Ho; cbn [worker_step].
  - unfold disconnectFromServer, stopReceiveLoop, at_rest. by destruct (running_ _).
  - unfold scheduleReconnect. by rewrite He.
  - unfold timer_fires. destruct (timers w !! i); [| done]. destruct (negb _); [done |].
    unfold retrySavedConnection. cbn [explicitDisconnect_ field_update]. by rewrite He.
Qed.

(** C23: after the user disconnects, the worker opens no connection and keeps none,
    whatever timers are still pending and whatever else happens, until it is
    told to connect again. *)
Theorem no_attempt_after_disconnect cs stop w :
  forallb (fun c => negb (opens_session c)) cs = true ->
  let w' := run_worker cs (disconnectFromServer stop w) in
  connection_ w' = None /\ attempts_ w' = attempts_ w.
Proof.
  intros Hcs. assert (at_rest (attempts_ w) (disconnectFromServer stop w)) as Hr
    by (unfold disconnectFromServer, stopReceiveLoop, at_rest; by destruct (running_ _)).
  cbv zeta. revert Hr. generalize (disconnectFromServer stop w). generalize (attempts_ w). clear w. intros a.
  induction cs as [| c cs IH]; intros w Hr; [by destruct Hr as (_ & ? & ?) |].
  cbn in Hcs. apply andb_true_iff in Hcs as [Hc Hcs]. apply negb_true_iff in Hc.
  cbn [run_worker foldl]. apply IH; [done | by apply at_rest_step].
Qed.


(** a chat message is either handed to the connection, once and with exactly
    the trimmed text, the room and the id the user's row has, or its id is
    reported as undelivered; never both. *)
Theorem chat_sent_or_reported content room messageId sent w :
  messageId <> "" ->
  let w' := sendChatToRoom content room messageId sent w in
  (sent_ w' = (sent_ w ++ [chat_message content room messageId])%list /\ signals w' = signals w) \/
  (sent_ w' = sent_ w /\ exists lost, signals w' = (signals w ++ MessageDeliveryFailed messageId :: lost)%list /\
     (lost = [] \/ exists reason, lost = [ConnectionLost reason])).
Proof.
  intros Hi%is_empty_false. unfold sendChatToRoom, report_undelivered, hand_over. rewrite Hi.
  destruct (_ || _)%bool; [right; cbn; split; [done |]; exists []; auto |].
  destruct sent as [u | reason]; [by left |]. right. cbn. split; [done |]. exists [ConnectionLost reason].
  rewrite <- app_assoc. eauto.
Qed.

(** ** Hosting *)

Lemma retry_loop_hosted k attempt logins target report reason w :
  hosted (retry_loop k attempt logins target report reason w).1 = hosted w.
Proof.
  revert attempt reason w. induction k as [| k IH]; intros attempt reason w; cbn [retry_loop]; [by destruct report |].
  destruct (logins attempt) as [b | r []]; [done | by destruct report |]. by rewrite IH.
Qed.

Lemma retries_hosted prepared logins target n report w :
  hosted (connectToServerWithRetries prepared logins target n report w).1 = hosted w.
Proof. destruct prepared; [apply retry_loop_hosted | by destruct report]. Qed.

Lemma stop_hosted w : hosted (stopReceiveLoop w) = hosted w.
Proof. unfold stopReceiveLoop. by destruct (running_ w). Qed.

Lemma schedule_hosted w : hosted (scheduleReconnect w) = hosted w.
Proof.
  unfold scheduleReconnect. destruct (_ || _)%bool; [done |]. cbv zeta. destruct (scheduleNextAttempt _) as [p d].
  destruct (d <? 0); apply stop_hosted.
Qed.

Lemma retry_saved_hosted p l w : hosted (retrySavedConnection p l w) = hosted w.
Proof.
  unfold retrySavedConnection. destruct (_ || _)%bool; [done |]. cbv zeta. set (w1 := signalled _ w).
  pose proof (retries_hosted p l (savedConnection_ w1) 1 false w1) as Hh.
  destruct (connectToServerWithRetries _ _ _ _ _ _) as [w2 []]; cbn [fst] in Hh; [done |]. by rewrite schedule_hosted.
Qed.

Lemma step_owned c w : owned (hosted w) -> owned (hosted (worker_step c w)).
Proof.
  intros Ho. destruct (passive c) eqn:Ep.
  { pose proof (passive_link c w Ep) as Hl. unfold link_view in Hl. by replace (hosted (worker_step c w)) with (hosted w) by congruence. }
  destruct c; try discriminate Ep; cbn [worker_step].
  - unfold connectToServer. rewrite retries_hosted. cbn. by rewrite stop_hosted.
  - unfold connectToLocalHost. pose proof (proj2 (prepare_view env serverExe certFile keyFile dbFile username userCode w)) as Hh.
    destruct (prepareLocalHost _ _ _ _ _ _ _ w) as [w1 [[target n] |]]; cbn [fst] in Hh; rewrite ?retries_hosted, Hh;
      by apply hostLocally_owned.
  - unfold disconnectFromServer. cbn. rewrite stop_hosted. by apply stop_owned.
  - by rewrite schedule_hosted.
  - unfold timer_fires. destruct (timers w !! i); [| done]. destruct (negb _); [done |]. by rewrite retry_saved_hosted.
Qed.

(** C34: a worker never runs two server processes: whatever happens to it, a
    process is started only when the one before has been stopped and released,
    only the process it owns is terminated or killed, and disconnecting or
    destroying the worker leaves none. *)
Theorem hosted_server_owned cs stop :
  let w := run_worker cs initial_worker in
  owned (hosted w) /\ hostProcess_ (hosted (disconnectFromServer stop w)) = None /\ hostProcess_ (hosted (destroyWorker stop w)) = None.
Proof.
  cbv zeta. split.
  - assert (owned (hosted initial_worker)) as H0 by done. revert H0. generalize initial_worker.
    induction cs as [| c cs IH]; intros w Hw; [done |]. cbn [run_worker foldl]. apply IH. by apply step_owned.
  - split; apply stop_none.
Qed.

(** What the retries of a connection did. *)
Record tried (target : SavedConnection) (most : nat) (logins : nat -> login) (w w' : Worker) : Prop := {
  td_attempts : exists j, (1 <= j <= most)%nat /\ attempts_ w' = attempts_ w ++ repeat target j /\
    (forall i, (i < j - 1)%nat -> exists reason, logins i = Refused reason false) /\
    match logins (j - 1)%nat with
    | LoggedIn isAdmin => connection_ w' = Some true /\ signals w' = signals w ++ [Connected isAdmin]
    | Refused _ _ => connection_ w' = None /\ exists reason, signals w' = signals w ++ [ConnectionFailed reason]
    end;
}.

Lemma retry_loop_tried logins target k : forall attempt reason w,
  let w' := (retry_loop (S k) attempt logins target true reason w).1 in
  exists j, (1 <= j <= S k)%nat /\ attempts_ w' = attempts_ w ++ repeat target j /\
    (forall i, (attempt <= i < attempt + (j - 1))%nat -> exists reason, logins i = Refused reason false) /\
    match logins (attempt + (j - 1))%nat with
    | LoggedIn isAdmin => connection_ w' = Some true /\ signals w' = signals w ++ [Connected isAdmin]
    | Refused _ _ => connection_ w' = None /\ exists reason, signals w' = signals w ++ [ConnectionFailed reason]
    end.
Proof.
  induction k as [| k IH]; intros attempt reason w; cbv zeta.
  { cbn [retry_loop]. exists 1%nat. split; [lia |]. replace (attempt + (1 - 1))%nat with attempt by lia.
    destruct (logins attempt) as [b | r []]; (split; [done |]; split; [intros; lia |]); [done | |]; cbn; eauto. }
  change (retry_loop (S (S k)) attempt logins target true reason w) with
    (let w := w <| attempts_ ::= fun l => l ++ [target] |> in
     match logins attempt with
     | LoggedIn isAdmin => (signalled (Connected isAdmin) (w <| connection_ := Some true |> <| running_ := true |>), true)
     | Refused reason rejected =>
         let w := w <| lastConnectionFailure_ := reason |> <| connection_ := None |> in
         if rejected then
           (signalled (ConnectionFailed (userFacingLoginFailure reason)) (w <| lastConnectionFailure_ := userFacingLoginFailure reason |>), false)
         else retry_loop (S k) (S attempt) logins target true reason w
     end).
  cbv zeta. destruct (logins attempt) as [b | r [|]] eqn:El.
  - exists 1%nat. split; [lia |]. replace (attempt + (1 - 1))%nat with attempt by lia. rewrite El.
    split; [done |]. split; [intros; lia | done].
  - exists 1%nat. split; [lia |]. replace (attempt + (1 - 1))%nat with attempt by lia. rewrite El.
    split; [done |]. split; [intros; lia |]. cbn; eauto.
  - match goal with |- context [retry_loop _ _ _ _ _ r ?x] => destruct (IH (S attempt) r x) as (j & Hj & Ha & Hr & Hl) end.
    exists (S j). split; [lia |]. replace (attempt + (S j - 1))%nat with (S attempt + (j - 1))%nat by lia.
    split; [| split; [| exact Hl]].
    + rewrite Ha. cbn. by rewrite <- app_assoc.
    + intros i Hi. destruct (decide (i = attempt)) as [-> | Hne]; [eauto |]. apply Hr. lia.
Qed.

Lemma retries_tried logins target n w :
  tried target (Z.to_nat (Z.max 1 n)) logins w (connectToServerWithRetries (Ok tt) logins target n true w).1.
Proof.
  cbn [connectToServerWithRetries]. destruct (Z.to_nat (Z.max 1 n)) as [| k] eqn:Ek; [lia |].
  destruct (retry_loop_tried logins target k 0 "" w) as (j & Hj & Ha & Hr & Hl). split. exists j.
  split; [done |]. split; [done |]. split; [| exact Hl]. intros i Hi. apply Hr. lia.
Qed.

(** C35: connecting to a server of one's own tries to log in exactly when a
    server is ready (one that listened already with its certificate in place, or
    the one that was started and came up in time) and the TLS runtime can be
    prepared; it then tries at most eight times, only at 127.0.0.1:8888 with
    that certificate.  Otherwise, when no server is ready or the TLS runtime
    cannot be prepared, it reports one failure, in the second case with the
    runtime's reason, tries nothing and keeps no connection. *)
Theorem local_host_connects env prepared logins serverExe certFile keyFile dbFile username userCode w :
  let resolve := resolvePath env in
  let w' := connectToLocalHost env prepared logins serverExe certFile keyFile dbFile username userCode w in
  let target := local_target (resolve certFile) username userCode in
  let ready := server_ready env (resolve serverExe) (resolve certFile) (resolve keyFile) in
  savedConnection_ w' = target /\
  (ready -> prepared = Ok tt ->
     exists w0, attempts_ w0 = attempts_ w /\ signals w0 = signals w /\ tried target 8 logins w0 w') /\
  (~ ready \/ prepared <> Ok tt ->
     attempts_ w' = attempts_ w /\ connection_ w' = None /\
     exists reason, signals w' = signals w ++ [ConnectionFailed reason] /\ (ready -> prepared = Fail reason)).
Proof.
  cbv zeta. unfold connectToLocalHost. rewrite prepare_result. cbv zeta.
  set (target := local_target (resolvePath env certFile) username userCode). clearbody target.
  destruct (new_session_spec target w) as (Ev & Ec & _ & Ea & Es & _).
  destruct (hostLocally _ _ _ _ _ _ _ _) as [h [n | reason]] eqn:Eh; cbn [fst snd]; set (w1 := _ <| hosted := h |>).
  - assert ((hostLocally env (resolvePath env serverExe) (resolvePath env certFile) (resolvePath env keyFile)
               (resolvePath env dbFile) username userCode (hosted w)).2 = Ok n) as Hok by by rewrite Eh.
    apply hostLocally_ready in Hok as [Hready Hn].
    pose proof (retries_view prepared logins target n true w1) as Hv. split; [exact (eq_trans (f_equal snd Hv) (f_equal snd Ev)) |].
    split.
    + intros _ ->. exists w1. split_and!; [done | done |].
      destruct (retries_tried logins target n w1) as [(j & Hj & Ht)].
      split. exists j. split; [| exact Ht]. unfold kLocalHostRetryAttempts in Hn. lia.
    + intros [Hno | Hp]; [done |]. destruct prepared as [[] | reason]; [done |]. cbn [connectToServerWithRetries fst].
      split_and!; [exact Ea | exact Ec |]. exists reason. split; [cbn; by rewrite <- Es | done].
  - assert (~ server_ready env (resolvePath env serverExe) (resolvePath env certFile) (resolvePath env keyFile)) as Hno.
    { intros Hready. destruct (hostLocally_unready env (resolvePath env serverExe) (resolvePath env certFile)
        (resolvePath env keyFile) (resolvePath env dbFile) username userCode (hosted w) Hready) as [n Hn]. by rewrite Eh in Hn. }
    split; [exact (f_equal snd Ev) |]. split; [done |]. intros _. split; [done |]. split; [done |].
    exists reason. split; [by rewrite <- Es | done].
Qed.

End WorkerProofs.

(** ** Witnesses *)

Definition always (l : login) : nat -> login := fun _ => l.

(** Connected, then lost twice: the second loss comes while a timer is pending,
    the first retry is refused. *)
Definition ex_calls : list worker_call :=
  [WConnect (Ok tt) (always (LoggedIn false)) "10.0.0.2" 8888 "Ann" "A1" "" ""; WReceiveFailed "reset"; WSchedule; WSchedule;
   WTimer 0 (Ok tt) (always (Refused "TCP connect failed" false))].

Lemma one_live_timer_witness :
  length (List.filter (Z.eqb (generation_ (reconnectPolicy_ (run_worker ex_calls initial_worker))))
            (timers (run_worker ex_calls initial_worker))) = 1%nat.
Proof.
  destruct (one_live_timer ex_calls) as [E _].
  - vm_compute. discriminate.
  - etransitivity; [exact E |]. vm_compute. reflexivity.
Defined.

Lemma no_attempt_after_disconnect_witness :
  attempts_ (run_worker [WTimer 0 (Ok tt) (always (LoggedIn false)); WSchedule]
               (disconnectFromServer (mk_stop true true) (run_worker ex_calls initial_worker))) =
  attempts_ (run_worker ex_calls initial_worker) /\
  length (timers (run_worker ex_calls initial_worker)) = 1%nat.
Proof.
  split; [| vm_compute; reflexivity].
  apply (no_attempt_after_disconnect [WTimer 0 (Ok tt) (always (LoggedIn false)); WSchedule]). reflexivity.
Defined.


Lemma chat_sent_or_reported_witness :
  signals (sendChatToRoom " hi " "lobby" "m1" (Ok tt) initial_worker) = [MessageDeliveryFailed "m1"].
Proof.
  destruct (chat_sent_or_reported " hi " "lobby" "m1" (Ok tt) initial_worker) as [[E _] | [_ (lost & E & _)]].
  - discriminate.
  - vm_compute in E. discriminate E.
  - vm_compute. reflexivity.
Defined.
