(* ===== verification/TransferState.v ===== *)
(** * TransferState: the upload state machine

    Models client-cpp/gui/src/attachments/attachment_transfer_state.{hpp,cpp}:
    the class [AttachmentTransferState] with every member function.  The theorems
    are about all states the class can reach from its initial value by any
    sequence of calls. *)

From stdpp Require Import sorting.
From S2P Require Import Prelude Text.

(** ** Data *)

Inductive Status := Idle | Initializing | Uploading | Resuming | Completed | Cancelled | Failed.

#[export] Instance Status_eq_dec : EqDecision Status.
Proof. solve_decision. Defined.

Definition MaxChunkRetries : Z := 3.

Record TransferState := mk_transfer {
  status_ : Status;
  logicalSize_ : Z;
  chunkSize_ : Z;
  attachmentId_ : string;
  uploadId_ : string;
  expiresAt_ : string;
  received_ : gset Z;
  failedAttempts_ : gmap Z Z;
  pendingChunkCommands_ : gmap string Z;
}.

#[export] Instance eta_TransferState : EtaRecord TransferState := fun s =>
  {| status_ := status_ s; logicalSize_ := logicalSize_ s; chunkSize_ := chunkSize_ s;
     attachmentId_ := attachmentId_ s; uploadId_ := uploadId_ s; expiresAt_ := expiresAt_ s;
     received_ := received_ s; failedAttempts_ := failedAttempts_ s;
     pendingChunkCommands_ := pendingChunkCommands_ s |}.

Definition initial_transfer : TransferState :=
  mk_transfer Idle 0 0 "" "" "" ∅ ∅ ∅.

(** ** Operations *)

Definition chunkCount (s : TransferState) : Z :=
  if 0 <? chunkSize_ s
  then Z.quot (wrap64 (wrap64 (logicalSize_ s + chunkSize_ s) - 1)) (chunkSize_ s)
  else 0.

Definition received (s : TransferState) (chunkIndex : Z) : bool :=
  bool_decide (chunkIndex ∈ received_ s).

Definition validIndex (s : TransferState) (chunkIndex : Z) : bool :=
  (0 <=? chunkIndex) && (chunkIndex <? chunkCount s).

Definition receivedCount (s : TransferState) : Z := Z.of_nat (base.size (received_ s)).

Definition missingIndexes (s : TransferState) : list Z :=
  filter (fun index => received s index = false) (seqZ 0 (chunkCount s)).

Definition begin (logicalSize chunkSize : Z) (s : TransferState) : TransferState * bool :=
  if (logicalSize <=? 0) || (chunkSize <=? 0) || bool_decide (status_ s <> Idle) then (s, false)
  else (s <| logicalSize_ := logicalSize |> <| chunkSize_ := chunkSize |>
          <| attachmentId_ := "" |> <| uploadId_ := "" |> <| expiresAt_ := "" |>
          <| received_ := ∅ |> <| failedAttempts_ := ∅ |> <| pendingChunkCommands_ := ∅ |>
          <| status_ := Initializing |>, true).

Definition acceptInit (attachmentId uploadId : string) (chunkSize : Z) (expiresAt : string)
    (s : TransferState) : TransferState * bool :=
  if bool_decide (status_ s <> Initializing) || is_empty attachmentId || is_empty uploadId
     || is_empty expiresAt || negb (chunkSize =? chunkSize_ s)
  then (s, false)
  else (s <| attachmentId_ := attachmentId |> <| uploadId_ := uploadId |>
          <| expiresAt_ := expiresAt |> <| status_ := Uploading |>, true).

(** The loop of [acceptResume] over the received indexes. *)
Fixpoint validate_indexes (s : TransferState) (validated : gset Z) (indexes : list Z)
    : option (gset Z) :=
  match indexes with
  | [] => Some validated
  | index :: rest =>
      if negb (validIndex s index) then None
      else validate_indexes s ({[ index ]} ∪ validated) rest
  end.

Definition acceptResume (receivedIndexes : list Z) (s : TransferState) : TransferState * bool :=
  if bool_decide (status_ s <> Uploading) && bool_decide (status_ s <> Resuming) then (s, false)
  else match validate_indexes s ∅ receivedIndexes with
       | None => (s, false)
       | Some validated =>
           let s1 := s <| received_ := validated |> <| failedAttempts_ := ∅ |>
                       <| pendingChunkCommands_ := ∅ |> in
           (s1 <| status_ := if receivedCount s1 =? chunkCount s1 then Completed else Uploading |>,
            true)
       end.

Definition acceptChunkAck (chunkIndex : Z) (s : TransferState) : TransferState * bool :=
  if bool_decide (status_ s <> Uploading) || negb (validIndex s chunkIndex) then (s, false)
  else
    let s1 := s <| received_ ::= union {[ chunkIndex ]} |>
                <| failedAttempts_ ::= delete chunkIndex |> in
    (if receivedCount s1 =? chunkCount s1 then s1 <| status_ := Completed |> else s1, true).

Definition registerChunkCommand (commandId : string) (chunkIndex : Z) (s : TransferState)
    : TransferState * bool :=
  if bool_decide (status_ s <> Uploading) || is_empty commandId || negb (validIndex s chunkIndex)
     || received s chunkIndex
  then (s, false)
  else match pendingChunkCommands_ s !! commandId with
       | Some _ => (s, false)
       | None => (s <| pendingChunkCommands_ ::= insert commandId chunkIndex |>, true)
       end.

(** The overload of [acceptChunkAck] that answers a registered command. *)
Definition acceptCommandAck (commandId : string) (chunkIndex : Z) (s : TransferState)
    : TransferState * bool :=
  match pendingChunkCommands_ s !! commandId with
  | None => (s, false)
  | Some registered =>
      if negb (registered =? chunkIndex) then (s, false)
      else acceptChunkAck chunkIndex (s <| pendingChunkCommands_ ::= delete commandId |>)
  end.

Definition recordChunkFailure (chunkIndex : Z) (s : TransferState) : TransferState * bool :=
  if bool_decide (status_ s <> Uploading) || negb (validIndex s chunkIndex) || received s chunkIndex
  then (s, false)
  else
    let attempts := default 0 (failedAttempts_ s !! chunkIndex) + 1 in
    let s1 := s <| failedAttempts_ ::= insert chunkIndex attempts |> in
    (if MaxChunkRetries <? attempts then s1 <| status_ := Failed |> else s1,
     attempts <=? MaxChunkRetries).

Definition cancel (s : TransferState) : TransferState :=
  match status_ s with
  | Initializing | Uploading | Resuming => s <| status_ := Cancelled |>
  | _ => s
  end.

Definition fail (s : TransferState) : TransferState :=
  match status_ s with
  | Completed | Cancelled => s
  | _ => s <| status_ := Failed |>
  end.

(** Every member function that changes the state. *)
Inductive transfer_call :=
  | CBegin (logicalSize chunkSize : Z)
  | CInit (attachmentId uploadId : string) (chunkSize : Z) (expiresAt : string)
  | CResume (receivedIndexes : list Z)
  | CAck (chunkIndex : Z)
  | CRegister (commandId : string) (chunkIndex : Z)
  | CCommandAck (commandId : string) (chunkIndex : Z)
  | CFailure (chunkIndex : Z)
  | CCancel
  | CFail.

Definition transfer_step (c : transfer_call) (s : TransferState) : TransferState * bool :=
  match c with
  | CBegin l k => begin l k s
  | CInit a u k e => acceptInit a u k e s
  | CResume l => acceptResume l s
  | CAck i => acceptChunkAck i s
  | CRegister c i => registerChunkCommand c i s
  | CCommandAck c i => acceptCommandAck c i s
  | CFailure i => recordChunkFailure i s
  | CCancel => (cancel s, true)
  | CFail => (fail s, true)
  end.

(** [begin] is called with sizes whose sum is an [int64_t]; the reader and the
    attachment limits keep every file far below. *)
Definition call_ok (c : transfer_call) : Prop :=
  match c with CBegin l k => 0 < l -> 0 < k -> l + k <= INT64_MAX | _ => True end.

Inductive transfer_reachable : TransferState -> Prop :=
  | reach_initial : transfer_reachable initial_transfer
  | reach_step s c : transfer_reachable s -> call_ok c -> transfer_reachable (transfer_step c s).1.

(** ** The chunk count *)

Definition sizes_ok (s : TransferState) : Prop :=
  0 < logicalSize_ s /\ 0 < chunkSize_ s /\ logicalSize_ s + chunkSize_ s <= INT64_MAX.

Definition chunks (s : TransferState) : Z := ceil_div (logicalSize_ s) (chunkSize_ s).

Lemma chunkCount_ok s : sizes_ok s -> chunkCount s = chunks s.
Proof.
  intros (Hl & Hc & Hm). unfold chunkCount, chunks, ceil_div.
  rewrite (proj2 (Z.ltb_lt _ _) Hc).
  rewrite !wrap64_id, Z.quot_div_nonneg; try reflexivity; try lia.
  - unfold in_int64. lia.
  - rewrite wrap64_id; unfold in_int64; lia.
Qed.

(** ** The invariant *)

Definition in_range (s : TransferState) (i : Z) : Prop := 0 <= i < chunks s.

Record transfer_inv (s : TransferState) : Prop := mk_transfer_inv {
  ti_idle : status_ s = Idle -> s = initial_transfer;
  ti_sizes : (s = initial_transfer <| status_ := Failed |> \/ status_ s = Idle) \/ sizes_ok s;
  ti_resuming : status_ s <> Resuming;
  ti_received : forall i, i ∈ received_ s -> in_range s i;
  ti_pending : map_Forall (fun _ i => in_range s i) (pendingChunkCommands_ s);
  ti_attempts : map_Forall (fun i n => in_range s i /\ (i ∉ received_ s) /\ 1 <= n <= MaxChunkRetries + 1 /\
                                       (status_ s = Uploading -> n <= MaxChunkRetries))
                           (failedAttempts_ s);
  ti_ids : status_ s = Uploading \/ status_ s = Completed ->
           attachmentId_ s <> "" /\ uploadId_ s <> "" /\ expiresAt_ s <> "";
  ti_init : status_ s = Initializing ->
            received_ s = ∅ /\ failedAttempts_ s = ∅ /\ pendingChunkCommands_ s = ∅;
  ti_open : status_ s = Uploading -> receivedCount s < chunks s;
  ti_done : status_ s = Completed -> receivedCount s = chunks s;
}.

Lemma chunkCount_inv s : transfer_inv s -> chunkCount s = chunks s.
Proof.
  intros [Hi [[-> | Hs] | Hs] _ _ _ _ _ _ _ _]; [done | by rewrite Hi | by apply chunkCount_ok].
Qed.

Lemma validIndex_inv s i : transfer_inv s -> validIndex s i = true <-> in_range s i.
Proof.
  intros Hi. unfold validIndex, in_range. rewrite (chunkCount_inv s Hi), andb_true_iff, Z.leb_le, Z.ltb_lt.
  done.
Qed.

(** The set of all chunk indexes. *)
Definition all_chunks (s : TransferState) : gset Z := list_to_set (seqZ 0 (chunks s)).

Lemma elem_of_all_chunks s i : i ∈ all_chunks s <-> in_range s i.
Proof. unfold all_chunks, in_range. rewrite elem_of_list_to_set, elem_of_seqZ. lia. Qed.

Lemma size_all_chunks s : Z.of_nat (base.size (all_chunks s)) = Z.max 0 (chunks s).
Proof.
  unfold all_chunks. rewrite size_list_to_set by apply NoDup_seqZ. rewrite length_seqZ. lia.
Qed.

Lemma receivedCount_le s :
  (forall i, i ∈ received_ s -> in_range s i) -> receivedCount s <= Z.max 0 (chunks s).
Proof.
  intros Hr. rewrite <- size_all_chunks. unfold receivedCount. apply inj_le, subseteq_size.
  intros i Hi. by apply elem_of_all_chunks, Hr.
Qed.

Lemma receivedCount_full s :
  0 <= chunks s -> (forall i, i ∈ received_ s -> in_range s i) ->
  receivedCount s = chunks s <-> received_ s = all_chunks s.
Proof.
  intros Hc Hr. pose proof (size_all_chunks s) as E. split.
  - intros Hs. apply set_subseteq_size_eq.
    + intros i Hi. by apply elem_of_all_chunks, Hr.
    + unfold receivedCount in Hs. lia.
  - intros Hs. unfold receivedCount. rewrite Hs. lia.
Qed.

Lemma sizes_chunks_pos s : sizes_ok s -> 0 < chunks s.
Proof. intros (?&?&?). by apply ceil_div_pos. Qed.

Lemma inv_sizes_active s : transfer_inv s -> status_ s <> Idle -> status_ s <> Failed -> sizes_ok s.
Proof. intros Hi H1 H2. destruct (ti_sizes s Hi) as [[-> | ?] | ?]; done. Qed.

(** ** Preservation, one lemma per operation *)

(** Split the invariant of an updated state and close the fields that the
    operation leaves as they were. *)
Ltac inv_fields :=
  split; cbn; unfold in_range, chunks, sizes_ok, receivedCount in *; cbn;
  try solve [ done | apply map_Forall_empty | intros; congruence | intros [?|?]; congruence | auto ].

Lemma inv_initial : transfer_inv initial_transfer.
Proof. inv_fields. Qed.

Lemma inv_begin l k s : transfer_inv s -> (0 < l -> 0 < k -> l + k <= INT64_MAX) ->
  transfer_inv (begin l k s).1.
Proof.
  intros Hi Hm. unfold begin. break_goal; bool_hyps; [done |].
  inv_fields.
Qed.

Lemma inv_acceptInit a u k e s : transfer_inv s -> transfer_inv (acceptInit a u k e s).1.
Proof.
  intros Hi. unfold acceptInit. break_goal; bool_hyps; [done |].
  apply dec_stable in H.
  pose proof (inv_sizes_active s Hi ltac:(congruence) ltac:(congruence)) as Hs.
  pose proof (sizes_chunks_pos s Hs) as Hp.
  destruct (ti_init s Hi H) as (Hr & Hf & _).
  destruct Hi. inv_fields; rewrite ?Hr, ?Hf; [apply map_Forall_empty | | ].
  - intros _. split_and!; by apply is_empty_false.
  - intros _. by rewrite size_empty.
Qed.

Lemma validate_indexes_spec s indexes v w :
  validate_indexes s v indexes = Some w ->
  Forall (fun i => validIndex s i = true) indexes /\ w = list_to_set indexes ∪ v.
Proof.
  revert v. induction indexes as [| i rest IH]; simpl; intros v E.
  - injection E as <-. split; [constructor | set_solver].
  - destruct (validIndex s i) eqn:Ei; [| discriminate].
    apply IH in E as [Hf ->]. split; [by constructor | set_solver].
Qed.

Lemma inv_acceptResume l s : transfer_inv s -> transfer_inv (acceptResume l s).1.
Proof.
  intros Hi. unfold acceptResume.
  destruct (bool_decide _ && bool_decide _)%bool eqn:Est; [done |].
  destruct (validate_indexes s ∅ l) as [v |] eqn:Ev; [| done].
  assert (status_ s = Uploading) as Hu.
  { pose proof (ti_resuming s Hi). bool_hyps. destruct Est; bool_hyps; by apply dec_stable. }
  pose proof (inv_sizes_active s Hi ltac:(congruence) ltac:(congruence)) as Hs.
  apply validate_indexes_spec in Ev as [Hf ->].
  set (s1 := s <| received_ := _ |> <| failedAttempts_ := _ |> <| pendingChunkCommands_ := _ |>).
  assert (forall i, i ∈ received_ s1 -> in_range s1 i) as Hr.
  { intros i Hin. cbn in Hin. apply elem_of_union in Hin as [Hin | Hin]; [| set_solver].
    apply elem_of_list_to_set in Hin. rewrite Forall_forall in Hf.
    by apply (validIndex_inv s i Hi), Hf. }
  assert (chunkCount s1 = chunks s1) as Ec by (by apply (chunkCount_ok s1)).
  pose proof (receivedCount_le s1 Hr) as Hle. pose proof (sizes_chunks_pos s Hs) as Hp.
  pose proof (ti_ids s Hi (or_introl Hu)).
  rewrite Ec. destruct (receivedCount s1 =? chunks s1) eqn:E; bool_hyps.
  all: unfold in_range, chunks, receivedCount in *; cbn in *; inv_fields; lia.
Qed.

Lemma inv_acceptChunkAck i s : transfer_inv s -> transfer_inv (acceptChunkAck i s).1.
Proof.
  intros Hi. unfold acceptChunkAck.
  destruct (bool_decide _ || _)%bool eqn:Eg; [done |]. bool_hyps.
  apply dec_stable in H. apply validIndex_inv in H0; [| done].
  pose proof (inv_sizes_active s Hi ltac:(congruence) ltac:(congruence)) as Hs.
  set (s1 := s <| received_ ::= _ |> <| failedAttempts_ ::= _ |>).
  assert (chunkCount s1 = chunks s1) as Ec by (by apply (chunkCount_ok s1)).
  assert (forall j, j ∈ received_ s1 -> in_range s1 j) as Hr.
  { intros j Hj. cbn in Hj. apply elem_of_union in Hj as [Hj | Hj].
    - by apply elem_of_singleton in Hj as ->.
    - by apply (ti_received s Hi). }
  pose proof (receivedCount_le s1 Hr) as Hle. pose proof (sizes_chunks_pos s Hs) as Hp.
  assert (map_Forall (fun j n => in_range s j /\ (j ∉ received_ s1) /\
            1 <= n <= MaxChunkRetries) (failedAttempts_ s1)) as Ha.
  { intros j n Hj. cbn in Hj. apply lookup_delete_Some in Hj as [Hne Hj].
    apply (ti_attempts s Hi) in Hj as (?&?&?&?). cbn. set_solver. }
  pose proof (ti_ids s Hi (or_introl H)) as Hids. pose proof (ti_pending s Hi) as Hpend.
  rewrite Ec. destruct (receivedCount s1 =? chunks s1) eqn:E; bool_hyps.
  all: unfold in_range, chunks, receivedCount in *; cbn in *; inv_fields.
  all: try lia.
  all: intros j n Hj; destruct (Ha j n Hj) as (?&?&?); split_and!; try done; lia.
Qed.

Lemma inv_pending s p : transfer_inv s -> map_Forall (fun _ i => in_range s i) p ->
  (status_ s = Initializing -> p = ∅) ->
  status_ s <> Idle -> sizes_ok s -> transfer_inv (s <| pendingChunkCommands_ := p |>).
Proof.
  intros Hi Hp He Hne Hs. destruct Hi. inv_fields.
  intros Est. destruct (ti_init0 Est) as (?&?&_). auto.
Qed.

Lemma inv_registerChunkCommand c i s : transfer_inv s -> transfer_inv (registerChunkCommand c i s).1.
Proof.
  intros Hi. unfold registerChunkCommand.
  destruct (bool_decide _ || _ || _ || _)%bool eqn:Eg; [done |]. bool_hyps.
  apply dec_stable in H. apply validIndex_inv in H1; [| done].
  pose proof (inv_sizes_active s Hi ltac:(congruence) ltac:(congruence)) as Hs.
  destruct (_ !! c) eqn:E; [done |]. cbn.
  apply (inv_pending s (insert c i (pendingChunkCommands_ s))); try congruence.
  apply map_Forall_insert_2; [done | by apply (ti_pending s Hi)].
Qed.

Lemma inv_forget_command c s r : transfer_inv s -> pendingChunkCommands_ s !! c = Some r ->
  transfer_inv (s <| pendingChunkCommands_ ::= delete c |>).
Proof.
  intros Hi E. apply (inv_pending s (delete c (pendingChunkCommands_ s))); try done.
  - apply map_Forall_delete, (ti_pending s Hi).
  - intros H. destruct (ti_init s Hi H) as (_ & _ & Hp). by rewrite Hp in E.
  - intros H. by rewrite (ti_idle s Hi H) in E.
  - destruct (ti_sizes s Hi) as [[-> | H] | ?]; try done. by rewrite (ti_idle s Hi H) in E.
Qed.

Lemma inv_acceptCommandAck c i s : transfer_inv s -> transfer_inv (acceptCommandAck c i s).1.
Proof.
  intros Hi. unfold acceptCommandAck. destruct (_ !! c) as [r |] eqn:E; [| done].
  destruct (r =? i); [| done]. by eapply inv_acceptChunkAck, inv_forget_command.
Qed.

Lemma inv_recordChunkFailure i s : transfer_inv s -> transfer_inv (recordChunkFailure i s).1.
Proof.
  intros Hi. unfold recordChunkFailure.
  destruct (bool_decide _ || _ || _)%bool eqn:Eg; [done |]. bool_hyps.
  apply dec_stable in H. apply validIndex_inv in H1; [| done].
  unfold received in H0. bool_hyps.
  pose proof (inv_sizes_active s Hi ltac:(congruence) ltac:(congruence)) as Hs.
  set (a := default 0 (failedAttempts_ s !! i) + 1).
  assert (1 <= a <= MaxChunkRetries + 1) as Ha.
  { subst a. destruct (failedAttempts_ s !! i) as [n |] eqn:E; simpl; [| unfold MaxChunkRetries; lia].
    apply (ti_attempts s Hi) in E as (_&_&?&?). specialize (H3 H). lia. }
  cbn [fst]. destruct (MaxChunkRetries <? a) eqn:Ea; bool_hyps; destruct Hi; inv_fields.
  all: apply map_Forall_insert_2; [split_and!; try done; lia |].
  all: intros j n Hj; destruct (ti_attempts0 j n Hj) as (?&?&?&?); split_and!; try done; lia.
Qed.

Lemma inv_cancel s : transfer_inv s -> transfer_inv (cancel s).
Proof.
  intros Hi. unfold cancel. destruct (status_ s) eqn:E; try done.
  all: pose proof (inv_sizes_active s Hi ltac:(congruence) ltac:(congruence)) as Hs.
  all: destruct Hi; inv_fields.
  all: intros j n Hj; destruct (ti_attempts0 j n Hj) as (?&?&?&?); split_and!; try done; lia.
Qed.

Lemma inv_fail s : transfer_inv s -> transfer_inv (fail s).
Proof.
  intros Hi. unfold fail.
  assert (status_ s = Idle \/ status_ s = Completed \/ status_ s = Cancelled \/
          (s = initial_transfer <| status_ := Failed |>) \/ sizes_ok s) as Hc.
  { destruct (ti_sizes s Hi) as [[?|?]|?]; auto. }
  destruct Hc as [E | [E | [E | [-> | Hs]]]]; rewrite ?E; try done.
  - rewrite (ti_idle s Hi E). inv_fields.
  - destruct (status_ s) eqn:E; try done; destruct Hi; inv_fields.
    all: intros j n Hj; destruct (ti_attempts0 j n Hj) as (?&?&?&?); split_and!; try done; lia.
Qed.

Lemma transfer_step_inv c s : call_ok c -> transfer_inv s -> transfer_inv (transfer_step c s).1.
Proof.
  destruct c; simpl; intros Hc Hi;
    eauto using inv_begin, inv_acceptInit, inv_acceptResume, inv_acceptChunkAck,
      inv_registerChunkCommand, inv_acceptCommandAck, inv_recordChunkFailure, inv_cancel, inv_fail.
Qed.

Lemma reachable_inv s : transfer_reachable s -> transfer_inv s.
Proof. induction 1; eauto using inv_initial, transfer_step_inv. Qed.

(** ** Completion *)

Lemma in_range_bytes s i : sizes_ok s -> in_range s i <-> 0 <= i /\ i * chunkSize_ s < logicalSize_ s.
Proof. intros (Hl & Hc & _). unfold in_range, chunks. rewrite ceil_div_lt_iff by done. done. Qed.

Lemma received_full s : transfer_inv s -> sizes_ok s ->
  receivedCount s = chunks s <-> forall i, in_range s i -> i ∈ received_ s.
Proof.
  intros Hi Hs. pose proof (sizes_chunks_pos s Hs).
  rewrite receivedCount_full by first [exact (ti_received s Hi) | lia]. split.
  - intros -> i Hr. by apply elem_of_all_chunks.
  - intros Hall. apply set_eq. intros i. rewrite elem_of_all_chunks.
    split; [apply (ti_received s Hi) | apply Hall].
Qed.

(** C20: an upload in progress is reported complete exactly when every chunk that
    holds a byte of the file has been acknowledged. *)
Theorem completed_iff_every_byte_received s :
  transfer_reachable s -> status_ s = Uploading \/ status_ s = Completed ->
  (status_ s = Completed <->
   forall i, 0 <= i -> i * chunkSize_ s < logicalSize_ s -> i ∈ received_ s).
Proof.
  intros Hr Hst. apply reachable_inv in Hr as Hi.
  assert (sizes_ok s) as Hs by (apply inv_sizes_active; [done | destruct Hst; congruence ..]).
  transitivity (receivedCount s = chunks s).
  - split; [apply (ti_done s Hi) |]. intros E. destruct Hst as [Hu | ?]; [| done].
    pose proof (ti_open s Hi Hu). lia.
  - rewrite (received_full s Hi Hs). setoid_rewrite (in_range_bytes s _ Hs). naive_solver.
Qed.

Lemma elem_of_missingIndexes s i : transfer_inv s ->
  i ∈ missingIndexes s <-> in_range s i /\ i ∉ received_ s.
Proof.
  intros Hi. unfold missingIndexes, received, in_range.
  rewrite list_elem_of_filter, elem_of_seqZ, (chunkCount_inv s Hi), bool_decide_eq_false.
  intuition lia.
Qed.

Lemma seqZ_sorted m n : StronglySorted Z.lt (seqZ m n).
Proof.
  destruct (Z.le_gt_cases n 0) as [Hn | Hn]; [rewrite seqZ_nil by done; constructor |].
  revert m. pattern n. apply (Z_lt_induction); [| lia].
  clear n Hn. intros n IH m. destruct (Z.le_gt_cases n 0) as [Hn | Hn].
  - rewrite seqZ_nil by done; constructor.
  - rewrite seqZ_cons by done. constructor; [apply IH; lia |].
    apply Forall_forall. intros x Hx. apply elem_of_seqZ in Hx. lia.
Qed.

Lemma filter_sorted (P : Z -> Prop) `{forall x, Decision (P x)} l :
  StronglySorted Z.lt l -> StronglySorted Z.lt (filter P l).
Proof.
  induction 1 as [| x l Hs IH Hf]; [constructor |]. rewrite filter_cons. destruct (decide (P x)); [| done].
  constructor; [done |]. rewrite Forall_forall in Hf |- *.
  intros y Hy. apply list_elem_of_filter in Hy as [_ Hy]. by apply Hf.
Qed.

(** the indexes asked for again are exactly the chunks of the file that have
    not been acknowledged, in ascending order without repetition. *)
Theorem missingIndexes_spec s :
  transfer_reachable s -> sizes_ok s ->
  StronglySorted Z.lt (missingIndexes s) /\
  forall i, i ∈ missingIndexes s <->
            0 <= i /\ i * chunkSize_ s < logicalSize_ s /\ i ∉ received_ s.
Proof.
  intros Hr Hs. apply reachable_inv in Hr as Hi. split.
  - apply filter_sorted, seqZ_sorted.
  - intros i. rewrite (elem_of_missingIndexes s i Hi), (in_range_bytes s i Hs). tauto.
Qed.

(** ** Progress *)

(** Acknowledge the chunks of a list one after the other. *)
Fixpoint ack_all (indexes : list Z) (s : TransferState) : TransferState * bool :=
  match indexes with
  | [] => (s, true)
  | i :: rest =>
      let '(s1, ok) := acceptChunkAck i s in
      let '(s2, oks) := ack_all rest s1 in (s2, ok && oks)
  end.

(** What one acknowledgement of a missing chunk does. *)
Lemma acceptChunkAck_missing s i :
  transfer_inv s -> status_ s = Uploading -> in_range s i -> i ∉ received_ s ->
  exists s', acceptChunkAck i s = (s', true) /\ received_ s' = {[ i ]} ∪ received_ s /\
    logicalSize_ s' = logicalSize_ s /\ chunkSize_ s' = chunkSize_ s /\
    status_ s' = (if receivedCount s + 1 =? chunks s then Completed else Uploading).
Proof.
  intros Hi Hu Hr Hn. unfold acceptChunkAck.
  rewrite bool_decide_eq_false_2, (proj2 (validIndex_inv s i Hi) Hr) by naive_solver. simpl.
  set (s1 := mk_transfer _ _ _ _ _ _ _ _ _).
  assert (chunkCount s1 = chunks s) as ->.
  { apply (chunkCount_ok s1), (inv_sizes_active s Hi); congruence. }
  assert (receivedCount s1 = receivedCount s + 1) as ->.
  { unfold receivedCount. cbn. rewrite size_union by set_solver. rewrite size_singleton. lia. }
  destruct (_ =? _); eexists; split_and!; try reflexivity. done.
Qed.

Lemma ack_all_completes l s :
  transfer_inv s -> status_ s = Uploading -> NoDup l -> l <> [] ->
  (forall i, i ∈ l <-> in_range s i /\ i ∉ received_ s) ->
  exists s', ack_all l s = (s', true) /\ status_ s' = Completed.
Proof.
  revert s. induction l as [| i rest IH]; intros s Hi Hu Hd Hne Hl; [done |].
  apply NoDup_cons in Hd as [Hnin Hd].
  destruct (proj1 (Hl i)) as [Hr Hn]; [left |].
  destruct (acceptChunkAck_missing s i Hi Hu Hr Hn) as (s1 & E & Er & El & Ec & Es).
  assert (transfer_inv s1) as Hi1.
  { pose proof (inv_acceptChunkAck i s Hi) as X. by rewrite E in X. }
  assert (forall j, j ∈ rest <-> in_range s1 j /\ j ∉ received_ s1) as Hl1.
  { intros j. unfold in_range, chunks in *. rewrite Er, El, Ec. specialize (Hl j). set_solver. }
  simpl. rewrite E. destruct rest as [| k rest].
  - exists s1. split; [done |]. destruct (_ =? _) eqn:Eq in Es; [done |].
    pose proof (ti_open s1 Hi1 Es) as Hop.
    assert (receivedCount s1 = chunks s1); [| lia].
    apply received_full; [done | apply inv_sizes_active; congruence |].
    intros j Hj. destruct (decide (j ∈ received_ s1)); [done |].
    by destruct (not_elem_of_nil j); apply Hl1.
  - assert (status_ s1 = Uploading) as Hu1.
    { destruct (_ =? _) eqn:Eq in Es; [| done]. pose proof (ti_done s1 Hi1 Es) as Hd1.
      rewrite received_full in Hd1 by (done || apply inv_sizes_active; congruence).
      destruct (proj1 (Hl1 k)) as [Hk Hnk]; [left | by destruct Hnk; apply Hd1]. }
    destruct (IH s1 Hi1 Hu1 Hd) as (s2 & E2 & Es2); [done | done |].
    exists s2. by rewrite E2.
Qed.

(** acknowledging the missing chunks in any order is accepted call by call
    and completes the upload. *)
Theorem acking_missing_completes s l :
  transfer_reachable s -> status_ s = Uploading -> l ≡ₚ missingIndexes s ->
  exists s', ack_all l s = (s', true) /\ status_ s' = Completed.
Proof.
  intros Hr Hu Hp. apply reachable_inv in Hr as Hi.
  assert (forall i, i ∈ l <-> in_range s i /\ i ∉ received_ s) as Hl
    by (intros i; rewrite Hp; by apply elem_of_missingIndexes).
  apply ack_all_completes; try done.
  - rewrite Hp. apply NoDup_filter, NoDup_seqZ.
  - intros ->. pose proof (ti_open s Hi Hu) as Ho.
    assert (receivedCount s = chunks s); [| lia].
    apply received_full; [done | apply inv_sizes_active; congruence |].
    intros i Hin. destruct (decide (i ∈ received_ s)); [done |].
    by destruct (not_elem_of_nil i); apply Hl.
Qed.

(** ** Sequences of calls *)

Definition run_calls (cs : list transfer_call) (s : TransferState) : TransferState :=
  foldl (fun s c => (transfer_step c s).1) s cs.

Lemma run_calls_reachable cs s :
  transfer_reachable s -> Forall call_ok cs -> transfer_reachable (run_calls cs s).
Proof.
  intros Hs Hc. revert s Hs. induction Hc as [| c cs Hc _ IH]; intros s Hs; [done |].
  apply IH. by constructor.
Qed.

Definition terminal (s : TransferState) : Prop :=
  status_ s = Completed \/ status_ s = Cancelled \/ status_ s = Failed.

Lemma terminal_step c s : terminal s ->
  let s' := (transfer_step c s).1 in
  status_ s' = status_ s /\ received_ s' = received_ s /\ uploadId_ s' = uploadId_ s.
Proof.
  intros Ht. assert (status_ s <> Idle /\ status_ s <> Initializing /\ status_ s <> Uploading /\
    status_ s <> Resuming) as (H1 & H2 & H3 & H4) by (destruct Ht as [E | [E | E]]; rewrite E; done).
  destruct c; simpl;
    unfold begin, acceptInit, acceptResume, registerChunkCommand, acceptCommandAck, acceptChunkAck,
      recordChunkFailure, cancel, fail; cbn;
    rewrite ?(bool_decide_eq_true_2 (status_ s <> _)), ?orb_true_r by done; cbn; try done.
  - by destruct (_ !! commandId); [destruct (negb _) |].
  - destruct Ht as [E | [E | E]]; by rewrite E.
  - destruct Ht as [E | [E | E]]; by rewrite E.
Qed.

(** a completed, cancelled or failed transfer stays so, and keeps its
    acknowledged chunks, whatever is called afterwards. *)
Theorem terminal_is_final cs s :
  terminal s ->
  status_ (run_calls cs s) = status_ s /\ received_ (run_calls cs s) = received_ s.
Proof.
  revert s. induction cs as [| c cs IH]; intros s Ht; [done |].
  destruct (terminal_step c s Ht) as (Es & Er & _). simpl.
  destruct (IH (transfer_step c s).1) as [E1 E2]; [unfold terminal; by rewrite Es |].
  by rewrite E1, E2.
Qed.

(** ** Retries *)

Definition fail_once (i : Z) (s : TransferState) : TransferState := (recordChunkFailure i s).1.

Lemma recordChunkFailure_missing s i n :
  transfer_inv s -> status_ s = Uploading -> in_range s i -> i ∉ received_ s ->
  default 0 (failedAttempts_ s !! i) = n ->
  recordChunkFailure i s =
    ((s <| failedAttempts_ ::= insert i (n + 1) |>)
       <| status_ := if MaxChunkRetries <? n + 1 then Failed else Uploading |>,
     n + 1 <=? MaxChunkRetries).
Proof.
  intros Hi Hu Hr Hn En. unfold recordChunkFailure, received.
  rewrite bool_decide_eq_false_2, (proj2 (validIndex_inv s i Hi) Hr), bool_decide_eq_false_2, En
    by naive_solver.
  cbn. destruct (_ <? _); [done |]. by rewrite Hu.
Qed.

Lemma failures_count k s i n :
  transfer_inv s -> status_ s = Uploading -> in_range s i -> i ∉ received_ s ->
  default 0 (failedAttempts_ s !! i) = n -> n + Z.of_nat k <= MaxChunkRetries ->
  let s' := Nat.iter k (fail_once i) s in
  transfer_inv s' /\ status_ s' = Uploading /\ in_range s' i /\ (i ∉ received_ s') /\
  default 0 (failedAttempts_ s' !! i) = n + Z.of_nat k.
Proof.
  intros Hi Hu Hr Hn En. induction k as [| k IH]; intros Hk; [rewrite Z.add_0_r; done |].
  destruct IH as (Hi' & Hu' & Hr' & Hn' & En'); [lia |].
  rewrite Nat.iter_succ. set (s' := Nat.iter k _ s) in *. clearbody s'. unfold fail_once. split_and!.
  - by apply inv_recordChunkFailure.
  - rewrite (recordChunkFailure_missing s' i _ Hi' Hu' Hr' Hn' En'). cbn.
    destruct (_ <? _) eqn:E; bool_hyps; [lia | done].
  - rewrite (recordChunkFailure_missing s' i _ Hi' Hu' Hr' Hn' En'). done.
  - rewrite (recordChunkFailure_missing s' i _ Hi' Hu' Hr' Hn' En'). done.
  - rewrite (recordChunkFailure_missing s' i _ Hi' Hu' Hr' Hn' En'). cbn.
    rewrite lookup_insert_eq. cbn. lia.
Qed.

(** a chunk may fail [MaxChunkRetries] times and be sent again; the next
    failure fails the transfer and reports that no retry is left. *)
Theorem retry_budget s i k :
  transfer_reachable s -> status_ s = Uploading -> validIndex s i = true ->
  received s i = false -> failedAttempts_ s !! i = None ->
  let s' := Nat.iter k (fail_once i) s in
  status_ s' = (if (k <=? 3)%nat then Uploading else Failed) /\
  (k = 3%nat -> (recordChunkFailure i s').2 = false) /\
  ((k < 3)%nat -> (recordChunkFailure i s').2 = true).
Proof.
  intros Hr Hu Hv Hn Ef. apply reachable_inv in Hr as Hi. apply validIndex_inv in Hv; [| done].
  unfold received in Hn. bool_hyps. assert (default 0 (failedAttempts_ s !! i) = 0) as En by by rewrite Ef.
  assert (Hcnt := fun k => failures_count k s i 0 Hi Hu Hv Hn En). cbv zeta in *.
  assert (status_ (Nat.iter 4 (fail_once i) s) = Failed) as H4.
  { destruct (Hcnt 3%nat) as (Hi3 & Hu3 & Hr3 & Hn3 & En3); [unfold MaxChunkRetries; lia |].
    rewrite Nat.iter_succ. unfold fail_once at 1.
    by rewrite (recordChunkFailure_missing _ i _ Hi3 Hu3 Hr3 Hn3 En3). }
  split_and!.
  - destruct (Nat.leb_spec k 3) as [Hk | Hk].
    + apply Hcnt. unfold MaxChunkRetries. lia.
    + replace k with (k - 4 + 4)%nat by lia. rewrite Nat.iter_add.
      generalize dependent (Nat.iter 4 (fail_once i) s). intros s4 H4.
      induction (k - 4)%nat as [| m IH]; [done |]. rewrite Nat.iter_succ, <- IH.
      apply (terminal_step (CFailure i)). right. right. done.
  - intros ->. destruct (Hcnt 3%nat) as (Hi3 & Hu3 & Hr3 & Hn3 & En3); [unfold MaxChunkRetries; lia |].
    by rewrite (recordChunkFailure_missing _ i _ Hi3 Hu3 Hr3 Hn3 En3).
  - intros Hk. destruct (Hcnt k) as (Hi3 & Hu3 & Hr3 & Hn3 & En3); [unfold MaxChunkRetries; lia |].
    rewrite (recordChunkFailure_missing _ i _ Hi3 Hu3 Hr3 Hn3 En3). cbn [snd].
    apply Z.leb_le. unfold MaxChunkRetries. lia.
Qed.

(** ** The abstract upload

    What the rest of the client relies on, without the class's 64-bit counts,
    byte sizes and identifiers: a transfer is new, being opened for a number of
    chunks, active with a set of chunks the server has still to store, the
    commands under way and the failures of each chunk, done, cancelled or
    failed. [upload_do] says what each call of the class means there and what
    it answers: an upload is done when no chunk is missing. *)

Inductive upload :=
  | UNew
  | UOpening (piece total : Z)
  | UActive (total : Z) (missing : gset Z) (commands : gmap string Z) (failures : gmap Z Z)
  | UDone
  | UCancelled
  | UFailed.

Definition upload_chunks (n : Z) : gset Z := list_to_set (seqZ 0 n).

(** An upload with these chunks missing. *)
Definition upload_with (n : Z) (missing : gset Z) (commands : gmap string Z) (failures : gmap Z Z)
    : upload :=
  if decide (missing = ∅) then UDone else UActive n missing commands failures.

Definition upload_stored (i n : Z) (missing : gset Z) (commands : gmap string Z)
    (failures : gmap Z Z) : upload :=
  upload_with n (missing ∖ {[ i ]}) commands (delete i failures).

Definition upload_do (c : transfer_call) (u : upload) : upload * bool :=
  match c, u with
  | CBegin l k, UNew =>
      if (0 <? l) && (0 <? k) then (UOpening k (ceil_div l k), true) else (u, false)
  | CInit a id k e, UOpening piece n =>
      if negb (is_empty a) && negb (is_empty id) && negb (is_empty e) && (k =? piece)
      then (UActive n (upload_chunks n) ∅ ∅, true) else (u, false)
  | CResume stored, UActive n _ _ _ =>
      if decide (Forall (fun i => 0 <= i < n) stored)
      then (upload_with n (upload_chunks n ∖ list_to_set stored) ∅ ∅, true) else (u, false)
  | CAck i, UActive n M P F =>
      if decide (0 <= i < n) then (upload_stored i n M P F, true) else (u, false)
  | CRegister c i, UActive n M P F =>
      if decide (c <> "" /\ i ∈ M /\ P !! c = None) then (UActive n M (<[ c := i ]> P) F, true)
      else (u, false)
  | CCommandAck c i, UActive n M P F =>
      if decide (P !! c = Some i) then (upload_stored i n M (delete c P) F, true) else (u, false)
  | CFailure i, UActive n M P F =>
      if decide (i ∈ M) then
        let attempts := default 0 (F !! i) + 1 in
        if attempts <=? MaxChunkRetries then (UActive n M P (<[ i := attempts ]> F), true)
        else (UFailed, false)
      else (u, false)
  | CCancel, (UOpening _ _ | UActive _ _ _ _) => (UCancelled, true)
  | CCancel, _ => (u, true)
  | CFail, (UDone | UCancelled) => (u, true)
  | CFail, _ => (UFailed, true)
  | _, _ => (u, false)
  end.

Definition abstract (s : TransferState) : upload :=
  match status_ s with
  | Idle => UNew
  | Initializing => UOpening (chunkSize_ s) (chunks s)
  | Uploading | Resuming =>
      UActive (chunks s) (all_chunks s ∖ received_ s) (pendingChunkCommands_ s) (failedAttempts_ s)
  | Completed => UDone
  | Cancelled => UCancelled
  | Failed => UFailed
  end.

Lemma abstract_uploading s : status_ s = Uploading ->
  abstract s =
    UActive (chunks s) (all_chunks s ∖ received_ s) (pendingChunkCommands_ s) (failedAttempts_ s).
Proof. intros E. unfold abstract. by rewrite E. Qed.

(** The count of the received chunks reaches the number of chunks exactly when
    none is missing. *)
Lemma count_full s : sizes_ok s -> (forall i, i ∈ received_ s -> in_range s i) ->
  (receivedCount s =? chunkCount s) = bool_decide (all_chunks s ∖ received_ s = ∅).
Proof.
  intros Hs Hr. pose proof (sizes_chunks_pos s Hs) as Hp. rewrite (chunkCount_ok s Hs).
  apply eq_true_iff_eq. rewrite Z.eqb_eq, bool_decide_eq_true, receivedCount_full by (done || lia).
  split; [intros ->; set_solver |]. intros He. apply set_eq. intros i.
  split; [by intros ?%Hr%elem_of_all_chunks |]. intros Ha.
  destruct (decide (i ∈ received_ s)); [done |]. set_solver.
Qed.

(** A state whose status is set from that count stands for the upload with the
    chunks that are left. *)
Lemma abstract_with s : sizes_ok s -> (forall i, i ∈ received_ s -> in_range s i) ->
  status_ s = (if receivedCount s =? chunkCount s then Completed else Uploading) ->
  abstract s =
    upload_with (chunks s) (all_chunks s ∖ received_ s) (pendingChunkCommands_ s) (failedAttempts_ s).
Proof.
  intros Hs Hr Hst. rewrite (count_full s Hs Hr) in Hst. unfold upload_with, abstract. rewrite Hst.
  destruct (decide _) as [E | E]; [by rewrite bool_decide_true | by rewrite bool_decide_false].
Qed.

Lemma validIndex_decide s i : transfer_inv s -> validIndex s i = bool_decide (0 <= i < chunks s).
Proof.
  intros Hi. apply eq_true_iff_eq. by rewrite (validIndex_inv s i Hi), bool_decide_eq_true.
Qed.

Lemma validate_indexes_complete s l v : transfer_inv s ->
  validate_indexes s v l =
    if decide (Forall (fun i => 0 <= i < chunks s) l) then Some (list_to_set l ∪ v) else None.
Proof.
  intros Hi. revert v. induction l as [| i l IH]; intros v; cbn [validate_indexes].
  - rewrite decide_True by constructor. f_equal. set_solver.
  - rewrite (validIndex_decide s i Hi). case_bool_decide as Hr; cbn [negb].
    + rewrite IH. destruct (decide (Forall _ l)) as [Hl | Hl].
      * rewrite decide_True by (by constructor). f_equal. set_solver.
      * rewrite decide_False; [done |]. by intros [_ ?]%Forall_cons.
    + rewrite decide_False; [done |]. by intros [? _]%Forall_cons.
Qed.

(** The calls that concern an upload under way; they are refused otherwise. *)
Definition concerns_active (c : transfer_call) : bool :=
  match c with CResume _ | CAck _ | CRegister _ _ | CCommandAck _ _ | CFailure _ => true | _ => false end.

Lemma refused_unless_active c s : transfer_inv s -> concerns_active c = true ->
  status_ s <> Uploading -> upload_do c (abstract s) = (abstract s, false).
Proof.
  intros Hi Hc Hu. pose proof (ti_resuming s Hi). unfold abstract.
  destruct c; try discriminate Hc; by destruct (status_ s).
Qed.

Lemma begin_refines l k s : (abstract (begin l k s).1, (begin l k s).2) = upload_do (CBegin l k) (abstract s).
Proof.
  unfold begin. destruct (decide (status_ s = Idle)) as [E | E].
  - rewrite (bool_decide_false (_ <> _)), orb_false_r by auto.
    assert (abstract s = UNew) as Ha by (unfold abstract; by rewrite E).
    rewrite Ha. cbn [upload_do]. rewrite !Z.leb_antisym.
    destruct (0 <? l), (0 <? k); cbn [negb andb orb fst snd]; rewrite ?Ha; done.
  - rewrite (bool_decide_true (_ <> _)), orb_true_r by done. cbn [fst snd].
    unfold abstract. by destruct (status_ s).
Qed.

Lemma acceptInit_refines a u k e s : transfer_inv s ->
  (abstract (acceptInit a u k e s).1, (acceptInit a u k e s).2) = upload_do (CInit a u k e) (abstract s).
Proof.
  intros Hi. unfold acceptInit. destruct (decide (status_ s = Initializing)) as [E | E].
  - assert (abstract s = UOpening (chunkSize_ s) (chunks s)) as Ha by (unfold abstract; by rewrite E).
    destruct (ti_init s Hi E) as (Er & Ef & Ep). rewrite Ha. cbn [upload_do].
    rewrite (bool_decide_false (_ <> _)) by auto.
    destruct (is_empty a), (is_empty u), (is_empty e), (k =? _); cbn [negb andb orb fst snd]; rewrite ?Ha; try done.
    rewrite abstract_uploading by done. cbn. rewrite Er, Ef, Ep, difference_empty_L. done.
  - rewrite bool_decide_true by done. cbn [orb fst snd]. unfold abstract. by destruct (status_ s).
Qed.

Lemma acceptResume_refines l s : transfer_inv s ->
  (abstract (acceptResume l s).1, (acceptResume l s).2) = upload_do (CResume l) (abstract s).
Proof.
  intros Hi. pose proof (ti_resuming s Hi) as Hnr. unfold acceptResume.
  destruct (decide (status_ s = Uploading)) as [Hu | Hu]; cycle 1.
  { rewrite refused_unless_active, !bool_decide_true by done. done. }
  rewrite bool_decide_false by auto. cbn [andb upload_do].
  rewrite (abstract_uploading s Hu), (validate_indexes_complete s l ∅ Hi). cbn [upload_do].
  pose proof (inv_sizes_active s Hi ltac:(congruence) ltac:(congruence)) as Hs.
  destruct (decide _) as [Hl | Hl]; cbn [fst snd]; [| by rewrite (abstract_uploading s Hu)].
  f_equal. rewrite abstract_with; [| done | | done].
  - cbn. unfold upload_chunks, all_chunks, chunks. cbn. by rewrite union_empty_r_L.
  - intros i. cbn. rewrite union_empty_r_L, elem_of_list_to_set. by apply Forall_forall.
Qed.

Lemma acceptChunkAck_refines i s : transfer_inv s ->
  (abstract (acceptChunkAck i s).1, (acceptChunkAck i s).2) = upload_do (CAck i) (abstract s).
Proof.
  intros Hi. unfold acceptChunkAck. rewrite (validIndex_decide s i Hi).
  destruct (decide (status_ s = Uploading)) as [Hu | Hu]; cycle 1.
  { rewrite refused_unless_active, bool_decide_true by done. done. }
  rewrite (bool_decide_false (status_ s <> Uploading)) by auto. cbn [orb].
  rewrite (abstract_uploading s Hu). cbn [upload_do].
  pose proof (inv_sizes_active s Hi ltac:(congruence) ltac:(congruence)) as Hs.
  destruct (decide _) as [Hr | Hr].
  2: rewrite bool_decide_false by done; cbn; by rewrite (abstract_uploading s Hu).
  rewrite bool_decide_true by done. cbn [negb fst snd].
  set (s1 := s <| received_ ::= _ |> <| failedAttempts_ ::= _ |>).
  assert (forall j, j ∈ received_ s1 -> in_range s1 j) as Hr1.
  { intros j Hj. cbn in Hj. apply elem_of_union in Hj as [->%elem_of_singleton | Hj]; [done |].
    by apply (ti_received s Hi). }
  f_equal. transitivity (upload_with (chunks s1) (all_chunks s1 ∖ received_ s1)
                           (pendingChunkCommands_ s1) (failedAttempts_ s1)).
  - destruct (receivedCount s1 =? chunkCount s1) eqn:E.
    + rewrite (abstract_with (s1 <| status_ := Completed |>)); [reflexivity | exact Hs | exact Hr1 |].
      symmetry.
      change (receivedCount (s1 <| status_ := Completed |>)) with (receivedCount s1).
      change (chunkCount (s1 <| status_ := Completed |>)) with (chunkCount s1). by rewrite E.
    + apply abstract_with; [done.. |]. by rewrite E.
  - unfold upload_stored. change (chunks s1) with (chunks s). f_equal.
    change (all_chunks s1) with (all_chunks s). cbn. set_solver.
Qed.

Lemma registerChunkCommand_refines c i s : transfer_inv s ->
  (abstract (registerChunkCommand c i s).1, (registerChunkCommand c i s).2) =
  upload_do (CRegister c i) (abstract s).
Proof.
  intros Hi. unfold registerChunkCommand. rewrite (validIndex_decide s i Hi).
  destruct (decide (status_ s = Uploading)) as [Hu | Hu]; cycle 1.
  { rewrite refused_unless_active, bool_decide_true by done. done. }
  rewrite (bool_decide_false (status_ s <> Uploading)) by auto. cbn [orb].
  rewrite (abstract_uploading s Hu). cbn [upload_do].
  pose proof (elem_of_all_chunks s i) as Hin. unfold in_range in Hin.
  destruct (is_empty c) eqn:Ec; cbn [orb].
  { rewrite decide_False; [cbn; by rewrite (abstract_uploading s Hu) |].
    intros (Hne & _). apply is_empty_true in Ec. done. }
  apply is_empty_false in Ec. unfold received.
  destruct (pendingChunkCommands_ s !! c) eqn:Ep.
  { rewrite decide_False by (by intros (_ & _ & ?)). destruct (_ || _)%bool; cbn; by rewrite (abstract_uploading s Hu). }
  destruct (decide _) as [(_ & Hm & _) | Hm].
  - rewrite bool_decide_true by set_solver. rewrite bool_decide_false by set_solver. cbn.
    unfold abstract. cbn. rewrite Hu. done.
  - assert (~ (0 <= i < chunks s) \/ i ∈ received_ s) as [Hn | Hn].
    { destruct (decide (i ∈ received_ s)); [by right | left]. intros Hr. apply Hm. set_solver. }
    + rewrite bool_decide_false by done. cbn. by rewrite (abstract_uploading s Hu).
    + rewrite (bool_decide_true (i ∈ received_ s)), orb_true_r by done. cbn. by rewrite (abstract_uploading s Hu).
Qed.

Lemma acceptCommandAck_refines c i s : transfer_inv s ->
  (abstract (acceptCommandAck c i s).1, (acceptCommandAck c i s).2) =
  upload_do (CCommandAck c i) (abstract s).
Proof.
  intros Hi. unfold acceptCommandAck.
  destruct (pendingChunkCommands_ s !! c) as [r |] eqn:Ep; cycle 1.
  { cbn [fst snd]. unfold upload_do, abstract.
    destruct (status_ s); try done; rewrite decide_False by congruence; done. }
  destruct (r =? i) eqn:E; bool_hyps; cbn [negb]; cycle 1.
  { cbn [fst snd]. unfold upload_do, abstract.
    destruct (status_ s); try done; rewrite decide_False by congruence; done. }
  subst r. rewrite (acceptChunkAck_refines i _ (inv_forget_command _ _ _ Hi Ep)).
  pose proof (ti_pending s Hi c i Ep) as Hr. unfold in_range in Hr.
  unfold upload_do, abstract. cbn. destruct (status_ s); try done.
  all: change (chunks (s <| pendingChunkCommands_ ::= delete c |>)) with (chunks s).
  all: by rewrite !decide_True by done.
Qed.

Lemma recordChunkFailure_refines i s : transfer_inv s ->
  (abstract (recordChunkFailure i s).1, (recordChunkFailure i s).2) =
  upload_do (CFailure i) (abstract s).
Proof.
  intros Hi. unfold recordChunkFailure, received. rewrite (validIndex_decide s i Hi).
  destruct (decide (status_ s = Uploading)) as [Hu | Hu]; cycle 1.
  { rewrite refused_unless_active, bool_decide_true by done. done. }
  rewrite (bool_decide_false (status_ s <> Uploading)) by auto. cbn [orb].
  rewrite (abstract_uploading s Hu). cbn [upload_do].
  pose proof (elem_of_all_chunks s i) as Hin. unfold in_range in Hin.
  destruct (decide _) as [Hm | Hm].
  - rewrite bool_decide_true, bool_decide_false by set_solver. cbn [negb orb fst snd].
    rewrite Z.leb_antisym. destruct (_ <? _); cbn; [done |].
    unfold abstract. cbn. by rewrite Hu.
  - assert (negb (bool_decide (0 <= i < chunks s)) || bool_decide (i ∈ received_ s) = true)%bool as ->.
    { repeat case_bool_decide; try done. set_solver. }
    cbn. by rewrite (abstract_uploading s Hu).
Qed.


(** ** Commands *)

Lemma acceptChunkAck_pending i s : pendingChunkCommands_ (acceptChunkAck i s).1 = pendingChunkCommands_ s.
Proof. unfold acceptChunkAck. destruct (_ || _)%bool; [done |]. cbn. by destruct (_ =? _). Qed.

Lemma pending_none_step c s call :
  (forall k, call <> CRegister c k) -> pendingChunkCommands_ s !! c = None ->
  pendingChunkCommands_ (transfer_step call s).1 !! c = None.
Proof.
  intros Hc Hn. destruct call as [l k|a u k e|l|i|d i|d i|i| |]; cbn [transfer_step].
  - unfold begin. by destruct (_ || _)%bool.
  - unfold acceptInit. by destruct (_ || _)%bool.
  - unfold acceptResume. destruct (_ && _)%bool; [done |]. by destruct (validate_indexes _ _ _).
  - by rewrite acceptChunkAck_pending.
  - unfold registerChunkCommand. destruct (_ || _)%bool; [done |]. destruct (_ !! d) eqn:E; [done |].
    cbn. rewrite lookup_insert_ne; [done |]. intros ->. by apply (Hc i).
  - unfold acceptCommandAck. destruct (_ !! d); [| done]. destruct (negb _); [done |].
    rewrite acceptChunkAck_pending. cbn. apply lookup_delete_None. auto.
  - unfold recordChunkFailure. destruct (_ || _)%bool; [done |]. cbn. by destruct (_ <? _).
  - unfold cancel. by destruct (status_ s).
  - unfold fail. by destruct (status_ s).
Qed.

Lemma pending_none_run c cs s :
  Forall (fun call => forall k, call <> CRegister c k) cs -> pendingChunkCommands_ s !! c = None ->
  pendingChunkCommands_ (run_calls cs s) !! c = None.
Proof.
  intros Hf. revert s. induction Hf as [| call cs Hc _ IH]; intros s Hn; [done |].
  by apply IH, pending_none_step.
Qed.

(** The acknowledgement of a command counts only when the command was
    registered for that chunk, and only once unless it is registered anew. *)
Theorem command_ack_once c i s s' :
  acceptCommandAck c i s = (s', true) ->
  pendingChunkCommands_ s !! c = Some i /\ i ∈ received_ s' /\
  forall cs, Forall (fun call => forall k, call <> CRegister c k) cs ->
  forall j, (acceptCommandAck c j (run_calls cs s')).2 = false.
Proof.
  intros E. unfold acceptCommandAck in E at 1.
  destruct (_ !! c) as [r |] eqn:Er; [| done]. destruct (r =? i) eqn:Ei; [| done].
  cbn [negb] in E. bool_hyps. subst r. split_and!; [done | |].
  - unfold acceptChunkAck in E. destruct (_ || _)%bool; [done |].
    destruct (_ =? _); injection E as <-; cbn; set_solver.
  - intros cs Hf j. unfold acceptCommandAck.
    rewrite (pending_none_run c cs s' Hf); [done |].
    pose proof (acceptChunkAck_pending i (s <| pendingChunkCommands_ ::= delete c |>)) as Hp.
    rewrite E in Hp. cbn in Hp. rewrite Hp. apply lookup_delete_eq.
Qed.

(** ** Witnesses: a file of ten bytes in chunks of four *)

Definition ex_calls : list transfer_call :=
  [CBegin 10 4; CInit "att" "up" 4 "2030-01-01"; CRegister "c0" 0; CCommandAck "c0" 0].

Definition ex_uploading : TransferState := run_calls ex_calls initial_transfer.

Lemma ex_uploading_reachable : transfer_reachable ex_uploading.
Proof.
  apply run_calls_reachable; [constructor |]. repeat constructor. cbn. unfold INT64_MAX. lia.
Qed.

Lemma completed_iff_every_byte_received_witness :
  status_ (run_calls [CAck 2; CAck 1] ex_uploading) = Completed /\
  2 ∈ received_ (run_calls [CAck 2; CAck 1] ex_uploading).
Proof.
  split; [reflexivity |].
  apply (completed_iff_every_byte_received (run_calls [CAck 2; CAck 1] ex_uploading));
    [| right; reflexivity | reflexivity | lia | vm_compute; reflexivity].
  apply run_calls_reachable; [apply ex_uploading_reachable | repeat constructor].
Defined.

Lemma missingIndexes_spec_witness :
  missingIndexes ex_uploading = [1; 2] /\ StronglySorted Z.lt (missingIndexes ex_uploading).
Proof.
  split; [reflexivity |]. apply missingIndexes_spec; [apply ex_uploading_reachable |].
  split_and!; vm_compute; congruence.
Defined.

Lemma acking_missing_completes_witness :
  exists s', ack_all [2; 1] ex_uploading = (s', true) /\ status_ s' = Completed.
Proof.
  apply acking_missing_completes; [apply ex_uploading_reachable | reflexivity |].
  change (missingIndexes ex_uploading) with [1; 2]. constructor.
Defined.

Lemma terminal_is_final_witness :
  status_ (run_calls [CResume []; CAck 1; CFail] (cancel ex_uploading)) = Cancelled.
Proof.
  refine (eq_trans (proj1 (terminal_is_final _ (cancel ex_uploading) _)) _);
    [right; left; reflexivity | reflexivity].
Defined.

Lemma retry_budget_witness :
  status_ (Nat.iter 5 (fail_once 1) ex_uploading) = Failed.
Proof.
  refine (proj1 (retry_budget ex_uploading 1 5 ex_uploading_reachable _ _ _ _)); reflexivity.
Defined.


Lemma command_ack_once_witness :
  let s := run_calls [CRegister "c1" 1] ex_uploading in
  (acceptCommandAck "c1" 1 (acceptCommandAck "c1" 1 s).1).2 = false.
Proof.
  intros s. destruct (acceptCommandAck "c1" 1 s) as [s' b] eqn:E.
  assert (b = true) as -> by (change b with (s', b).2; rewrite <- E; vm_compute; reflexivity).
  exact (proj2 (proj2 (command_ack_once "c1" 1 s s' E)) [] (Forall_nil_2 _) 1).
Defined.
