(* ===== verification/Crypto.v ===== *)
(** * Crypto: sealing attachment chunks

    Models client-cpp/gui/src/attachments/attachment_crypto.{hpp,cpp},
    attachment_mls_group_id.cpp and the message id of attachment_manifest.cpp.
    OpenSSL and Qt's hash are the parameter class [CryptoLib]: AES-256-GCM as
    [gcm_seal] and [gcm_open], SHA-256 twice (through EVP, which can fail, and
    through QCryptographicHash, which cannot), the random generator and base64. *)

From S2P Require Import Prelude Text.
From Stdlib Require Import Ascii Strings.Byte.

(** ** The library *)

Abbreviation bytes := (list byte).

#[export] Instance byte_eq_decision : EqDecision byte := Byte.byte_eq_dec.

Class CryptoLib := {
  evp_sha256 : bytes -> option bytes;
  gcm_seal : bytes -> bytes -> bytes -> bytes -> option (bytes * bytes);  (* key, nonce, aad, text: body and tag *)
  gcm_open : bytes -> bytes -> bytes -> bytes -> bytes -> option bytes;   (* key, nonce, aad, body, tag *)
  rand_bytes : nat -> option bytes;
  qt_sha256 : bytes -> bytes;
  to_base64 : bytes -> string;
  from_base64 : string -> bytes;
}.

Definition KeySize : nat := 32.
Definition NonceSize : nat := 12.
Definition TagSize : nat := 16.

(** Documented behaviour: GCM keeps the length and has a tag of the requested
    size, an opened seal is the text, a digest has 32 bytes, base64 is decoded
    back. *)
Class CryptoLaws `{CryptoLib} : Prop := {
  gcm_seal_length k n a p body tag :
    gcm_seal k n a p = Some (body, tag) -> length body = length p /\ length tag = TagSize;
  gcm_open_length k n a body tag p :
    gcm_open k n a body tag = Some p -> length p = length body;
  gcm_open_seal k n a p body tag :
    gcm_seal k n a p = Some (body, tag) -> gcm_open k n a body tag = Some p;
  qt_sha256_length bs : length (qt_sha256 bs) = 32%nat;
  base64_roundtrip bs : from_base64 (to_base64 bs) = bs;
}.

(** [QByteArray::toHex]: two lower case digits per byte. *)
Definition hex_char (d : N) : ascii :=
  if (d <? 10)%N then ascii_of_N (48 + d) else ascii_of_N (87 + d).

Definition hex_byte (b : byte) (rest : string) : string :=
  String (hex_char (Byte.to_N b / 16)) (String (hex_char (Byte.to_N b mod 16)) rest).

Definition toHex (bs : bytes) : string := foldr hex_byte "" bs.

(** ** Contexts *)

Record ChunkContext := mk_context {
  cc_attachment_id : string;
  cc_room : string;
  cc_group_id : string;
  cc_logical_size : Z;
  cc_chunk_size : Z;
  cc_chunk_index : Z;
}.

#[export] Instance eta_ChunkContext : EtaRecord ChunkContext := fun c =>
  {| cc_attachment_id := cc_attachment_id c; cc_room := cc_room c; cc_group_id := cc_group_id c;
     cc_logical_size := cc_logical_size c; cc_chunk_size := cc_chunk_size c;
     cc_chunk_index := cc_chunk_index c |}.

Definition newline : string := String "010" "".

Definition aad_for (context : ChunkContext) : string :=
  "lan-chat/attachment-aead/v1" +:+ newline +:+ "attachment_id=" +:+ cc_attachment_id context +:+
  newline +:+ "room=" +:+ cc_room context +:+ newline +:+ "group_id=" +:+ cc_group_id context +:+
  newline +:+ "logical_size=" +:+ to_string (cc_logical_size context) +:+
  newline +:+ "chunk_size=" +:+ to_string (cc_chunk_size context) +:+
  newline +:+ "chunk_index=" +:+ to_string (cc_chunk_index context) +:+ newline.

Definition valid_context (context : ChunkContext) : bool :=
  negb (is_empty (cc_attachment_id context)) && negb (is_empty (cc_room context)) &&
  (0 <? cc_logical_size context) && (0 <? cc_chunk_size context) && (0 <=? cc_chunk_index context).

Definition nonce_input (context : ChunkContext) : string :=
  "lan-chat/attachment-nonce/v1" +:+ newline +:+ aad_for context.

Section Operations.
  Context `{CryptoLib}.

Definition generate_key : option bytes := rand_bytes KeySize.

(** The first twelve bytes of the digest, or zeros when the digest fails. *)
Definition derive_nonce (context : ChunkContext) : bytes :=
  match evp_sha256 (bytes_of (nonce_input context)) with
  | Some hash => take NonceSize hash
  | None => repeat x00 NonceSize
  end.

Definition encrypt (key : bytes) (context : ChunkContext) (plaintext : bytes) : option bytes :=
  if negb (valid_context context) || (INT32_MAX <? Z.of_nat (length plaintext)) then None
  else match gcm_seal key (derive_nonce context) (bytes_of (aad_for context)) plaintext with
       | Some (body, tag) => Some (body ++ tag)
       | None => None
       end.

Definition decrypt (key : bytes) (context : ChunkContext) (ciphertext : bytes) : option bytes :=
  if negb (valid_context context) || (length ciphertext <? TagSize)%nat
     || (INT32_MAX <? Z.of_nat (length ciphertext - TagSize))
  then None
  else
    let body_size := (length ciphertext - TagSize)%nat in
    gcm_open key (derive_nonce context) (bytes_of (aad_for context))
      (take body_size ciphertext) (drop body_size ciphertext).

(** The cipher hash that travels with a chunk. *)
Definition cipher_hash (ciphertext : bytes) : string := toHex (qt_sha256 ciphertext).

Definition attachment_mls_group_id `{QtText} (room commandId : string) : string :=
  "lan-chat-attachment/" +:+
  toHex (qt_sha256 (bytes_of (trimmed room) ++ [x00] ++ bytes_of (trimmed commandId))).

Definition manifestMessageId `{QtText} (attachmentId : string) : string :=
  let normalized := bytes_of (trimmed attachmentId) in
  match normalized with
  | [] => ""
  | _ => "am-" +:+ take_str 56 (toHex (qt_sha256 normalized))
  end.

End Operations.

Lemma valid_context_iff c : valid_context c = true <->
  cc_attachment_id c <> "" /\ cc_room c <> "" /\ 0 < cc_logical_size c /\ 0 < cc_chunk_size c /\
  0 <= cc_chunk_index c.
Proof.
  unfold valid_context.
  rewrite !andb_true_iff, !negb_true_iff, !is_empty_false, !Z.ltb_lt, Z.leb_le. tauto.
Qed.

(** ** Hexadecimal text *)

Lemma length_toHex l : String.length (toHex l) = (2 * length l)%nat.
Proof. induction l as [| x l IH]; simpl; [done |]. rewrite IH. lia. Qed.

Lemma toHex_lower l : ascii_lower (toHex l) = toHex l.
Proof.
  unfold ascii_lower. induction l as [| x l IH]; [done |]. change (toHex (x :: l)) with (hex_byte x (toHex l)).
  generalize dependent (toHex l). intros t IH. unfold hex_byte. cbn [string_map]. rewrite IH.
  by destruct x.
Qed.

Lemma cipher_hash_size `{CryptoLaws} c : size (cipher_hash c) = 64.
Proof. unfold size, cipher_hash. by rewrite length_toHex, qt_sha256_length. Qed.

(** ** Sealing *)

Section Theorems.
  Context `{CryptoLaws}.

Lemma encrypt_inv key context plaintext c :
  encrypt key context plaintext = Some c ->
  valid_context context = true /\ Z.of_nat (length plaintext) <= INT32_MAX /\
  length c = (length plaintext + TagSize)%nat /\
  gcm_open key (derive_nonce context) (bytes_of (aad_for context))
    (take (length plaintext) c) (drop (length plaintext) c) = Some plaintext.
Proof.
  unfold encrypt. intros E. destruct (_ || _)%bool eqn:Eg; [done |]. bool_hyps.
  destruct (gcm_seal _ _ _ _) as [[body tag] |] eqn:Es; [| done]. injection E as <-.
  apply gcm_seal_length in Es as Hl. destruct Hl as [Hb Ht].
  split_and!; [done | done | rewrite length_app; lia |].
  rewrite <- Hb, take_app_length, drop_app_length. by apply gcm_open_seal.
Qed.

(** decrypting an encrypted chunk under the same key and context gives the
    plaintext back, and the ciphertext is the plaintext's length plus the tag. *)
Theorem decrypt_encrypt key context plaintext c :
  encrypt key context plaintext = Some c ->
  length c = (length plaintext + TagSize)%nat /\ decrypt key context c = Some plaintext.
Proof.
  intros E. destruct (encrypt_inv _ _ _ _ E) as (Hv & Hm & Hl & Ho). split; [done |].
  unfold decrypt. rewrite Hv, Hl.
  replace (length plaintext + TagSize - TagSize)%nat with (length plaintext) by lia.
  rewrite (proj2 (Nat.ltb_ge _ _)), (proj2 (Z.ltb_ge _ _)) by lia. exact Ho.
Qed.

Lemma decrypt_length key context c p :
  decrypt key context c = Some p -> length c = (length p + TagSize)%nat.
Proof.
  unfold decrypt. intros E. destruct (_ || _ || _)%bool eqn:Eg; [done |]. bool_hyps.
  apply gcm_open_length in E. rewrite length_take in E. apply Nat.ltb_ge in H3. lia.
Qed.

End Theorems.

(** ** The additional data separates chunks *)

Definition no_newline (s : string) : bool := string_forall (fun c => negb (Ascii.eqb c "010")) s.

Definition line_safe (context : ChunkContext) : bool :=
  no_newline (cc_attachment_id context) && no_newline (cc_room context) &&
  no_newline (cc_group_id context).

Lemma to_string_no_newline z : 0 <= z -> no_newline (to_string z) = true.
Proof.
  intros Hz. eapply string_forall_impl; [| by apply to_string_digits].
  intros c Hc. apply negb_true_iff, Ascii.eqb_neq. by intros ->.
Qed.

Lemma line_inj s1 s2 t1 t2 : no_newline s1 = true -> no_newline s2 = true ->
  s1 +:+ newline +:+ t1 = s2 +:+ newline +:+ t2 -> s1 = s2 /\ t1 = t2.
Proof. intros H1 H2 E. by apply (app_stop_inj "010" s1 s2 t1 t2 H1 H2). Qed.

Lemma to_string_inj a b : 0 <= a -> 0 <= b -> to_string a = to_string b -> a = b.
Proof. intros Ha Hb E. by rewrite <- (dec_value_to_string a), <- (dec_value_to_string b), E. Qed.

Lemma labelled_lines_inj p q1 q2 q3 q4 q5 q6 a r g l k i a' r' g' l' k' i' :
  Forall (fun s => no_newline s = true) [a; r; g; l; k; i; a'; r'; g'; l'; k'; i'] ->
  p +:+ newline +:+ q1 +:+ a +:+ newline +:+ q2 +:+ r +:+ newline +:+ q3 +:+ g +:+ newline +:+ q4
    +:+ l +:+ newline +:+ q5 +:+ k +:+ newline +:+ q6 +:+ i +:+ newline =
  p +:+ newline +:+ q1 +:+ a' +:+ newline +:+ q2 +:+ r' +:+ newline +:+ q3 +:+ g' +:+ newline +:+ q4
    +:+ l' +:+ newline +:+ q5 +:+ k' +:+ newline +:+ q6 +:+ i' +:+ newline ->
  a = a' /\ r = r' /\ g = g' /\ l = l' /\ k = k' /\ i = i'.
Proof.
  rewrite !Forall_cons. intros (?&?&?&?&?&?&?&?&?&?&?&?&_) E.
  do 3 apply str_app_inj_l in E.
  do 5 (apply line_inj in E as [-> E]; [| assumption ..]; apply str_app_inj_l in E).
  change newline with (newline +:+ "") in E.
  by apply line_inj in E as [-> _].
Qed.

(** two valid chunk contexts whose names hold no line break have the same
    additional authenticated data, or the same nonce input, only when they are
    the same context; so no two chunks of an attachment share either. *)
Theorem aad_for_injective c d :
  valid_context c = true -> valid_context d = true -> line_safe c = true -> line_safe d = true ->
  (aad_for c = aad_for d -> c = d) /\ (nonce_input c = nonce_input d -> c = d).
Proof.
  intros Hc Hd Sc Sd.
  assert (aad_for c = aad_for d -> c = d) as Haad.
  { unfold valid_context, line_safe in *. bool_hyps. intros E.
    apply labelled_lines_inj in E as (Ea & Er & Eg & El & Ek & Ei).
    2: { repeat constructor; try assumption; apply to_string_no_newline; lia. }
    apply to_string_inj in El, Ek, Ei; try lia.
    destruct c, d. cbn in *. congruence. }
  split; [done |]. intros E. unfold nonce_input in E. by do 2 apply str_app_inj_l in E; apply Haad.
Qed.

(** The message id of a manifest has 59 bytes, below the 64 the server accepts,
    and an attachment id that is only white space has no message id. *)
Theorem manifestMessageId_bounded `{CryptoLaws} `{QtText} attachmentId :
  size (manifestMessageId attachmentId) = (if is_empty (trimmed attachmentId) then 0 else 59).
Proof.
  unfold manifestMessageId. destruct (trimmed attachmentId) as [| c s] eqn:E; [done |].
  rewrite <- E. destruct (bytes_of (trimmed attachmentId)) as [| b bs] eqn:Eb.
  { pose proof (length_bytes_of (trimmed attachmentId)) as L. rewrite Eb, E in L. unfold size in L. simpl in L. lia. }
  rewrite E. unfold size. rewrite str_length_app, length_take_str; [done |].
  rewrite length_toHex, qt_sha256_length. lia.
Qed.

(** ** A concrete library for the witnesses

    A check sum stands for the digest and the tag; the laws hold of it, secrecy
    does not matter here. *)

Definition checksum (bs : bytes) : byte :=
  match Byte.of_N (foldr (fun b acc => (Byte.to_N b + 3 * acc + 7) mod 256)%N 0%N bs) with
  | Some b => b
  | None => x00
  end.

Definition toy_tag (k n a body : bytes) : bytes := repeat (checksum (k ++ n ++ a ++ body)) TagSize.

Definition toy_crypto : CryptoLib := {|
  evp_sha256 := fun bs => Some (repeat (checksum bs) 32);
  gcm_seal := fun k n a p => Some (rev p, toy_tag k n a (rev p));
  gcm_open := fun k n a body tag =>
    if bool_decide (tag = toy_tag k n a body) then Some (rev body) else None;
  rand_bytes := fun n => Some (repeat x2a n);
  qt_sha256 := fun bs => repeat (checksum bs) 32;
  to_base64 := text_of;
  from_base64 := bytes_of;
|}.

Lemma bytes_of_text_of bs : bytes_of (text_of bs) = bs.
Proof. apply String.list_byte_of_string_of_list_byte. Qed.

Lemma toy_laws : @CryptoLaws toy_crypto.
Proof.
  split; cbn.
  - intros k n a p body tag [= <- <-]. rewrite length_rev. done.
  - intros k n a body tag p. case_bool_decide; [| done]. intros [= <-]. apply length_rev.
  - intros k n a p body tag [= <- <-]. rewrite bool_decide_eq_true_2 by done. by rewrite rev_involutive.
  - done.
  - intros bs. apply bytes_of_text_of.
Qed.

Definition ex_context : ChunkContext := mk_context "att-1" "lobby" "g" 10 4 1.

Lemma decrypt_encrypt_witness :
  @decrypt toy_crypto [x01] ex_context
    (default [] (@encrypt toy_crypto [x01] ex_context [x61; x62; x63; x64])) = Some [x61; x62; x63; x64].
Proof.
  refine (proj2 (@decrypt_encrypt toy_crypto toy_laws [x01] ex_context [x61; x62; x63; x64] _ _)).
  vm_compute. reflexivity.
Defined.

Lemma aad_for_injective_witness :
  aad_for ex_context <> aad_for (ex_context <| cc_chunk_index := 2 |>).
Proof.
  intros E. apply (aad_for_injective ex_context (ex_context <| cc_chunk_index := 2 |>)) in E;
    [discriminate E | reflexivity ..].
Defined.

Lemma manifestMessageId_bounded_witness : size (@manifestMessageId toy_crypto _ " att-1 ") = 59.
Proof. exact (@manifestMessageId_bounded toy_crypto toy_laws _ " att-1 "). Defined.
