(* ===== verification/TransferClient.v ===== *)
(** * TransferClient: encrypting a file chunk by chunk

    Models client-cpp/gui/src/attachments/transfer_client.{hpp,cpp}.  The
    input device (QIODevice) is the parameter class [InputDevice]; the chunk
    sink is a function that threads the caller's state. *)

From S2P Require Import Prelude Text Protocol Json Message Crypto.
From Stdlib Require Import Strings.Byte.

(** ** The input device *)

Class InputDevice (D : Type) := {
  dev_open : D -> bool;                    (* isOpen *)
  dev_readable : D -> bool;                (* isReadable *)
  dev_read : D -> Z -> D * bytes;          (* read(maxSize) *)
}.

(** A readable device holds [dev_rest]; a read takes a prefix of it, no longer
    than asked for.  A regular file gives all it has. *)
Class InputDeviceLaws (D : Type) `{InputDevice D} := {
  dev_rest : D -> bytes;
  dev_regular : D -> Prop;
  dev_read_spec d n d' bs : 0 <= n -> dev_read d n = (d', bs) ->
    dev_rest d = bs ++ dev_rest d' /\ Z.of_nat (length bs) <= n;
  dev_read_regular d n d' bs : dev_regular d -> 0 <= n -> dev_read d n = (d', bs) ->
    dev_regular d' /\ dev_open d' = dev_open d /\ dev_readable d' = dev_readable d /\
    bs = take (Z.to_nat n) (dev_rest d);
}.

(** ** Operations *)

Record TransferChunk := mk_chunk {
  tc_index : Z;
  tc_ciphertext : bytes;
  tc_cipher_sha256 : string;
}.

Definition ChunkSize : Z := PlaintextChunkBytes.

(** [(logical_size + chunk_size - 1) / chunk_size] on [int64_t]. *)
Definition chunk_count64 (logical_size chunk_size : Z) : Z :=
  Z.quot (wrap64 (wrap64 (logical_size + chunk_size) - 1)) chunk_size.

(** [logical_size - chunk_index * chunk_size] on [int64_t]. *)
Definition remaining64 (logical_size chunk_size chunk_index : Z) : Z :=
  wrap64 (logical_size - wrap64 (chunk_index * chunk_size)).

Section Client.
  Context `{CryptoLib} {D : Type} `{InputDevice D}.

(** The chunk (none at the end of the file) and the [endOfFile] flag. *)
Definition encrypt_next_chunk (input : D) (key : bytes) (context : ChunkContext)
    : D * outcome (option TransferChunk * bool) :=
  if negb (dev_open input) || negb (dev_readable input) || (cc_logical_size context <=? 0)
     || (cc_chunk_size context <=? 0) || (cc_chunk_index context <? 0)
  then (input, Fail "invalid attachment transfer context")
  else
    let remaining := remaining64 (cc_logical_size context) (cc_chunk_size context) (cc_chunk_index context) in
    if remaining <=? 0 then (input, Ok (None, true))
    else
      let readSize := wrap32 (Z.min (cc_chunk_size context) remaining) in
      let '(input1, plaintext) := dev_read input readSize in
      if negb (Z.of_nat (length plaintext) =? readSize)
      then (input1, Fail "attachment file ended before logical size")
      else match encrypt key context plaintext with
           | None => (input1, Fail "attachment encryption failed")
           | Some ciphertext =>
               (input1,
                Ok (Some (mk_chunk (cc_chunk_index context) ciphertext (cipher_hash ciphertext)),
                    chunk_count64 (cc_logical_size context) (cc_chunk_size context)
                      <=? cc_chunk_index context + 1))
           end.

Section Stream.
  Context {S : Type} (sink : S -> TransferChunk -> S * bool) (key : bytes).

(** The loop; every round takes at least one byte, so [remaining] rounds are
    enough. *)
Fixpoint stream_loop (fuel : nat) (input : D) (context : ChunkContext) (s : S) (index remaining : Z)
    : D * S * outcome unit :=
  match fuel with
  | O => (input, s, Ok tt)
  | Datatypes.S fuel' =>
      if negb (0 <? remaining) then (input, s, Ok tt)
      else
        let requested := Z.min remaining ChunkSize in
        let '(input1, plaintext) := dev_read input requested in
        if negb (Z.of_nat (length plaintext) =? requested)
        then (input1, s, Fail "input ended before logical size")
        else
          let context1 := context <| cc_chunk_index := index |> in
          match encrypt key context1 plaintext with
          | None => (input1, s, Fail "attachment encryption failed")
          | Some ciphertext =>
              let '(s1, accepted) := sink s (mk_chunk index ciphertext (cipher_hash ciphertext)) in
              if negb accepted then (input1, s1, Fail "chunk sink rejected transfer")
              else stream_loop fuel' input1 context1 s1 (index + 1) (remaining - requested)
          end
  end.

Definition stream_encrypt (input : D) (context : ChunkContext) (s : S) : D * S * outcome unit :=
  if negb (dev_open input) || negb (dev_readable input) || (cc_logical_size context <? 0)
  then (input, s, Fail "invalid transfer input")
  else
    let context1 := if cc_chunk_size context =? 0 then context <| cc_chunk_size := ChunkSize |> else context in
    if negb (cc_chunk_size context1 =? ChunkSize) then (input, s, Fail "unsupported chunk size")
    else stream_loop (Z.to_nat (cc_logical_size context1)) input context1 s 0 (cc_logical_size context1).

(** [open_file] is [QFile::open] on a path: a device, or nothing. *)
Definition stream_encrypt_file (open_file : string -> option D) (filePath : string)
    (context : ChunkContext) (s : S) : S * outcome unit :=
  match open_file filePath with
  | None => (s, Fail "unable to open attachment file")
  | Some input => let '(_, s1, r) := stream_encrypt input context s in (s1, r)
  end.

End Stream.

End Client.

(** ** The chunks of a text *)

(** [pieces c bs]: [bs] cut into pieces of [c] bytes, the last one shorter. *)
Fixpoint pieces_fuel (fuel c : nat) (bs : bytes) : list bytes :=
  match fuel, bs with
  | O, _ | _, [] => []
  | S fuel', _ => take c bs :: pieces_fuel fuel' c (drop c bs)
  end.

Definition pieces (c : nat) (bs : bytes) : list bytes := pieces_fuel (length bs) c bs.

Lemma pieces_fuel_concat fuel c bs : (0 < c)%nat -> (length bs <= fuel)%nat ->
  concat (pieces_fuel fuel c bs) = bs.
Proof.
  intros Hc. revert bs. induction fuel as [| f IH]; intros bs Hf; [destruct bs; [done | simpl in Hf; lia] |].
  destruct bs as [| b bs]; [done |]. cbn [pieces_fuel concat].
  rewrite IH, take_drop; [done |]. rewrite length_drop. simpl in Hf |- *. lia.
Qed.

Lemma pieces_fuel_enough fuel fuel' c bs : (0 < c)%nat ->
  (length bs <= fuel)%nat -> (length bs <= fuel')%nat -> pieces_fuel fuel c bs = pieces_fuel fuel' c bs.
Proof.
  intros Hc. revert fuel' bs. induction fuel as [| f IH]; intros [| f'] bs H1 H2;
    try (destruct bs; [done | simpl in *; lia]).
  destruct bs as [| b bs]; [done |].
  cbn [pieces_fuel]. f_equal. apply IH; rewrite length_drop; simpl in *; lia.
Qed.

Lemma pieces_cons c bs : (0 < c)%nat -> bs <> [] -> pieces c bs = take c bs :: pieces c (drop c bs).
Proof.
  intros Hc Hne. unfold pieces at 1. destruct bs as [| b bs]; [done |]. cbn [length pieces_fuel].
  f_equal. apply pieces_fuel_enough; [done | rewrite length_drop; simpl; lia | done].
Qed.

Lemma pieces_concat c bs : (0 < c)%nat -> concat (pieces c bs) = bs.
Proof. intros Hc. by apply pieces_fuel_concat. Qed.

(** ** Chunk arithmetic does not overflow *)

Lemma chunk_count64_ok l c : 0 < l -> 0 < c -> l + c <= INT64_MAX -> chunk_count64 l c = ceil_div l c.
Proof.
  intros Hl Hc Hm. unfold chunk_count64, ceil_div.
  rewrite (wrap64_id (l + c)) by (unfold in_int64; lia).
  rewrite wrap64_id by (unfold in_int64; lia). apply Z.quot_div_nonneg; lia.
Qed.

Lemma remaining64_ok l c i : 0 < l -> 0 < c -> l + c <= INT64_MAX -> 0 <= i <= ceil_div l c ->
  remaining64 l c i = l - i * c.
Proof.
  intros Hl Hc Hm Hi. pose proof (ceil_div_spec l c Hc Hl) as Hs.
  assert (0 <= i * c <= l + c) by nia.
  unfold remaining64. rewrite (wrap64_id (i * c)) by (unfold in_int64; lia).
  apply wrap64_id. unfold in_int64. lia.
Qed.

(** ** What a stream delivers *)

Section StreamTheorems.
  Context `{CryptoLaws} {D : Type} `{InputDeviceLaws D}.

(** The library seals every text (no allocation failure). *)
Definition seal_total : Prop := forall k n a p, is_Some (gcm_seal k n a p).

(** The chunks of a list of plaintexts, numbered from [i]. *)
Fixpoint seal_chunks (key : bytes) (context : ChunkContext) (i : Z) (ps : list bytes)
    : list TransferChunk :=
  match ps with
  | [] => []
  | p :: ps' =>
      let c := default [] (encrypt key (context <| cc_chunk_index := i |>) p) in
      mk_chunk i c (cipher_hash c) :: seal_chunks key context (i + 1) ps'
  end.

Definition collect (l : list TransferChunk) (c : TransferChunk) : list TransferChunk * bool := (l ++ [c], true).

Lemma seal_chunks_index key context i j ps :
  seal_chunks key (context <| cc_chunk_index := j |>) i ps = seal_chunks key context i ps.
Proof. revert i. induction ps as [| p ps IH]; intros i; [done |]. cbn [seal_chunks]. by rewrite IH. Qed.

Lemma encrypt_total key context p :
  seal_total -> valid_context context = true -> Z.of_nat (length p) <= INT32_MAX ->
  exists c, encrypt key context p = Some c.
Proof.
  intros Ht Hv Hl. unfold encrypt. rewrite Hv, (proj2 (Z.ltb_ge _ _) Hl). cbn [negb orb].
  destruct (Ht key (derive_nonce context) (bytes_of (aad_for context)) p) as [[body tag] ->]. eauto.
Qed.

Lemma ChunkSize_pos : 0 < ChunkSize <= INT32_MAX.
Proof. done. Qed.

Lemma stream_loop_collect key fuel d context acc index text rest :
  seal_total -> dev_regular d -> dev_rest d = text ++ rest -> (length text <= fuel)%nat ->
  0 <= index -> valid_context (context <| cc_chunk_index := 0 |>) = true ->
  exists d', stream_loop collect key fuel d context acc index (Z.of_nat (length text)) =
             (d', acc ++ seal_chunks key context index (pieces (Z.to_nat ChunkSize) text), Ok tt).
Proof.
  intros Ht. pose proof ChunkSize_pos as Hcs.
  revert d context acc index text. induction fuel as [| f IH]; intros d context acc index text Hd Hr Hf Hi Hv.
  { destruct text; [| simpl in Hf; lia]. exists d. cbn. by rewrite app_nil_r. }
  cbn [stream_loop]. destruct text as [| b text0] eqn:Et; [exists d; cbn; by rewrite app_nil_r |].
  rewrite <- Et in *. assert (0 < Z.of_nat (length text)) as Hpos by (rewrite Et; simpl; lia).
  rewrite (proj2 (Z.ltb_lt _ _) Hpos). cbn [negb].
  set (req := Z.min (Z.of_nat (length text)) ChunkSize). assert (0 < req <= ChunkSize) as Hreq by lia.
  destruct (dev_read d req) as [d1 bs] eqn:Er.
  destruct (dev_read_spec d req d1 bs ltac:(lia) Er) as [Hsplit _].
  destruct (dev_read_regular d req d1 bs Hd ltac:(lia) Er) as (Hd1 & _ & _ & Hbs).
  assert (bs = take (Z.to_nat ChunkSize) text /\ length bs = Z.to_nat req) as [Ebs Elen].
  { rewrite Hbs, Hr, take_app_le by lia. split; [| rewrite length_take; lia].
    destruct (Z.le_ge_cases (Z.of_nat (length text)) ChunkSize).
    - rewrite !take_ge by lia. done.
    - by replace req with ChunkSize by lia. }
  rewrite (proj2 (Z.eqb_eq _ _)) by lia. cbn [negb].
  destruct (encrypt_total key (context <| cc_chunk_index := index |>) bs Ht) as [c Ec]; [| lia |].
  { unfold valid_context in *. cbn in *. bool_hyps. rewrite !andb_true_iff, !negb_true_iff, !Z.ltb_lt, Z.leb_le.
    by split_and!. }
  rewrite Ec. cbn [collect negb].
  assert (dev_rest d1 = drop (Z.to_nat ChunkSize) text ++ rest) as Hr1.
  { apply (app_inv_head bs). rewrite <- Hsplit, Hr, app_assoc. f_equal. by rewrite Ebs, take_drop. }
  assert (Z.of_nat (length text) - req = Z.of_nat (length (drop (Z.to_nat ChunkSize) text))) as ->
    by (rewrite length_drop; lia).
  destruct (IH d1 (context <| cc_chunk_index := index |>)
              (acc ++ [mk_chunk index c (cipher_hash c)]) (index + 1) (drop (Z.to_nat ChunkSize) text))
    as [d' E]; [done | done | rewrite length_drop; lia | lia | done |].
  exists d'. rewrite E, seal_chunks_index, <- app_assoc. f_equal. f_equal. f_equal.
  rewrite (pieces_cons _ text) by (lia || by rewrite Et). cbn [seal_chunks app].
  by rewrite <- Ebs, Ec.
Qed.

(** streaming a regular file of the announced size hands the sink, in order,
    the encryption and hash of each piece of [ChunkSize] bytes, and those pieces
    put together are the file. *)
Theorem stream_encrypt_delivers key d context file rest :
  seal_total -> dev_regular d -> dev_open d = true -> dev_readable d = true ->
  dev_rest d = file ++ rest -> cc_logical_size context = Z.of_nat (length file) ->
  cc_chunk_size context = 0 \/ cc_chunk_size context = ChunkSize ->
  cc_attachment_id context <> "" -> cc_room context <> "" -> file <> [] ->
  exists d',
    stream_encrypt collect key d context [] =
      (d', seal_chunks key (context <| cc_chunk_size := ChunkSize |>) 0 (pieces (Z.to_nat ChunkSize) file), Ok tt) /\
    concat (pieces (Z.to_nat ChunkSize) file) = file.
Proof.
  intros Ht Hd Ho Hrd Hr Hl Hc Ha Hroom Hne.
  assert (0 < cc_logical_size context) as Hp by (rewrite Hl; destruct file; [done | simpl; lia]).
  assert (concat (pieces (Z.to_nat ChunkSize) file) = file) as Hcat
    by (apply pieces_concat; pose proof ChunkSize_pos; lia).
  set (context1 := context <| cc_chunk_size := ChunkSize |>).
  assert ((if cc_chunk_size context =? 0 then context1 else context) = context1) as Ectx.
  { destruct Hc as [-> | Hc]; [done |]. rewrite (proj2 (Z.eqb_neq _ _)) by (rewrite Hc; pose proof ChunkSize_pos; lia).
    destruct context; cbn in *; subst; done. }
  destruct (stream_loop_collect key (Z.to_nat (cc_logical_size context)) d context1 [] 0 file rest)
    as [d' E]; try done; [lia | |].
  { unfold valid_context. cbn. rewrite !andb_true_iff, !negb_true_iff, !is_empty_false, Z.ltb_lt. done. }
  exists d'. split; [| done]. unfold stream_encrypt. rewrite Ho, Hrd, (proj2 (Z.ltb_ge _ _)) by lia. cbn [negb orb].
  fold context1. cbv zeta. rewrite Ectx. change (cc_chunk_size context1) with ChunkSize.
  rewrite Z.eqb_refl. cbn [negb]. change (cc_logical_size context1) with (cc_logical_size context).
  rewrite <- Hl in E. exact E.
Qed.

(** Asked for chunk [i] on a file positioned at byte [i * chunk_size],
    [encrypt_next_chunk] seals exactly that piece of the file, flags the last
    piece and only that one as the end of the file, and reports the end without
    reading once every piece has been taken; nothing overflows. *)
Theorem encrypt_next_chunk_piece key d context file rest :
  let l := cc_logical_size context in
  let c := cc_chunk_size context in
  let i := cc_chunk_index context in
  seal_total -> dev_regular d -> dev_open d = true -> dev_readable d = true ->
  valid_context context = true -> c <= INT32_MAX -> l + c <= INT64_MAX ->
  l = Z.of_nat (length file) -> dev_rest d = drop (Z.to_nat (i * c)) file ++ rest ->
  i <= ceil_div l c ->
  exists d',
    encrypt_next_chunk d key context =
      (d', Ok (if i =? ceil_div l c then (None, true)
               else let p := take (Z.to_nat c) (drop (Z.to_nat (i * c)) file) in
                    let e := default [] (encrypt key context p) in
                    (Some (mk_chunk i e (cipher_hash e)), ceil_div l c =? i + 1))) /\
    (i < ceil_div l c -> dev_regular d' /\ dev_open d' = true /\ dev_readable d' = true /\
                         dev_rest d' = drop (Z.to_nat ((i + 1) * c)) file ++ rest).
Proof.
  intros l c i Ht Hd Ho Hrd Hv Hc32 Hm Hl Hr Hi.
  assert (0 < l /\ 0 < c /\ 0 <= i) as (Hl0 & Hc0 & Hi0).
  { unfold valid_context in Hv. bool_hyps. done. }
  pose proof (ceil_div_spec l c Hc0 Hl0) as Hs.
  unfold encrypt_next_chunk. fold l c i.
  rewrite Ho, Hrd, !(proj2 (Z.leb_gt _ _)), (proj2 (Z.ltb_ge _ _)) by lia. cbn [negb orb].
  rewrite remaining64_ok, chunk_count64_ok by lia.
  destruct (i =? ceil_div l c) eqn:Ei; bool_hyps.
  { rewrite (proj2 (Z.leb_le _ _)) by nia. exists d. split; [done | lia]. }
  assert (i < ceil_div l c) as Hlt by lia. apply ceil_div_lt_iff in Hlt as Hbytes; [| done..].
  rewrite (proj2 (Z.leb_gt _ _)) by lia. rewrite wrap32_id by (unfold in_int32; lia).
  set (n := Z.min c (l - i * c)). destruct (dev_read d n) as [d1 bs] eqn:Er.
  destruct (dev_read_regular d n d1 bs Hd ltac:(lia) Er) as (Hd1 & Ho1 & Hrd1 & Hbs).
  destruct (dev_read_spec d n d1 bs ltac:(lia) Er) as [Hsplit _].
  assert (bs = take (Z.to_nat c) (drop (Z.to_nat (i * c)) file) /\ Z.of_nat (length bs) = n) as [Ebs Hn].
  { assert (Z.of_nat (length (drop (Z.to_nat (i * c)) file)) = l - i * c) as Hd' by (rewrite length_drop; nia).
    rewrite Hbs, Hr, take_app_le by lia. split; [| rewrite length_take; lia].
    destruct (Z.le_ge_cases c (l - i * c)).
    - by replace n with c by lia.
    - rewrite !take_ge by lia. done. }
  rewrite (proj2 (Z.eqb_eq _ _) Hn). cbn [negb].
  destruct (encrypt_total key context bs Ht Hv) as [e Ee]; [lia |].
  exists d1. split.
  - rewrite Ee, <- Ebs, Ee. cbn [default]. do 2 f_equal. f_equal.
    apply eq_true_iff_eq. rewrite Z.leb_le, Z.eqb_eq. lia.
  - intros _. split_and!; [done | congruence | congruence |].
    apply (app_inv_head bs). rewrite <- Hsplit, Hr, app_assoc. f_equal.
    replace (Z.to_nat ((i + 1) * c)) with (Z.to_nat (i * c) + Z.to_nat c)%nat by nia.
    rewrite <- drop_drop. by rewrite Ebs, take_drop.
Qed.

End StreamTheorems.

(** ** A memory buffer as a device, for the witnesses *)

Record buffer := mk_buffer { buf_rest : bytes }.

#[export] Instance buffer_device : InputDevice buffer := {|
  dev_open := fun _ => true;
  dev_readable := fun _ => true;
  dev_read := fun b n => (mk_buffer (drop (Z.to_nat n) (buf_rest b)), take (Z.to_nat n) (buf_rest b));
|}.

#[export] Instance buffer_laws : InputDeviceLaws buffer.
Proof.
  refine {| dev_rest := buf_rest; dev_regular := fun _ => True |}.
  - intros d n d' bs Hn [= <- <-]. cbn. rewrite take_drop, length_take. split; [done | lia].
  - intros d n d' bs _ Hn [= <- <-]. done.
Defined.

Lemma toy_seal_total : @seal_total toy_crypto.
Proof. intros k n a p. cbn. eauto. Qed.

Definition ex_file : bytes := [x61; x62; x63; x64; x65; x66; x67; x68; x69; x6a].

Lemma stream_encrypt_delivers_witness :
  exists d', @stream_encrypt toy_crypto buffer _ _ collect [x01] (mk_buffer (ex_file ++ [xff]))
    (ex_context <| cc_chunk_size := 0 |>) [] =
    (d', @seal_chunks toy_crypto [x01] (ex_context <| cc_chunk_size := ChunkSize |>) 0
           (pieces (Z.to_nat ChunkSize) ex_file), Ok tt).
Proof.
  destruct (@stream_encrypt_delivers toy_crypto buffer _ _ [x01] (mk_buffer (ex_file ++ [xff]))
              (ex_context <| cc_chunk_size := 0 |>) ex_file [xff]) as (d' & E & _);
    [exact toy_seal_total | exact I | reflexivity | reflexivity | reflexivity | reflexivity
     | left; reflexivity | discriminate | discriminate | discriminate |].
  exists d'. exact E.
Defined.

Lemma encrypt_next_chunk_piece_witness :
  exists d', @encrypt_next_chunk toy_crypto buffer _ (mk_buffer (drop 4 ex_file)) [x01] ex_context =
    (d', Ok (Some (mk_chunk 1 (default [] (@encrypt toy_crypto [x01] ex_context [x65; x66; x67; x68]))
                     (@cipher_hash toy_crypto
                        (default [] (@encrypt toy_crypto [x01] ex_context [x65; x66; x67; x68])))), false)).
Proof.
  destruct (@encrypt_next_chunk_piece toy_crypto buffer _ _ [x01] (mk_buffer (drop 4 ex_file))
              ex_context ex_file []) as (d' & E & _);
    [exact toy_seal_total | exact I | reflexivity | reflexivity | reflexivity
     | vm_compute; congruence | vm_compute; congruence | reflexivity | reflexivity | vm_compute; congruence |].
  exists d'. exact E.
Defined.
