(* ===== verification/Manifest.v ===== *)
(** * Manifest: the description of an attachment

    Models client-cpp/gui/src/attachments/attachment_manifest.{hpp,cpp}: the
    object that travels inside an MLS message and carries the key of an
    attachment.  Qt's JSON text codec is the parameter class [QtJson]. *)

From Stdlib Require Import Strings.Byte.
From S2P Require Import Prelude Text Json JsonCodecInstance BridgeProtocol Crypto.

Class QtJson := {
  qt_toJson : list (string * json) -> string;      (* QJsonDocument(object).toJson(Compact) *)
  qt_fromJson : string -> option json;             (* QJsonDocument::fromJson; None on a parse error *)
}.

(** Strings and 64-bit integers. *)
Definition plain_value (j : json) : Prop :=
  match j with JStr _ => True | JInt z => in_int64 z | _ => False end.

(** Documented behaviour: an object of strings and 64-bit integers is read back. *)
Class QtJsonLaws `{QtJson} : Prop := {
  qt_json_roundtrip o : keys_sorted o = true -> Forall (fun kv => plain_value kv.2) o -> qt_fromJson (qt_toJson o) = Some (JObj o);
}.

Record AttachmentManifest := mk_manifest {
  mf_attachmentId : string;
  mf_fileName : string;
  mf_room : string;
  mf_groupId : string;
  mf_logicalSize : Z;
  mf_chunkSize : Z;
  mf_epoch : Z;            (* quint64 *)
  mf_key : bytes;
}.

(** [toVariant().toLongLong()]: a fraction is rounded to the nearest integer. *)
Definition toLongLong (j : option json) : Z :=
  match number j with
  | Some (m, e) =>
      if 0 <=? e then wrap64 (m * 2 ^ e)
      else let half := 2 ^ (- e - 1) in wrap64 (if 0 <=? m then (m + half) / 2 ^ (- e) else - ((- m + half) / 2 ^ (- e)))
  | None => 0
  end.

Definition toULongLong (j : option json) : Z := toLongLong j mod 2 ^ 64.

Section Manifest.
  Context `{QtText} `{CryptoLib} `{QtJson}.

Definition valid (m : AttachmentManifest) : bool :=
  negb (is_empty (trimmed (mf_attachmentId m))) && negb (is_empty (trimmed (mf_fileName m))) &&
  negb (is_empty (trimmed (mf_room m))) && negb (is_empty (trimmed (mf_groupId m))) &&
  (0 <? mf_logicalSize m) && (0 <? mf_chunkSize m) && (0 <? mf_epoch m) && (length (mf_key m) =? 32)%nat.

Definition manifest_fields (m : AttachmentManifest) : list (string * option json) :=
            [("v", Some (JInt 1)); ("attachment_id", Some (JStr (mf_attachmentId m)));
             ("file_name", Some (JStr (mf_fileName m))); ("room", Some (JStr (mf_room m)));
             ("group_id", Some (JStr (mf_groupId m))); ("logical_size", Some (JInt (mf_logicalSize m)));
             ("chunk_size", Some (JInt (mf_chunkSize m))); ("epoch", Some (JInt (wrap64 (mf_epoch m))));
             ("key", Some (JStr (to_base64 (mf_key m))))].

Definition manifest_object (m : AttachmentManifest) : list (string * json) := obj_build (manifest_fields m).

(** The empty byte array when the manifest is not valid. *)
Definition manifest_encode (m : AttachmentManifest) : string :=
  if valid m then qt_toJson (manifest_object m) else "".

Definition manifest_decode (encoded : string) : option AttachmentManifest :=
  match qt_fromJson encoded with
  | Some (JObj o) =>
      let get k := obj_get k o in
      if negb (toInt (get "v") =? 1) || negb (isString (get "attachment_id")) || negb (isString (get "file_name")) ||
         negb (isString (get "room")) || negb (isString (get "group_id")) || negb (isDouble (get "logical_size")) ||
         negb (isDouble (get "chunk_size")) || negb (isDouble (get "epoch")) || negb (isString (get "key"))
      then None
      else
        let candidate := mk_manifest (toString (get "attachment_id")) (toString (get "file_name")) (toString (get "room"))
          (toString (get "group_id")) (toLongLong (get "logical_size")) (toLongLong (get "chunk_size"))
          (toULongLong (get "epoch")) (from_base64 (toString (get "key"))) in
        if valid candidate then Some candidate else None
  | _ => None
  end.

End Manifest.

Lemma toLongLong_int z : in_int64 z -> toLongLong (Some (JInt z)) = z.
Proof. intros Hz. unfold toLongLong. cbn. rewrite Z.mul_1_r. by apply wrap64_id. Qed.

Lemma wrap64_in_int64 z : in_int64 (wrap64 z).
Proof.
  unfold wrap64, wrap_signed, in_int64, INT64_MAX.
  pose proof (Z.mod_pos_bound (z + 2 ^ (64 - 1)) (2 ^ 64) ltac:(lia)). lia.
Qed.

Lemma wrap64_unsigned z : in_uint64 z -> wrap64 z mod 2 ^ 64 = z.
Proof.
  intros Hz. unfold in_uint64, UINT64_MAX in Hz. unfold wrap64, wrap_signed.
  rewrite Zminus_mod_idemp_l. replace (z + 2 ^ (64 - 1) - 2 ^ (64 - 1)) with z by lia. apply Z.mod_small. lia.
Qed.

Section ManifestProofs.
  Context `{QtText} `{CryptoLaws} `{QtJsonLaws}.

Lemma manifest_decode_encode m :
  valid m = true -> in_int64 (mf_logicalSize m) -> in_int64 (mf_chunkSize m) -> in_uint64 (mf_epoch m) ->
  manifest_decode (manifest_encode m) = Some m.
Proof.
  intros Hv Hl Hc He. unfold manifest_encode, manifest_decode. rewrite Hv. rewrite qt_json_roundtrip.
  - assert (forall k, obj_get k (manifest_object m) = field_of k (manifest_fields m)) as Hg.
    { intros k. apply obj_get_build. apply (bool_decide_unpack _). vm_compute. exact I. }
    rewrite !Hg. cbn [manifest_fields field_of String.eqb Ascii.eqb Bool.eqb].
    rewrite !(toLongLong_int _) by done. unfold toULongLong. rewrite toLongLong_int by apply wrap64_in_int64.
    rewrite wrap64_unsigned by done. cbn [toString isString negb orb isDouble]. rewrite base64_roundtrip.
    destruct m. cbn in *. by rewrite Hv.
  - apply obj_build_sorted.
  - apply obj_build_values. repeat constructor; cbn; intros v [= <-]; cbn; try done; try apply wrap64_in_int64.
Qed.

(** a valid manifest is read back exactly as it was written, its key and its
    64-bit epoch included; and whatever is read is a valid manifest. *)
Theorem manifest_roundtrip m :
  valid m = true -> in_int64 (mf_logicalSize m) -> in_int64 (mf_chunkSize m) -> in_uint64 (mf_epoch m) ->
  manifest_decode (manifest_encode m) = Some m /\
  (forall encoded m', manifest_decode encoded = Some m' -> valid m' = true).
Proof.
  intros Hv Hl Hc He. split; [by apply manifest_decode_encode |].
  intros encoded m'. unfold manifest_decode. destruct (qt_fromJson encoded) as [[] |]; try done. cbv zeta.
  destruct (_ || _)%bool; [done |]. match goal with |- context [valid ?c] => destruct (valid c) eqn:E end; [| done].
  intros [= <-]. exact E.
Qed.

End ManifestProofs.

(** ** Witness *)

Definition tree_json : QtJson := {|
  qt_toJson := fun o => bits_of (encode (to_tree (JObj o)));
  qt_fromJson := fun s => of_bits s ≫= fun p => decode p ≫= of_tree;
|}.

Lemma tree_json_laws : @QtJsonLaws tree_json.
Proof.
  split. intros o _ _. cbn [qt_fromJson qt_toJson tree_json]. rewrite of_bits_of. cbn [mbind option_bind].
  rewrite decode_encode. cbn [mbind option_bind]. apply of_to_tree.
Qed.

Definition ex_manifest : AttachmentManifest :=
  mk_manifest "att-1" "notes.txt" "lobby" "g" 10 4 18446744073709551615 (repeat x07 32).

Lemma manifest_roundtrip_witness :
  @manifest_decode AsciiText toy_crypto tree_json (@manifest_encode AsciiText toy_crypto tree_json ex_manifest) = Some ex_manifest.
Proof.
  refine (proj1 (@manifest_roundtrip AsciiText toy_crypto toy_laws tree_json tree_json_laws ex_manifest _ _ _ _)).
  - vm_compute. reflexivity.
  - unfold in_int64. vm_compute. split; discriminate.
  - unfold in_int64. vm_compute. split; discriminate.
  - unfold in_uint64. vm_compute. split; discriminate.
Defined.
