(* ===== verification/Download.v ===== *)
(** * Download: assembling a downloaded attachment

    Models client-cpp/gui/src/attachments/attachment_download_assembler.{hpp,cpp}.
    QFile is the parameter class [FileSystem]; its laws say what each call does
    to the map from paths to contents when it succeeds and what it may do when
    it fails, so the theorems hold under any pattern of I/O failures. *)

From S2P Require Import Prelude Text Protocol Json Message Crypto TransferClient.
From Stdlib Require Import Strings.Byte.

(** ** Files *)

Class FileSystem (F : Type) := {
  fs_create : F -> string -> F * bool;                  (* open(WriteOnly | Truncate) *)
  fs_resize : F -> string -> Z -> F * bool;             (* resize *)
  fs_write_at : F -> string -> Z -> bytes -> F * bool;  (* open(ReadWrite), seek, write of all bytes *)
  fs_exists : F -> string -> bool;
  fs_remove : F -> string -> F * bool;
  fs_rename : F -> string -> string -> F * bool;
}.

Definition resized (n : nat) (content : bytes) : bytes :=
  take n content ++ repeat x00 (n - length content).

Definition spliced (pos : nat) (data content : bytes) : bytes :=
  resized pos content ++ data ++ drop (pos + length data) content.

(** [fs_view] is what the disk holds; [fs_sound] says that no call fails. *)
Class FileSystemLaws (F : Type) `{FileSystem F} := {
  fs_view : F -> gmap string bytes;
  fs_sound : F -> Prop;
  fs_create_spec f p f' ok : fs_create f p = (f', ok) ->
    (if ok then fs_view f' = <[p := []]> (fs_view f) else delete p (fs_view f') = delete p (fs_view f)) /\
    (fs_sound f -> fs_sound f' /\ ok = true);
  fs_resize_spec f p n f' ok : fs_resize f p n = (f', ok) ->
    (if ok then fs_view f' = alter (resized (Z.to_nat n)) p (fs_view f)
     else delete p (fs_view f') = delete p (fs_view f)) /\
    (fs_sound f -> is_Some (fs_view f !! p) -> fs_sound f' /\ ok = true);
  fs_write_at_spec f p n data f' ok : fs_write_at f p n data = (f', ok) ->
    (if ok then fs_view f' = <[p := spliced (Z.to_nat n) data (default [] (fs_view f !! p))]> (fs_view f)
     else delete p (fs_view f') = delete p (fs_view f)) /\
    (fs_sound f -> fs_sound f' /\ ok = true);
  fs_exists_spec f p : fs_exists f p = bool_decide (is_Some (fs_view f !! p));
  fs_remove_spec f p f' ok : fs_remove f p = (f', ok) ->
    (if ok then fs_view f' = delete p (fs_view f) else fs_view f' = fs_view f) /\
    (fs_sound f -> fs_sound f' /\ (is_Some (fs_view f !! p) -> ok = true));
  fs_rename_spec f p q f' ok : fs_rename f p q = (f', ok) ->
    (if ok then exists c, fs_view f !! p = Some c /\ fs_view f !! q = None /\
                          fs_view f' = <[q := c]> (delete p (fs_view f))
     else fs_view f' = fs_view f) /\
    (fs_sound f -> is_Some (fs_view f !! p) -> fs_view f !! q = None -> fs_sound f' /\ ok = true);
}.

(** ** The assembler *)

Record Assembler := mk_assembler {
  outputPath_ : string;
  partPath_ : string;
  key_ : bytes;
  context_ : ChunkContext;
  nextIndex_ : Z;
  complete_ : bool;
}.

#[export] Instance eta_Assembler : EtaRecord Assembler := fun a =>
  {| outputPath_ := outputPath_ a; partPath_ := partPath_ a; key_ := key_ a;
     context_ := context_ a; nextIndex_ := nextIndex_ a; complete_ := complete_ a |}.

Definition new_assembler : Assembler :=
  mk_assembler "" "" (repeat x00 KeySize) (mk_context "" "" "" 0 0 0) 0 false.

Definition partPathFor (outputPath : string) : string := outputPath +:+ ".lanchat-part".

Section Assembler.
  Context `{CryptoLib} {F : Type} `{FileSystem F}.

Definition discardPart (f : F) (a : Assembler) : F * Assembler :=
  if is_empty (partPath_ a) then (f, a)
  else ((fs_remove f (partPath_ a)).1, a <| partPath_ := "" |>).

Definition asm_fail (f : F) (a : Assembler) (reason : string) : F * Assembler * outcome unit :=
  (discardPart f a, Fail reason).

Definition asm_begin (outputPath : string) (key : bytes) (context : ChunkContext) (f : F) (a : Assembler)
    : F * Assembler * outcome unit :=
  let '(f1, a1) := discardPart f a in
  let a2 := a1 <| complete_ := false |> in
  if is_empty outputPath || (cc_logical_size context <=? 0) || (cc_chunk_size context <=? 0)
     || negb (cc_chunk_index context =? 0) || is_empty (cc_attachment_id context) || is_empty (cc_room context)
  then (f1, a2, Fail "invalid attachment download context")
  else
    let partPath := partPathFor outputPath in
    let '(f2, opened) := fs_create f1 partPath in
    let '(f3, sized) := if opened then fs_resize f2 partPath (cc_logical_size context) else (f2, false) in
    if negb opened || negb sized
    then ((fs_remove f3 partPath).1, a2, Fail "unable to create attachment output file")
    else (f3, a2 <| outputPath_ := outputPath |> <| partPath_ := partPath |> <| key_ := key |>
                 <| context_ := context |> <| nextIndex_ := 0 |>, Ok tt).

Definition finalize (f : F) (a : Assembler) : F * Assembler * outcome unit :=
  let '(f1, cleared) :=
    if fs_exists f (outputPath_ a) then fs_remove f (outputPath_ a) else (f, true) in
  if negb cleared then asm_fail f1 a "unable to replace existing attachment output file"
  else
    let '(f2, moved) := fs_rename f1 (partPath_ a) (outputPath_ a) in
    if negb moved then asm_fail f2 a "unable to move attachment into place"
    else (f2, a <| partPath_ := "" |> <| complete_ := true |>, Ok tt).

Definition acceptChunk (index : Z) (ciphertext : bytes) (cipherSha256 : string) (last : bool)
    (f : F) (a : Assembler) : F * Assembler * outcome unit :=
  if is_empty (partPath_ a) then (f, a, Fail "unexpected attachment download chunk")
  else if negb (index =? nextIndex_ a) || bool_decide (ciphertext = []) || negb (size cipherSha256 =? 64)
  then asm_fail f a "unexpected attachment download chunk"
  else if negb (String.eqb (cipher_hash ciphertext) (ascii_lower cipherSha256))
  then asm_fail f a "attachment ciphertext hash mismatch"
  else
    let context := context_ a in
    let chunkCount := chunk_count64 (cc_logical_size context) (cc_chunk_size context) in
    let remaining := remaining64 (cc_logical_size context) (cc_chunk_size context) index in
    let expectedPlaintext := Z.min (cc_chunk_size context) remaining in
    if (index <? 0) || (chunkCount <=? index) || (expectedPlaintext <=? 0)
       || negb (Z.of_nat (length ciphertext) =? expectedPlaintext + Z.of_nat TagSize)
    then asm_fail f a "invalid attachment download chunk size"
    else match decrypt (key_ a) (context <| cc_chunk_index := index |>) ciphertext with
         | None => asm_fail f a "attachment decryption failed"
         | Some plaintext =>
             if negb (Z.of_nat (length plaintext) =? expectedPlaintext)
             then asm_fail f a "attachment decryption failed"
             else
               let '(f1, written) := fs_write_at f (partPath_ a) (wrap64 (index * cc_chunk_size context)) plaintext in
               if negb written then asm_fail f1 a "unable to write attachment output file"
               else
                 let expectedLast := index + 1 =? chunkCount in
                 if negb (Bool.eqb last expectedLast)
                 then asm_fail f1 a "attachment last-chunk marker mismatch"
                 else
                   let a1 := a <| nextIndex_ ::= Z.succ |> in
                   if expectedLast then finalize f1 a1 else (f1, a1, Ok tt)
         end.

Definition asm_cancel (f : F) (a : Assembler) : F * Assembler := discardPart f a.

(** The destructor. *)
Definition asm_destroy (f : F) (a : Assembler) : F := (discardPart f a).1.

(** Move assignment: the target's partial file is discarded and the target
    takes over the source's members; the source is left without a partial file. *)
Definition asm_move (f : F) (target source : Assembler) : F * Assembler * Assembler :=
  ((discardPart f target).1, source, source <| partPath_ := "" |>).

End Assembler.

(** ** Contents of the partial file *)

Definition part_content (total : nat) (ps : list bytes) : bytes := resized total (concat ps).

Lemma part_content_full total ps : length (concat ps) = total -> part_content total ps = concat ps.
Proof.
  intros E. unfold part_content, resized. rewrite take_ge, E, Nat.sub_diag by lia. apply app_nil_r.
Qed.

Lemma spliced_part total ps p : (length (concat ps) + length p <= total)%nat ->
  spliced (length (concat ps)) p (part_content total ps) = part_content total (ps ++ [p]).
Proof.
  intros Hl. unfold spliced, part_content, resized.
  rewrite concat_app. cbn [concat]. rewrite app_nil_r.
  rewrite (take_ge (concat ps) total), (take_ge (concat ps ++ p)) by (rewrite ?length_app; lia).
  rewrite take_app_le, take_ge by lia. rewrite length_app.
  rewrite (length_app (concat ps)), repeat_length.
  replace (length (concat ps) - (length (concat ps) + (total - length (concat ps))))%nat with 0%nat by lia.
  cbn [repeat]. rewrite app_nil_r, <- app_assoc. do 2 f_equal.
  rewrite <- drop_drop, drop_app_length.
  rewrite <- (repeat_length x00 (length p)) at 1.
  replace (total - length (concat ps))%nat with (length p + (total - (length (concat ps) + length p)))%nat by lia.
  by rewrite repeat_app, drop_app_length.
Qed.

Lemma partPathFor_ne out : partPathFor out <> out.
Proof.
  intros E. apply (f_equal String.length) in E. unfold partPathFor in E.
  rewrite str_length_app in E. simpl in E. lia.
Qed.

(** ** One chunk *)

Section Soundness.
  Context `{CryptoLaws} {F : Type} `{FileSystemLaws F}.

(** A download in progress: [ps] are the plaintexts accepted so far. *)
Record downloading (f : F) (a : Assembler) (ps : list bytes) : Prop := mk_downloading {
  dl_part : partPath_ a = partPathFor (outputPath_ a);
  dl_size : 0 < cc_logical_size (context_ a);
  dl_chunk : 0 < cc_chunk_size (context_ a);
  dl_bound : cc_logical_size (context_ a) + cc_chunk_size (context_ a) <= INT64_MAX;
  dl_next : nextIndex_ a = Z.of_nat (length ps);
  dl_open : Z.of_nat (length ps) < ceil_div (cc_logical_size (context_ a)) (cc_chunk_size (context_ a));
  dl_length : Z.of_nat (length (concat ps)) = Z.of_nat (length ps) * cc_chunk_size (context_ a);
  dl_file : fs_view f !! partPath_ a = Some (part_content (Z.to_nat (cc_logical_size (context_ a))) ps);
  dl_complete : complete_ a = false;
}.

Record call := mk_call { ch_index : Z; ch_cipher : bytes; ch_sha : string; ch_last : bool }.

Definition accept (c : call) (f : F) (a : Assembler) : F * Assembler * outcome unit :=
  acceptChunk (ch_index c) (ch_cipher c) (ch_sha c) (ch_last c) f a.

(** The call carried the next chunk: its number, hash and plaintext. *)
Definition carries (a : Assembler) (c : call) (p : bytes) : Prop :=
  cipher_hash (ch_cipher c) = ascii_lower (ch_sha c) /\
  decrypt (key_ a) ((context_ a) <| cc_chunk_index := ch_index c |>) (ch_cipher c) = Some p.

Definition elsewhere (a : Assembler) (m : gmap string bytes) : gmap string bytes :=
  delete (partPathFor (outputPath_ a)) (delete (outputPath_ a) m).

(** The download is over without a result. *)
Definition abandoned (f : F) (a : Assembler) (f' : F) (a' : Assembler) : Prop :=
  partPath_ a' = "" /\ complete_ a' = false /\ elsewhere a (fs_view f') = elsewhere a (fs_view f).

Lemma elsewhere_del_part a m m' : partPath_ a = partPathFor (outputPath_ a) ->
  delete (partPath_ a) m' = delete (partPath_ a) m -> elsewhere a m' = elsewhere a m.
Proof.
  intros E Hm. unfold elsewhere. rewrite E in Hm.
  by rewrite (delete_delete _ (partPathFor _)), Hm, (delete_delete _ (partPathFor _)).
Qed.

Lemma asm_fail_abandoned f0 a0 f a f' a' reason r :
  partPath_ a = partPathFor (outputPath_ a) -> outputPath_ a0 = outputPath_ a -> complete_ a = false ->
  elsewhere a0 (fs_view f) = elsewhere a0 (fs_view f0) ->
  asm_fail f a reason = (f', a', r) -> r = Fail reason /\ abandoned f0 a0 f' a'.
Proof.
  intros Hp Ho Hc He E. unfold asm_fail, discardPart in E. rewrite Hp in E.
  assert (is_empty (partPathFor (outputPath_ a)) = false) as Hne.
  { apply is_empty_false. unfold partPathFor. by destruct (outputPath_ a). }
  rewrite Hne in E. destruct (fs_remove f _) as [f1 ok] eqn:Er. injection E as <- <- <-.
  split; [done |]. split_and!; [done | done |]. rewrite <- He. unfold elsewhere. rewrite Ho.
  apply fs_remove_spec in Er as [Er _]. destruct ok; rewrite Er; [| done].
  by rewrite (delete_delete _ (outputPath_ a)), delete_delete_eq.
Qed.
Lemma finalize_spec f a content f' a' r :
  partPath_ a = partPathFor (outputPath_ a) -> complete_ a = false ->
  fs_view f !! partPath_ a = Some content -> finalize f a = (f', a', r) ->
  (r = Ok tt /\ a' = (a <| partPath_ := "" |> <| complete_ := true |>) /\
   fs_view f' = <[outputPath_ a := content]> (delete (partPath_ a) (fs_view f))) \/
  (exists reason, r = Fail reason /\ abandoned f a f' a').
Proof.
  intros Hp Hc Hf E. unfold finalize in E.
  assert (partPath_ a <> outputPath_ a) as Hne by (rewrite Hp; apply partPathFor_ne).
  set (first := if fs_exists f (outputPath_ a) then _ else _) in E.
  destruct first as [f1 cleared] eqn:E1. subst first.
  assert (if cleared then fs_view f1 = delete (outputPath_ a) (fs_view f) else fs_view f1 = fs_view f) as Hv1.
  { rewrite fs_exists_spec in E1. case_bool_decide as Hex.
    - by apply fs_remove_spec in E1 as [E1 _].
    - injection E1 as <- <-. symmetry. apply delete_id. by apply eq_None_not_Some. }
  destruct cleared; cbn [negb] in E.
  2: { right. eexists. by eapply asm_fail_abandoned; [| | | | exact E]; rewrite ?Hv1. }
  destruct (fs_rename f1 (partPath_ a) (outputPath_ a)) as [f2 moved] eqn:E2.
  apply fs_rename_spec in E2 as [Hv2 _]. destruct moved; cbn [negb] in E.
  - left. injection E as <- <- <-. destruct Hv2 as (c & Hc1 & _ & ->). split_and!; [done | done |].
    rewrite Hv1, lookup_delete_ne, Hf in Hc1 by done. injection Hc1 as <-.
    rewrite Hv1, delete_delete. apply insert_delete_eq.
  - right. eexists. eapply asm_fail_abandoned; [done | reflexivity | done | | exact E].
    unfold elsewhere. rewrite Hv2, Hv1. by rewrite delete_delete_eq.
Qed.

Lemma acceptChunk_step c f a ps f' a' r :
  downloading f a ps -> accept c f a = (f', a', r) ->
  (exists p, r = Ok tt /\ ch_index c = nextIndex_ a /\ carries a c p /\ key_ a' = key_ a /\
     context_ a' = context_ a /\ outputPath_ a' = outputPath_ a /\
     ((downloading f' a' (ps ++ [p]) /\
       delete (partPath_ a) (fs_view f') = delete (partPath_ a) (fs_view f)) \/
      (Z.of_nat (length (ps ++ [p])) = ceil_div (cc_logical_size (context_ a)) (cc_chunk_size (context_ a)) /\
       partPath_ a' = "" /\ complete_ a' = true /\
       Z.of_nat (length (concat (ps ++ [p]))) = cc_logical_size (context_ a) /\
       fs_view f' = <[outputPath_ a := concat (ps ++ [p])]> (delete (partPath_ a) (fs_view f))))) \/
  (exists reason, r = Fail reason /\ abandoned f a f' a').
Proof.
  intros Hd E. destruct Hd as [Hp Hl Hc Hb Hn Ho Hlen Hf Hcm].
  unfold accept, acceptChunk in E.
  assert (is_empty (partPath_ a) = false) as Hne.
  { rewrite Hp. apply is_empty_false. unfold partPathFor. by destruct (outputPath_ a). }
  rewrite Hne in E.
  assert (forall reason, asm_fail f a reason = (f', a', r) ->
          exists reason', r = Fail reason' /\ abandoned f a f' a') as Hfail.
  { intros reason Ef. eexists. by eapply asm_fail_abandoned; [.. | exact Ef]. }
  destruct (_ || _ || _)%bool eqn:Eg; [right; by eapply Hfail |].
  apply orb_false_iff in Eg as [[Ei _]%orb_false_iff _]. bool_hyps.
  rewrite Ei, Hn in E. destruct (negb _) eqn:Eh in E; [right; by eapply Hfail |]. bool_hyps.
  set (L := cc_logical_size (context_ a)) in *. set (C := cc_chunk_size (context_ a)) in *.
  set (n := Z.of_nat (length ps)) in *.
  rewrite chunk_count64_ok, remaining64_ok in E by lia.
  set (expected := Z.min C (L - n * C)) in *.
  destruct (_ || _ || _ || _)%bool eqn:Eg2; [right; by eapply Hfail |]. bool_hyps.
  destruct (decrypt _ _ _) as [p |] eqn:Ed; [| right; by eapply Hfail].
  destruct (Z.of_nat (length p) =? expected) eqn:El; cbn [negb] in E; [| right; by eapply Hfail]. bool_hyps.
  destruct (fs_write_at f _ _ p) as [f1 written] eqn:Ew. apply fs_write_at_spec in Ew as [Hv1 _].
  assert (delete (partPath_ a) (fs_view f1) = delete (partPath_ a) (fs_view f)) as Hdel.
  { destruct written; rewrite Hv1; [apply delete_insert_eq | done]. }
  assert (elsewhere a (fs_view f1) = elsewhere a (fs_view f)) as He1 by (by apply elsewhere_del_part).
  destruct written; cbn [negb] in E; [| right; by eexists; eapply asm_fail_abandoned; [.. | exact E]].
  destruct (Bool.eqb _ _) eqn:Elast; cbn [negb] in E;
    [| right; by eexists; eapply asm_fail_abandoned; [.. | exact E]].
  pose proof (ceil_div_spec L C Hc Hl) as Hs.
  assert (fs_view f1 !! partPath_ a = Some (part_content (Z.to_nat L) (ps ++ [p]))) as Hf1.
  { rewrite Hv1, lookup_insert_eq, Hf. cbn [default]. f_equal.
    rewrite wrap64_id by (unfold in_int64; nia).
    rewrite <- Hlen, Nat2Z.id. apply spliced_part. lia. }
  assert (Z.of_nat (length (concat (ps ++ [p]))) = n * C + expected) as Hlen1.
  { rewrite concat_app, length_app. cbn [concat]. rewrite app_nil_r. lia. }
  assert (Z.of_nat (length (ps ++ [p])) = n + 1) as Hn1 by (rewrite length_app; simpl; lia).
  assert (carries a c p) as Hcar by (split; [done | by rewrite Ei, Hn]).
  set (a1 := a <| nextIndex_ ::= Z.succ |>) in *.
  destruct (n + 1 =? ceil_div L C) eqn:Eend; bool_hyps.
  - destruct (finalize_spec f1 a1 _ f' a' r Hp Hcm Hf1 E) as [(-> & -> & Hv) | (reason & -> & Hab)].
    + left. exists p. split_and!; try done. right. split_and!; try done; [lia | nia |].
      rewrite Hv. cbn. rewrite Hdel, part_content_full by nia. done.
    + right. exists reason. split; [done |]. destruct Hab as (? & ? & He). split_and!; [done | done |].
      by rewrite <- He1.
  - left. exists p. injection E as <- <- <-. split_and!; try done. left.
    split; [| done]. split; try done; cbn; rewrite ?Hn1; fold L C; try lia. nia.
Qed.

(** ** A whole download *)

Fixpoint feed (cs : list call) (f : F) (a : Assembler) : F * Assembler :=
  match cs with
  | [] => (f, a)
  | c :: rest => let '(f1, a1, _) := accept c f a in feed rest f1 a1
  end.

Lemma feed_dead cs f a : partPath_ a = "" -> feed cs f a = (f, a).
Proof.
  intros Hp. induction cs as [| c cs IH]; [done |]. cbn [feed]. unfold accept, acceptChunk.
  rewrite Hp. exact IH.
Qed.

Lemma asm_begin_ok outputPath key context f a f1 a1 :
  asm_begin outputPath key context f a = (f1, a1, Ok tt) ->
  cc_logical_size context + cc_chunk_size context <= INT64_MAX ->
  downloading f1 a1 [] /\ outputPath_ a1 = outputPath /\ key_ a1 = key /\ context_ a1 = context.
Proof.
  intros E Hb. unfold asm_begin in E. destruct (discardPart f a) as [f0 a0].
  destruct (_ || _ || _ || _ || _ || _)%bool eqn:Eg; [done |]. bool_hyps.
  destruct (fs_create f0 _) as [f2 opened] eqn:Ec. apply fs_create_spec in Ec as [Hc _].
  destruct opened; [| done].
  destruct (fs_resize f2 _ _) as [f3 sized] eqn:Es. apply fs_resize_spec in Es as [Hs _].
  destruct sized; [| done]. injection E as <- <-. split; [| done].
  split; try done; cbn; try lia; [by apply ceil_div_pos |].
  rewrite Hs, lookup_alter_eq, Hc, lookup_insert_eq. done.
Qed.

Definition chunk_total (a : Assembler) : nat :=
  Z.to_nat (ceil_div (cc_logical_size (context_ a)) (cc_chunk_size (context_ a))).

(** The calls [done] have been accepted as the plaintexts [ps], in order. *)
Definition accepted (a : Assembler) (done : list call) (ps : list bytes) : Prop :=
  Forall2 (carries a) done ps /\ map ch_index done = seqZ 0 (Z.of_nat (length done)).

Lemma accepted_snoc a done ps c p :
  accepted a done ps -> carries a c p -> ch_index c = Z.of_nat (length ps) ->
  accepted a (done ++ [c]) (ps ++ [p]).
Proof.
  intros [Hf Hi] Hc Hn. split; [by apply Forall2_app; [| constructor] |].
  apply Forall2_length in Hf as Hl.
  rewrite map_app, Hi, length_app, Nat2Z.inj_add, seqZ_app by lia. cbn. by rewrite Hn, Hl.
Qed.

Lemma feed_sound cs f0 f a dn ps f' a' :
  downloading f a ps -> accepted a dn ps ->
  delete (partPath_ a) (fs_view f) = delete (partPath_ a) (fs_view f0) ->
  feed cs f a = (f', a') ->
  (complete_ a' = true ->
   exists qs, accepted a (take (chunk_total a) (dn ++ cs)) qs /\
     Z.of_nat (length (concat qs)) = cc_logical_size (context_ a) /\
     fs_view f' = <[outputPath_ a := concat qs]> (delete (partPath_ a) (fs_view f0))) /\
  elsewhere a (fs_view f') = elsewhere a (fs_view f0).
Proof.
  revert f a dn ps. induction cs as [| c cs IH]; intros f a dn ps Hd Ha He E.
  { injection E as <- <-. split; [by rewrite (dl_complete _ _ _ Hd) |].
    apply elsewhere_del_part; [apply Hd | done]. }
  cbn [feed] in E. destruct (accept c f a) as [[f1 a1] r] eqn:Ec.
  destruct (acceptChunk_step c f a ps f1 a1 r Hd Ec)
    as [(p & _ & Hi & Hcar & Ek & Ex & Eo & [[Hd1 He1] | (Hn & Hp1 & Hc1 & Hl1 & Hv1)]) | (reason & _ & Hp1 & Hc1 & Hv1)].
  - rewrite (dl_next _ _ _ Hd) in Hi.
    assert (accepted a1 (dn ++ [c]) (ps ++ [p])) as Ha1.
    { destruct (accepted_snoc a dn ps c p Ha Hcar Hi) as [X Y]. split; [| done].
      unfold carries in *. by rewrite Ek, Ex. }
    assert (partPath_ a1 = partPath_ a) as Epp
      by (rewrite (dl_part _ _ _ Hd1), (dl_part _ _ _ Hd); by rewrite Eo).
    destruct (IH f1 a1 (dn ++ [c]) (ps ++ [p]) Hd1 Ha1) as [X Y]; [by rewrite Epp, He1 | done |].
    unfold accepted, carries, chunk_total, elsewhere in *. rewrite Ek, Ex, Eo, Epp in *.
    rewrite <- app_assoc in X. done.
  - rewrite (feed_dead cs f1 a1 Hp1) in E. injection E as <- <-.
    rewrite (dl_next _ _ _ Hd) in Hi. split.
    + intros _. exists (ps ++ [p]).
      destruct Ha as [Hf Hix]. apply Forall2_length in Hf as Hlen.
      assert (take (chunk_total a) (dn ++ c :: cs) = dn ++ [c]) as ->.
      { rewrite length_app in Hn. cbn in Hn. unfold chunk_total. rewrite <- Hn.
        rewrite (cons_middle c dn cs), app_assoc, take_app_le, take_ge by (rewrite length_app; cbn; lia). done. }
      split_and!; [by apply accepted_snoc | done | by rewrite Hv1, He].
    + rewrite Hv1. unfold elsewhere. rewrite <- (dl_part _ _ _ Hd), delete_insert_eq, He.
      by rewrite (delete_delete _ (outputPath_ a)), delete_delete_eq.
  - rewrite (feed_dead cs f1 a1 Hp1) in E. injection E as <- <-. split; [by rewrite Hc1 |].
    rewrite Hv1. apply elsewhere_del_part; [apply Hd | done].
Qed.

(** C24: whatever chunks arrive and whatever I/O calls fail, a download that is
    reported complete has put at the output path exactly the concatenation of
    the decryptions of the first [chunk_total] chunks, which carried the numbers
    0, 1, 2, ... and matching hashes, and this is [logical_size] bytes; the
    partial file is gone and no other file has changed. *)
Theorem download_sound outputPath key context f a f1 a1 cs f2 a2 :
  asm_begin outputPath key context f a = (f1, a1, Ok tt) ->
  cc_logical_size context + cc_chunk_size context <= INT64_MAX ->
  feed cs f1 a1 = (f2, a2) ->
  (complete_ a2 = true ->
   exists ps, accepted a1 (take (chunk_total a1) cs) ps /\
     Z.of_nat (length (concat ps)) = cc_logical_size context /\
     fs_view f2 = <[outputPath := concat ps]> (delete (partPathFor outputPath) (fs_view f1))) /\
  elsewhere a1 (fs_view f2) = elsewhere a1 (fs_view f1).
Proof.
  intros Eb Hb E. destruct (asm_begin_ok _ _ _ _ _ _ _ Eb Hb) as (Hd & <- & <- & <-).
  rewrite <- (dl_part _ _ _ Hd). by apply (feed_sound cs f1 f1 a1 [] [] f2 a2 Hd).
Qed.

(** ** Every chunk of an upload is accepted *)

Lemma finalize_sound f a content : fs_sound f -> partPath_ a <> outputPath_ a ->
  fs_view f !! partPath_ a = Some content ->
  exists f' a', finalize f a = (f', a', Ok tt) /\ fs_sound f'.
Proof.
  intros Hs Hne Hf. unfold finalize.
  set (first := if fs_exists f (outputPath_ a) then _ else _).
  destruct first as [f1 cleared] eqn:E1. subst first.
  assert (cleared = true /\ fs_sound f1 /\ fs_view f1 = delete (outputPath_ a) (fs_view f)) as (-> & Hs1 & Hv1).
  { rewrite fs_exists_spec in E1. case_bool_decide as Hex.
    - apply fs_remove_spec in E1 as [E1 Hok]. destruct (Hok Hs) as [? Hr]. by rewrite (Hr Hex) in *.
    - injection E1 as <- <-. split_and!; try done. symmetry. apply delete_id. by apply eq_None_not_Some. }
  cbn [negb]. destruct (fs_rename f1 _ _) as [f2 moved] eqn:E2. apply fs_rename_spec in E2 as [_ Hok].
  destruct Hok as [Hs2 ->]; [done | rewrite Hv1, lookup_delete_ne, Hf by done; eauto
                            | by rewrite Hv1, lookup_delete_eq |].
  cbn [negb]. eauto.
Qed.

(** The call that delivers the sealed plaintext [p] as chunk [i]. *)
Definition call_of (total : Z) (t : TransferChunk) : call :=
  mk_call (tc_index t) (tc_ciphertext t) (tc_cipher_sha256 t) (tc_index t + 1 =? total).

Lemma accept_sealed f a ps p e :
  downloading f a ps -> fs_sound f ->
  encrypt (key_ a) ((context_ a) <| cc_chunk_index := Z.of_nat (length ps) |>) p = Some e ->
  Z.of_nat (length p) = Z.min (cc_chunk_size (context_ a))
    (cc_logical_size (context_ a) - Z.of_nat (length ps) * cc_chunk_size (context_ a)) ->
  exists f' a', accept (call_of (ceil_div (cc_logical_size (context_ a)) (cc_chunk_size (context_ a)))
                         (mk_chunk (Z.of_nat (length ps)) e (cipher_hash e))) f a = (f', a', Ok tt) /\ fs_sound f'.
Proof.
  intros [Hp Hl Hc Hb Hn Ho Hlen Hf Hcm] Hs Ee Hpl.
  set (L := cc_logical_size (context_ a)) in *. set (C := cc_chunk_size (context_ a)) in *.
  set (n := Z.of_nat (length ps)) in *. pose proof (ceil_div_spec L C Hc Hl) as Hsp.
  apply ceil_div_lt_iff in Ho as Hbytes; [| done..].
  destruct (decrypt_encrypt _ _ _ _ Ee) as [Hel Hdec].
  unfold accept, call_of, acceptChunk. cbn [ch_index ch_cipher ch_sha ch_last tc_index tc_ciphertext tc_cipher_sha256].
  assert (is_empty (partPath_ a) = false) as ->.
  { rewrite Hp. apply is_empty_false. unfold partPathFor. by destruct (outputPath_ a). }
  rewrite Hn, Z.eqb_refl, cipher_hash_size, bool_decide_eq_false_2 by (intros ->; cbn in Hel; lia).
  unfold cipher_hash. rewrite toHex_lower, String.eqb_refl. cbn [negb orb]. fold L C.
  rewrite Z.eqb_refl. cbn [negb orb]. rewrite chunk_count64_ok, remaining64_ok by lia.
  rewrite (proj2 (Z.ltb_ge n 0)), (proj2 (Z.leb_gt (ceil_div L C) n)), (proj2 (Z.leb_gt _ 0)),
    (proj2 (Z.eqb_eq (Z.of_nat (length e)) _)) by lia. cbn [negb orb].
  rewrite Hdec, (proj2 (Z.eqb_eq (Z.of_nat (length p)) _)) by lia. cbn [negb].
  destruct (fs_write_at f _ _ p) as [f1 written] eqn:Ew. apply fs_write_at_spec in Ew as [Hv1 Hok].
  destruct (Hok Hs) as [Hs1 ->]. cbn [negb]. rewrite Bool.eqb_reflx. cbn [negb].
  destruct (n + 1 =? ceil_div L C); [| eauto].
  eapply finalize_sound; [done | cbn; rewrite Hp; apply partPathFor_ne | cbn; by rewrite Hv1, lookup_insert_eq].
Qed.

(** The next piece of the file, sealed: it is accepted, and the download is
    complete exactly when nothing of the file is left. *)
Lemma accept_next_piece f0 f a ps text file :
  seal_total -> downloading f a ps -> fs_sound f -> valid_context (context_ a) = true -> cc_chunk_size (context_ a) <= INT32_MAX ->
  concat ps ++ text = file -> Z.of_nat (length file) = cc_logical_size (context_ a) ->
  delete (partPath_ a) (fs_view f) = delete (partPath_ a) (fs_view f0) ->
  let q := take (Z.to_nat (cc_chunk_size (context_ a))) text in
  let text' := drop (Z.to_nat (cc_chunk_size (context_ a))) text in
  exists e f1 a1,
    text <> [] /\
    encrypt (key_ a) ((context_ a) <| cc_chunk_index := Z.of_nat (length ps) |>) q = Some e /\
    accept (call_of (ceil_div (cc_logical_size (context_ a)) (cc_chunk_size (context_ a)))
              (mk_chunk (Z.of_nat (length ps)) e (cipher_hash e))) f a = (f1, a1, Ok tt) /\
    fs_sound f1 /\ key_ a1 = key_ a /\ context_ a1 = context_ a /\ outputPath_ a1 = outputPath_ a /\
    concat (ps ++ [q]) ++ text' = file /\
    ((downloading f1 a1 (ps ++ [q]) /\ partPath_ a1 = partPath_ a /\
      delete (partPath_ a) (fs_view f1) = delete (partPath_ a) (fs_view f0)) \/
     (text' = [] /\ complete_ a1 = true /\ fs_view f1 = <[outputPath_ a := file]> (delete (partPath_ a) (fs_view f0)))).
Proof.
  intros Ht Hd Hs Hv Hc32 Hfile HL He q text'.
  pose proof (dl_chunk _ _ _ Hd) as HC. pose proof (dl_open _ _ _ Hd) as Ho.
  apply ceil_div_lt_iff in Ho as Hb; try apply Hd. pose proof (dl_length _ _ _ Hd) as Hlen.
  assert (Z.of_nat (length text) = cc_logical_size (context_ a) - Z.of_nat (length ps) * cc_chunk_size (context_ a)) as Htl
    by (rewrite <- Hfile, length_app in HL; lia).
  assert (text <> []) as Hne by (intros ->; cbn in Htl; lia).
  assert (Z.of_nat (length q) = Z.min (cc_chunk_size (context_ a)) (cc_logical_size (context_ a) -
            Z.of_nat (length ps) * cc_chunk_size (context_ a))) as Hql by (unfold q; rewrite length_take; lia).
  destruct (encrypt_total (key_ a) ((context_ a) <| cc_chunk_index := Z.of_nat (length ps) |>) q Ht)
    as [e Ee]; [| lia |].
  { apply valid_context_iff in Hv as (?&?&?&?&?). apply valid_context_iff. cbn. split_and!; try done. lia. }
  destruct (accept_sealed f a ps q e Hd Hs Ee Hql) as (f1 & a1 & Eacc & Hs1).
  destruct (acceptChunk_step _ f a ps f1 a1 (Ok tt) Hd Eacc)
    as [(p & _ & _ & [_ Hcar] & Ek & Ex & Eo & Hnext) | (reason & [=] & _)].
  assert (Some q = Some p) as [= <-]
    by (rewrite <- Hcar; symmetry; exact (proj2 (decrypt_encrypt _ _ _ _ Ee))).
  assert (concat (ps ++ [q]) ++ text' = file) as Hfile1.
  { rewrite concat_app. cbn [concat]. rewrite app_nil_r, <- app_assoc. unfold q, text'. by rewrite take_drop. }
  exists e, f1, a1. split_and!; try done.
  destruct Hnext as [[Hd1 He1] | (Hn & Hp1 & Hc1 & Hl1 & Hv1)].
  - left. assert (partPath_ a1 = partPath_ a) as Epp
      by (rewrite (dl_part _ _ _ Hd1), (dl_part _ _ _ Hd); by rewrite Eo).
    split_and!; [done | done | by rewrite He1].
  - right. assert (text' = []) as Hdn.
    { apply length_zero_iff_nil. apply (f_equal length) in Hfile1. rewrite length_app in Hfile1. lia. }
    split_and!; [done | done |]. rewrite Hv1, He. f_equal. rewrite <- Hfile1, Hdn. symmetry. apply app_nil_r.
Qed.

Lemma feed_sealed qs : forall f0 f a ps text file,
  seal_total -> downloading f a ps -> fs_sound f -> qs = pieces (Z.to_nat (cc_chunk_size (context_ a))) text ->
  valid_context (context_ a) = true -> cc_chunk_size (context_ a) <= INT32_MAX ->
  concat ps ++ text = file -> Z.of_nat (length file) = cc_logical_size (context_ a) ->
  delete (partPath_ a) (fs_view f) = delete (partPath_ a) (fs_view f0) ->
  exists f' a',
    feed (map (call_of (ceil_div (cc_logical_size (context_ a)) (cc_chunk_size (context_ a))))
              (seal_chunks (key_ a) (context_ a) (Z.of_nat (length ps)) qs)) f a = (f', a') /\
    complete_ a' = true /\ fs_view f' = <[outputPath_ a := file]> (delete (partPath_ a) (fs_view f0)).
Proof.
  induction qs as [| q qs IH]; intros f0 f a ps text file Ht Hd Hs Hq Hv Hc32 Hfile HL He;
    pose proof (dl_chunk _ _ _ Hd) as HC;
    destruct (accept_next_piece f0 f a ps text file Ht Hd Hs Hv Hc32 Hfile HL He)
      as (e & f1 & a1 & Hne & Ee & Eacc & Hs1 & Ek & Ex & Eo & Hfile1 & Hnext).
  { exfalso. destruct text; [done |]. by rewrite pieces_cons in Hq by (lia || done). }
  rewrite pieces_cons in Hq by (lia || done). injection Hq as Eq Eqs. rewrite <- Eq in *.
  cbn [seal_chunks map feed]. rewrite Ee. cbn [from_option id]. rewrite Eacc.
  destruct Hnext as [(Hd1 & Epp & He1) | (Hdn & Hc1 & Hv1)].
  - destruct (IH f0 f1 a1 (ps ++ [q]) (drop (Z.to_nat (cc_chunk_size (context_ a))) text) file) as (f' & a' & Ef & X);
      rewrite ?Ex, ?Epp; try done.
    rewrite Ek, Ex, Eo, Epp in *. exists f', a'. split; [| done].
    rewrite <- Ef. repeat f_equal. rewrite length_app. cbn. lia.
  - rewrite Hdn in Eqs. cbn in Eqs. rewrite Eqs. cbn [seal_chunks map feed]. by exists f1, a1.
Qed.

(** The calls of a freshly begun download on a disk that works. *)
Lemma asm_begin_sound outputPath key context f :
  fs_sound f -> outputPath <> "" -> valid_context context = true -> cc_chunk_index context = 0 ->
  exists f1 a1, asm_begin outputPath key context f new_assembler = (f1, a1, Ok tt) /\ fs_sound f1 /\
    delete (partPathFor outputPath) (fs_view f1) = delete (partPathFor outputPath) (fs_view f).
Proof.
  intros Hs Hne Hv Hi. unfold asm_begin, discardPart. cbn [partPath_ new_assembler is_empty].
  apply valid_context_iff in Hv as (Ha & Hr & Hl & Hc & _).
  rewrite !(proj2 (is_empty_false _)), (proj2 (Z.leb_gt (cc_logical_size context) 0)),
    (proj2 (Z.leb_gt (cc_chunk_size context) 0)), Hi by done. cbn [negb orb Z.eqb].
  destruct (fs_create f _) as [f2 opened] eqn:Ec. apply fs_create_spec in Ec as [Hcr Hok].
  destruct (Hok Hs) as [Hs2 ->].
  destruct (fs_resize f2 _ _) as [f3 sized] eqn:Es. apply fs_resize_spec in Es as [Hz Hok2].
  destruct Hok2 as [Hs3 ->]; [done | rewrite Hcr, lookup_insert_eq; eauto |].
  cbn [negb orb]. eexists _, _. split_and!; [done | done |].
  by rewrite Hz, delete_alter_eq, Hcr, delete_insert_eq.
Qed.

(** ** Nothing is left behind *)

Lemma discardPart_sound f a m : fs_sound f -> partPath_ a <> "" -> is_Some (fs_view f !! partPath_ a) ->
  delete (partPath_ a) (fs_view f) = m ->
  fs_sound (discardPart f a).1 /\ fs_view (discardPart f a).1 = m.
Proof.
  intros Hs Hp Hf Hm. unfold discardPart. rewrite (proj2 (is_empty_false _) Hp).
  destruct (fs_remove f _) as [f1 ok] eqn:Er. apply fs_remove_spec in Er as [Hv Hok].
  destruct (Hok Hs) as [Hs1 Hr]. rewrite (Hr Hf) in Hv. cbn. by rewrite Hv.
Qed.

Lemma accept_sound c f a ps f' a' r :
  downloading f a ps -> fs_sound f -> accept c f a = (f', a', r) ->
  fs_sound f' /\ (r <> Ok tt -> fs_view f' = delete (partPath_ a) (fs_view f)).
Proof.
  intros Hd Hs E. pose proof (dl_file _ _ _ Hd) as Hf. pose proof (dl_part _ _ _ Hd) as Hp.
  assert (partPath_ a <> "") as Hne by (rewrite Hp; unfold partPathFor; by destruct (outputPath_ a)).
  assert (forall g b reason, partPath_ b = partPath_ a -> fs_sound g -> is_Some (fs_view g !! partPath_ a) ->
            delete (partPath_ a) (fs_view g) = delete (partPath_ a) (fs_view f) ->
            asm_fail g b reason = (f', a', r) ->
            fs_sound f' /\ (r <> Ok tt -> fs_view f' = delete (partPath_ a) (fs_view f))) as Hfail.
  { intros g b reason Eb Hg Hin Hm Ef. unfold asm_fail in Ef.
    destruct (discardPart_sound g b (delete (partPath_ a) (fs_view f))) as [H3 H4]; rewrite ?Eb; try done.
    destruct (discardPart g b). injection Ef as <- <- <-. done. }
  unfold accept, acceptChunk in E. rewrite (proj2 (is_empty_false _) Hne) in E.
  destruct (_ || _ || _)%bool; [by eapply Hfail; [.. | exact E] |].
  destruct (negb _); [by eapply Hfail; [.. | exact E] |].
  destruct (_ || _ || _ || _)%bool; [by eapply Hfail; [.. | exact E] |].
  destruct (decrypt _ _ _) as [p |]; [| by eapply Hfail; [.. | exact E]].
  destruct (negb _); [by eapply Hfail; [.. | exact E] |].
  destruct (fs_write_at f _ _ p) as [f1 written] eqn:Ew. apply fs_write_at_spec in Ew as [Hv1 Hok].
  destruct (Hok Hs) as [Hs1 ->]. cbn [negb] in E.
  assert (is_Some (fs_view f1 !! partPath_ a)) as Hin by (rewrite Hv1, lookup_insert_eq; eauto).
  assert (delete (partPath_ a) (fs_view f1) = delete (partPath_ a) (fs_view f)) as Hm
    by (rewrite Hv1; apply delete_insert_eq).
  destruct (negb _); [by eapply Hfail; [.. | exact E] |].
  destruct (_ =? _); [| injection E as <- <- <-; done].
  destruct Hin as [content Hin].
  destruct (finalize_sound f1 (a <| nextIndex_ ::= Z.succ |>) content Hs1) as (f2 & a2 & E2 & Hs2);
    [cbn; rewrite Hp; apply partPathFor_ne | exact Hin |].
  rewrite E2 in E. injection E as <- <- <-. done.
Qed.

Lemma feed_leaves_nothing cs f0 f a ps f' a' :
  downloading f a ps -> fs_sound f -> delete (partPath_ a) (fs_view f) = delete (partPath_ a) (fs_view f0) ->
  feed cs f a = (f', a') ->
  fs_view (asm_destroy f' a') !! partPath_ a = None /\
  (complete_ a' = false -> fs_view (asm_destroy f' a') = delete (partPath_ a) (fs_view f0)).
Proof.
  revert f a ps. induction cs as [| c cs IH]; intros f a ps Hd Hs He E.
  { injection E as <- <-. pose proof (dl_part _ _ _ Hd) as Hp.
    destruct (discardPart_sound f a (delete (partPath_ a) (fs_view f0))) as [_ Hv]; try done.
    - rewrite Hp. unfold partPathFor. by destruct (outputPath_ a).
    - rewrite (dl_file _ _ _ Hd). eauto.
    - unfold asm_destroy. rewrite Hv. split; [apply lookup_delete_eq | done]. }
  cbn [feed] in E. destruct (accept c f a) as [[f1 a1] r] eqn:Ec.
  destruct (accept_sound c f a ps f1 a1 r Hd Hs Ec) as [Hs1 Hv1].
  destruct (acceptChunk_step c f a ps f1 a1 r Hd Ec)
    as [(p & -> & _ & _ & Ek & Ex & Eo & [[Hd1 He1] | (_ & Hp1 & Hc1 & _ & Hv2)]) | (reason & -> & Hp1 & Hc1 & _)].
  - assert (partPath_ a1 = partPath_ a) as Epp
      by (rewrite (dl_part _ _ _ Hd1), (dl_part _ _ _ Hd); by rewrite Eo).
    destruct (IH f1 a1 (ps ++ [p]) Hd1 Hs1) as [X Y]; [by rewrite Epp, He1 | done |]. by rewrite Epp in *.
  - rewrite (feed_dead cs f1 a1 Hp1) in E. injection E as <- <-.
    unfold asm_destroy, discardPart. rewrite Hp1. cbn. split; [| by rewrite Hc1].
    rewrite Hv2, lookup_insert_ne, lookup_delete_eq; [done |].
    rewrite (dl_part _ _ _ Hd). apply not_eq_sym, partPathFor_ne.
  - rewrite (feed_dead cs f1 a1 Hp1) in E. injection E as <- <-.
    unfold asm_destroy, discardPart. rewrite Hp1. cbn. rewrite Hv1, He by done.
    split; [apply lookup_delete_eq | done].
Qed.


(** C16: a file of at most [MaxLogicalBytes] that is streamed through
    [stream_encrypt] and whose chunks are handed to the assembler under the same
    key and context arrives complete: the output path holds the file, byte for
    byte, the partial file is gone and nothing else on the disk changed. *)
Theorem attachment_roundtrip {D : Type} `{InputDeviceLaws D} (d : D) key context file rest outputPath f :
  seal_total -> dev_regular d -> dev_open d = true -> dev_readable d = true ->
  dev_rest d = file ++ rest -> file <> [] -> Z.of_nat (length file) <= MaxLogicalBytes ->
  cc_logical_size context = Z.of_nat (length file) -> cc_chunk_size context = ChunkSize ->
  cc_chunk_index context = 0 -> cc_attachment_id context <> "" -> cc_room context <> "" ->
  outputPath <> "" -> fs_sound f ->
  exists d' chunks f1 a1 f2 a2,
    stream_encrypt collect key d context [] = (d', chunks, Ok tt) /\
    asm_begin outputPath key context f new_assembler = (f1, a1, Ok tt) /\
    feed (map (call_of (ceil_div (cc_logical_size context) ChunkSize)) chunks) f1 a1 = (f2, a2) /\
    complete_ a2 = true /\
    fs_view f2 = <[outputPath := file]> (delete (partPathFor outputPath) (fs_view f)).
Proof.
  intros Ht Hreg Hop Hrd Hr Hne Hmax Hl Hc Hi Ha Hroom Hout Hs.
  destruct (stream_encrypt_delivers key d context file rest) as (d' & Estr & _); try done; [by right |].
  assert (context <| cc_chunk_size := ChunkSize |> = context) as Ectx by (destruct context; cbn in *; by subst).
  rewrite Ectx in Estr.
  assert (valid_context context = true) as Hv.
  { apply valid_context_iff. rewrite Hc, Hi, Hl. pose proof ChunkSize_pos.
    split_and!; try done. destruct file; [done |]. cbn. lia. }
  destruct (asm_begin_sound outputPath key context f Hs Hout Hv Hi) as (f1 & a1 & Eb & Hs1 & Hv1).
  destruct (asm_begin_ok _ _ _ _ _ _ _ Eb) as (Hd & Eo & Ek & Ex).
  { rewrite Hc, Hl. pose proof ChunkSize_pos. unfold MaxLogicalBytes, INT32_MAX, INT64_MAX in *. lia. }
  assert (partPath_ a1 = partPathFor outputPath) as Epp by (rewrite (dl_part _ _ _ Hd); by rewrite Eo).
  destruct (feed_sealed (pieces (Z.to_nat ChunkSize) file) f f1 a1 [] file file)
    as (f2 & a2 & Ef & Hcm & Hv2); rewrite ?Ex, ?Hc, ?Epp; try done.
  rewrite Ex, Ek, Eo, Epp, Hc in *. exists d', (seal_chunks key context 0 (pieces (Z.to_nat ChunkSize) file)), f1, a1, f2, a2.
  done.
Qed.

End Soundness.

(** ** A disk with scheduled failures, for the witnesses

    [faults] says for each coming call whether it fails; an empty schedule
    never fails. *)

Record disk := mk_disk { dk_files : gmap string bytes; dk_faults : list bool }.

Definition next_fault (d : disk) : bool := default false (head (dk_faults d)).

Definition disk_do (d : disk) (m : option (gmap string bytes)) : disk * bool :=
  match m with
  | Some files =>
      if next_fault d then (mk_disk (dk_files d) (tail (dk_faults d)), false)
      else (mk_disk files (tail (dk_faults d)), true)
  | None => (mk_disk (dk_files d) (tail (dk_faults d)), false)
  end.

#[export] Instance disk_fs : FileSystem disk := {|
  fs_create := fun d p => disk_do d (Some (<[p := []]> (dk_files d)));
  fs_resize := fun d p n =>
    disk_do d (match dk_files d !! p with
               | Some _ => Some (alter (resized (Z.to_nat n)) p (dk_files d))
               | None => None
               end);
  fs_write_at := fun d p n data =>
    disk_do d (Some (<[p := spliced (Z.to_nat n) data (default [] (dk_files d !! p))]> (dk_files d)));
  fs_exists := fun d p => bool_decide (is_Some (dk_files d !! p));
  fs_remove := fun d p =>
    disk_do d (match dk_files d !! p with Some _ => Some (delete p (dk_files d)) | None => None end);
  fs_rename := fun d p q =>
    disk_do d (match dk_files d !! p, dk_files d !! q with
               | Some c, None => Some (<[q := c]> (delete p (dk_files d)))
               | _, _ => None
               end);
|}.

Lemma disk_do_spec d m d' ok : disk_do d m = (d', ok) ->
  match m with
  | Some files => dk_files d' = (if ok then files else dk_files d) /\
                  (dk_faults d = [] -> ok = true)
  | None => ok = false /\ dk_files d' = dk_files d
  end /\ (dk_faults d = [] -> dk_faults d' = []).
Proof.
  unfold disk_do, next_fault. intros E.
  destruct m, (dk_faults d) as [| [] fs]; cbn in E; injection E as <- <-; done.
Qed.

#[export] Instance disk_laws : FileSystemLaws disk.
Proof.
  refine {| fs_view := dk_files; fs_sound := fun d => dk_faults d = [] |};
    cbn [fs_create fs_resize fs_write_at fs_exists fs_remove fs_rename disk_fs].
  - intros f p f' ok E. apply disk_do_spec in E as [[-> Hok] Hs]. destruct ok; naive_solver.
  - intros f p n f' ok E. apply disk_do_spec in E as [Hm Hs].
    destruct (dk_files f !! p); [destruct Hm as [-> Hok]; destruct ok; naive_solver |].
    destruct Hm as [-> ->]. split; [done |]. by intros _ [? ?].
  - intros f p n data f' ok E. apply disk_do_spec in E as [[-> Hok] Hs]. destruct ok; naive_solver.
  - done.
  - intros f p f' ok E. apply disk_do_spec in E as [Hm Hs].
    destruct (dk_files f !! p) eqn:El; [destruct Hm as [-> Hok]; destruct ok; naive_solver |].
    destruct Hm as [-> ->]. split; [done |]. intros H. split; [auto |]. by intros [? ?].
  - intros f p q f' ok E. apply disk_do_spec in E as [Hm Hs].
    destruct (dk_files f !! p) eqn:Ep; [destruct (dk_files f !! q) eqn:Eq |].
    + destruct Hm as [-> ->]. split; [done |]. done.
    + destruct Hm as [-> Hok]. destruct ok; naive_solver.
    + destruct Hm as [-> ->]. split; [done |]. by intros _ [? ?].
Defined.

(** A ten byte file in chunks of four, downloaded over an older file. *)

Definition ex_key : bytes := repeat x07 KeySize.
Definition ex_download : ChunkContext := mk_context "att-1" "lobby" "g" 10 4 0.
Definition ex_chunk_calls : list call :=
  map (call_of 3) (@seal_chunks toy_crypto ex_key ex_download 0 [take 4 ex_file; take 4 (drop 4 ex_file); drop 8 ex_file]).
Definition ex_disk (faults : list bool) : disk :=
  mk_disk {[ "out" := [x6f; x6c; x64]; "other" := [x6b] ]} faults.
Definition ex_begun (faults : list bool) : disk * Assembler :=
  (@asm_begin disk _ "out" ex_key ex_download (ex_disk faults) new_assembler).1.

Lemma ex_begin faults : head faults <> Some true -> head (tail faults) <> Some true ->
  @asm_begin disk _ "out" ex_key ex_download (ex_disk faults) new_assembler =
  ((ex_begun faults).1, (ex_begun faults).2, Ok tt).
Proof. destruct faults as [| [] [| [] fs]]; cbn; try done. Qed.

Lemma download_sound_witness :
  exists ps,
    fs_view (@feed toy_crypto disk _ ex_chunk_calls (ex_begun []).1 (ex_begun []).2).1 !! "out" = Some (concat ps) /\
    Z.of_nat (length (concat ps)) = 10.
Proof.
  destruct (@feed toy_crypto disk _ ex_chunk_calls (ex_begun []).1 (ex_begun []).2) as [f2 a2] eqn:E.
  assert (complete_ a2 = true) as Hc.
  { change (complete_ a2) with (complete_ (f2, a2).2). rewrite <- E. vm_compute. reflexivity. }
  destruct (@download_sound toy_crypto disk _ _ "out" ex_key ex_download (ex_disk []) new_assembler
              (ex_begun []).1 (ex_begun []).2 ex_chunk_calls f2 a2) as [X _];
    [apply ex_begin; discriminate | vm_compute; congruence | exact E |].
  destruct (X Hc) as (ps & _ & Hl & Hv). exists ps. split; [| exact Hl].
  cbn [fst]. rewrite Hv. apply lookup_insert_eq.
Defined.


Lemma attachment_roundtrip_witness :
  exists d' chunks f1 a1 f2 a2,
    @stream_encrypt toy_crypto buffer _ _ collect ex_key (mk_buffer ex_file)
      (ex_download <| cc_chunk_size := ChunkSize |>) [] = (d', chunks, Ok tt) /\
    @asm_begin disk _ "out" ex_key (ex_download <| cc_chunk_size := ChunkSize |>) (ex_disk []) new_assembler
      = (f1, a1, Ok tt) /\
    @feed toy_crypto disk _ (map (call_of (ceil_div (cc_logical_size (ex_download <| cc_chunk_size := ChunkSize |>)) ChunkSize)) chunks)
      f1 a1 = (f2, a2) /\
    complete_ a2 = true /\
    fs_view f2 = <["out" := ex_file]> (delete (partPathFor "out") (fs_view (ex_disk []))).
Proof.
  apply (@attachment_roundtrip toy_crypto toy_laws disk _ _ buffer _ _ (mk_buffer ex_file) ex_key
           (ex_download <| cc_chunk_size := ChunkSize |>) ex_file [] "out" (ex_disk []));
    first [exact toy_seal_total | exact I | reflexivity | discriminate | vm_compute; congruence].
Defined.

(** the class comment says that an existing file at the output path is left
    untouched unless the download completes; when the final rename fails, the
    old file has already been removed and the download is not complete. *)
Theorem failed_rename_loses_output :
  let '(f, a) := @feed toy_crypto disk _ ex_chunk_calls
                   (ex_begun [false; false; false; false; false; false; true]).1
                   (ex_begun [false; false; false; false; false; false; true]).2 in
  complete_ a = false /\ fs_view (ex_disk []) !! "out" = Some [x6f; x6c; x64] /\
  fs_view f !! "out" = None.
Proof. vm_compute. split_and!; reflexivity. Qed.
