(* ===== verification/MlsClient.v ===== *)
(** * MlsClient: the MLS session of one member

    Models client-cpp/gui/src/crypto/mls_client.{hpp,cpp}.  MLS++ is the
    parameter class [MlsLib]: its clients, sessions and pending joins are opaque,
    a call that can throw returns an [outcome], and a call on a session returns
    the session also when it throws.  [MlsLaws] states what the MLS protocol
    promises about members of one group. *)

From S2P Require Import Prelude Text Crypto.
From Stdlib Require Import Strings.Byte.

(** ** The library *)

(** The number given to [mls_new_client] says which client of the process is
    made: key generation is random. *)
Class MlsLib := {
  MlsIdentityClient : Type;                                         (* mls::Client *)
  MlsSession : Type;                                                (* mls::Session *)
  MlsPendingJoin : Type;                                            (* mls::PendingJoin *)
  mls_new_client : nat -> bytes -> outcome MlsIdentityClient;
  mls_start_join : MlsIdentityClient -> outcome MlsPendingJoin;
  mls_key_package : MlsPendingJoin -> outcome bytes;
  mls_begin_session : MlsIdentityClient -> bytes -> outcome MlsSession;
  mls_complete : MlsPendingJoin -> bytes -> outcome MlsSession;
  mls_add : MlsSession -> bytes -> MlsSession * outcome bytes;
  mls_remove : MlsSession -> Z -> MlsSession * outcome bytes;
  mls_commit : MlsSession -> MlsSession * outcome (bytes * bytes);  (* welcome, handshake *)
  mls_handle : MlsSession -> bytes -> MlsSession * outcome bool;
  mls_roster : MlsSession -> list (option bytes);                   (* identities; [None] is not a basic credential *)
  mls_protect : MlsSession -> bytes -> MlsSession * outcome bytes;
  mls_unprotect : MlsSession -> bytes -> MlsSession * outcome bytes;
}.

(** [mls_in_sync a b]: what the member with session [a] protects next, the member
    with session [b] can open.  A member whose key package was added and committed
    joins with the welcome and is in sync with the committer. *)
Class MlsLaws `{MlsLib} := {
  mls_in_sync : MlsSession -> MlsSession -> Prop;
  mls_unprotect_protect a b p a' c : mls_in_sync a b -> mls_protect a p = (a', Ok c) ->
    exists b', mls_unprotect b c = (b', Ok p) /\ mls_in_sync a' b';
  mls_join_welcome a j kp a1 p a2 h a3 w hs a4 h' :
    mls_key_package j = Ok kp -> mls_add a kp = (a1, Ok p) -> mls_handle a1 p = (a2, Ok h) ->
    mls_commit a2 = (a3, Ok (w, hs)) -> mls_handle a3 hs = (a4, Ok h') ->
    exists b, mls_complete j w = Ok b /\ mls_in_sync a4 b;
}.

(** ** The class *)

Section Client.
  Context `{MlsLib}.

Record MlsClient := mk_mls_client {
  client_ : MlsIdentityClient;
  session_ : option MlsSession;
  pendingJoin_ : option MlsPendingJoin;
}.

#[export] Instance eta_MlsClient : EtaRecord MlsClient := fun c =>
  {| client_ := client_ c; session_ := session_ c; pendingJoin_ := pendingJoin_ c |}.

Definition mls_create (nth : nat) (identity : bytes) : outcome MlsClient :=
  do! client <- mls_new_client nth identity;
  do! join <- mls_start_join client;
  Ok (mk_mls_client client None (Some join)).

Definition no_key_package : string := "MLS client has no pending key package".
Definition no_group_session : string := "MLS client has no group session".

Definition keyPackage (c : MlsClient) : outcome bytes :=
  match pendingJoin_ c with
  | None => Fail no_key_package
  | Some join => mls_key_package join
  end.

Definition createGroup (groupId : bytes) (c : MlsClient) : MlsClient * outcome unit :=
  match mls_begin_session (client_ c) groupId with
  | Fail e => (c, Fail e)
  | Ok session => (c <| session_ := Some session |>, Ok tt)
  end.

(** A call that needs the group session. *)
Definition with_session {A} (f : MlsSession -> MlsSession * outcome A) (c : MlsClient) : MlsClient * outcome A :=
  match session_ c with
  | None => (c, Fail no_group_session)
  | Some session => let '(session', r) := f session in (c <| session_ := Some session' |>, r)
  end.

(** Handle a message of one's own, then return [a]. *)
Definition handle_then {A} (message : bytes) (a : A) (s : MlsSession) : MlsSession * outcome A :=
  match mls_handle s message with
  | (s', Fail e) => (s', Fail e)
  | (s', Ok _) => (s', Ok a)
  end.

Definition addMember (keyPackage : bytes) : MlsClient -> MlsClient * outcome bytes :=
  with_session (fun s =>
    match mls_add s keyPackage with
    | (s1, Fail e) => (s1, Fail e)
    | (s1, Ok proposal) => handle_then proposal proposal s1
    end).

Definition handleProposal (proposal : bytes) : MlsClient -> MlsClient * outcome unit :=
  with_session (handle_then proposal tt).

(** The first roster entry with a basic credential of this identity. *)
Fixpoint roster_index (identity : bytes) (index : Z) (roster : list (option bytes)) : option Z :=
  match roster with
  | [] => None
  | entry :: rest =>
      if bool_decide (entry = Some identity) then Some index else roster_index identity (index + 1) rest
  end.

Definition removeMember (identity : bytes) : MlsClient -> MlsClient * outcome bytes :=
  with_session (fun s =>
    match roster_index identity 0 (mls_roster s) with
    | None => (s, Fail "MLS member identity was not found")
    | Some index =>
        match mls_remove s index with
        | (s1, Fail e) => (s1, Fail e)
        | (s1, Ok proposal) => handle_then proposal proposal s1
        end
    end).

(** The welcome and the handshake. *)
Definition mls_client_commit : MlsClient -> MlsClient * outcome (bytes * bytes) :=
  with_session (fun s =>
    match mls_commit s with
    | (s1, Fail e) => (s1, Fail e)
    | (s1, Ok (welcome, handshake)) => handle_then handshake (welcome, handshake) s1
    end).

Definition handleCommit (handshake : bytes) : MlsClient -> MlsClient * outcome unit :=
  with_session (fun s =>
    match mls_handle s handshake with
    | (s1, Fail e) => (s1, Fail e)
    | (s1, Ok true) => (s1, Ok tt)
    | (s1, Ok false) => (s1, Fail "MLS handshake was rejected")
    end).

Definition mls_join (welcome : bytes) (c : MlsClient) : MlsClient * outcome unit :=
  match pendingJoin_ c with
  | None => (c, Fail no_key_package)
  | Some join =>
      match mls_complete join welcome with
      | Fail e => (c, Fail e)
      | Ok session => (c <| session_ := Some session |> <| pendingJoin_ := None |>, Ok tt)
      end
  end.

Definition protect (plaintext : bytes) : MlsClient -> MlsClient * outcome bytes :=
  with_session (fun s => mls_protect s plaintext).

Definition unprotect (ciphertext : bytes) : MlsClient -> MlsClient * outcome bytes :=
  with_session (fun s => mls_unprotect s ciphertext).

End Client.

(** ** Two members *)

Section Members.
  Context `{MlsLaws}.

(** The sessions of two clients are in sync. *)
Definition clients_in_sync (a b : MlsClient) : Prop :=
  exists s t, session_ a = Some s /\ session_ b = Some t /\ mls_in_sync s t.

Lemma unprotect_protect a b p a' c :
  clients_in_sync a b -> protect p a = (a', Ok c) ->
  exists b', unprotect c b = (b', Ok p) /\ clients_in_sync a' b'.
Proof.
  intros (s & t & Ea & Eb & Hs). unfold protect, unprotect, with_session. rewrite Ea, Eb.
  destruct (mls_protect s p) as [s' r] eqn:Ep. intros [= <- ->].
  destruct (mls_unprotect_protect s t p s' c Hs Ep) as (t' & -> & Hs').
  eexists. split; [done |]. exists s', t'. done.
Qed.

Lemma added_member_joins a b kp a1 proposal a2 welcome handshake :
  keyPackage b = Ok kp -> addMember kp a = (a1, Ok proposal) ->
  mls_client_commit a1 = (a2, Ok (welcome, handshake)) ->
  exists b', mls_join welcome b = (b', Ok tt) /\ clients_in_sync a2 b' /\ pendingJoin_ b' = None.
Proof.
  unfold keyPackage, addMember, mls_client_commit, mls_join, with_session, handle_then.
  destruct (pendingJoin_ b) as [j |]; [| done]. intros Hk.
  destruct (session_ a) as [s |]; [| done].
  destruct (mls_add s kp) as [s1 [p |]] eqn:Ea; [| done].
  destruct (mls_handle s1 p) as [s2 [h |]] eqn:Eh; [| done]. intros [= <- <-]. cbn.
  destruct (mls_commit s2) as [s3 [[w hs] |]] eqn:Ec; [| done].
  destruct (mls_handle s3 hs) as [s4 [h' |]] eqn:Eh'; [| done]. intros [= <- <- <-].
  destruct (mls_join_welcome s j kp s1 p s2 h s3 w hs s4 h' Hk Ea Eh Ec Eh') as (t & -> & Hs).
  eexists. split; [done |]. split; [| done]. exists s4, t. done.
Qed.

(** A key package is single use: once it has been joined with, there is none. *)
Lemma joined_has_no_key_package welcome (b b' : MlsClient) :
  mls_join welcome b = (b', Ok tt) -> keyPackage b' = Fail no_key_package.
Proof.
  unfold mls_join, keyPackage. destruct (pendingJoin_ b) as [j |]; [| done].
  destruct (mls_complete j welcome); [| done]. by intros [= <-].
Qed.

End Members.

(** ** An instance

    A toy library: a session is a group id and a counter of commits, messages
    carry a marker byte and a welcome carries the group id. *)

Record toy_session := mk_toy_session { ts_group : bytes; ts_commits : nat; ts_roster : list bytes }.

Definition toy_strip (marker : byte) (m : bytes) : option bytes :=
  match m with
  | b :: rest => if bool_decide (b = marker) then Some rest else None
  | [] => None
  end.

Definition toy_mls : MlsLib := {|
  MlsIdentityClient := bytes;
  MlsSession := toy_session;
  MlsPendingJoin := bytes;
  mls_new_client _ identity := Ok identity;
  mls_start_join c := Ok c;
  mls_key_package j := Ok (x4b :: j);
  mls_begin_session c g := Ok (mk_toy_session g 0 [c]);
  mls_complete j w := match toy_strip x57 w with
                      | Some g => Ok (mk_toy_session g 0 [j])
                      | None => Fail "bad welcome"
                      end;
  mls_add s kp := match toy_strip x4b kp with
                  | Some j => (s, Ok (x41 :: j))
                  | None => (s, Fail "bad key package")
                  end;
  mls_remove s i := (s, Ok [x52]);
  mls_commit s := (s, Ok (x57 :: ts_group s, [x43]));
  mls_handle s m := match m with
                    | [x43] => (mk_toy_session (ts_group s) (S (ts_commits s)) (ts_roster s), Ok true)
                    | x41 :: j => (mk_toy_session (ts_group s) (ts_commits s) (ts_roster s ++ [j]), Ok false)
                    | [x52] => (s, Ok false)
                    | _ => (s, Fail "bad message")
                    end;
  mls_roster s := map Some (ts_roster s);
  mls_protect s p := (s, Ok (x50 :: p));
  mls_unprotect s c := match toy_strip x50 c with
                       | Some p => (s, Ok p)
                       | None => (s, Fail "bad ciphertext")
                       end;
|}.

#[export] Instance toy_mls_laws : @MlsLaws toy_mls.
Proof.
  refine {| mls_in_sync := fun a b : @MlsSession toy_mls => ts_group a = ts_group b |}.
  - intros a b p a' c Hab [= <- <-]. eexists. split; [reflexivity | done].
  - intros a j kp a1 p a2 h a3 w hs a4 h' [= <-] [= <- <-] Hh [= <- <- <-] Hh'. cbn in *.
    assert (ts_group a2 = ts_group a) as Eg by (by injection Hh as <- _).
    assert (ts_group a4 = ts_group a2) as Eg' by (by injection Hh' as <- _).
    eexists. split; [reflexivity |]. cbn. congruence.
Defined.
