(* ===== verification/Attachments.v ===== *)
(** * Attachments: the attachment slots of the connection worker

    Models the attachment part of client-cpp/gui/src/gui_connection_worker.{hpp,cpp}
    in the build with LAN_CHAT_ENABLE_MLSPP: the maps the worker keeps per
    upload, download and MLS group, the upload window, and what the worker does
    with an attachment message from the server.  The session of the worker is
    [Worker]; the operations on MLS groups are in [MlsGroups].

    Outside src/ and therefore parameters: the results of sends, file queries
    and file opens ([HostEnv], indexed by a clock that moves at every one of
    them), the order of QString keys ([QtOrder]), the input device, the disk,
    the crypto and MLS libraries and Qt's JSON. *)

From Stdlib Require Import Strings.Byte.
From stdpp Require Import sorting.
From S2P Require Import Prelude Text Protocol Json Message BridgeProtocol Crypto TransferState TransferClient Manifest.
From S2P Require Import Download MlsClient Worker.

(** ** The environment *)

(** QFileInfo of a path. *)
Record FileInfo := mk_file_info {
  fi_size : Z;
  fi_isFile : bool;
  fi_isReadable : bool;
  fi_absoluteFilePath : string;
}.

Class HostEnv (D : Type) := {
  env_send : nat -> outcome unit;             (* ConnectionState::send on a ready connection *)
  env_file : nat -> string -> FileInfo;       (* QFileInfo(path) *)
  env_open : nat -> string -> option D;       (* QFile(path).open(ReadOnly) *)
  env_fileName : string -> string;            (* QFileInfo(path).fileName() *)
  env_what : string -> json -> string;        (* what() of a json type error at a key *)
  env_last_error : nat -> string;             (* last_error() when no send has just failed *)
}.

(** QString's operator<, as the order of the keys of a std::map. *)
Class QtOrder := { qstring_le : string -> string -> bool }.

Definition key_order `{QtOrder} {A} (a b : string * A) : Prop := qstring_le a.1 b.1 = true.

#[export] Instance key_order_dec `{QtOrder} {A} : RelDecision (@key_order _ A).
Proof. intros a b. unfold key_order. apply _. Defined.

(** The entries of a std::map in the order a loop visits them. *)
Definition map_entries `{QtOrder} {A} (m : gmap string A) : list (string * A) :=
  merge_sort key_order (map_to_list m).

Lemma map_entries_elem `{QtOrder} {A} (m : gmap string A) k a : (k, a) ∈ map_entries m <-> m !! k = Some a.
Proof. unfold map_entries. by rewrite merge_sort_Permutation, elem_of_map_to_list. Qed.

(** ** State *)

Record PendingAttachmentFile := mk_pending_file {
  pf_room : string;
  pf_groupId : string;
  pf_filePath : string;
  pf_key : bytes;
  pf_logicalSize : Z;
}.

Record PendingAttachmentMlsSetup := mk_mls_setup {
  ms_room : string;
  ms_filePath : string;
  ms_groupId : string;
  ms_commandId : string;
  ms_targetUsers : list string;
  ms_nextTarget : Z;
}.

#[export] Instance eta_PendingAttachmentMlsSetup : EtaRecord PendingAttachmentMlsSetup := fun m =>
  {| ms_room := ms_room m; ms_filePath := ms_filePath m; ms_groupId := ms_groupId m; ms_commandId := ms_commandId m;
     ms_targetUsers := ms_targetUsers m; ms_nextTarget := ms_nextTarget m |}.

Record AttachmentDownloadJob := mk_download_job {
  dj_manifest : AttachmentManifest;
  dj_manifestKey : bytes;
  dj_assembler : Assembler;
  dj_commandId : string;
}.

#[export] Instance eta_AttachmentDownloadJob : EtaRecord AttachmentDownloadJob := fun j =>
  {| dj_manifest := dj_manifest j; dj_manifestKey := dj_manifestKey j; dj_assembler := dj_assembler j;
     dj_commandId := dj_commandId j |}.

(** A [shared_ptr<MlsClient>] is an index into the clients made so far. *)
Record MlsGroupState := mk_mls_group {
  mg_client : option nat;
  mg_room : string;
  mg_epoch : Z;                        (* quint64 *)
  mg_commits : gmap Z string;
  mg_welcomes : gmap Z string;
}.

#[export] Instance eta_MlsGroupState : EtaRecord MlsGroupState := fun g =>
  {| mg_client := mg_client g; mg_room := mg_room g; mg_epoch := mg_epoch g; mg_commits := mg_commits g;
     mg_welcomes := mg_welcomes g |}.

Inductive Phase := PhaseProposal | PhaseCommit | PhaseWelcome.

#[export] Instance Phase_eq_dec : EqDecision Phase.
Proof. solve_decision. Defined.

Record PendingMlsOperation := mk_mls_operation {
  op_phase : Phase;
  op_room : string;
  op_group : string;
  op_target : string;
  op_epoch : Z;
  op_proposal : string;
  op_commit : string;
  op_welcome : string;
  op_add : bool;
}.

#[export] Instance eta_PendingMlsOperation : EtaRecord PendingMlsOperation := fun o =>
  {| op_phase := op_phase o; op_room := op_room o; op_group := op_group o; op_target := op_target o;
     op_epoch := op_epoch o; op_proposal := op_proposal o; op_commit := op_commit o; op_welcome := op_welcome o;
     op_add := op_add o |}.

Definition WindowSize : Z := 8.

Section State.
  Context `{MlsLib} {D F : Type}.

Record AttachmentUploadJob := mk_upload_job {
  uj_room : string;
  uj_fileName : string;
  uj_baseCommand : string;
  uj_key : bytes;
  uj_context : ChunkContext;
  uj_input : D;
  uj_lastChunkSent : bool;
  uj_inFlightChunks : Z;
}.

#[export] Instance eta_AttachmentUploadJob : EtaRecord AttachmentUploadJob := fun j =>
  {| uj_room := uj_room j; uj_fileName := uj_fileName j; uj_baseCommand := uj_baseCommand j; uj_key := uj_key j;
     uj_context := uj_context j; uj_input := uj_input j; uj_lastChunkSent := uj_lastChunkSent j;
     uj_inFlightChunks := uj_inFlightChunks j |}.

Record AttachmentWorker := mk_attachment_worker {
  base : Worker;                                                  (* the session, the messages sent, the signals *)
  clock : nat;                                                    (* answers of the environment so far *)
  disk : F;
  clients : list MlsClient;                                       (* every MlsClient made *)
  attachmentTransfers_ : gmap string TransferState;
  pendingAttachmentInits_ : gmap string TransferState;
  pendingAttachmentFiles_ : gmap string PendingAttachmentFile;
  pendingAttachmentChunks_ : gmap string (string * Z);
  attachmentUploadJobs_ : gmap string AttachmentUploadJob;
  pendingAttachmentMlsSetups_ : gmap string PendingAttachmentMlsSetup;
  pendingAttachmentMlsFetches_ : gmap string string;
  pendingAttachmentMlsAdds_ : gmap string string;
  pendingAttachmentManifests_ : gmap string AttachmentManifest;
  receivedAttachmentManifests_ : gmap string AttachmentManifest;
  attachmentDownloadJobs_ : gmap string AttachmentDownloadJob;
  mlsClient_ : option nat;
  mlsKeyPackages_ : gmap string string;
  mlsGroups_ : gmap string MlsGroupState;
  pendingMlsOperations_ : gmap string PendingMlsOperation;
  pendingMlsCommands_ : gset string;
}.

#[export] Instance eta_AttachmentWorker : EtaRecord AttachmentWorker := fun s =>
  {| base := base s; clock := clock s; disk := disk s; clients := clients s;
     attachmentTransfers_ := attachmentTransfers_ s; pendingAttachmentInits_ := pendingAttachmentInits_ s;
     pendingAttachmentFiles_ := pendingAttachmentFiles_ s; pendingAttachmentChunks_ := pendingAttachmentChunks_ s;
     attachmentUploadJobs_ := attachmentUploadJobs_ s; pendingAttachmentMlsSetups_ := pendingAttachmentMlsSetups_ s;
     pendingAttachmentMlsFetches_ := pendingAttachmentMlsFetches_ s; pendingAttachmentMlsAdds_ := pendingAttachmentMlsAdds_ s;
     pendingAttachmentManifests_ := pendingAttachmentManifests_ s; receivedAttachmentManifests_ := receivedAttachmentManifests_ s;
     attachmentDownloadJobs_ := attachmentDownloadJobs_ s; mlsClient_ := mlsClient_ s; mlsKeyPackages_ := mlsKeyPackages_ s;
     mlsGroups_ := mlsGroups_ s; pendingMlsOperations_ := pendingMlsOperations_ s; pendingMlsCommands_ := pendingMlsCommands_ s |}.

Definition fresh_worker (w : Worker) (d : F) : AttachmentWorker :=
  mk_attachment_worker w 0 d [] ∅ ∅ ∅ ∅ ∅ ∅ ∅ ∅ ∅ ∅ ∅ None ∅ ∅ ∅ ∅.

(** ** Signals and sending *)

Definition emit (g : signal) (s : AttachmentWorker) : AttachmentWorker := s <| base ::= signalled g |>.

Definition attachment_error (attachmentId uploadId commandId : string) (chunkSize chunkIndex : Z) (reason : string)
    : AttachmentWorker -> AttachmentWorker :=
  emit (AttachmentEvent "error" attachmentId uploadId commandId chunkSize chunkIndex "" "" "" [] reason 0).

(** [connection_ && connection_->is_ready()] *)
Definition link_up (s : AttachmentWorker) : bool := link_ready (base s).

Context `{HostEnv D}.

(** [connection_->send(message)], with [last_error()] when it fails. *)
Definition wire_send (m : Message) (s : AttachmentWorker) : AttachmentWorker * outcome unit :=
  if negb (link_up s) then (s, Fail "connection is not ready")
  else
    let r := env_send (clock s) in
    let s := s <| clock ::= S |> in
    (match r with Ok _ => s <| base ::= fun w => w <| sent_ ::= fun l => l ++ [m] |> |> | Fail _ => s end, r).

Definition file_info (path : string) (s : AttachmentWorker) : AttachmentWorker * FileInfo :=
  (s <| clock ::= S |>, env_file (clock s) path).

End State.

Arguments AttachmentUploadJob : clear implicits.
Arguments AttachmentWorker {_} _ _.

(** ** Uploading *)

Section Slots.
  Context `{QtText} `{QtOrder} `{CryptoLib} `{QtJson} `{JsonCodec} `{MlsLib} {D F : Type} `{InputDevice D} `{FileSystem F}
    `{HostEnv D}.

#[local] Abbreviation state := (AttachmentWorker D F).

Definition too_large : string := "文件超过 5 GiB 上限".

Definition init_message (room : string) (logicalSize : Z) (commandId : string) : Message :=
  empty_message <| type := "attachment.init" |> <| Message.room := room |> <| logical_size := logicalSize |>
    <| command_id := commandId |>.

Definition sendAttachmentInit (room : string) (logicalSize : Z) (commandId : string) (s : state) : state :=
  let refuse reason := attachment_error "" "" commandId 0 0 reason in
  if MaxLogicalBytes <? logicalSize then refuse too_large s
  else
    let normalizedRoom := trimmed room in
    if negb (link_up s) || is_empty normalizedRoom || (logicalSize <=? 0)
    then refuse "invalid attachment initialization" s
    else
      let normalizedCommand := trimmed commandId in
      let '(transfer, begun) := begin logicalSize ChunkSize initial_transfer in
      if is_empty normalizedCommand || negb begun
      then refuse "attachment command id and transfer state are required" s
      else
        let s := s <| pendingAttachmentInits_ ::= insert normalizedCommand transfer |> in
        match wire_send (init_message normalizedRoom logicalSize normalizedCommand) s with
        | (s, Ok _) => s
        | (s, Fail reason) =>
            emit (ConnectionLost reason)
              (refuse reason (s <| pendingAttachmentInits_ ::= delete normalizedCommand |>))
        end.

Definition chunk_message (uploadId : string) (chunkIndex : Z) (ciphertext : bytes) (cipherSha256 commandId : string) : Message :=
  empty_message <| type := "attachment.chunk" |> <| upload_id := uploadId |> <| chunk_index := chunkIndex |>
    <| Message.ciphertext := to_base64 ciphertext |> <| cipher_sha256 := ascii_lower cipherSha256 |>
    <| command_id := commandId |>.

Definition sendAttachmentChunk (uploadId : string) (chunkIndex : Z) (ciphertext : bytes) (cipherSha256 commandId : string)
    (s : state) : state :=
  let refuse reason := attachment_error "" uploadId commandId 0 chunkIndex reason in
  if negb (link_up s) || is_empty (trimmed uploadId) || (chunkIndex <? 0) || bool_decide (ciphertext = [])
     || negb (size cipherSha256 =? 64)
  then refuse "invalid attachment chunk" s
  else
    let normalizedCommand := trimmed commandId in
    let not_registered := "attachment transfer is not initialized or command is duplicated" in
    match attachmentTransfers_ s !! trimmed uploadId with
    | None => refuse not_registered s
    | Some transfer =>
        let '(transfer, registered) := registerChunkCommand normalizedCommand chunkIndex transfer in
        if is_empty normalizedCommand || negb registered then refuse not_registered s
        else
          let s := s <| attachmentTransfers_ ::= insert (trimmed uploadId) transfer |>
                     <| pendingAttachmentChunks_ ::= insert normalizedCommand (trimmed uploadId, chunkIndex) |> in
          match wire_send (chunk_message (trimmed uploadId) chunkIndex ciphertext cipherSha256 normalizedCommand) s with
          | (s, Ok _) => s
          | (s, Fail reason) =>
              let s := s <| pendingAttachmentChunks_ ::= delete normalizedCommand |>
                         <| attachmentTransfers_ ::= alter fail (trimmed uploadId) |> in
              emit (ConnectionLost reason) (refuse reason s)
          end
    end.

Definition chunk_command (baseCommand : string) (index : Z) : string := baseCommand +:+ "-chunk-" +:+ to_string index.

Definition no_chunk : TransferChunk := mk_chunk 0 [] "".

(** The upload is given up: its transfer fails and its job is dropped. *)
Definition abandon_upload (uploadId : string) (job : AttachmentUploadJob D) (reason : string) (s : state) : state :=
  let s := s <| attachmentTransfers_ ::= alter fail (trimmed uploadId) |> in
  let s := attachment_error "" uploadId (uj_baseCommand job) 0 (cc_chunk_index (uj_context job)) reason s in
  s <| attachmentUploadJobs_ ::= delete (trimmed uploadId) |>.

(** The loop that fills the window; every round puts one more chunk in flight
    or ends it. *)
Fixpoint fill_window (fuel : nat) (uploadId : string) (s : state) : state :=
  match fuel with
  | O => s
  | S fuel' =>
      match attachmentUploadJobs_ s !! trimmed uploadId with
      | None => s
      | Some job =>
          if uj_lastChunkSent job || negb (uj_inFlightChunks job <? WindowSize) then s
          else
            let '(input, r) := encrypt_next_chunk (uj_input job) (uj_key job) (uj_context job) in
            match r with
            | Fail error => abandon_upload uploadId job error s
            | Ok (chunk, endOfFile) =>
                let chunk := default no_chunk chunk in
                if endOfFile && bool_decide (tc_ciphertext chunk = [])
                then abandon_upload uploadId job "attachment file has no remaining data" s
                else
                  let job := job <| uj_input := input |> <| uj_lastChunkSent := endOfFile |>
                                 <| uj_context ::= fun c => c <| cc_chunk_index ::= Z.succ |> |>
                                 <| uj_inFlightChunks ::= Z.succ |> in
                  let s := s <| attachmentUploadJobs_ ::= insert (trimmed uploadId) job |> in
                  let s := sendAttachmentChunk uploadId (tc_index chunk) (tc_ciphertext chunk) (tc_cipher_sha256 chunk)
                             (chunk_command (uj_baseCommand job) (tc_index chunk)) s in
                  match attachmentTransfers_ s !! trimmed uploadId with
                  | None => s
                  | Some transfer => if bool_decide (status_ transfer = Failed) then s else fill_window fuel' uploadId s
                  end
            end
      end
  end.

Definition window_room (uploadId : string) (s : state) : nat :=
  match attachmentUploadJobs_ s !! trimmed uploadId with
  | Some job => Z.to_nat (WindowSize - uj_inFlightChunks job)
  | None => 0
  end.

Definition sendNextAttachmentChunk (uploadId : string) (s : state) : state := fill_window (window_room uploadId s) uploadId s.

(** The pending chunk command for an upload and an index, the first in key order. *)
Definition pending_chunk_for (uploadId : string) (chunkIndex : Z) (s : state) : option (string * (string * Z)) :=
  List.find (fun entry => String.eqb entry.2.1 uploadId && (entry.2.2 =? chunkIndex)) (map_entries (pendingAttachmentChunks_ s)).

Definition attachmentEventCommandId (incoming : Message) (s : state) : string :=
  let commandId := command_id incoming in
  if negb (is_empty commandId) && bool_decide (is_Some (pendingAttachmentChunks_ s !! commandId)) then commandId
  else if negb (String.eqb (type incoming) "attachment.chunk") then commandId
  else match pending_chunk_for (upload_id incoming) (chunk_index incoming) s with
       | Some entry => entry.1
       | None => commandId
       end.

Definition resumeAttachment (uploadId commandId : string) (s : state) : state :=
  let refuse reason := attachment_error "" uploadId commandId 0 0 reason in
  if negb (link_up s) || is_empty (trimmed uploadId) then refuse "invalid attachment resume" s
  else match wire_send (empty_message <| type := "attachment.resume" |> <| upload_id := trimmed uploadId |>
                          <| command_id := trimmed commandId |>) s with
       | (s, Ok _) => s
       | (s, Fail reason) => emit (ConnectionLost reason) (refuse reason s)
       end.

Definition commit_message (uploadId commandId : string) : Message :=
  empty_message <| type := "attachment.commit" |> <| upload_id := uploadId |> <| command_id := commandId |>.

Definition sendAttachmentCommit (uploadId commandId : string) (s : state) : state :=
  let refuse reason := attachment_error "" uploadId commandId 0 0 reason in
  if negb (link_up s) || is_empty (trimmed uploadId) || is_empty (trimmed commandId) then refuse "invalid attachment commit" s
  else match wire_send (commit_message (trimmed uploadId) (trimmed commandId)) s with
       | (s, Ok _) => s
       | (s, Fail reason) => emit (ConnectionLost reason) (refuse reason s)
       end.

(** ** Downloading *)

Definition sendAttachmentDownload (attachmentId : string) (chunkIndex : Z) (commandId : string) (s : state) : state :=
  let refuse reason := attachment_error attachmentId "" commandId 0 chunkIndex reason in
  if negb (link_up s) || is_empty (trimmed attachmentId) || (chunkIndex <? 0) || is_empty (trimmed commandId)
  then refuse "invalid attachment download" s
  else match wire_send (empty_message <| type := "attachment.download" |> <| attachment_id := trimmed attachmentId |>
                          <| chunk_index := chunkIndex |> <| command_id := trimmed commandId |>) s with
       | (s, Ok _) => s
       | (s, Fail reason) => emit (ConnectionLost reason) (refuse reason s)
       end.

Definition attachmentKeyFromBytes (bs : bytes) : option bytes :=
  if negb (length bs =? KeySize)%nat then None else Some bs.

Definition startAttachmentDownload (attachmentId outputPath commandId : string) (s : state) : state :=
  let refuse reason := attachment_error attachmentId "" commandId 0 0 reason in
  let unavailable := "attachment manifest or output path is unavailable" in
  match receivedAttachmentManifests_ s !! trimmed attachmentId with
  | None => refuse unavailable s
  | Some manifest =>
      if is_empty (trimmed outputPath) || is_empty (trimmed commandId) then refuse unavailable s
      else match attachmentKeyFromBytes (mf_key manifest) with
           | None => refuse "attachment manifest contains an invalid key" s
           | Some key =>
               let context := mk_context (mf_attachmentId manifest) (mf_room manifest) (mf_groupId manifest)
                                (mf_logicalSize manifest) (mf_chunkSize manifest) 0 in
               match asm_begin (trimmed outputPath) key context (disk s) new_assembler with
               | (f, _, Fail error) => refuse error (s <| disk := f |>)
               | (f, assembler, Ok _) =>
                   let job := mk_download_job manifest key assembler (trimmed commandId) in
                   sendAttachmentDownload attachmentId 0 commandId
                     (s <| disk := f |> <| attachmentDownloadJobs_ ::= insert (mf_attachmentId manifest) job |>)
               end
           end
  end.

(** ** MLS payloads *)

Definition kMaxMlsOpaqueBytes : Z := 48 * 1024.

Definition encodeMlsOpaque (value : bytes) : string :=
  match value with
  | [] => ""
  | _ => let encoded := to_base64 value in if size encoded <=? kMaxMlsOpaqueBytes then encoded else ""
  end.

Definition decodeMlsOpaque (value : string) : outcome bytes :=
  if is_empty value || (kMaxMlsOpaqueBytes <? size value) || negb (String.eqb (to_base64 (from_base64 value)) value)
  then Fail "invalid MLS opaque value"
  else Ok (from_base64 value).

(** A call on the client behind a shared pointer. *)
Definition on_client {A} (c : nat) (f : MlsClient -> MlsClient * outcome A) (s : state) : state * outcome A :=
  match clients s !! c with
  | None => (s, Fail "")
  | Some client => let '(client, r) := f client in (s <| clients ::= <[c := client]> |>, r)
  end.

(** The json object of an encrypted chat message. *)
Definition mls_envelope (groupId : string) (epoch : Z) (ciphertext : string) : json :=
  JObj (obj_build [("v", Some (JInt 1)); ("alg", Some (JStr "mls-v1")); ("group_id", Some (JStr groupId));
                   ("epoch", Some (JUInt epoch)); ("ciphertext", Some (JStr ciphertext))]).

Definition manifest_message (manifest : AttachmentManifest) (envelope : string) : Message :=
  empty_message <| type := "chat" |> <| Message.room := mf_room manifest |>
    <| message_id := manifestMessageId (mf_attachmentId manifest) |> <| crypto := envelope |>.

Definition sendAttachmentManifest (manifest : AttachmentManifest) (s : state) : state :=
  let refuse reason := attachment_error (mf_attachmentId manifest) "" "" 0 0 reason in
  let plaintext := manifest_encode manifest in
  match mlsGroups_ s !! mf_groupId manifest with
  | Some group =>
      match mg_client group with
      | Some c =>
          if is_empty plaintext then refuse "unable to protect attachment manifest" s
          else match on_client c (protect (bytes_of plaintext)) s with
               | (s, Fail error) => refuse error s
               | (s, Ok protected) =>
                   let ciphertext := encodeMlsOpaque protected in
                   if is_empty ciphertext then refuse "MLS attachment manifest is too large" s
                   else match json_dump (mls_envelope (mf_groupId manifest) (mg_epoch group) ciphertext) with
                        | Fail error => refuse error s
                        | Ok envelope =>
                            match wire_send (manifest_message manifest envelope) s with
                            | (s, Ok _) => s
                            | (s, Fail reason) => emit (ConnectionLost reason) s
                            end
                        end
               end
      | None => refuse "unable to protect attachment manifest" s
      end
  | None => refuse "unable to protect attachment manifest" s
  end.

(** ** Messages from the server *)

Definition job_manifest (job : AttachmentUploadJob D) (s : state) : AttachmentManifest :=
  let context := uj_context job in
  mk_manifest (cc_attachment_id context) (uj_fileName job) (uj_room job) (cc_group_id context) (cc_logical_size context)
    (cc_chunk_size context) (match mlsGroups_ s !! cc_group_id context with Some group => mg_epoch group | None => 0 end)
    (uj_key job).

Definition on_error_reply (commandId : string) (s : state) : state :=
  let s := s <| pendingAttachmentInits_ ::= delete commandId |> <| pendingAttachmentFiles_ ::= delete commandId |> in
  match pendingAttachmentChunks_ s !! commandId with
  | None => s
  | Some (uploadId, _) =>
      s <| attachmentTransfers_ ::= alter fail uploadId |> <| attachmentUploadJobs_ ::= delete uploadId |>
        <| pendingAttachmentChunks_ ::= filter (fun entry => entry.2.1 <> uploadId) |>
  end.

Definition new_job (commandId : string) (file : PendingAttachmentFile) (incoming : Message) (input : D) : AttachmentUploadJob D :=
  mk_upload_job (pf_room file) (env_fileName (pf_filePath file)) commandId (pf_key file)
    (mk_context (attachment_id incoming) (pf_room file) (pf_groupId file) (pf_logicalSize file) (chunk_size incoming) 0)
    input false 0.

Definition on_init_reply (commandId : string) (incoming : Message) (s : state) : state :=
  match pendingAttachmentInits_ s !! commandId with
  | None => s
  | Some transfer =>
      let s := s <| pendingAttachmentInits_ ::= delete commandId |> in
      let '(transfer, accepted) :=
        acceptInit (attachment_id incoming) (upload_id incoming) (chunk_size incoming) (expires_at incoming) transfer in
      if negb accepted then attachment_error "" "" commandId 0 0 "invalid attachment initialization response" s
      else
        let s := s <| attachmentTransfers_ ::= insert (upload_id incoming) transfer |> in
        match pendingAttachmentFiles_ s !! commandId with
        | None => s
        | Some file =>
            let s := s <| pendingAttachmentFiles_ ::= delete commandId |> in
            let opened := env_open (clock s) (pf_filePath file) in
            let s := s <| clock ::= S |> in
            match opened with
            | None => attachment_error "" (upload_id incoming) commandId (chunk_size incoming) 0 "unable to open attachment file" s
            | Some input =>
                sendNextAttachmentChunk (upload_id incoming)
                  (s <| attachmentUploadJobs_ ::= insert (upload_id incoming) (new_job commandId file incoming input) |>)
            end
        end
  end.

Definition on_resume_reply (incoming : Message) (s : state) : state :=
  match attachmentTransfers_ s !! upload_id incoming with
  | None => s
  | Some transfer =>
      s <| attachmentTransfers_ ::= insert (upload_id incoming) (acceptResume (received_indexes incoming) transfer).1 |>
  end.

(** A chunk of a job was acknowledged. *)
Definition on_chunk_acknowledged (uploadId : string) (s : state) : state :=
  match attachmentUploadJobs_ s !! uploadId with
  | None => s
  | Some job =>
      let job := job <| uj_inFlightChunks ::= Z.pred |> in
      let s := s <| attachmentUploadJobs_ ::= insert uploadId job |> in
      if uj_lastChunkSent job && (uj_inFlightChunks job =? 0) then
        let commitCommand := uj_baseCommand job +:+ "-commit" in
        let s := s <| pendingAttachmentManifests_ ::= insert commitCommand (job_manifest job s) |> in
        (sendAttachmentCommit uploadId commitCommand s) <| attachmentUploadJobs_ ::= delete uploadId |>
      else sendNextAttachmentChunk uploadId s
  end.

Definition on_chunk_reply (commandId : string) (incoming : Message) (s : state) : state :=
  let pending := match pendingAttachmentChunks_ s !! commandId with
                 | Some chunk => Some (commandId, chunk)
                 | None => pending_chunk_for (upload_id incoming) (chunk_index incoming) s
                 end in
  match pending with
  | None => s
  | Some (matchedCommandId, (uploadId, chunkIndex)) =>
      let s := s <| pendingAttachmentChunks_ ::= delete matchedCommandId |> in
      match attachmentTransfers_ s !! uploadId with
      | None => s
      | Some transfer =>
          let '(transfer, accepted) := acceptCommandAck matchedCommandId chunkIndex transfer in
          let s := s <| attachmentTransfers_ ::= insert uploadId transfer |> in
          if accepted then on_chunk_acknowledged uploadId s else s
      end
  end.

Definition on_commit_reply (commandId : string) (incoming : Message) (s : state) : state :=
  match pendingAttachmentManifests_ s !! commandId with
  | None => s
  | Some manifest =>
      let s := s <| pendingAttachmentManifests_ ::= delete commandId |> in
      if String.eqb (attachment_id incoming) (mf_attachmentId manifest) then sendAttachmentManifest manifest s else s
  end.

Definition on_download_reply (incoming : Message) (s : state) : state :=
  let attachmentId := attachment_id incoming in
  match attachmentDownloadJobs_ s !! attachmentId with
  | None => s
  | Some job =>
      let '(f, assembler, r) :=
        acceptChunk (chunk_index incoming) (from_base64 (ciphertext incoming)) (cipher_sha256 incoming)
          (String.eqb (content incoming) "last") (disk s) (dj_assembler job) in
      let s := s <| disk := f |> <| attachmentDownloadJobs_ ::= insert attachmentId (job <| dj_assembler := assembler |>) |> in
      match r with
      | Fail error =>
          (attachment_error attachmentId "" (dj_commandId job) (chunk_size incoming) (chunk_index incoming) error s)
            <| attachmentDownloadJobs_ ::= delete attachmentId |>
      | Ok _ =>
          if complete_ assembler
          then emit (AttachmentEvent "completed" attachmentId "" (dj_commandId job) (chunk_size incoming)
                       (chunk_index incoming) "" "" "" [] "" 0)
                 (s <| attachmentDownloadJobs_ ::= delete attachmentId |>)
          else sendAttachmentDownload attachmentId (wrap64 (chunk_index incoming + 1)) (dj_commandId job) s
      end
  end.

Definition processAttachmentMessage (incoming : Message) (s : state) : state :=
  let commandId := command_id incoming in
  let of_type t := String.eqb (type incoming) t in
  if of_type "error" then on_error_reply commandId s
  else if of_type "attachment.init" then on_init_reply commandId incoming s
  else if of_type "attachment.resume" then on_resume_reply incoming s
  else if of_type "attachment.chunk" then on_chunk_reply commandId incoming s
  else if of_type "attachment.commit" then on_commit_reply commandId incoming s
  else if of_type "attachment.download" then on_download_reply incoming s
  else s.

End Slots.

(** ** A concrete host, for the witnesses *)

Definition ascii_order : QtOrder := {| qstring_le := String.leb |}.

(** Files are given by path; sends have the given results. *)
Definition ex_host (files : string -> option bytes) (sends : nat -> outcome unit) : HostEnv buffer := {|
  env_send := sends;
  env_file := fun _ path =>
    match files path with
    | Some content => mk_file_info (Z.of_nat (length content)) true true path
    | None => mk_file_info 0 false false path
    end;
  env_open := fun _ path => mk_buffer <$> files path;
  env_fileName := id;
  env_what := fun key _ => "type error at " +:+ key;
  env_last_error := fun _ => "";
|}.

Definition ex_worker : Worker :=
  initial_worker <| connection_ := Some true |> <| running_ := true |>
    <| savedConnection_ := mk_saved "127.0.0.1" 8888 "alice" "alice01" "" "" true |>.
