(* ===== verification/UploadWindow.v ===== *)
(** * UploadWindow: what an upload sends

    The theorems about the upload window of [Attachments]: an accepted upload
    whose chunks are acknowledged in any order the window allows sends every
    chunk of the file once and in order and then commits; an error reply drops
    the upload; and a resume reply leaves an interrupted upload stuck. *)

From Stdlib Require Import Strings.Byte Permutation.
From S2P Require Import Prelude Text Protocol Json JsonCodecInstance Message BridgeProtocol Crypto TransferState.
From S2P Require Import TransferClient Manifest Download MlsClient Worker Attachments.

(** ** One chunk *)

Section Sending.
  Context `{QtTextLaws} `{QtOrder} `{CryptoLaws} `{QtJson} `{JsonCodec} `{MlsLib} {D F : Type} `{InputDeviceLaws D}
    `{FileSystem F} `{HostEnv D}.

#[local] Abbreviation state := (AttachmentWorker D F).

(** A message has left. *)
Definition after_send (m : Message) (s : state) : state :=
  s <| clock ::= S |> <| base ::= fun w => w <| sent_ ::= fun l => l ++ [m] |> |>.

Lemma wire_send_ok m (s : state) :
  link_up s = true -> env_send (clock s) = Ok tt -> wire_send m s = (after_send m s, Ok tt).
Proof. intros Hl Hs. unfold wire_send. rewrite Hl, Hs. done. Qed.

Lemma chunk_command_trimmed cmd i :
  trimmed cmd = cmd -> cmd <> "" -> 0 <= i -> trimmed (chunk_command cmd i) = chunk_command cmd i.
Proof.
  intros Hc Hne Hi. unfold chunk_command. apply trimmed_app; [done | done | done |]. apply trimmed_plain.
  rewrite string_forall_app. apply andb_true_iff. split; [done |].
  apply (string_forall_impl is_digit); [| by apply to_string_digits].
  intros c Hc'. unfold isalnum. by rewrite Hc'.
Qed.

Lemma chunk_command_inj cmd i j : 0 <= i -> 0 <= j -> chunk_command cmd i = chunk_command cmd j -> i = j.
Proof.
  intros Hi Hj E. do 2 apply str_app_inj_l in E. by apply to_string_inj.
Qed.

Lemma chunk_command_nonempty cmd i : cmd <> "" -> chunk_command cmd i <> "".
Proof. by destruct cmd. Qed.

Lemma sendAttachmentChunk_ok u i ct sha cmd t t' (s : state) :
  link_up s = true -> env_send (clock s) = Ok tt -> trimmed u = u -> u <> "" -> 0 <= i -> ct <> [] -> size sha = 64 ->
  trimmed cmd = cmd -> cmd <> "" -> attachmentTransfers_ s !! u = Some t -> registerChunkCommand cmd i t = (t', true) ->
  sendAttachmentChunk u i ct sha cmd s =
    after_send (chunk_message u i ct sha cmd)
      (s <| attachmentTransfers_ ::= insert u t' |> <| pendingAttachmentChunks_ ::= insert cmd (u, i) |>).
Proof.
  intros Hl Hs Hu Hu0 Hi Hct Hsha Hcmd Hcmd0 Ht Hr. unfold sendAttachmentChunk.
  rewrite Hl, Hu, Hcmd, (proj2 (is_empty_false u)), (proj2 (is_empty_false cmd)), (proj2 (Z.ltb_ge _ _)) by done.
  rewrite bool_decide_false, Hsha, Ht, Hr by done. cbn [negb orb]. rewrite Z.eqb_refl. cbn [negb].
  by rewrite wire_send_ok.
Qed.

Lemma registerChunkCommand_ok cmd i t :
  status_ t = Uploading -> cmd <> "" -> validIndex t i = true -> i ∉ received_ t -> pendingChunkCommands_ t !! cmd = None ->
  registerChunkCommand cmd i t = (t <| pendingChunkCommands_ ::= insert cmd i |>, true).
Proof.
  intros Hst Hc Hv Hr Hp. unfold registerChunkCommand, received.
  rewrite bool_decide_false by (intros E; by apply E). rewrite (proj2 (is_empty_false cmd)), Hv by done.
  rewrite bool_decide_false, Hp by done. done.
Qed.

End Sending.

(** ** The window *)

Section Window.
  Context `{QtTextLaws} `{QtOrder} `{CryptoLaws} `{QtJson} `{JsonCodec} `{MlsLib} {D F : Type} `{InputDeviceLaws D}
    `{FileSystem F} `{HostEnv D}.

#[local] Abbreviation state := (AttachmentWorker D F).

(** One upload: its ids, its key, its file (at the front of the device). *)
Context (u cmd room name grp att : string) (key file rest : bytes).

Definition file_size : Z := Z.of_nat (length file).
Definition chunk_total : Z := ceil_div file_size ChunkSize.
Definition chunk_context (i : Z) : ChunkContext := mk_context att room grp file_size ChunkSize i.
Definition piece (i : Z) : bytes := take (Z.to_nat ChunkSize) (drop (Z.to_nat (i * ChunkSize)) file).
Definition sealed (i : Z) : bytes := default [] (encrypt key (chunk_context i) (piece i)).

(** The message that carries chunk [i]. *)
Definition chunk_sent (i : Z) : Message :=
  chunk_message u i (sealed i) (cipher_hash (sealed i)) (chunk_command cmd i).

Record upload_ok : Prop := mk_upload_ok {
  uo_sends : forall n, env_send n = Ok tt;
  uo_seals : seal_total;
  uo_upload : trimmed u = u /\ u <> "";
  uo_command : trimmed cmd = cmd /\ cmd <> "";
  uo_context : att <> "" /\ room <> "";
  uo_size : 0 < file_size <= MaxLogicalBytes;
}.

(** The device of the job is in front of chunk [m]. *)
Definition device_at (m : Z) (d : D) : Prop :=
  dev_regular d /\ dev_open d = true /\ dev_readable d = true /\ dev_rest d = drop (Z.to_nat (m * ChunkSize)) file ++ rest.

Record job_at (m k : Z) (job : AttachmentUploadJob D) : Prop := mk_job_at {
  ja_room : uj_room job = room;
  ja_name : uj_fileName job = name;
  ja_command : uj_baseCommand job = cmd;
  ja_key : uj_key job = key;
  ja_context : uj_context job = chunk_context m;
  ja_device : device_at m (uj_input job);
  ja_last : uj_lastChunkSent job = (chunk_total =? m);
  ja_flight : uj_inFlightChunks job = m - k;
}.

Record transfer_at (m : Z) (acked : gset Z) (t : TransferState) : Prop := mk_transfer_at {
  ta_status : status_ t = Uploading;
  ta_size : logicalSize_ t = file_size;
  ta_chunk : chunkSize_ t = ChunkSize;
  ta_received : received_ t = acked;
  ta_pending i : 0 <= i < m -> i ∉ acked -> pendingChunkCommands_ t !! chunk_command cmd i = Some i;
  ta_free i : m <= i -> pendingChunkCommands_ t !! chunk_command cmd i = None;
}.

(** Chunks [0 .. m-1] have been sent, those of [acked] are acknowledged. *)
Record window (sent0 : list Message) (s : state) (m : Z) (acked : gset Z) : Prop := mk_window {
  wd_link : link_up s = true;
  wd_job : exists job, attachmentUploadJobs_ s !! u = Some job /\ job_at m (Z.of_nat (base.size acked)) job;
  wd_transfer : exists t, attachmentTransfers_ s !! u = Some t /\ transfer_at m acked t;
  wd_pending i : 0 <= i < m -> i ∉ acked -> pendingAttachmentChunks_ s !! chunk_command cmd i = Some (u, i);
  wd_sent : sent_ (base s) = sent0 ++ map chunk_sent (seqZ 0 m);
  wd_acked i : i ∈ acked -> 0 <= i < m;
  wd_range : 0 <= m <= chunk_total;
}.

Context (Hok : upload_ok).

Lemma chunk_total_pos : 0 < chunk_total.
Proof. apply ceil_div_pos; [apply ChunkSize_pos | apply Hok]. Qed.

Lemma sizes_fit : ChunkSize <= INT32_MAX /\ file_size + ChunkSize <= INT64_MAX.
Proof.
  pose proof (uo_size Hok). pose proof ChunkSize_pos. unfold MaxLogicalBytes, INT64_MAX, INT32_MAX in *. lia.
Qed.

Lemma chunk_context_valid i : 0 <= i -> valid_context (chunk_context i) = true.
Proof.
  intros Hi. destruct (uo_context Hok), (uo_size Hok). pose proof ChunkSize_pos.
  apply valid_context_iff. cbn. split_and!; done.
Qed.

Lemma sealed_nonempty i : 0 <= i -> sealed i <> [].
Proof.
  intros Hi. destruct (encrypt_total key (chunk_context i) (piece i)) as [e Ee].
  - apply Hok.
  - by apply chunk_context_valid.
  - unfold piece. rewrite length_take. pose proof sizes_fit. pose proof ChunkSize_pos. lia.
  - unfold sealed. rewrite Ee. cbn. intros ->. apply encrypt_inv in Ee as (_ & _ & El & _). cbn in El. unfold TagSize in El. lia.
Qed.

Lemma transfer_chunkCount t : logicalSize_ t = file_size -> chunkSize_ t = ChunkSize -> chunkCount t = chunk_total.
Proof.
  intros El Ec. rewrite chunkCount_ok; unfold chunks, sizes_ok; rewrite El, Ec; [done |].
  pose proof ChunkSize_pos. pose proof sizes_fit. pose proof (uo_size Hok). lia.
Qed.

Lemma transfer_validIndex m acked t i : transfer_at m acked t -> validIndex t i = true <-> 0 <= i < chunk_total.
Proof.
  intros Ht. unfold validIndex. rewrite transfer_chunkCount by apply Ht.
  by rewrite andb_true_iff, Z.leb_le, Z.ltb_lt.
Qed.

(** *** Filling *)

Lemma next_chunk m k job : 0 <= m < chunk_total -> job_at m k job ->
  exists d, encrypt_next_chunk (uj_input job) (uj_key job) (uj_context job) =
              (d, Ok (Some (mk_chunk m (sealed m) (cipher_hash (sealed m))), chunk_total =? m + 1)) /\
            device_at (m + 1) d.
Proof.
  intros Hm Hj. destruct (ja_device _ _ _ Hj) as (Hd & Ho & Hr & Hrest). destruct sizes_fit as [H32 H64].
  rewrite (ja_context _ _ _ Hj), (ja_key _ _ _ Hj).
  destruct (encrypt_next_chunk_piece key (uj_input job) (chunk_context m) file rest) as (d & E & Hd'); try done.
  - apply Hok.
  - apply chunk_context_valid; lia.
  - change (m <= chunk_total). lia.
  - exists d. rewrite E. cbn. fold chunk_total. rewrite (proj2 (Z.eqb_neq _ _)) by lia.
    split; [done |]. apply Hd'. cbn. fold chunk_total. lia.
Qed.

(** The state after one more chunk. *)
Definition with_next (m : Z) (job : AttachmentUploadJob D) (d : D) (t : TransferState) (s : state) : state :=
  after_send (chunk_sent m)
    (s <| attachmentUploadJobs_ ::= insert u (job <| uj_input := d |> <| uj_lastChunkSent := (chunk_total =? m + 1) |>
                                                <| uj_context ::= fun c => c <| cc_chunk_index ::= Z.succ |> |>
                                                <| uj_inFlightChunks ::= Z.succ |>) |>
       <| attachmentTransfers_ ::= insert u (t <| pendingChunkCommands_ ::= insert (chunk_command cmd m) m |>) |>
       <| pendingAttachmentChunks_ ::= insert (chunk_command cmd m) (u, m) |>).

Lemma window_with_next sent0 s m acked job d t :
  window sent0 s m acked -> attachmentUploadJobs_ s !! u = Some job -> attachmentTransfers_ s !! u = Some t ->
  m < chunk_total -> device_at (m + 1) d -> window sent0 (with_next m job d t s) (m + 1) acked.
Proof.
  intros [Hl (job0 & Ej & Hj) (t0 & Et & Ht) Hp Hs Ha Hr] Ej' Et' Hm Hd.
  rewrite Ej in Ej'. injection Ej' as ->. rewrite Et in Et'. injection Et' as ->. split.
  - done.
  - eexists. cbn. rewrite lookup_insert_eq. split; [done |]. destruct Hj. split; cbn; try done; try lia.
    rewrite ja_context0. cbn. by rewrite <- Z.add_1_r.
  - eexists. cbn. rewrite lookup_insert_eq. split; [done |]. destruct Ht. split; cbn; try done.
    + intros i Hi Hna. destruct (decide (i = m)) as [-> | Hne]; [by rewrite lookup_insert_eq |].
      rewrite lookup_insert_ne by (intros E; apply chunk_command_inj in E; lia). apply ta_pending0; [lia | done].
    + intros i Hi. rewrite lookup_insert_ne by (intros E; apply chunk_command_inj in E; lia). apply ta_free0. lia.
  - intros i Hi Hna. cbn. destruct (decide (i = m)) as [-> | Hne]; [by rewrite lookup_insert_eq |].
    rewrite lookup_insert_ne by (intros E; apply chunk_command_inj in E; lia). apply Hp; [lia | done].
  - cbn. rewrite Hs, seqZ_app, map_app, app_assoc by lia. done.
  - intros i Hi. specialize (Ha i Hi). lia.
  - lia.
Qed.

Lemma fill_step sent0 s m acked fuel :
  window sent0 s m acked -> m < chunk_total -> m - Z.of_nat (base.size acked) < WindowSize ->
  exists s', fill_window (S fuel) u s = fill_window fuel u s' /\ window sent0 s' (m + 1) acked.
Proof.
  intros Hw Hm Hin. destruct (wd_job _ _ _ _ Hw) as (job & Ej & Hj). destruct (wd_transfer _ _ _ _ Hw) as (t & Et & Ht).
  pose proof (wd_range _ _ _ _ Hw) as Hr. destruct (uo_upload Hok) as [Hu Hu0]. destruct (uo_command Hok) as [Hc Hc0].
  destruct (next_chunk m _ job ltac:(lia) Hj) as (d & En & Hd).
  exists (with_next m job d t s). split; [| by apply window_with_next].
  cbn [fill_window]. rewrite Hu, Ej, (ja_last _ _ _ Hj), (ja_flight _ _ _ Hj).
  rewrite (proj2 (Z.eqb_neq _ _)), (proj2 (Z.ltb_lt _ _) Hin) by lia. cbn [orb negb].
  rewrite En. cbn [default from_option id tc_ciphertext tc_index tc_cipher_sha256].
  rewrite (bool_decide_false (sealed m = [])), andb_false_r by (apply sealed_nonempty; lia). cbv zeta.
  match goal with |- context [sendAttachmentChunk u m ?e ?h ?c ?s1] =>
    change c with (chunk_command (uj_baseCommand job) m); rewrite (ja_command _ _ _ Hj);
    rewrite (sendAttachmentChunk_ok u m e h (chunk_command cmd m) t
               (t <| pendingChunkCommands_ ::= insert (chunk_command cmd m) m |>) s1)
  end; try done; try lia.
  - match goal with |- context [attachmentTransfers_ ?x !! u] =>
      replace (attachmentTransfers_ x !! u) with (Some (t <| pendingChunkCommands_ ::= insert (chunk_command cmd m) m |>))
        by (symmetry; apply lookup_insert_eq)
    end.
    rewrite bool_decide_false; [reflexivity |]. cbn. by rewrite (ta_status _ _ _ Ht).
  - apply Hw.
  - apply Hok.
  - apply sealed_nonempty; lia.
  - apply cipher_hash_size.
  - apply chunk_command_trimmed; (done || lia).
  - by apply chunk_command_nonempty.
  - apply registerChunkCommand_ok; [apply Ht | by apply chunk_command_nonempty | | | apply Ht; lia].
    + apply (transfer_validIndex m acked); [done | lia].
    + rewrite (ta_received _ _ _ Ht). intros Hi%(wd_acked _ _ _ _ Hw). lia.
Qed.

(** The window is filled up to eight chunks, or to the end of the file. *)
Lemma fill_all sent0 fuel s m acked :
  window sent0 s m acked -> m + Z.of_nat fuel = Z.of_nat (base.size acked) + WindowSize ->
  window sent0 (fill_window fuel u s) (Z.min chunk_total (m + Z.of_nat fuel)) acked.
Proof.
  revert s m. induction fuel as [| f IH]; intros s m Hw Hf.
  - pose proof (wd_range _ _ _ _ Hw). replace (Z.min _ _) with m by lia. done.
  - destruct (decide (m < chunk_total)) as [Hlt | Hge].
    + destruct (fill_step sent0 s m acked f Hw Hlt ltac:(lia)) as (s' & -> & Hw').
      replace (m + Z.of_nat (S f)) with (m + 1 + Z.of_nat f) by lia. apply IH; [done | lia].
    + pose proof (wd_range _ _ _ _ Hw). replace (Z.min _ _) with m by lia.
      destruct (wd_job _ _ _ _ Hw) as (job & Ej & Hj). cbn [fill_window].
      rewrite (proj1 (uo_upload Hok)), Ej, (ja_last _ _ _ Hj), (proj2 (Z.eqb_eq _ _)) by lia. done.
Qed.

Lemma sendNext_window sent0 s m acked :
  window sent0 s m acked -> m - Z.of_nat (base.size acked) <= WindowSize ->
  window sent0 (sendNextAttachmentChunk u s) (Z.min chunk_total (Z.of_nat (base.size acked) + WindowSize)) acked.
Proof.
  intros Hw Hin. destruct (wd_job _ _ _ _ Hw) as (job & Ej & Hj).
  unfold sendNextAttachmentChunk, window_room. rewrite (proj1 (uo_upload Hok)), Ej, (ja_flight _ _ _ Hj).
  set (fuel := Z.to_nat _). replace (Z.of_nat (base.size acked) + WindowSize) with (m + Z.of_nat fuel) by lia.
  apply fill_all; [done | lia].
Qed.

(** *** Acknowledging *)

Lemma size_add (i : Z) (X : gset Z) : i ∉ X -> base.size ({[i]} ∪ X) = S (base.size X).
Proof. intros Hi. rewrite size_union, size_singleton by set_solver. done. Qed.

Lemma size_below (m : Z) (X : gset Z) : 0 <= m -> (forall i, i ∈ X -> 0 <= i < m) -> Z.of_nat (base.size X) <= m.
Proof.
  intros Hm Hx. assert (base.size X <= base.size (list_to_set (seqZ 0 m) : gset Z))%nat as Hle.
  { apply subseteq_size. intros i Hi. apply elem_of_list_to_set, elem_of_seqZ. specialize (Hx i Hi). lia. }
  rewrite size_list_to_set, length_seqZ in Hle by apply NoDup_seqZ. lia.
Qed.

(** The transfer after chunk [i] was acknowledged. *)
Definition acknowledged (i : Z) (t : TransferState) : TransferState :=
  t <| pendingChunkCommands_ ::= delete (chunk_command cmd i) |> <| received_ ::= union {[ i ]} |>
    <| failedAttempts_ ::= delete i |>.

Lemma acceptCommandAck_window m acked t i :
  transfer_at m acked t -> 0 <= i < m -> m <= chunk_total -> i ∉ acked ->
  acceptCommandAck (chunk_command cmd i) i t =
    (if Z.of_nat (base.size acked) + 1 =? chunk_total then (acknowledged i t) <| status_ := Completed |>
     else acknowledged i t, true).
Proof.
  intros Ht Hi Hm Hna. unfold acceptCommandAck. rewrite (ta_pending _ _ _ Ht) by done. rewrite Z.eqb_refl. cbn [negb].
  unfold acceptChunkAck, validIndex.
  change (status_ (t <| pendingChunkCommands_ ::= delete (chunk_command cmd i) |>)) with (status_ t). rewrite (ta_status _ _ _ Ht), bool_decide_false by (intros E; by apply E).
  rewrite transfer_chunkCount by apply Ht. rewrite (proj2 (Z.leb_le _ _)), (proj2 (Z.ltb_lt _ _)) by lia. cbn [andb negb orb].
  fold (acknowledged i t). cbv zeta. rewrite transfer_chunkCount by apply Ht.
  unfold receivedCount. change (received_ (acknowledged i t)) with ({[ i ]} ∪ received_ t).
  rewrite (ta_received _ _ _ Ht), size_add by done. by rewrite Nat2Z.inj_succ, <- Z.add_1_r.
Qed.

Lemma transfer_acknowledged m acked t i :
  transfer_at m acked t -> 0 <= i -> transfer_at m ({[i]} ∪ acked) (acknowledged i t).
Proof.
  intros Ht Hi0. destruct Ht. split; cbn; try done; [by rewrite ta_received0 | |].
  - intros j Hj Hna. rewrite lookup_delete_ne; [apply ta_pending0; [done | set_solver] |].
    intros E. apply chunk_command_inj in E; [set_solver | lia | lia].
  - intros j Hj. apply lookup_delete_None. right. by apply ta_free0.
Qed.

(** The state once the acknowledgement is booked. *)
Definition booked (i : Z) (job : AttachmentUploadJob D) (t : TransferState) (s : state) : state :=
  s <| pendingAttachmentChunks_ ::= delete (chunk_command cmd i) |> <| attachmentTransfers_ ::= insert u t |>
    <| attachmentUploadJobs_ ::= insert u (job <| uj_inFlightChunks ::= Z.pred |>) |>.

Lemma window_booked sent0 s m acked job t i :
  window sent0 s m acked -> attachmentUploadJobs_ s !! u = Some job -> attachmentTransfers_ s !! u = Some t ->
  0 <= i < m -> i ∉ acked -> window sent0 (booked i job (acknowledged i t) s) m ({[i]} ∪ acked).
Proof.
  intros [Hl (job0 & Ej & Hj) (t0 & Et & Ht) Hp Hs Ha Hr] Ej' Et' Hi Hna.
  rewrite Ej in Ej'. injection Ej' as ->. rewrite Et in Et'. injection Et' as ->. split.
  - done.
  - eexists. cbn. rewrite lookup_insert_eq. split; [done |]. rewrite size_add by done. destruct Hj. split; cbn; try done. lia.
  - eexists. cbn. rewrite lookup_insert_eq. split; [done |]. apply transfer_acknowledged; [done | lia].
  - intros j Hj' Hnj. cbn. rewrite lookup_delete_ne; [apply Hp; [done | set_solver] |].
    intros E. apply chunk_command_inj in E; [set_solver | lia | lia].
  - done.
  - intros j [Hj'%elem_of_singleton | Hj']%elem_of_union; [lia | by apply Ha].
  - done.
Qed.

Lemma acknowledged_refills (s : state) job :
  attachmentUploadJobs_ s !! u = Some job -> uj_lastChunkSent job = false \/ uj_inFlightChunks job <> 1 ->
  on_chunk_acknowledged u s =
    sendNextAttachmentChunk u (s <| attachmentUploadJobs_ ::= insert u (job <| uj_inFlightChunks ::= Z.pred |>) |>).
Proof.
  intros Ej Hj. unfold on_chunk_acknowledged. rewrite Ej. cbv zeta.
  match goal with |- (if ?b then _ else _) = _ => replace b with false; [reflexivity |] end.
  symmetry. apply andb_false_iff. rewrite Z.eqb_neq. destruct Hj as [Hj | Hj]; [by left | right]. cbn. lia.
Qed.

(** A chunk command of the window is answered. *)
Lemma on_chunk_reply_window (s : state) i incoming t t' :
  pendingAttachmentChunks_ s !! chunk_command cmd i = Some (u, i) -> attachmentTransfers_ s !! u = Some t ->
  acceptCommandAck (chunk_command cmd i) i t = (t', true) ->
  on_chunk_reply (chunk_command cmd i) incoming s =
    on_chunk_acknowledged u (s <| pendingAttachmentChunks_ ::= delete (chunk_command cmd i) |>
                               <| attachmentTransfers_ ::= insert u t' |>).
Proof.
  intros Hp Et Ha. unfold on_chunk_reply. rewrite Hp. cbv zeta.
  match goal with |- match ?x with _ => _ end = _ => replace x with (Some t) by (symmetry; exact Et) end.
  by rewrite Ha.
Qed.

(** An acknowledgement of chunk [i]. *)
Definition ack_for (i : Z) (incoming : Message) : Prop :=
  type incoming = "attachment.chunk" /\ command_id incoming = chunk_command cmd i.

Lemma ack_step sent0 s m acked i incoming :
  window sent0 s m acked -> ack_for i incoming -> 0 <= i < m -> i ∉ acked ->
  m - Z.of_nat (base.size acked) <= WindowSize -> Z.of_nat (base.size acked) + 1 < chunk_total ->
  window sent0 (processAttachmentMessage incoming s)
    (Z.min chunk_total (Z.of_nat (base.size acked) + 1 + WindowSize)) ({[i]} ∪ acked).
Proof.
  intros Hw [Hty Hcmd] Hi Hna Hin Hlt.
  destruct (wd_job _ _ _ _ Hw) as (job & Ej & Hj). destruct (wd_transfer _ _ _ _ Hw) as (t & Et & Ht).
  pose proof (wd_range _ _ _ _ Hw) as Hr.
  pose proof (window_booked sent0 s m acked job t i Hw Ej Et Hi Hna) as Hb.
  assert (processAttachmentMessage incoming s = sendNextAttachmentChunk u (booked i job (acknowledged i t) s)) as ->.
  { unfold processAttachmentMessage. rewrite Hty, Hcmd. cbn [String.eqb Ascii.eqb Bool.eqb].
    rewrite (on_chunk_reply_window s i incoming t (acknowledged i t)); [| by apply Hw | done |].
    - rewrite (acknowledged_refills _ job); [reflexivity | exact Ej |].
      rewrite (ja_last _ _ _ Hj), (ja_flight _ _ _ Hj), Z.eqb_neq. lia.
    - rewrite (acceptCommandAck_window m acked t i Ht Hi ltac:(lia) Hna), (proj2 (Z.eqb_neq _ _)) by lia. done. }
  replace (Z.of_nat (base.size acked) + 1) with (Z.of_nat (base.size ({[i]} ∪ acked))) by (rewrite size_add by done; lia).
  apply sendNext_window with m; [done |]. rewrite size_add by done. lia.
Qed.

(** Every chunk has been sent and acknowledged and the upload is committed. *)
Definition commit_command : string := cmd +:+ "-commit".

Definition group_epoch (g : string) (s : state) : Z :=
  match mlsGroups_ s !! g with Some group => mg_epoch group | None => 0 end.

Record uploaded (sent0 : list Message) (s : state) : Prop := mk_uploaded {
  ud_sent : sent_ (base s) = sent0 ++ map chunk_sent (seqZ 0 chunk_total) ++ [commit_message u commit_command];
  ud_transfer : exists t, attachmentTransfers_ s !! u = Some t /\ status_ t = Completed /\
                  received_ t = list_to_set (seqZ 0 chunk_total);
  ud_job : attachmentUploadJobs_ s !! u = None;
  ud_manifest : pendingAttachmentManifests_ s !! commit_command =
                  Some (mk_manifest att name room grp file_size ChunkSize (group_epoch grp s) key);
}.

Lemma commit_command_trimmed : trimmed commit_command = commit_command.
Proof. destruct (uo_command Hok). by apply trimmed_app; [| | | apply trimmed_plain]. Qed.

Lemma commit_command_nonempty : commit_command <> "".
Proof. destruct (uo_command Hok). unfold commit_command. by destruct cmd. Qed.

Lemma sendAttachmentCommit_ok (s : state) : link_up s = true ->
  sendAttachmentCommit u commit_command s = after_send (commit_message u commit_command) s.
Proof.
  intros Hl. destruct (uo_upload Hok) as [Hu Hu0]. unfold sendAttachmentCommit.
  rewrite Hl, Hu, commit_command_trimmed, (proj2 (is_empty_false u)), (proj2 (is_empty_false commit_command))
    by (done || apply commit_command_nonempty).
  cbn [negb orb]. rewrite wire_send_ok; [done | done | apply Hok].
Qed.

Lemma all_acknowledged (X : gset Z) m :
  (forall i, i ∈ X -> 0 <= i < m) -> Z.of_nat (base.size X) = m -> X = list_to_set (seqZ 0 m).
Proof.
  intros Hx Hs. apply set_subseteq_size_eq.
  - intros i Hi. apply elem_of_list_to_set, elem_of_seqZ. specialize (Hx i Hi). lia.
  - rewrite size_list_to_set, length_seqZ by apply NoDup_seqZ. lia.
Qed.

Lemma acknowledged_commits (s : state) job :
  attachmentUploadJobs_ s !! u = Some job -> uj_lastChunkSent job = true -> uj_inFlightChunks job = 1 ->
  on_chunk_acknowledged u s =
    let job' := job <| uj_inFlightChunks ::= Z.pred |> in
    let s1 := s <| attachmentUploadJobs_ ::= insert u job' |> in
    (sendAttachmentCommit u (uj_baseCommand job +:+ "-commit")
       (s1 <| pendingAttachmentManifests_ ::= insert (uj_baseCommand job +:+ "-commit") (job_manifest job' s1) |>))
      <| attachmentUploadJobs_ ::= delete u |>.
Proof.
  intros Ej Hl Hf. unfold on_chunk_acknowledged. rewrite Ej. cbv zeta.
  match goal with |- (if ?b then _ else _) = _ => replace b with true; [reflexivity |] end.
  symmetry. cbn. by rewrite Hl, Hf.
Qed.

Lemma last_ack_step sent0 s m acked i incoming :
  window sent0 s m acked -> ack_for i incoming -> 0 <= i < m -> i ∉ acked ->
  Z.of_nat (base.size acked) + 1 = chunk_total -> uploaded sent0 (processAttachmentMessage incoming s).
Proof.
  intros Hw [Hty Hcmd] Hi Hna Hlast.
  destruct (wd_job _ _ _ _ Hw) as (job & Ej & Hj). destruct (wd_transfer _ _ _ _ Hw) as (t & Et & Ht).
  pose proof (wd_range _ _ _ _ Hw) as Hr.
  pose proof (window_booked sent0 s m acked job t i Hw Ej Et Hi Hna) as Hb.
  assert (m = chunk_total) as ->.
  { pose proof (size_below m ({[i]} ∪ acked) ltac:(lia) (wd_acked _ _ _ _ Hb)) as Hsz. rewrite size_add in Hsz by done. lia. }
  set (t' := (acknowledged i t) <| status_ := Completed |>).
  set (s1 := booked i job t' s).
  set (job' := job <| uj_inFlightChunks ::= Z.pred |>).
  set (s2 := s1 <| pendingAttachmentManifests_ ::= insert commit_command (job_manifest job' s1) |>).
  assert (processAttachmentMessage incoming s =
          (after_send (commit_message u commit_command) s2) <| attachmentUploadJobs_ ::= delete u |>) as ->.
  { rewrite <- sendAttachmentCommit_ok by apply Hw.
    unfold processAttachmentMessage. rewrite Hty, Hcmd. cbn [String.eqb Ascii.eqb Bool.eqb].
    rewrite (on_chunk_reply_window s i incoming t t'); [| by apply Hw | done |].
    - rewrite (acknowledged_commits _ job); [| exact Ej | |].
      + rewrite (ja_command _ _ _ Hj). reflexivity.
      + rewrite (ja_last _ _ _ Hj). apply Z.eqb_refl.
      + rewrite (ja_flight _ _ _ Hj). lia.
    - rewrite (acceptCommandAck_window chunk_total acked t i Ht Hi ltac:(lia) Hna), (proj2 (Z.eqb_eq _ _)) by lia. done. }
  split.
  - cbn. rewrite (wd_sent _ _ _ _ Hw). by rewrite app_assoc.
  - exists t'. split; [apply lookup_insert_eq | split; [done |]]. change (received_ t') with ({[i]} ∪ received_ t).
    rewrite (ta_received _ _ _ Ht). apply all_acknowledged; [apply (wd_acked _ _ _ _ Hb) |]. rewrite size_add by done. lia.
  - apply lookup_delete_eq.
  - cbn. rewrite lookup_insert_eq. unfold job_manifest. cbn.
    rewrite (ja_context _ _ _ Hj), (ja_name _ _ _ Hj), (ja_room _ _ _ Hj), (ja_key _ _ _ Hj). reflexivity.
Qed.

(** *** The whole upload *)

Definition receive_all (incoming : list Message) (s : state) : state :=
  foldl (fun s m => processAttachmentMessage m s) s incoming.

Lemma receive_all_snoc ms m (s : state) : receive_all (ms ++ [m]) s = processAttachmentMessage m (receive_all ms s).
Proof. unfold receive_all. by rewrite foldl_app. Qed.

(** Acknowledgements can arrive in this order: the [k]-th is for one of the
    chunks in the window then. *)
Definition window_order (total : Z) (ids : list Z) : Prop :=
  ids ≡ₚ seqZ 0 total /\ forall k i, ids !! k = Some i -> i < Z.of_nat k + WindowSize.

Section Acks.
  Context (sent0 : list Message) (ids : list Z) (acks : list Message) (s : state).
  Context (Hw0 : window sent0 s (Z.min chunk_total WindowSize) ∅) (Hacks : Forall2 ack_for ids acks)
    (Hord : window_order chunk_total ids).

Lemma acks_length : Z.of_nat (length ids) = chunk_total.
Proof.
  destruct Hord as [Hp _]. apply Permutation_length in Hp. rewrite length_seqZ in Hp. pose proof chunk_total_pos. lia.
Qed.

Lemma acks_fresh k i : ids !! k = Some i -> 0 <= i < chunk_total /\ i ∉ (list_to_set (take k ids) : gset Z) /\
  Z.of_nat (base.size (list_to_set (take k ids) : gset Z)) = Z.of_nat k.
Proof.
  destruct Hord as [Hp _]. intros Hk.
  assert (NoDup ids) as Hnd by (rewrite Hp; apply NoDup_seqZ).
  assert (i ∈ seqZ 0 chunk_total) as Hin by (rewrite <- Hp; by eapply list_elem_of_lookup_2).
  apply elem_of_seqZ in Hin. pose proof (lookup_lt_Some _ _ _ Hk). split_and!; [lia | lia | |].
  - rewrite elem_of_list_to_set. intros (j & Hj)%list_elem_of_lookup.
    apply lookup_take_Some in Hj as [Hj Hlt]. assert (j = k) by (by eapply NoDup_lookup). lia.
  - rewrite size_list_to_set, length_take; [lia |]. apply (NoDup_app (take k ids) (drop k ids)). by rewrite take_drop.
Qed.

Lemma acks_window k : (k < length ids)%nat ->
  window sent0 (receive_all (take k acks) s) (Z.min chunk_total (Z.of_nat k + WindowSize)) (list_to_set (take k ids)).
Proof.
  pose proof acks_length as Hlen. induction k as [| k IH]; intros Hk; [done |].
  destruct (lookup_lt_is_Some_2 ids k ltac:(lia)) as [i Hi].
  destruct (Forall2_lookup_l _ _ _ _ _ Hacks Hi) as (m & Hm & Hack).
  destruct (acks_fresh k i Hi) as (Hr & Hni & Hsz). pose proof (proj2 Hord k i Hi) as Hlt.
  rewrite (take_S_r _ _ _ Hm), receive_all_snoc, (take_S_r _ _ _ Hi).
  replace (list_to_set (take k ids ++ [i])) with ({[i]} ∪ list_to_set (take k ids) : gset Z) by set_solver.
  replace (Z.of_nat (S k)) with (Z.of_nat (base.size (list_to_set (take k ids) : gset Z)) + 1) by lia.
  apply (ack_step _ _ (Z.min chunk_total (Z.of_nat k + WindowSize))); try done; try lia.
  apply IH. lia.
Qed.

Lemma acks_complete : uploaded sent0 (receive_all acks s).
Proof.
  pose proof acks_length as Hlen. pose proof chunk_total_pos as Hpos. pose proof (Forall2_length _ _ _ Hacks) as Hlen'.
  set (k := (length ids - 1)%nat). destruct (lookup_lt_is_Some_2 ids k ltac:(lia)) as [i Hi].
  destruct (Forall2_lookup_l _ _ _ _ _ Hacks Hi) as (m & Hm & Hack).
  destruct (acks_fresh k i Hi) as (Hr & Hni & Hsz). pose proof (proj2 Hord k i Hi) as Hlt.
  rewrite <- (firstn_all acks), <- Hlen'. replace (length ids) with (S k) by lia.
  rewrite (take_S_r _ _ _ Hm), receive_all_snoc.
  apply (last_ack_step _ _ (Z.min chunk_total (Z.of_nat k + WindowSize)) (list_to_set (take k ids)) i); try done; try lia.
  apply acks_window. lia.
Qed.

End Acks.

Definition fresh_transfer (expires : string) : TransferState :=
  mk_transfer Uploading file_size ChunkSize att u expires ∅ ∅ ∅.

Lemma begin_accepted expires : expires <> "" ->
  acceptInit att u ChunkSize expires (begin file_size ChunkSize initial_transfer).1 = (fresh_transfer expires, true).
Proof.
  intros He. pose proof (uo_size Hok) as Hsz. destruct (uo_upload Hok) as [_ Hu0]. destruct (uo_context Hok) as [Ha0 _].
  unfold begin. rewrite (proj2 (Z.leb_gt _ _)) by lia. unfold acceptInit.
  rewrite !(proj2 (is_empty_false _)) by done. reflexivity.
Qed.

Lemma fresh_transfer_at expires : transfer_at 0 ∅ (fresh_transfer expires).
Proof. split; try done. intros i Hi. lia. Qed.

(** The state in which the first window is filled. *)
Definition opened (file : PendingAttachmentFile) (incoming : Message) (t : TransferState) (d : D) (s : state) : state :=
  s <| pendingAttachmentInits_ ::= delete cmd |> <| attachmentTransfers_ ::= insert (upload_id incoming) t |>
    <| pendingAttachmentFiles_ ::= delete cmd |> <| clock ::= S |>
    <| attachmentUploadJobs_ ::= insert (upload_id incoming) (new_job cmd file incoming d) |>.

Lemma on_init_reply_opened (s : state) incoming t t' f d :
  pendingAttachmentInits_ s !! cmd = Some t ->
  acceptInit (attachment_id incoming) (upload_id incoming) (chunk_size incoming) (expires_at incoming) t = (t', true) ->
  pendingAttachmentFiles_ s !! cmd = Some f -> env_open (clock s) (pf_filePath f) = Some d ->
  on_init_reply cmd incoming s = sendNextAttachmentChunk (upload_id incoming) (opened f incoming t' d s).
Proof.
  intros Hi Ha Hf Ho. unfold on_init_reply. rewrite Hi, Ha. cbv zeta. cbn [negb].
  match goal with |- match ?x with _ => _ end = _ => replace x with (Some f) by (symmetry; exact Hf) end.
  match goal with |- match ?x with _ => _ end = _ => replace x with (Some d) by (symmetry; exact Ho) end.
  reflexivity.
Qed.

Lemma init_window sent0 s path d incoming :
  link_up s = true -> sent_ (base s) = sent0 ->
  pendingAttachmentInits_ s !! cmd = Some (begin file_size ChunkSize initial_transfer).1 ->
  pendingAttachmentFiles_ s !! cmd = Some (mk_pending_file room grp path key file_size) ->
  env_open (clock s) path = Some d -> env_fileName path = name -> device_at 0 d ->
  type incoming = "attachment.init" -> command_id incoming = cmd -> upload_id incoming = u -> attachment_id incoming = att ->
  chunk_size incoming = ChunkSize -> expires_at incoming <> "" ->
  window sent0 (processAttachmentMessage incoming s) (Z.min chunk_total WindowSize) ∅.
Proof.
  intros Hl Hs Hi Hf Ho Hn Hd Hty Hc Hu Ha Hcs He. pose proof chunk_total_pos as Hpos.
  set (t := fresh_transfer (expires_at incoming)). set (f := mk_pending_file room grp path key file_size).
  assert (processAttachmentMessage incoming s = sendNextAttachmentChunk u (opened f incoming t d s)) as ->.
  { unfold processAttachmentMessage. rewrite Hty, Hc. cbn [String.eqb Ascii.eqb Bool.eqb].
    rewrite (on_init_reply_opened s incoming _ t f d Hi); [by rewrite Hu | | done | done].
    rewrite Ha, Hu, Hcs. by apply begin_accepted. }
  assert (window sent0 (opened f incoming t d s) 0 ∅) as Hw.
  { unfold opened. rewrite Hu. split; [done | | | lia | by rewrite <- Hs, app_nil_r | set_solver | lia].
    - exists (new_job cmd f incoming d). split; [apply lookup_insert_eq |]. unfold new_job. rewrite Ha, Hcs.
      split; try done. cbn. rewrite (proj2 (Z.eqb_neq _ _)) by lia. done.
    - exists t. split; [apply lookup_insert_eq | apply fresh_transfer_at]. }
  pose proof (sendNext_window sent0 _ 0 ∅ Hw) as Hn'. rewrite size_empty in Hn'. apply Hn'. unfold WindowSize. lia.
Qed.

End Window.

Section UploadTheorems.
  Context `{QtTextLaws} `{QtOrder} `{CryptoLaws} `{QtJson} `{JsonCodec} `{MlsLib} {D F : Type} `{InputDeviceLaws D}
    `{FileSystem F} `{HostEnv D}.

#[local] Abbreviation state := (AttachmentWorker D F).

(** C8: an accepted upload sends every chunk of its file exactly once and in
    order, whatever order the window allows the acknowledgements, and commits
    after the last of them; its transfer is then complete.  Before the last
    acknowledgement there are at most eight chunks in flight and no commit. *)
Theorem upload_delivers u cmd room grp att path key file rest (s : state) d incoming ids acks :
  upload_ok u cmd room att file ->
  link_up s = true ->
  pendingAttachmentInits_ s !! cmd = Some (begin (file_size file) ChunkSize initial_transfer).1 ->
  pendingAttachmentFiles_ s !! cmd = Some (mk_pending_file room grp path key (file_size file)) ->
  env_open (clock s) path = Some d -> device_at file rest 0 d ->
  type incoming = "attachment.init" -> command_id incoming = cmd -> upload_id incoming = u ->
  attachment_id incoming = att -> chunk_size incoming = ChunkSize -> expires_at incoming <> "" ->
  window_order (chunk_total file) ids -> Forall2 (ack_for cmd) ids acks ->
  uploaded u cmd room (env_fileName path) grp att key file (sent_ (base s)) (receive_all (incoming :: acks) s) /\
  (forall k, (k < length acks)%nat -> exists m, 0 <= m <= Z.of_nat k + WindowSize /\
     sent_ (base (receive_all (incoming :: take k acks) s)) =
       sent_ (base s) ++ map (chunk_sent u cmd room grp att key file) (seqZ 0 m)).
Proof.
  intros Hok Hl Hi Hf Ho Hd Hty Hc Hu Ha Hcs He Hord Hacks.
  pose proof (init_window u cmd room (env_fileName path) grp att key file rest Hok (sent_ (base s)) s path d incoming
                Hl eq_refl Hi Hf Ho eq_refl Hd Hty Hc Hu Ha Hcs He) as Hw.
  change (receive_all (incoming :: acks) s) with (receive_all acks (processAttachmentMessage incoming s)).
  split; [by eapply acks_complete |]. intros k Hk. rewrite <- (Forall2_length _ _ _ Hacks) in Hk.
  pose proof (acks_window u cmd room _ grp att key file rest Hok _ ids acks _ Hw Hacks Hord k Hk) as Hwk.
  exists (Z.min (chunk_total file) (Z.of_nat k + WindowSize)).
  pose proof (wd_range _ _ _ _ _ _ _ _ _ _ _ _ _ Hwk). split; [lia | apply Hwk].
Qed.

(** An error reply to a chunk drops the upload: its job and all its pending
    chunks are gone, its transfer is final, and no other upload is touched. *)
Theorem error_reply_drops_upload (s : state) incoming u i :
  type incoming = "error" -> pendingAttachmentChunks_ s !! command_id incoming = Some (u, i) ->
  let s' := processAttachmentMessage incoming s in
  attachmentUploadJobs_ s' !! u = None /\
  (forall c v j, pendingAttachmentChunks_ s' !! c = Some (v, j) <-> pendingAttachmentChunks_ s !! c = Some (v, j) /\ v <> u) /\
  (forall t, attachmentTransfers_ s' !! u = Some t -> status_ t = Failed \/ status_ t = Completed \/ status_ t = Cancelled) /\
  (forall v, v <> u -> attachmentUploadJobs_ s' !! v = attachmentUploadJobs_ s !! v /\
                       attachmentTransfers_ s' !! v = attachmentTransfers_ s !! v) /\
  sent_ (base s') = sent_ (base s).
Proof.
  intros Hty Hp s'.
  assert (s' = s <| pendingAttachmentInits_ ::= delete (command_id incoming) |>
                 <| pendingAttachmentFiles_ ::= delete (command_id incoming) |>
                 <| attachmentTransfers_ ::= alter fail u |> <| attachmentUploadJobs_ ::= delete u |>
                 <| pendingAttachmentChunks_ ::= filter (fun entry => entry.2.1 <> u) |>) as ->.
  { unfold s', processAttachmentMessage. rewrite Hty. cbn [String.eqb Ascii.eqb Bool.eqb]. unfold on_error_reply. cbv zeta.
    match goal with |- match ?x with _ => _ end = _ => replace x with (Some (u, i)) by (symmetry; exact Hp) end. done. }
  split_and!.
  - apply lookup_delete_eq.
  - intros c v j. apply (map_lookup_filter_Some (fun entry => entry.2.1 <> u)).
  - intros t Ht. change (alter fail u (attachmentTransfers_ s) !! u = Some t) in Ht. rewrite lookup_alter_eq in Ht.
    destruct (attachmentTransfers_ s !! u) as [t0 |]; [| done]. injection Ht as <-.
    unfold fail. destruct (status_ t0) eqn:E; cbn; auto.
  - intros v Hv. split; [by apply lookup_delete_ne | by apply lookup_alter_ne].
  - done.
Qed.

(** Replies about chunks and resumed uploads. *)
Definition chunk_or_resume (m : Message) : Prop := type m = "attachment.chunk" \/ type m = "attachment.resume".

(** The only upload of the worker, with no command its transfer would accept. *)
Definition stalled (u : string) (job : option (AttachmentUploadJob D)) (sent0 : list Message) (s : state) : Prop :=
  (exists t, attachmentTransfers_ s = {[u := t]} /\ pendingChunkCommands_ t = ∅) /\
  attachmentUploadJobs_ s !! u = job /\ sent_ (base s) = sent0.

Lemma resume_forgets_commands t l : Forall (fun i => validIndex t i = true) l -> status_ t = Uploading ->
  pendingChunkCommands_ (acceptResume l t).1 = ∅.
Proof.
  intros Hl Hst. unfold acceptResume. rewrite Hst, bool_decide_false by (intros E; by apply E). cbn [andb].
  destruct (validate_indexes t ∅ l) as [v |] eqn:E; [done |]. exfalso. revert E. generalize (∅ : gset Z).
  induction Hl as [| i l Hi _ IH]; cbn [validate_indexes]; [done |]. rewrite Hi. intros X. apply IH.
Qed.

Lemma resume_keeps_none t l : pendingChunkCommands_ t = ∅ -> pendingChunkCommands_ (acceptResume l t).1 = ∅.
Proof.
  intros Hp. unfold acceptResume. destruct (_ && _)%bool; [done |]. by destruct (validate_indexes t ∅ l).
Qed.

Lemma stalled_step u job sent0 m (s : state) :
  chunk_or_resume m -> stalled u job sent0 s -> stalled u job sent0 (processAttachmentMessage m s).
Proof.
  intros [Hty | Hty] ((t & Et & Hp) & Hj & Hs); unfold processAttachmentMessage; rewrite Hty;
    cbn [String.eqb Ascii.eqb Bool.eqb].
  - unfold on_chunk_reply. destruct (match pendingAttachmentChunks_ s !! _ with Some _ => _ | None => _ end)
      as [[c [v i]] |]; [| by repeat (split || exists t)].
    cbn [attachmentTransfers_ field_update]. rewrite Et. destruct (decide (v = u)) as [-> | Hne].
    + rewrite lookup_singleton_eq. unfold acceptCommandAck. rewrite Hp, lookup_empty.
      split; [| done]. exists t. cbn. by rewrite insert_singleton_eq.
    + rewrite lookup_singleton_ne by done. by repeat (split || exists t).
  - unfold on_resume_reply. rewrite Et. destruct (decide (upload_id m = u)) as [-> | Hne].
    + rewrite lookup_singleton_eq. split; [| done]. exists (acceptResume (received_indexes m) t).1.
      cbn. rewrite Et, insert_singleton_eq. split; [done |]. by apply resume_keeps_none.
    + rewrite lookup_singleton_ne by done. by repeat (split || exists t).
Qed.

(** once the server has answered a resume request, the upload sends nothing
    more: whatever chunk and resume replies follow, no missing chunk and no
    commit leaves the client, and the job stays where it was. *)
Theorem resumed_upload_stalls (s : state) u t incoming replies :
  attachmentTransfers_ s = {[u := t]} -> status_ t = Uploading ->
  type incoming = "attachment.resume" -> upload_id incoming = u ->
  Forall (fun i => validIndex t i = true) (received_indexes incoming) -> Forall chunk_or_resume replies ->
  let s' := receive_all (incoming :: replies) s in
  sent_ (base s') = sent_ (base s) /\ attachmentUploadJobs_ s' !! u = attachmentUploadJobs_ s !! u.
Proof.
  intros Et Hst Hty Hu Hv Hr.
  assert (stalled u (attachmentUploadJobs_ s !! u) (sent_ (base s)) (processAttachmentMessage incoming s)) as H0'.
  { unfold processAttachmentMessage. rewrite Hty. cbn [String.eqb Ascii.eqb Bool.eqb].
    unfold on_resume_reply. rewrite Et, Hu, lookup_singleton_eq. split; [| done].
    exists (acceptResume (received_indexes incoming) t).1. cbn. rewrite Et, insert_singleton_eq.
    split; [done |]. by apply resume_forgets_commands. }
  change (receive_all (incoming :: replies) s) with (receive_all replies (processAttachmentMessage incoming s)).
  assert (forall s1, stalled u (attachmentUploadJobs_ s !! u) (sent_ (base s)) s1 ->
            stalled u (attachmentUploadJobs_ s !! u) (sent_ (base s)) (receive_all replies s1)) as Hrun.
  { induction Hr as [| m ms Hm _ IH]; intros s1 Hs1; [done |]. by apply IH, stalled_step. }
  destruct (Hrun _ H0') as (_ & Ej & Es). done.
Qed.

End UploadTheorems.

(** ** Witnesses *)

Section Witnesses.

#[local] Existing Instances ascii_order toy_crypto toy_laws tree_json toy_mls.

(** Two chunks. *)
Definition ex_upload_file : bytes := repeat x61 (Z.to_nat 50000).

#[local] Instance ex_upload_host : HostEnv buffer :=
  ex_host (fun path => if String.eqb path "/notes.txt" then Some ex_upload_file
                       else if String.eqb path "/short.txt" then Some ex_file else None) (fun _ => Ok tt).

Definition ex_accepted (path : string) (size : Z) : AttachmentWorker buffer Download.disk :=
  (fresh_worker ex_worker (mk_disk ∅ []))
    <| pendingAttachmentInits_ := {["up" := (begin size ChunkSize initial_transfer).1]} |>
    <| pendingAttachmentFiles_ := {["up" := mk_pending_file "lobby" "g" path [x01] size]} |>.

Definition ex_init_reply : Message :=
  empty_message <| type := "attachment.init" |> <| command_id := "up" |> <| upload_id := "u1" |>
    <| attachment_id := "att-1" |> <| chunk_size := ChunkSize |> <| expires_at := "later" |>.

Definition ex_ack (i : Z) : Message :=
  empty_message <| type := "attachment.chunk" |> <| command_id := chunk_command "up" i |>.

Lemma ex_upload_size : file_size ex_upload_file = 50000.
Proof. unfold file_size, ex_upload_file. rewrite repeat_length. reflexivity. Qed.

Lemma ex_upload_ok : upload_ok "u1" "up" "lobby" "att-1" ex_upload_file.
Proof.
  split.
  - intros n. reflexivity.
  - intros k n a p. cbn [gcm_seal toy_crypto]. eauto.
  - split; [reflexivity | discriminate].
  - split; [reflexivity | discriminate].
  - split; discriminate.
  - rewrite ex_upload_size. unfold MaxLogicalBytes. lia.
Qed.

(** The acknowledgements arrive in the opposite order. *)
Lemma upload_delivers_witness :
  sent_ (base (receive_all [ex_init_reply; ex_ack 1; ex_ack 0] (ex_accepted "/notes.txt" 50000))) =
    [chunk_sent "u1" "up" "lobby" "g" "att-1" [x01] ex_upload_file 0;
     chunk_sent "u1" "up" "lobby" "g" "att-1" [x01] ex_upload_file 1; commit_message "u1" "up-commit"].
Proof.
  destruct (upload_delivers "u1" "up" "lobby" "g" "att-1" "/notes.txt" [x01] ex_upload_file [] (ex_accepted "/notes.txt" 50000)
              (mk_buffer ex_upload_file) ex_init_reply [1; 0] [ex_ack 1; ex_ack 0]) as [[E _ _ _] _].
  - exact ex_upload_ok.
  - reflexivity.
  - rewrite ex_upload_size. reflexivity.
  - rewrite ex_upload_size. reflexivity.
  - reflexivity.
  - unfold device_at. cbn [Z.mul Z.to_nat drop]. rewrite app_nil_r. repeat split.
  - reflexivity.
  - reflexivity.
  - reflexivity.
  - reflexivity.
  - reflexivity.
  - discriminate.
  - replace (chunk_total ex_upload_file) with 2 by (vm_compute; reflexivity). split.
    + apply (Permutation_swap 0 1 []).
    + intros [| [| k]] i Hk; cbn in Hk; [injection Hk as <- | injection Hk as <- | discriminate]; unfold WindowSize; lia.
  - repeat constructor.
  - replace (chunk_total ex_upload_file) with 2 in E by (vm_compute; reflexivity). exact E.
Defined.

Definition ex_uploading : AttachmentWorker buffer Download.disk := receive_all [ex_init_reply] (ex_accepted "/short.txt" 10).

Lemma error_reply_drops_upload_witness :
  attachmentUploadJobs_ (processAttachmentMessage (empty_message <| type := "error" |> <| command_id := "up-chunk-0" |>) ex_uploading)
    !! "u1" = None.
Proof.
  destruct (error_reply_drops_upload ex_uploading (empty_message <| type := "error" |> <| command_id := "up-chunk-0" |>) "u1" 0)
    as [E _]; [reflexivity | vm_compute; reflexivity | exact E].
Defined.

(** The server has none of the chunks. *)
Definition ex_resume_reply : Message := empty_message <| type := "attachment.resume" |> <| upload_id := "u1" |>.

Lemma resumed_upload_stalls_witness :
  sent_ (base (receive_all [ex_resume_reply; ex_ack 0; ex_resume_reply] ex_uploading)) = sent_ (base ex_uploading) /\
  (uj_inFlightChunks <$> attachmentUploadJobs_ (receive_all [ex_resume_reply; ex_ack 0; ex_resume_reply] ex_uploading) !! "u1") = Some 1.
Proof.
  destruct (resumed_upload_stalls ex_uploading "u1"
              (mk_transfer Uploading 10 ChunkSize "att-1" "u1" "later" ∅ ∅ {["up-chunk-0" := 0]})
              ex_resume_reply [ex_ack 0; ex_resume_reply]) as [E1 E2].
  - vm_compute. reflexivity.
  - reflexivity.
  - reflexivity.
  - reflexivity.
  - constructor.
  - repeat constructor; (left; reflexivity) || (right; reflexivity).
  - split; [exact E1 |]. rewrite E2. vm_compute. reflexivity.
Defined.

End Witnesses.
