(* ===== verification/MlsGroups.v ===== *)
(** * MlsGroups: the MLS slots of the connection worker

    Models the MLS part of client-cpp/gui/src/gui_connection_worker.cpp in the
    build with LAN_CHAT_ENABLE_MLSPP (without the test hooks): setting up the
    group of an attachment, adding and removing members in three phases
    (proposal, commit, welcome), what the worker does with an MLS message from
    the server, and what it does after a login.  A C++ exception is a [Fail]
    that keeps the state reached when it was thrown. *)

From Stdlib Require Import Strings.Byte.
From S2P Require Import Prelude Text Protocol Json Message BridgeProtocol Crypto TransferState TransferClient Manifest.
From S2P Require Import Download MlsClient Worker Attachments.

(** ** Code that can throw *)

Section Throwing.
  Context {S : Type}.

Definition throwing (A : Type) : Type := S -> S * outcome A.

Definition ret {A} (a : A) : throwing A := fun s => (s, Ok a).
Definition throw {A} (what : string) : throwing A := fun s => (s, Fail what).
Definition modify (f : S -> S) : throwing unit := fun s => (f s, Ok tt).
Definition read {A} (f : S -> A) : throwing A := fun s => (s, Ok (f s)).
Definition unwrap {A} (o : outcome A) : throwing A := fun s => (s, o).

Definition then_ {A B} (c : throwing A) (k : A -> throwing B) : throwing B := fun s =>
  match c s with
  | (s', Ok a) => k a s'
  | (s', Fail what) => (s', Fail what)
  end.

(** [try { c } catch (const std::exception& error) { h }] *)
Definition catch (c : throwing unit) (h : string -> S -> S) (s : S) : S :=
  match c s with
  | (s', Ok _) => s'
  | (s', Fail what) => h what s'
  end.

End Throwing.

Arguments throwing : clear implicits.

Declare Scope throwing_scope.
Delimit Scope throwing_scope with throwing.
Notation "'try!' x <- c ; k" := (then_ c (fun x => k))
  (at level 100, x binder, c at level 99, k at level 200, right associativity) : throwing_scope.
#[local] Open Scope throwing_scope.

(** [map.emplace(key, value)]: an existing entry stays. *)
Definition emplace {K} `{Countable K} {V} (k : K) (v : V) (m : gmap K V) : gmap K V :=
  match m !! k with Some _ => m | None => <[k := v]> m end.

(** ** Values of a JSON envelope *)

(** [get<int>()] of a value. *)
Definition get_int (j : json) : option Z :=
  match j with
  | JInt z | JUInt z => Some (wrap32 z)
  | JBool b => Some (if b then 1 else 0)
  | JFloat _ => match number (Some j) with
                | Some (m, e) => Some (wrap32 (Z.quot (m * 2 ^ Z.max e 0) (2 ^ Z.max (- e) 0)))
                | None => Some 0
                end
  | _ => None
  end.

Definition get_string (j : json) : option string := match j with JStr s => Some s | _ => None end.

Section Envelope.
  Context {D : Type} `{HostEnv D}.

(** [object.value(key, fallback)]: a value of another type, or no object, throws. *)
Definition json_value {A} (get : json -> option A) (key : string) (fallback : A) (j : json) : outcome A :=
  match j with
  | JObj o => match obj_get key o with
              | None => Ok fallback
              | Some v => match get v with Some a => Ok a | None => Fail (env_what key v) end
              end
  | _ => Fail (env_what key j)
  end.

End Envelope.

(** ** Group set-up of an attachment *)

Section Slots.
  Context `{QtText} `{QtOrder} `{CryptoLib} `{QtJson} `{JsonCodec} `{MlsLib} {D F : Type} `{InputDevice D} `{FileSystem F}
    `{HostEnv D}.

#[local] Abbreviation state := (AttachmentWorker D F).
#[local] Abbreviation M := (throwing state).

Definition user_code_of (s : state) : string := sc_userCode (savedConnection_ (base s)).

(** [make_shared<MlsClient>(MlsClient::create(identity))] *)
Definition make_client : M nat := fun s =>
  let c := length (clients s) in
  match mls_create c (bytes_of (user_code_of s)) with
  | Fail what => (s, Fail what)
  | Ok client => (s <| clients ::= fun l => l ++ [client] |>, Ok c)
  end.

(** A new group with its own client. *)
Definition make_group (groupId room : string) : M MlsGroupState :=
  try! c <- make_client;
  try! _ <- on_client c (createGroup (bytes_of groupId));
  ret (mk_mls_group (Some c) room 0 ∅ ∅).

(** [state.client->...]: the pointer of a group is never null. *)
Definition group_client {A} (group : MlsGroupState) (f : MlsClient -> MlsClient * outcome A) : M A :=
  match mg_client group with
  | Some c => on_client c f
  | None => throw ""
  end.

Definition mls_result (commandId : string) (ok : bool) (code message : string) : state -> state :=
  emit (MlsCommandResult commandId ok code message).

Definition mls_refuse (commandId code message : string) : M unit := modify (mls_result commandId false code message).

Definition fetch_message (room target commandId : string) : Message :=
  empty_message <| type := "mls.key_package.fetch" |> <| target_user_code := target |> <| Message.room := room |>
    <| protocol_version := "mls-v1" |> <| command_id := commandId |>.

Definition fetchMlsKeyPackage (room targetUserCode commandId : string) (s : state) : state :=
  if negb (link_up s)
  then mls_result commandId false "not_connected" "MLS control requires an active connection" s
  else if is_empty (trimmed room) || is_empty (trimmed targetUserCode)
  then mls_result commandId false "invalid_mls_request" "MLS room and target are required" s
  else
    let s := s <| pendingMlsCommands_ ::= union {[ commandId ]} |> in
    match wire_send (fetch_message (trimmed room) (trimmed targetUserCode) (trimmed commandId)) s with
    | (s, Ok _) => s
    | (s, Fail reason) =>
        emit (ConnectionLost reason)
          (mls_result commandId false "send_failed" reason (s <| pendingMlsCommands_ ::= fun c => c ∖ {[ commandId ]} |>))
    end.

Definition failAttachmentMlsSetup (attachmentCommandId reason : string) (s : state) : state :=
  attachment_error "" "" attachmentCommandId 0 0 reason
    (s <| pendingAttachmentMlsSetups_ ::= delete attachmentCommandId |>
       <| pendingAttachmentMlsFetches_ ::= filter (fun entry => entry.2 <> attachmentCommandId) |>
       <| pendingAttachmentMlsAdds_ ::= filter (fun entry => entry.2 <> attachmentCommandId) |>).

Definition fetch_command (attachmentCommandId : string) (n : Z) : string :=
  attachmentCommandId +:+ "-mls-fetch-" +:+ to_string n.
Definition add_command (attachmentCommandId : string) (n : Z) : string :=
  attachmentCommandId +:+ "-mls-add-" +:+ to_string n.

Definition startNextAttachmentMlsSetup (attachmentCommandId : string) (s : state) : state :=
  match pendingAttachmentMlsSetups_ s !! attachmentCommandId with
  | None => s
  | Some setup =>
      match ms_targetUsers setup !! Z.to_nat (ms_nextTarget setup) with
      | None =>
          let '(s, info) := file_info (ms_filePath setup) s in
          let failed := failAttachmentMlsSetup attachmentCommandId "invalid attachment file or key generation failed" in
          if negb (fi_isFile info) || negb (fi_isReadable info) then failed s
          else match generate_key with
               | None => failed s
               | Some key =>
                   let file := mk_pending_file (ms_room setup) (ms_groupId setup) (fi_absoluteFilePath info) key (fi_size info) in
                   sendAttachmentInit (ms_room setup) (fi_size info) attachmentCommandId
                     (s <| pendingAttachmentFiles_ ::= insert attachmentCommandId file |>
                        <| pendingAttachmentMlsSetups_ ::= delete attachmentCommandId |>)
               end
      | Some target =>
          let fetchCommand := fetch_command attachmentCommandId (ms_nextTarget setup) in
          fetchMlsKeyPackage (ms_room setup) target fetchCommand
            (s <| pendingAttachmentMlsFetches_ ::= insert fetchCommand attachmentCommandId |>)
      end
  end.

Definition startAttachmentUpload (room filePath : string) (targetUsers : list string) (commandId : string) (s : state) : state :=
  let refuse reason := attachment_error "" "" commandId 0 0 reason in
  let '(s, info) := file_info filePath s in
  if MaxLogicalBytes <? fi_size info then refuse too_large s
  else
    let normalizedCommand := trimmed commandId in
    let normalizedRoom := trimmed room in
    if negb (fi_isFile info) || negb (fi_isReadable info) || is_empty normalizedCommand || bool_decide (targetUsers = [])
    then refuse (if bool_decide (targetUsers = []) then "没有可用的在线成员来建立端到端加密群组"
                 else "invalid attachment file or command") s
    else
      let groupId := attachment_mls_group_id normalizedRoom normalizedCommand in
      catch
        (try! group <- make_group groupId normalizedRoom;
         modify (fun s =>
           startNextAttachmentMlsSetup normalizedCommand
             (s <| mlsGroups_ ::= emplace groupId group |>
                <| pendingAttachmentMlsSetups_ ::=
                     insert normalizedCommand (mk_mls_setup normalizedRoom (fi_absoluteFilePath info) groupId
                                                 normalizedCommand targetUsers 0) |>)))
        refuse s.

(** ** Members *)

Definition proposal_message (pendingId : string) (op : PendingMlsOperation) : Message :=
  empty_message <| type := "mls.group.proposal" |> <| Message.room := op_room op |> <| protocol_version := "mls-v1" |>
    <| group_id := op_group op |> <| action := (if op_add op then "add" else "remove") |>
    <| target_user_code := op_target op |> <| epoch := op_epoch op |> <| proposal_id := pendingId |>
    <| proposal := op_proposal op |> <| command_id := pendingId |>.

(** The end of [addMlsMember] and [removeMlsMember]: the operation of a group at
    epoch [current] is registered and its proposal sent. *)
Definition submit_operation (commandId : string) (current : Z) (op : Z -> PendingMlsOperation) : M unit := fun s =>
  if current =? UINT64_MAX
  then mls_refuse commandId "mls_epoch_exhausted" "MLS group epoch cannot advance" s
  else
    let op := op (current + 1) in
    let pendingId := trimmed commandId in
    if is_empty pendingId || bool_decide (is_Some (pendingMlsOperations_ s !! pendingId))
    then mls_refuse commandId "command_pending" "MLS command id is already pending or empty" s
    else
      let s := s <| pendingMlsOperations_ ::= insert pendingId op |> <| pendingMlsCommands_ ::= union {[ commandId ]} |> in
      match wire_send (proposal_message pendingId op) s with
      | (s, Ok _) => (s, Ok tt)
      | (s, Fail reason) =>
          mls_refuse commandId "send_failed" reason
            (s <| pendingMlsOperations_ ::= delete pendingId |> <| pendingMlsCommands_ ::= fun c => c ∖ {[ commandId ]} |>)
      end.

Definition too_large_for_frame (commandId : string) : M unit :=
  mls_refuse commandId "mls_opaque_too_large" "MLS control payload exceeds the frame limit".

(** The part of [addMlsMember] inside [try], once the group is known. *)
Definition add_to_group (room groupId target keyPackage commandId : string) (group : MlsGroupState) : M unit :=
  try! package <- unwrap (decodeMlsOpaque keyPackage);
  try! proposal <- group_client group (addMember package);
  let proposalEncoded := encodeMlsOpaque proposal in
  try! commit <- group_client group mls_client_commit;
  let commitEncoded := encodeMlsOpaque commit.2 in
  let welcomeEncoded := encodeMlsOpaque commit.1 in
  if is_empty proposalEncoded || is_empty commitEncoded || is_empty welcomeEncoded then too_large_for_frame commandId
  else submit_operation commandId (mg_epoch group) (fun epoch =>
         mk_mls_operation PhaseProposal room groupId target epoch proposalEncoded commitEncoded welcomeEncoded true).

Definition group_mismatch (commandId : string) : M unit :=
  mls_refuse commandId "group_room_mismatch" "MLS group is already bound to another room".

Definition addMlsMember (room groupId targetUserCode commandId : string) (s : state) : state :=
  if negb (link_up s)
  then mls_result commandId false "not_connected" "MLS control requires an active connection" s
  else
    let normalizedRoom := trimmed room in
    let normalizedGroup := trimmed groupId in
    let normalizedTarget := toLower (trimmed targetUserCode) in
    if is_empty normalizedRoom || is_empty normalizedGroup || is_empty normalizedTarget
    then mls_result commandId false "invalid_mls_request" "MLS room, group and target are required" s
    else match mlsKeyPackages_ s !! normalizedTarget with
         | None => mls_result commandId false "key_package_unavailable" "Fetch the target key package before adding a member" s
         | Some keyPackage =>
             catch
               (match mlsGroups_ s !! normalizedGroup with
                | None =>
                    try! group <- make_group normalizedGroup normalizedRoom;
                    try! _ <- modify (fun s => s <| mlsGroups_ ::= emplace normalizedGroup group |>);
                    add_to_group normalizedRoom normalizedGroup normalizedTarget keyPackage commandId group
                | Some group =>
                    if negb (String.eqb (mg_room group) normalizedRoom) then group_mismatch commandId
                    else add_to_group normalizedRoom normalizedGroup normalizedTarget keyPackage commandId group
                end)
               (mls_result commandId false "mls_operation_failed") s
         end.

Definition remove_from_group (room groupId target commandId : string) (group : MlsGroupState) : M unit :=
  try! proposal <- group_client group (removeMember (bytes_of target));
  let proposalEncoded := encodeMlsOpaque proposal in
  try! commit <- group_client group mls_client_commit;
  let commitEncoded := encodeMlsOpaque commit.2 in
  if is_empty proposalEncoded || is_empty commitEncoded then too_large_for_frame commandId
  else submit_operation commandId (mg_epoch group) (fun epoch =>
         mk_mls_operation PhaseProposal room groupId target epoch proposalEncoded commitEncoded "" false).

Definition removeMlsMember (room groupId targetUserCode commandId : string) (s : state) : state :=
  if negb (link_up s)
  then mls_result commandId false "not_connected" "MLS control requires an active connection" s
  else
    let normalizedRoom := trimmed room in
    let normalizedGroup := trimmed groupId in
    let normalizedTarget := trimmed targetUserCode in
    let invalid := mls_result commandId false "invalid_mls_request" "MLS room, group and target are required" in
    if is_empty normalizedRoom || is_empty normalizedGroup || is_empty normalizedTarget then invalid s
    else match mlsGroups_ s !! normalizedGroup with
         | None => invalid s
         | Some group =>
             if negb (String.eqb (mg_room group) normalizedRoom)
             then mls_result commandId false "group_room_mismatch" "MLS group is already bound to another room" s
             else catch (remove_from_group normalizedRoom normalizedGroup normalizedTarget commandId group)
                    (mls_result commandId false "mls_operation_failed") s
         end.

Definition inspectMlsGroup (groupId commandId : string) (s : state) : state :=
  match mlsGroups_ s !! trimmed groupId with
  | Some (mk_mls_group (Some _) _ epoch _ _) => emit (MlsGroupStateReport commandId true (trimmed groupId) epoch "") s
  | _ => emit (MlsGroupStateReport commandId false groupId 0 "MLS group is not initialized") s
  end.

Definition protectMls (groupId : string) (plaintext : bytes) (commandId : string) (s : state) : state :=
  let failed reason := emit (MlsDataResult commandId false "" reason) in
  match mlsGroups_ s !! trimmed groupId with
  | Some (mk_mls_group (Some c) _ _ _ _) =>
      match on_client c (protect plaintext) s with
      | (s, Fail what) => failed what s
      | (s, Ok protected) =>
          let ciphertext := encodeMlsOpaque protected in
          if is_empty ciphertext then failed "MLS ciphertext exceeds the frame limit" s
          else emit (MlsDataResult commandId true ciphertext "") s
      end
  | _ => failed "MLS group is not initialized" s
  end.

Definition unprotectMls (groupId ciphertext commandId : string) (s : state) : state :=
  let failed reason := emit (MlsDataResult commandId false "" reason) in
  match mlsGroups_ s !! trimmed groupId with
  | Some (mk_mls_group (Some c) _ _ _ _) =>
      match (try! raw <- unwrap (decodeMlsOpaque ciphertext); on_client c (unprotect raw)) s with
      | (s, Fail what) => failed what s
      | (s, Ok plaintext) => emit (MlsDataResult commandId true (text_of plaintext) "") s
      end
  | _ => failed "MLS group is not initialized" s
  end.

(** ** After a login *)

(** A client, or none when it cannot be made. *)
Definition renew_client (s : state) : state :=
  match make_client s with
  | (s, Ok c) => s <| mlsClient_ := Some c |>
  | (s, Fail _) => s <| mlsClient_ := None |>
  end.

Definition resetMlsState (s : state) : state :=
  renew_client (s <| mlsKeyPackages_ := ∅ |> <| mlsGroups_ := ∅ |> <| pendingMlsOperations_ := ∅ |>
                  <| pendingMlsCommands_ := ∅ |>).

Definition publish_message (userCode keyPackage : string) : Message :=
  empty_message <| type := "mls.key_package.publish" |> <| user_code := userCode |> <| protocol_version := "mls-v1" |>
    <| key_package := keyPackage |>.

Definition publishMlsKeyPackage (s : state) : state :=
  if negb (link_up s) then s
  else match mlsClient_ s with
       | None => s
       | Some c =>
           match on_client c (fun client => (client, keyPackage client)) s with
           | (s, Fail what) => emit (ConnectionLost ("MLS key package initialization failed: " +:+ what)) s
           | (s, Ok package) =>
               let encoded := encodeMlsOpaque package in
               if is_empty encoded then emit (ConnectionLost "MLS key package exceeds the frame limit") s
               else match wire_send (publish_message (user_code_of s) encoded) s with
                    | (s, Ok _) => s
                    | (s, Fail reason) => emit (ConnectionLost reason) s
                    end
           end
       end.

Definition mls_commit_message (commandId : string) (op : PendingMlsOperation) : Message :=
  empty_message <| type := "mls.group.commit" |> <| Message.room := op_room op |> <| protocol_version := "mls-v1" |>
    <| group_id := op_group op |> <| epoch := op_epoch op |> <| proposal_id := commandId |>
    <| Message.commit := op_commit op |> <| command_id := commandId |>.

(** One round of the loop of [resumePendingMlsOperations]. *)
Definition resume_operation (entry : string * PendingMlsOperation) (s : state) : state :=
  let '(commandId, op) := entry in
  match op_phase op with
  | PhaseWelcome => s <| pendingMlsCommands_ ::= fun c => c ∖ {[ commandId ]} |> <| pendingMlsOperations_ ::= delete commandId |>
  | PhaseProposal | PhaseCommit =>
      let resumed := match op_phase op with
                     | PhaseProposal => proposal_message commandId op
                     | _ => mls_commit_message commandId op
                     end in
      match wire_send resumed s with
      | (s, Ok _) => s
      | (s, Fail reason) => mls_result commandId false "send_failed" reason s
      end
  end.

Definition resumePendingMlsOperations (s : state) : state :=
  if negb (link_up s) then s
  else foldl (fun s entry => resume_operation entry s) s (map_entries (pendingMlsOperations_ s)).

(** What [connectToServerWithRetries] does between a login and [connected]. *)
Definition after_login (preserveMlsState : bool) (s : state) : state :=
  let s := if negb preserveMlsState then resetMlsState s
           else match mlsClient_ s with None => renew_client s | Some _ => s end in
  let s := publishMlsKeyPackage s in
  if preserveMlsState then resumePendingMlsOperations s else s.

(** ** Messages from the server *)

(** [(logicalSize + chunkSize - 1) / chunkSize] and the rest of what the user
    interface may see of a manifest. *)
Definition public_metadata (m : AttachmentManifest) : list (string * json) :=
  obj_build [("fileName", Some (JStr (mf_fileName m))); ("logicalSize", Some (JInt (mf_logicalSize m)));
             ("chunkSize", Some (JInt (mf_chunkSize m)));
             ("totalChunks", Some (JInt (chunk_count64 (mf_logicalSize m) (mf_chunkSize m))))].

Definition on_manifest (groupId : string) (plaintext : bytes) (incoming : Message) (s : state) : state :=
  match manifest_decode (text_of plaintext) with
  | None => s
  | Some manifest =>
      if negb (String.eqb (mf_room manifest) (Message.room incoming)) || negb (String.eqb (mf_groupId manifest) groupId) then s
      else emit (AttachmentEvent "manifest" (mf_attachmentId manifest) "" (message_id incoming) (mf_chunkSize manifest) 0
                   "" "" "" [] (qt_toJson (public_metadata manifest)) 0)
             (s <| receivedAttachmentManifests_ ::= insert (mf_attachmentId manifest) manifest |>)
  end.

Definition on_encrypted_chat (incoming : Message) : M unit :=
  try! envelope <- unwrap (json_parse (crypto incoming));
  try! v <- unwrap (json_value get_int "v" 0 envelope);
  if negb (v =? 1) then ret tt
  else
    try! alg <- unwrap (json_value get_string "alg" "" envelope);
    if negb (String.eqb alg "mls-v1") then ret tt
    else match member "group_id" envelope, member "ciphertext" envelope with
         | Some (JStr groupId), Some (JStr ciphertext) =>
             try! group <- read (fun s => mlsGroups_ s !! groupId);
             match group with
             | Some (mk_mls_group (Some c) _ _ _ _) =>
                 try! raw <- unwrap (decodeMlsOpaque ciphertext);
                 try! plaintext <- on_client c (unprotect raw);
                 modify (on_manifest groupId plaintext incoming)
             | _ => ret tt
             end
         | _, _ => ret tt
         end.

Definition on_key_package (incoming : Message) (s : state) : state :=
  let targetUser := target_user_code incoming in
  let commandId := command_id incoming in
  let s := emit (MlsKeyPackageAvailable targetUser (cipher_hash (from_base64 (key_package incoming))))
             (s <| mlsKeyPackages_ ::= insert (toLower targetUser) (key_package incoming) |>) in
  let s := if bool_decide (commandId ∈ pendingMlsCommands_ s)
           then mls_result commandId true "" "" (s <| pendingMlsCommands_ ::= fun c => c ∖ {[ commandId ]} |>)
           else s in
  match pendingAttachmentMlsFetches_ s !! commandId with
  | None => s
  | Some attachmentCommandId =>
      let s := s <| pendingAttachmentMlsFetches_ ::= delete commandId |> in
      match pendingAttachmentMlsSetups_ s !! attachmentCommandId with
      | None => s
      | Some setup =>
          let addCommand := add_command attachmentCommandId (ms_nextTarget setup) in
          addMlsMember (ms_room setup) (ms_groupId setup) targetUser addCommand
            (s <| pendingAttachmentMlsAdds_ ::= insert addCommand attachmentCommandId |>)
      end
  end.

(** The group of a message, if it is one of its room. *)
Definition group_of (incoming : Message) (s : state) : option MlsGroupState :=
  match mlsGroups_ s !! group_id incoming with
  | Some group => if String.eqb (mg_room group) (Message.room incoming) then Some group else None
  | None => None
  end.

Definition group_unavailable (commandId : string) : state -> state :=
  mls_result commandId false "group_unavailable" "MLS group is not initialized for this room".

Definition on_proposal (incoming : Message) : M unit := fun s =>
  match group_of incoming s with
  | None => (group_unavailable "" s, Ok tt)
  | Some group => (try! raw <- unwrap (decodeMlsOpaque (proposal incoming)); group_client group (handleProposal raw)) s
  end.

Definition drop_operation (commandId : string) (s : state) : state :=
  s <| pendingMlsOperations_ ::= delete commandId |> <| pendingMlsCommands_ ::= fun c => c ∖ {[ commandId ]} |>.

Definition on_proposal_ack (incoming : Message) (s : state) : state :=
  let commandId := command_id incoming in
  match pendingMlsOperations_ s !! commandId with
  | None => s
  | Some op =>
      if negb (bool_decide (op_phase op = PhaseProposal)) then s
      else
        let s := s <| pendingMlsOperations_ ::= insert commandId (op <| op_phase := PhaseCommit |>) |> in
        match wire_send (mls_commit_message commandId op) s with
        | (s, Ok _) => s
        | (s, Fail reason) => mls_result commandId false "send_failed" reason (drop_operation commandId s)
        end
  end.

Definition kWelcomeAcceptCommandDigestSize : nat := 56.

Definition welcomeAcceptCommandId (groupId : string) (epoch : Z) : string :=
  "wa-" +:+ take_str kWelcomeAcceptCommandDigestSize (cipher_hash (bytes_of (groupId +:+ "|" +:+ to_string epoch))).

Definition accept_message (incoming : Message) (s : state) : Message :=
  empty_message <| type := "mls.group.welcome.accept" |> <| user_code := sc_username (savedConnection_ (base s)) |>
    <| target_user_code := user_code_of s |> <| Message.room := Message.room incoming |> <| protocol_version := "mls-v1" |>
    <| group_id := group_id incoming |> <| epoch := epoch incoming |> <| proposal_id := proposal_id incoming |>
    <| welcome_digest := cipher_hash (bytes_of (welcome incoming)) |>
    <| command_id := welcomeAcceptCommandId (group_id incoming) (epoch incoming) |>.

(** False with the connection's last error, which a missing proposal id does not set. *)
Definition sendWelcomeAccept (incoming : Message) (s : state) : state * outcome unit :=
  if is_empty (proposal_id incoming) then (s, Fail (env_last_error (clock s)))
  else wire_send (accept_message incoming s) s.

Definition welcome_event (incoming : Message) (phase : string) : state -> state :=
  emit (MlsWelcomeEvent (group_id incoming) (epoch incoming) phase).

(** The first welcome of a group: join with the published key package. *)
Definition join_group (incoming : Message) (c : nat) : M unit :=
  try! raw <- unwrap (decodeMlsOpaque (welcome incoming));
  try! _ <- on_client c (mls_join raw);
  let group := mk_mls_group (Some c) (Message.room incoming) (epoch incoming) ∅ {[ epoch incoming := welcome incoming ]} in
  try! _ <- modify (fun s => welcome_event incoming "received" (s <| mlsGroups_ ::= emplace (group_id incoming) group |>));
  try! sent <- (fun s => let '(s, r) := sendWelcomeAccept incoming s in (s, Ok r));
  match sent with
  | Fail reason => mls_refuse "" "send_failed" reason
  | Ok _ =>
      try! _ <- modify (welcome_event incoming "accept_sent");
      try! fresh <- make_client;
      modify (fun s => publishMlsKeyPackage (s <| mlsClient_ := Some fresh |>))
  end.

Definition on_welcome (incoming : Message) : M unit := fun s =>
  if negb (is_empty (target_user_code incoming)) && negb (eq_ci (target_user_code incoming) (user_code_of s))
  then mls_refuse "" "mls_welcome_target_mismatch" "MLS welcome is addressed to another member" s
  else match mlsGroups_ s !! group_id incoming with
       | Some group =>
           if negb (String.eqb (mg_room group) (Message.room incoming)) then group_mismatch "" s
           else if bool_decide (mg_welcomes group !! epoch incoming = Some (welcome incoming))
           then
             let s := welcome_event incoming "received" s in
             let '(s, r) := sendWelcomeAccept incoming s in
             (if is_ok r then welcome_event incoming "accept_sent" s else s, Ok tt)
           else if epoch incoming <=? mg_epoch group
           then mls_refuse "" "mls_epoch_conflict" "MLS welcome epoch is not strictly increasing" s
           else (s, Ok tt)
       | None =>
           match mlsClient_ s with
           | None => mls_refuse "" "key_package_unavailable" "No pending MLS key package is available for this welcome" s
           | Some c => join_group incoming c s
           end
       end.

(** [epoch + 1] on [quint64]. *)
Definition next_epoch (epoch : Z) : Z := (epoch + 1) mod 2 ^ 64.

Definition on_commit (incoming : Message) : M unit := fun s =>
  match group_of incoming s with
  | None => (group_unavailable "" s, Ok tt)
  | Some group =>
      if bool_decide (mg_commits group !! epoch incoming = Some (commit incoming)) then (s, Ok tt)
      else if negb (epoch incoming =? next_epoch (mg_epoch group))
      then mls_refuse "" "mls_epoch_conflict" "MLS commit epoch is not the next epoch" s
      else
        (try! raw <- unwrap (decodeMlsOpaque (commit incoming));
         try! _ <- group_client group (handleCommit raw);
         modify (fun s => s <| mlsGroups_ ::= insert (group_id incoming)
                                (group <| mg_epoch := epoch incoming |>
                                       <| mg_commits ::= emplace (epoch incoming) (commit incoming) |>) |>)) s
  end.

Definition welcome_message (commandId : string) (op : PendingMlsOperation) : Message :=
  empty_message <| type := "mls.group.welcome" |> <| target_user_code := op_target op |> <| Message.room := op_room op |>
    <| protocol_version := "mls-v1" |> <| group_id := op_group op |> <| epoch := op_epoch op |> <| proposal_id := commandId |>
    <| welcome_digest := cipher_hash (bytes_of (op_welcome op)) |> <| welcome := op_welcome op |> <| command_id := commandId |>.

Definition duplicate_code (incoming : Message) : string := if String.eqb (content incoming) "duplicate" then "duplicate" else "".

(** An operation is done: forget it, go on with the set-up it belongs to, report. *)
Definition complete_operation (incoming : Message) (s : state) : state :=
  let commandId := command_id incoming in
  let s := drop_operation commandId s in
  let s := match pendingAttachmentMlsAdds_ s !! commandId with
           | None => s
           | Some attachmentCommandId =>
               let s := s <| pendingAttachmentMlsAdds_ ::= delete commandId |> in
               match pendingAttachmentMlsSetups_ s !! attachmentCommandId with
               | None => s
               | Some setup =>
                   startNextAttachmentMlsSetup attachmentCommandId
                     (s <| pendingAttachmentMlsSetups_ ::= insert attachmentCommandId (setup <| ms_nextTarget ::= Z.succ |>) |>)
               end
           end in
  mls_result commandId true (duplicate_code incoming) "" s.

Definition on_commit_ack (incoming : Message) (s : state) : state :=
  let commandId := command_id incoming in
  let unrelated s :=
    if bool_decide (commandId ∈ pendingMlsCommands_ s)
    then mls_result commandId true (duplicate_code incoming) "" (s <| pendingMlsCommands_ ::= fun c => c ∖ {[ commandId ]} |>)
    else s in
  match pendingMlsOperations_ s !! commandId with
  | None => unrelated s
  | Some op =>
      if negb (bool_decide (op_phase op = PhaseCommit)) then unrelated s
      else match mlsGroups_ s !! op_group op with
           | None => group_unavailable commandId (drop_operation commandId s)
           | Some group =>
               let s := s <| mlsGroups_ ::= insert (op_group op)
                                (group <| mg_epoch := op_epoch op |> <| mg_commits ::= emplace (op_epoch op) (op_commit op) |>) |> in
               if op_add op then
                 let s := s <| pendingMlsOperations_ ::= insert commandId (op <| op_phase := PhaseWelcome |>) |> in
                 match wire_send (welcome_message commandId op) s with
                 | (s, Ok _) => s
                 | (s, Fail reason) => mls_result commandId false "send_failed" reason (drop_operation commandId s)
                 end
               else complete_operation incoming s
           end
  end.

Definition on_welcome_ack (incoming : Message) (s : state) : state :=
  match pendingMlsOperations_ s !! command_id incoming with
  | None => s
  | Some op =>
      if negb (bool_decide (op_phase op = PhaseWelcome)) then s
      else
        complete_operation incoming
          (s <| mlsGroups_ ::= alter (fun group => group <| mg_welcomes ::= emplace (op_epoch op) (op_welcome op) |>) (op_group op) |>)
  end.

Definition on_mls_error (incoming : Message) (s : state) : state :=
  let commandId := command_id incoming in
  let s := match pendingAttachmentMlsFetches_ s !! commandId with
           | Some attachmentCommandId =>
               failAttachmentMlsSetup attachmentCommandId (content incoming)
                 (s <| pendingAttachmentMlsFetches_ ::= delete commandId |>)
           | None => s
           end in
  let s := match pendingAttachmentMlsAdds_ s !! commandId with
           | Some attachmentCommandId =>
               failAttachmentMlsSetup attachmentCommandId (content incoming)
                 (s <| pendingAttachmentMlsAdds_ ::= delete commandId |>)
           | None => s
           end in
  let s := s <| pendingMlsOperations_ ::= delete commandId |> in
  if bool_decide (commandId ∈ pendingMlsCommands_ s)
  then mls_result commandId false "server_rejected" (content incoming) (s <| pendingMlsCommands_ ::= fun c => c ∖ {[ commandId ]} |>)
  else s.

Definition dispatch_mls (incoming : Message) : M unit :=
  let of_type t := String.eqb (type incoming) t in
  let has f := negb (is_empty (f incoming)) in
  if of_type "chat" && has crypto then on_encrypted_chat incoming
  else if of_type "mls.key_package.fetch" && has key_package then modify (on_key_package incoming)
  else if of_type "mls.group.proposal" && has proposal then on_proposal incoming
  else if of_type "mls.group.proposal" && has command_id then modify (on_proposal_ack incoming)
  else if of_type "mls.group.welcome" && has welcome then on_welcome incoming
  else if of_type "mls.group.commit" && has commit then on_commit incoming
  else if of_type "mls.group.commit" && has command_id then modify (on_commit_ack incoming)
  else if of_type "mls.group.welcome" && has command_id then modify (on_welcome_ack incoming)
  else if of_type "error" && has command_id then modify (on_mls_error incoming)
  else ret tt.

Definition processMlsMessage (incoming : Message) : state -> state :=
  catch (dispatch_mls incoming) (mls_result (command_id incoming) false "mls_operation_failed").

(** One round of [receiveLoop] that received a message. *)
Definition receive_message (incoming : Message) (s : state) : state :=
  let attachmentCommandId := attachmentEventCommandId incoming s in
  let s := processAttachmentMessage incoming (processMlsMessage incoming s) in
  let transferSize := match attachmentTransfers_ s !! upload_id incoming with Some t => logicalSize_ t | None => 0 end in
  s <| base ::= on_received (fun t => text_of (from_base64 t)) attachmentCommandId transferSize incoming |>.

End Slots.
