(* ===== verification/MlsSession.v ===== *)
(** * MlsSession: the whole worker in the MLS build

    The connection functions of client-cpp/gui/src/gui_connection_worker.cpp as
    they are compiled with LAN_CHAT_ENABLE_MLSPP, everything that can happen to
    that worker ([mls_step]), and the proof that its session is the session of
    [Worker]: what attachments and MLS groups do never changes when the worker
    connects, disconnects or reconnects, nor the server process it hosts. *)

From S2P Require Import Prelude Text Protocol Json Message BridgeProtocol Crypto TransferState TransferClient Manifest.
From S2P Require Import Download MlsClient LocalHost Worker Attachments MlsGroups.

Section Session.
  Context `{QtText} `{QtOrder} `{CryptoLib} `{QtJson} `{JsonCodec} `{MlsLib} {D F : Type} `{InputDevice D} `{FileSystem F}
    `{HostEnv D}.

#[local] Abbreviation state := (AttachmentWorker D F).

(** ** Connecting *)

(** The loop of [connectToServerWithRetries] with its MLS part.  As in [Worker],
    a login is one step: the receive thread, which the source starts before
    [after_login], does its first round after [connected]. *)
Fixpoint mls_retry_loop (k : nat) (attempt : nat) (logins : nat -> login) (target : SavedConnection)
    (reportFailure preserveMlsState : bool) (lastReason : string) (s : state) : state * bool :=
  match k with
  | O =>
      let failure := if is_empty lastReason then "Connection failed" else lastReason in
      let s := s <| base ::= fun w => w <| lastConnectionFailure_ := failure |> |> in
      (if reportFailure then emit (ConnectionFailed failure) s else s, false)
  | S k' =>
      let s := s <| base ::= fun w => w <| attempts_ ::= fun l => l ++ [target] |> |> in
      match logins attempt with
      | LoggedIn isAdmin =>
          let s := s <| base ::= fun w => w <| connection_ := Some true |> <| running_ := true |> |> in
          (emit (Connected isAdmin) (after_login preserveMlsState s), true)
      | Refused reason rejected =>
          let s := s <| base ::= fun w => w <| lastConnectionFailure_ := reason |> <| connection_ := None |> |> in
          if rejected then
            let failure := userFacingLoginFailure reason in
            let s := s <| base ::= fun w => w <| lastConnectionFailure_ := failure |> |> in
            (if reportFailure then emit (ConnectionFailed failure) s else s, false)
          else mls_retry_loop k' (S attempt) logins target reportFailure preserveMlsState reason s
      end
  end.

Definition mls_connectToServerWithRetries (prepared : outcome unit) (logins : nat -> login) (target : SavedConnection)
    (attempts : Z) (reportFailure preserveMlsState : bool) (s : state) : state * bool :=
  match prepared with
  | Fail reason =>
      let s := s <| base ::= fun w => w <| lastConnectionFailure_ := reason |> |> in
      (if reportFailure then emit (ConnectionFailed reason) s else s, false)
  | Ok _ => mls_retry_loop (Z.to_nat (Z.max 1 attempts)) 0 logins target reportFailure preserveMlsState "" s
  end.

Definition mls_connectToServer (prepared : outcome unit) (logins : nat -> login)
    (serverIp : string) (serverPort : Z) (username userCode caFile tlsServerName : string) (s : state) : state :=
  let s := s <| base ::= fun w => (stopReceiveLoop w) <| explicitDisconnect_ := false |> <| reconnectPolicy_ ::= markConnected |>
                                    <| reconnectTimerActive_ := false |> |> in
  let saved := savedConnection_ (base s) in
  let preserveMlsState := sc_valid saved && eq_ci (sc_userCode saved) userCode in
  let target := mk_saved serverIp serverPort username userCode caFile tlsServerName true in
  let s := s <| base ::= fun w => w <| savedConnection_ := target |> |> in
  (mls_connectToServerWithRetries prepared logins target 1 true preserveMlsState s).1.

Definition mls_connectToLocalHost (env : host_world) (prepared : outcome unit) (logins : nat -> login)
    (serverExe certFile keyFile dbFile username userCode : string) (s : state) : state :=
  let '(w, ready) := prepareLocalHost env serverExe certFile keyFile dbFile username userCode (base s) in
  let s := s <| base := w |> in
  match ready with
  | None => s
  | Some (target, attempts) => (mls_connectToServerWithRetries prepared logins target attempts true false s).1
  end.

Definition mls_retrySavedConnection (prepared : outcome unit) (logins : nat -> login) (s : state) : state :=
  if explicitDisconnect_ (base s) || negb (sc_valid (savedConnection_ (base s))) then s
  else
    let s := emit (ReconnectAttempt (attemptCount_ (reconnectPolicy_ (base s)))) s in
    let '(s, ok) := mls_connectToServerWithRetries prepared logins (savedConnection_ (base s)) 1 false true s in
    if ok then s <| base ::= fun w => w <| reconnectPolicy_ ::= markConnected |> |>
    else s <| base ::= fun w => scheduleReconnect (signalled (ReconnectFailed (lastConnectionFailure_ w)) w) |>.

Definition mls_timer_fires (i : nat) (prepared : outcome unit) (logins : nat -> login) (s : state) : state :=
  match timers (base s) !! i with
  | None => s
  | Some reconnectGeneration =>
      let s := s <| base ::= fun w => w <| timers ::= delete i |> |> in
      if negb (reconnectGeneration =? generation_ (reconnectPolicy_ (base s))) then s
      else mls_retrySavedConnection prepared logins (s <| base ::= fun w => w <| reconnectTimerActive_ := false |> |>)
  end.

(** ** Everything that happens to the worker *)

Inductive mls_call :=
  | MWorker (c : worker_call)       (* the session's slots; a message received is [MReceived] *)
  | MReceived (incoming : Message)
  | MAttachmentInit (room : string) (logicalSize : Z) (commandId : string)
  | MAttachmentUpload (room filePath : string) (targetUsers : list string) (commandId : string)
  | MAttachmentChunk (uploadId : string) (chunkIndex : Z) (ciphertext : bytes) (cipherSha256 commandId : string)
  | MAttachmentResume (uploadId commandId : string)
  | MAttachmentCommit (uploadId commandId : string)
  | MAttachmentRequest (attachmentId : string) (chunkIndex : Z) (commandId : string)
  | MAttachmentDownload (attachmentId outputPath commandId : string)
  | MFetchKeyPackage (room targetUserCode commandId : string)
  | MAddMember (room groupId targetUserCode commandId : string)
  | MRemoveMember (room groupId targetUserCode commandId : string)
  | MInspect (groupId commandId : string)
  | MProtect (groupId : string) (plaintext : bytes) (commandId : string)
  | MUnprotect (groupId ciphertext commandId : string).

Definition mls_step (c : mls_call) (s : state) : state :=
  match c with
  | MWorker (WConnect p l a b c d e f) => mls_connectToServer p l a b c d e f s
  | MWorker (WLocalHost v p l a b c d e f) => mls_connectToLocalHost v p l a b c d e f s
  | MWorker (WTimer i p l) => mls_timer_fires i p l s
  | MWorker (WReceived _ _ _ m) | MReceived m => receive_message m s
  | MWorker c => s <| base ::= worker_step c |>
  | MAttachmentInit a b c => sendAttachmentInit a b c s
  | MAttachmentUpload a b c d => startAttachmentUpload a b c d s
  | MAttachmentChunk a b c d e => sendAttachmentChunk a b c d e s
  | MAttachmentResume a b => resumeAttachment a b s
  | MAttachmentCommit a b => sendAttachmentCommit a b s
  | MAttachmentRequest a b c => sendAttachmentDownload a b c s
  | MAttachmentDownload a b c => startAttachmentDownload a b c s
  | MFetchKeyPackage a b c => fetchMlsKeyPackage a b c s
  | MAddMember a b c d => addMlsMember a b c d s
  | MRemoveMember a b c d => removeMlsMember a b c d s
  | MInspect a b => inspectMlsGroup a b s
  | MProtect a b c => protectMls a b c s
  | MUnprotect a b c => unprotectMls a b c s
  end.

Definition run_mls (cs : list mls_call) (s : state) : state := foldl (fun s c => mls_step c s) s cs.

End Session.

(** ** The session is the session of [Worker] *)

(** What decides about the connection. *)
Definition session_view (w : Worker) := (policy_view w, connection_ w, running_ w, attempts_ w, hosted w).

Create HintDb calm.

Section Calm.
  Context `{QtText} `{QtOrder} `{CryptoLib} `{QtJson} `{JsonCodec} `{MlsLib} {D F : Type} `{InputDevice D} `{FileSystem F}
    `{HostEnv D}.

#[local] Abbreviation state := (AttachmentWorker D F).

(** The session is left alone. *)
Definition calm (s s' : state) : Prop := session_view (base s') = session_view (base s).

Lemma calm_refl s : calm s s.
Proof. done. Qed.

Lemma calm_trans s1 s2 s3 : calm s1 s2 -> calm s2 s3 -> calm s1 s3.
Proof. unfold calm. congruence. Qed.

Lemma calm_same (s s' : state) : session_view (base s') = session_view (base s) -> calm s s'.
Proof. done. Qed.

Lemma calm_send m s s' r : wire_send m s = (s', r) -> calm s s'.
Proof.
  unfold wire_send. destruct (negb (link_up s)); [by intros [= <- _] |].
  destruct (env_send (clock s)); by intros [= <- _].
Qed.

Lemma calm_on_client {A} c (f : MlsClient -> MlsClient * outcome A) s s' r : on_client c f s = (s', r) -> calm s s'.
Proof. unfold on_client. destruct (clients s !! c) as [client |]; [destruct (f client) |]; by intros [= <- _]. Qed.

End Calm.

(** Walk through a handler: each piece leaves the session alone. *)
Ltac calm_walk :=
  repeat (cbv zeta; match goal with
  | |- calm ?s ?s => apply calm_refl
  | H : wire_send _ ?s0 = (?s1, _) |- calm _ ?s1 => apply (calm_trans _ s0 _); [clear H | by eapply calm_send]
  | H : on_client _ _ ?s0 = (?s1, _) |- calm _ ?s1 => apply (calm_trans _ s0 _); [clear H | by eapply calm_on_client]
  | |- calm _ (field_update _ _ ?s0) => apply (calm_trans _ s0 _); [| apply calm_same; reflexivity]
  | |- calm _ (emit _ ?s0) => apply (calm_trans _ s0 _); [| apply calm_same; reflexivity]
  | |- calm _ (if ?b then _ else _) => destruct b
  | |- calm _ (match ?x with _ => _ end) => destruct x eqn:?
  | |- calm ?s (_ ?s0) => first [constr_eq s s0; fail 1 | apply (calm_trans _ s0 _); [| solve [auto with calm nocore]]]
  | |- calm _ _ => solve [auto with calm nocore]
  end).

Section CalmHandlers.
  Context `{QtText} `{QtOrder} `{CryptoLib} `{QtJson} `{JsonCodec} `{MlsLib} {D F : Type} `{InputDevice D} `{FileSystem F}
    `{HostEnv D}.

#[local] Abbreviation state := (AttachmentWorker D F).

Lemma calm_attachment_error a b c d e r (s : state) : calm s (attachment_error a b c d e r s).
Proof. done. Qed.

Lemma calm_mls_result c ok code m (s : state) : calm s (mls_result c ok code m s).
Proof. done. Qed.

#[local] Hint Resolve calm_attachment_error calm_mls_result : calm.

Lemma calm_sendAttachmentInit a b c (s : state) : calm s (sendAttachmentInit a b c s).
Proof. unfold sendAttachmentInit. calm_walk. Qed.

Lemma calm_sendAttachmentChunk a b c d e (s : state) : calm s (sendAttachmentChunk a b c d e s).
Proof. unfold sendAttachmentChunk. calm_walk. Qed.

Lemma calm_abandon u j r (s : state) : calm s (abandon_upload u j r s).
Proof. unfold abandon_upload. calm_walk. Qed.

#[local] Hint Resolve calm_sendAttachmentInit calm_sendAttachmentChunk calm_abandon : calm.

Lemma calm_fill_window n u (s : state) : calm s (fill_window n u s).
Proof.
  revert s. induction n as [| n IH]; intros s; cbn [fill_window]; [apply calm_refl |]. calm_walk.
Qed.

Lemma calm_sendNext u (s : state) : calm s (sendNextAttachmentChunk u s).
Proof. apply calm_fill_window. Qed.

Lemma calm_resumeAttachment a b (s : state) : calm s (resumeAttachment a b s).
Proof. unfold resumeAttachment. calm_walk. Qed.

Lemma calm_sendAttachmentCommit a b (s : state) : calm s (sendAttachmentCommit a b s).
Proof. unfold sendAttachmentCommit. calm_walk. Qed.

Lemma calm_sendAttachmentDownload a b c (s : state) : calm s (sendAttachmentDownload a b c s).
Proof. unfold sendAttachmentDownload. calm_walk. Qed.

#[local] Hint Resolve calm_sendNext calm_resumeAttachment calm_sendAttachmentCommit calm_sendAttachmentDownload : calm.

Lemma calm_startAttachmentDownload a b c (s : state) : calm s (startAttachmentDownload a b c s).
Proof. unfold startAttachmentDownload. calm_walk. Qed.

Lemma calm_sendAttachmentManifest m (s : state) : calm s (sendAttachmentManifest m s).
Proof. unfold sendAttachmentManifest. calm_walk. Qed.

#[local] Hint Resolve calm_sendAttachmentManifest calm_startAttachmentDownload : calm.

Lemma calm_processAttachmentMessage m (s : state) : calm s (processAttachmentMessage m s).
Proof.
  unfold processAttachmentMessage, on_error_reply, on_init_reply, on_resume_reply, on_chunk_reply, on_chunk_acknowledged,
    on_commit_reply, on_download_reply. calm_walk.
Qed.

#[local] Hint Resolve calm_processAttachmentMessage : calm.

(** Code that can throw leaves the session alone. *)
Definition calmM {A} (m : throwing state A) : Prop := forall s, calm s (m s).1.

Lemma calmM_then {A B} (m : throwing state A) (k : A -> throwing state B) :
  calmM m -> (forall a, calmM (k a)) -> calmM (then_ m k).
Proof.
  intros Hm Hk s. unfold then_. specialize (Hm s). destruct (m s) as [s1 [a | e]]; [| done].
  eapply calm_trans; [exact Hm | apply Hk].
Qed.

Lemma calmM_pure {A} (f : state -> outcome A) : calmM (fun s => (s, f s)).
Proof. intros s. apply calm_refl. Qed.

Lemma calmM_modify f : (forall s : state, calm s (f s)) -> calmM (modify f).
Proof. intros Hf s. apply Hf. Qed.

Lemma calmM_on_client {A} c (f : MlsClient -> MlsClient * outcome A) : calmM (on_client c f).
Proof. intros s. destruct (on_client c f s) as [s' r] eqn:E. by eapply calm_on_client. Qed.

Lemma calm_catch m h (s : state) : calmM m -> (forall e s, calm s (h e s)) -> calm s (catch m h s).
Proof.
  intros Hm Hh. unfold catch. specialize (Hm s). destruct (m s) as [s1 [a | e]]; [done |].
  eapply calm_trans; [exact Hm | apply Hh].
Qed.

Lemma calmM_refuse c code msg : calmM (mls_refuse c code msg).
Proof. by apply calmM_modify. Qed.

Lemma calmM_make_client : calmM make_client.
Proof. intros s. unfold make_client. by destruct (mls_create _ _). Qed.

#[local] Hint Resolve calmM_then calmM_modify calmM_on_client calmM_refuse calmM_make_client calm_catch : calm.
#[local] Hint Extern 1 (calmM (ret _)) => apply calmM_pure : calm.
#[local] Hint Extern 1 (calmM (throw _)) => apply calmM_pure : calm.
#[local] Hint Extern 1 (calmM (read _)) => apply calmM_pure : calm.
#[local] Hint Extern 1 (calmM (unwrap _)) => apply calmM_pure : calm.

Lemma calmM_group_client {A} g (f : MlsClient -> MlsClient * outcome A) : calmM (group_client g f).
Proof. unfold group_client. destruct (mg_client g); auto with calm. Qed.

Lemma calmM_make_group g r : calmM (make_group g r).
Proof. unfold make_group. auto 6 with calm. Qed.

#[local] Hint Resolve calmM_group_client calmM_make_group : calm.

Lemma calm_fetchMlsKeyPackage a b c (s : state) : calm s (fetchMlsKeyPackage a b c s).
Proof. unfold fetchMlsKeyPackage. calm_walk. Qed.

Lemma calm_failSetup a b (s : state) : calm s (failAttachmentMlsSetup a b s).
Proof. unfold failAttachmentMlsSetup. calm_walk. Qed.

#[local] Hint Resolve calm_fetchMlsKeyPackage calm_failSetup : calm.

Lemma calm_startNext a (s : state) : calm s (startNextAttachmentMlsSetup a s).
Proof. unfold startNextAttachmentMlsSetup, file_info. calm_walk. Qed.

#[local] Hint Resolve calm_startNext : calm.

Lemma calm_startAttachmentUpload a b c d (s : state) : calm s (startAttachmentUpload a b c d s).
Proof.
  unfold startAttachmentUpload, file_info. calm_walk. eapply calm_trans; [| apply calm_catch; auto with calm].
  - calm_walk.
  - apply calmM_then; [auto with calm |]. intros g. apply calmM_modify. intros s'. calm_walk.
Qed.

Lemma calmM_submit c e op : calmM (submit_operation c e op).
Proof.
  intros s. unfold submit_operation. destruct (e =? UINT64_MAX); [done |]. cbv zeta.
  destruct (_ || _)%bool; [done |]. destruct (wire_send _ _) as [s1 [[] | r]] eqn:E; cbn [fst]; calm_walk.
  unfold mls_refuse, modify. cbn [fst]. calm_walk.
Qed.

#[local] Hint Resolve calmM_submit : calm.

Lemma calmM_add a b c d e g : calmM (add_to_group a b c d e g).
Proof.
  unfold add_to_group. apply calmM_then; [auto with calm |]. intros p. apply calmM_then; [auto with calm |]. intros q.
  apply calmM_then; [auto with calm |]. intros r. cbv zeta. destruct (_ || _)%bool; unfold too_large_for_frame; auto with calm.
Qed.

Lemma calmM_remove a b c d g : calmM (remove_from_group a b c d g).
Proof.
  unfold remove_from_group. apply calmM_then; [auto with calm |]. intros p.
  apply calmM_then; [auto with calm |]. intros r. cbv zeta. destruct (_ || _)%bool; unfold too_large_for_frame; auto with calm.
Qed.

#[local] Hint Resolve calmM_add calmM_remove : calm.

Lemma calm_addMlsMember a b c d (s : state) : calm s (addMlsMember a b c d s).
Proof.
  unfold addMlsMember. cbv zeta. destruct (negb (link_up s)); [apply calm_mls_result |].
  destruct (_ || _)%bool; [apply calm_mls_result |]. destruct (mlsKeyPackages_ s !! _) as [kp |]; [| apply calm_mls_result].
  apply calm_catch; [| auto with calm]. destruct (mlsGroups_ s !! _) as [g |].
  - destruct (negb _); unfold group_mismatch; auto with calm.
  - apply calmM_then; [auto with calm |]. intros g. apply calmM_then; [by apply calmM_modify |]. auto with calm.
Qed.

Lemma calm_removeMlsMember a b c d (s : state) : calm s (removeMlsMember a b c d s).
Proof. unfold removeMlsMember. calm_walk. Qed.

#[local] Hint Resolve calm_addMlsMember : calm.

Lemma calm_renew_client (s : state) : calm s (renew_client s).
Proof.
  unfold renew_client. pose proof (calmM_make_client s) as Hc. destruct (make_client s) as [s1 [c | e]];
    apply (calm_trans _ s1 _); try done.
Qed.

Lemma calm_publish (s : state) : calm s (publishMlsKeyPackage s).
Proof. unfold publishMlsKeyPackage. calm_walk. Qed.

#[local] Hint Resolve calm_renew_client calm_publish : calm.

Lemma calm_resume_operations (s : state) : calm s (resumePendingMlsOperations s).
Proof.
  unfold resumePendingMlsOperations. destruct (negb (link_up s)); [apply calm_refl |].
  generalize (map_entries (pendingMlsOperations_ s)). intros l. revert s.
  induction l as [| [c op] l IH]; intros s; [apply calm_refl |]. cbn [foldl].
  eapply calm_trans; [| apply IH]. unfold resume_operation. destruct (op_phase op); calm_walk.
Qed.

Lemma calm_after_login b (s : state) : calm s (after_login b s).
Proof.
  unfold after_login, resetMlsState. cbv zeta. destruct b; cbn [negb].
  - eapply calm_trans; [| apply calm_resume_operations]. calm_walk.
  - calm_walk.
Qed.

Lemma calm_inspect a b (s : state) : calm s (inspectMlsGroup a b s).
Proof. unfold inspectMlsGroup. calm_walk. Qed.

Lemma calm_protect a b c (s : state) : calm s (protectMls a b c s).
Proof. unfold protectMls. calm_walk. Qed.

Lemma calm_unprotect a b c (s : state) : calm s (unprotectMls a b c s).
Proof.
  unfold unprotectMls. cbv zeta. destruct (mlsGroups_ s !! _) as [[[cl |] ? ? ? ?] |]; [| done | done].
  match goal with |- calm s (match ?m s with _ => _ end) =>
    assert (calmM m) as Hm by auto with calm; specialize (Hm s); destruct (m s) as [s1 [p | e]] end; done.
Qed.

(** *** MLS messages *)

Lemma calmM_encrypted_chat m : calmM (on_encrypted_chat m).
Proof.
  unfold on_encrypted_chat. apply calmM_then; [auto with calm |]. intros env. apply calmM_then; [auto with calm |]. intros v.
  destruct (negb _); [auto with calm |]. apply calmM_then; [auto with calm |]. intros alg.
  destruct (negb _); [auto with calm |]. destruct (member "group_id" env) as [[] |]; auto with calm.
  destruct (member "ciphertext" env) as [[] |]; auto with calm. apply calmM_then; [auto with calm |].
  intros [[[c |] ? ? ? ?] |]; auto with calm. apply calmM_then; [auto with calm |]. intros raw.
  apply calmM_then; [auto with calm |]. intros plain. apply calmM_modify. intros s'. unfold on_manifest. calm_walk.
Qed.

Lemma calm_on_key_package m (s : state) : calm s (on_key_package m s).
Proof. unfold on_key_package. calm_walk. Qed.

Lemma calmM_on_proposal m : calmM (on_proposal m).
Proof.
  intros s. unfold on_proposal. destruct (group_of m s) as [g |]; [| done].
  apply (calmM_then _ _); auto with calm.
Qed.

Lemma calm_drop c (s : state) : calm s (drop_operation c s).
Proof. done. Qed.

#[local] Hint Resolve calm_drop : calm.

Lemma calm_on_proposal_ack m (s : state) : calm s (on_proposal_ack m s).
Proof. unfold on_proposal_ack. calm_walk. Qed.

Lemma calm_sendWelcomeAccept m (s : state) : calm s (sendWelcomeAccept m s).1.
Proof.
  unfold sendWelcomeAccept. destruct (is_empty _); [done |]. destruct (wire_send _ s) as [s1 r] eqn:E. by eapply calm_send.
Qed.

Lemma calm_join_group m c (s : state) : calm s (join_group m c s).1.
Proof.
  revert s. change (calmM (join_group m c)). unfold join_group. apply calmM_then; [auto with calm |]. intros raw.
  apply calmM_then; [auto with calm |]. intros []. cbv zeta. apply calmM_then; [by apply calmM_modify |]. intros [].
  apply calmM_then.
  { intros s. pose proof (calm_sendWelcomeAccept m s). by destruct (sendWelcomeAccept m s). }
  intros [[] | r]; [| auto with calm]. apply calmM_then; [by apply calmM_modify |]. intros [].
  apply calmM_then; [auto with calm |]. intros fresh. apply calmM_modify. intros s. calm_walk.
Qed.

Lemma calmM_on_welcome m : calmM (on_welcome m).
Proof.
  intros s. unfold on_welcome. destruct (_ && _)%bool; [done |]. destruct (mlsGroups_ s !! _) as [g |].
  - destruct (negb _); [done |]. destruct (bool_decide _); [| by destruct (_ <=? _)]. cbv zeta.
    pose proof (calm_sendWelcomeAccept m (welcome_event m "received" s)) as Hc.
    destruct (sendWelcomeAccept _ _) as [s1 r]. cbn [fst] in *. by destruct (is_ok r).
  - destruct (mlsClient_ s) as [c |]; [apply calm_join_group | done].
Qed.

Lemma calmM_on_commit m : calmM (on_commit m).
Proof.
  intros s. unfold on_commit. destruct (group_of m s) as [g |]; [| done]. destruct (bool_decide _); [done |].
  destruct (negb _); [done |]. apply (calmM_then _ _); [auto with calm |]. intros raw.
  apply calmM_then; [auto with calm |]. intros []. by apply calmM_modify.
Qed.

Lemma calm_complete m (s : state) : calm s (complete_operation m s).
Proof. unfold complete_operation. calm_walk. Qed.

#[local] Hint Resolve calm_complete : calm.

Lemma calm_on_commit_ack m (s : state) : calm s (on_commit_ack m s).
Proof. unfold on_commit_ack, group_unavailable. calm_walk. Qed.

Lemma calm_on_welcome_ack m (s : state) : calm s (on_welcome_ack m s).
Proof. unfold on_welcome_ack. calm_walk. Qed.

Lemma calm_on_mls_error m (s : state) : calm s (on_mls_error m s).
Proof. unfold on_mls_error. calm_walk. Qed.

#[local] Hint Resolve calmM_encrypted_chat calm_on_key_package calmM_on_proposal calm_on_proposal_ack calmM_on_welcome
  calmM_on_commit calm_on_commit_ack calm_on_welcome_ack calm_on_mls_error : calm.

Lemma calm_processMlsMessage m (s : state) : calm s (processMlsMessage m s).
Proof.
  unfold processMlsMessage. apply calm_catch; [| auto with calm]. unfold dispatch_mls. cbv zeta.
  repeat match goal with |- calmM (if ?b then _ else _) => destruct b end; auto with calm.
Qed.

#[local] Hint Resolve calm_processMlsMessage : calm.

Lemma calm_receive_message m (s : state) : calm s (receive_message m s).
Proof.
  unfold receive_message. cbv zeta. set (s1 := processAttachmentMessage _ _).
  apply (calm_trans _ s1); [unfold s1; calm_walk |]. apply calm_same. cbn. unfold on_received.
  destruct (is_attachment_event _), (String.eqb _ _); done.
Qed.

(** *** The simulation *)

(** The calls of the session that a call of the worker makes. *)
Definition erase (c : mls_call) : list worker_call := match c with MWorker c => [c] | _ => [] end.

Definition simulates (s : state) (w : Worker) : Prop := session_view (base s) = session_view w.

Lemma calm_simulates s s' w : calm s s' -> simulates s w -> simulates s' w.
Proof. unfold calm, simulates. congruence. Qed.

(** Close an equation of views from equal views [H] of the arguments. *)
Ltac same_view H :=
  unfold simulates, session_view, policy_view in *; cbn;
  let E1 := fresh in let E2 := fresh in let E3 := fresh in let E4 := fresh in let E5 := fresh in let E6 := fresh in
  let E7 := fresh in let E8 := fresh in let E9 := fresh in
  injection H as E1 E2 E3 E4 E5 E6 E7 E8 E9;
  rewrite ?E1, ?E2, ?E3, ?E4, ?E5, ?E6, ?E7, ?E8, ?E9; reflexivity.

Lemma sim_retry_loop k attempt logins target report preserve reason s w :
  simulates s w ->
  simulates (mls_retry_loop k attempt logins target report preserve reason s).1
            (retry_loop k attempt logins target report reason w).1 /\
  (mls_retry_loop k attempt logins target report preserve reason s).2 =
  (retry_loop k attempt logins target report reason w).2.
Proof.
  unfold simulates. revert attempt reason s w. induction k as [| k IH]; intros attempt reason s w Hs;
    cbn [mls_retry_loop retry_loop].
  { destruct report; split; try done; exact Hs. }
  destruct (logins attempt) as [admin | r []]; cbv zeta.
  - split; [| done]. cbn [fst]. match goal with |- session_view (base (emit _ (after_login _ ?x))) = _ =>
      transitivity (session_view (base x)); [exact (calm_after_login preserve x) |] end. same_view Hs.
  - destruct report; (split; [| done]); same_view Hs.
  - apply IH. same_view Hs.
Qed.

Lemma sim_retries prepared logins target n report preserve s w :
  simulates s w ->
  simulates (mls_connectToServerWithRetries prepared logins target n report preserve s).1
            (connectToServerWithRetries prepared logins target n report w).1 /\
  (mls_connectToServerWithRetries prepared logins target n report preserve s).2 =
  (connectToServerWithRetries prepared logins target n report w).2.
Proof.
  intros Hs. unfold mls_connectToServerWithRetries, connectToServerWithRetries.
  destruct prepared; [by apply sim_retry_loop |]. destruct report; (split; [| done]); exact Hs.
Qed.

Lemma view_stop w w' : session_view w = session_view w' -> session_view (stopReceiveLoop w) = session_view (stopReceiveLoop w').
Proof.
  intros Hs. unfold stopReceiveLoop. assert (running_ w = running_ w') as -> by (injection Hs; done).
  destruct (running_ w'); [same_view Hs | done].
Qed.

Lemma view_schedule w w' :
  session_view w = session_view w' -> session_view (scheduleReconnect w) = session_view (scheduleReconnect w').
Proof.
  intros Hs. unfold scheduleReconnect.
  assert (explicitDisconnect_ w = explicitDisconnect_ w' /\ savedConnection_ w = savedConnection_ w' /\
          reconnectTimerActive_ w = reconnectTimerActive_ w') as (-> & -> & ->) by (injection Hs; done).
  destruct (_ || _)%bool; [done |]. apply view_stop in Hs.
  set (x := stopReceiveLoop w) in *. set (x' := stopReceiveLoop w') in *. cbv zeta.
  change (reconnectPolicy_ (x <| connection_ := None |>)) with (reconnectPolicy_ x).
  change (reconnectPolicy_ (x' <| connection_ := None |>)) with (reconnectPolicy_ x').
  assert (reconnectPolicy_ x = reconnectPolicy_ x') as -> by (injection Hs; done).
  destruct (scheduleNextAttempt _) as [pol delay]. destruct (delay <? 0); same_view Hs.
Qed.

Lemma sim_connect p l a b c d e f s w :
  simulates s w -> simulates (mls_connectToServer p l a b c d e f s) (connectToServer p l a b c d e f w).
Proof.
  intros Hs. unfold mls_connectToServer, connectToServer. cbv zeta. apply sim_retries.
  pose proof (view_stop _ _ Hs) as Hv. unfold simulates. same_view Hv.
Qed.

Lemma view_session target w w' :
  session_view w = session_view w' -> session_view (new_session target w) = session_view (new_session target w').
Proof. intros Hs%view_stop. unfold new_session. same_view Hs. Qed.

Lemma sim_local_host v p l a b c d e f s w :
  simulates s w -> simulates (mls_connectToLocalHost v p l a b c d e f s) (connectToLocalHost v p l a b c d e f w).
Proof.
  intros Hs. unfold mls_connectToLocalHost, connectToLocalHost. rewrite !prepare_result. cbv zeta.
  assert (hosted (base s) = hosted w) as -> by exact (f_equal snd Hs).
  set (target := local_target _ e f). clearbody target. apply (view_session target) in Hs.
  set (x := new_session target (base s)) in *. set (y := new_session target w) in *. clearbody x y.
  destruct (hostLocally _ _ _ _ _ _ _ _) as [h [n | reason]]; cbn [fst snd].
  - apply sim_retries. unfold simulates. same_view Hs.
  - unfold simulates. same_view Hs.
Qed.

Lemma sim_retry p l s w : simulates s w -> simulates (mls_retrySavedConnection p l s) (retrySavedConnection p l w).
Proof.
  intros Hs. unfold mls_retrySavedConnection, retrySavedConnection.
  assert (explicitDisconnect_ (base s) = explicitDisconnect_ w /\ savedConnection_ (base s) = savedConnection_ w /\
          attemptCount_ (reconnectPolicy_ (base s)) = attemptCount_ (reconnectPolicy_ w)) as (-> & E & E')
    by (unfold simulates in Hs; injection Hs; intros; repeat split; congruence).
  rewrite E. destruct (_ || _)%bool; [done |]. cbv zeta.
  change (savedConnection_ (base (emit (ReconnectAttempt (attemptCount_ (reconnectPolicy_ (base s)))) s))) with (savedConnection_ (base s)).
  change (savedConnection_ (signalled (ReconnectAttempt (attemptCount_ (reconnectPolicy_ w))) w)) with (savedConnection_ w).
  rewrite E, E'. set (g := ReconnectAttempt _).
  destruct (sim_retries p l (savedConnection_ w) 1 false true (emit g s) (signalled g w)) as [Hv Hb]; [exact Hs |].
  destruct (mls_connectToServerWithRetries _ _ _ _ _ _ _) as [s1 ok1], (connectToServerWithRetries _ _ _ _ _ _) as [w1 ok2].
  cbn [fst snd] in *. subst ok2. destruct ok1; unfold simulates in *.
  - same_view Hv.
  - cbn [base field_update]. by apply view_schedule.
Qed.

Lemma sim_timer i p l s w : simulates s w -> simulates (mls_timer_fires i p l s) (timer_fires i p l w).
Proof.
  intros Hs. unfold mls_timer_fires, timer_fires.
  assert (timers (base s) = timers w /\ reconnectPolicy_ (base s) = reconnectPolicy_ w) as [-> E]
    by (unfold simulates in Hs; injection Hs; done).
  destruct (timers w !! i) as [g |]; [| done]. cbv zeta. cbn [base field_update reconnectPolicy_]. rewrite E.
  destruct (negb _); [same_view Hs |]. apply sim_retry. same_view Hs.
Qed.

(** The calls that leave the session alone, or only end the receive loop. *)
Lemma view_passive c w w' : passive c = true -> session_view w = session_view w' ->
  session_view (worker_step c w) = session_view (worker_step c w').
Proof.
  intros Hp Hs. pose proof (passive_link c w Hp) as E. pose proof (passive_link c w' Hp) as E'.
  assert (running_ (worker_step c w) = running_ (worker_step c w')) as Er.
  { assert (running_ w = running_ w') as Hr by (injection Hs; done). destruct c; try discriminate Hp; cbn [worker_step];
      unfold sendChatToRoom, sendPrivate, joinRoom, createRoom, sendRoomAction, requestUsers, requestRooms, requestHistory,
        sendAdminAction, on_received, on_receive_failed, hand_over, report_undelivered;
      repeat match goal with
      | |- context [link_ready ?x] => assert_fails (constr_eq x w'); replace (link_ready x) with (link_ready w') by
          (unfold link_ready; injection Hs; intros; congruence)
      | |- context [if ?b then _ else _] => destruct b eqn:?
      | |- context [match ?o with Ok _ => _ | Fail _ => _ end] => destruct o
      end; cbn; congruence. }
  unfold link_view, policy_view in E, E'. unfold session_view, policy_view in *.
  injection E as ? ? ? ? ? ? ? ?. injection E' as ? ? ? ? ? ? ? ?. injection Hs as ? ? ? ? ? ? ? ? ?. congruence.
Qed.

Lemma sim_step c s w : simulates s w -> simulates (mls_step c s) (run_worker (erase c) w).
Proof.
  intros Hs. destruct c as [c | | | | | | | | | | | | | |]; cbn [mls_step erase];
    try (apply (calm_simulates s); [| exact Hs]; auto using calm_receive_message, calm_startAttachmentUpload,
           calm_sendAttachmentInit, calm_sendAttachmentChunk, calm_resumeAttachment, calm_sendAttachmentCommit,
           calm_sendAttachmentDownload, calm_startAttachmentDownload, calm_fetchMlsKeyPackage, calm_addMlsMember,
           calm_removeMlsMember, calm_inspect, calm_protect, calm_unprotect).
  cbn [run_worker foldl]. destruct c;
    try (by apply sim_connect); try (by apply sim_local_host); try (by apply sim_timer);
    try (unfold simulates; cbn [base field_update]; by apply view_passive).
  - cbn [worker_step]. unfold simulates, disconnectFromServer. cbv zeta. cbn [base field_update].
    assert (session_view ((base s) <| explicitDisconnect_ := true |> <| reconnectPolicy_ ::= policy_cancel |>
                            <| reconnectTimerActive_ := false |>) =
            session_view (w <| explicitDisconnect_ := true |> <| reconnectPolicy_ ::= policy_cancel |>
                            <| reconnectTimerActive_ := false |>)) as Hv by same_view Hs.
    apply view_stop in Hv. same_view Hv.
  - cbn [worker_step]. unfold simulates. cbn [base field_update]. by apply view_schedule.
  - apply (calm_simulates s); [apply calm_receive_message |]. unfold simulates. rewrite Hs.
    cbn [worker_step]. unfold on_received. destruct (is_attachment_event _), (String.eqb _ _); done.
Qed.

End CalmHandlers.

Section Refinement.
  Context `{QtText} `{QtOrder} `{CryptoLib} `{QtJson} `{JsonCodec} `{MlsLib} {D F : Type} `{InputDevice D} `{FileSystem F}
    `{HostEnv D}.

Lemma run_worker_app l l' w : run_worker (l ++ l') w = run_worker l' (run_worker l w).
Proof. apply foldl_app. Qed.

(** C12: the worker with attachments and MLS refines the session of [Worker]:
    for any sequence of calls and messages its connection, its reconnection
    policy with all timers, the login attempts it makes and the server process
    it hosts are those of the session calls alone. *)
Theorem mls_worker_refines_session (cs : list mls_call) (s : AttachmentWorker D F) :
  session_view (base (run_mls cs s)) = session_view (run_worker (concat (map erase cs)) (base s)).
Proof.
  assert (forall w, simulates s w -> simulates (run_mls cs s) (run_worker (concat (map erase cs)) w)) as G.
  { revert s. induction cs as [| c cs IH]; intros s w Hs; [done |]. cbn [map concat]. rewrite run_worker_app.
    apply IH. by apply sim_step. }
  by apply G.
Qed.

End Refinement.
