(* ===== verification/MlsHandshake.v ===== *)
(** * MlsHandshake: the three phases of a membership change

    The theorems about the MLS groups of the worker over any sequence of calls
    and messages: a commit is sent after its proposal and a welcome after its
    commit, and a group never changes its room or its client. *)

From Stdlib Require Import Strings.Byte.
From S2P Require Import Prelude Text Protocol Json Message BridgeProtocol Crypto TransferState TransferClient Manifest.
From S2P Require Import Download MlsClient LocalHost Worker Attachments MlsGroups MlsSession JsonCodecInstance.

(** The messages that carry a membership change to the server. *)
Definition handshake (m : Message) : bool :=
  String.eqb (type m) "mls.group.proposal" || String.eqb (type m) "mls.group.commit" || String.eqb (type m) "mls.group.welcome".

Definition plain (m : Message) : Prop := handshake m = false.

Create HintDb tame.

(** ** What leaves handshakes alone *)

Section Tame.
  Context `{QtText} `{QtOrder} `{CryptoLib} `{QtJson} `{JsonCodec} `{MlsLib} {D F : Type} `{InputDevice D} `{FileSystem F}
    `{HostEnv D}.

#[local] Abbreviation state := (AttachmentWorker D F).

(** Every group stays, in its room and with its client. *)
Definition bound (s s' : state) : Prop :=
  forall g G, mlsGroups_ s !! g = Some G ->
  exists G', mlsGroups_ s' !! g = Some G' /\ mg_room G' = mg_room G /\ mg_client G' = mg_client G.

Lemma bound_refl s : bound s s.
Proof. intros g G E. eauto. Qed.

Lemma bound_trans s1 s2 s3 : bound s1 s2 -> bound s2 s3 -> bound s1 s3.
Proof.
  intros H12 H23 g G E. destruct (H12 g G E) as (G2 & E2 & Er & Ec). destruct (H23 g G2 E2) as (G3 & E3 & Er' & Ec').
  exists G3. split_and!; [done | congruence | congruence].
Qed.

Lemma bound_same (s s' : state) : mlsGroups_ s' = mlsGroups_ s -> bound s s'.
Proof. intros E g G Eg. rewrite E. eauto. Qed.

Lemma bound_emplace (s s' : state) g G : mlsGroups_ s' = emplace g G (mlsGroups_ s) -> bound s s'.
Proof.
  intros E g' G' Eg. rewrite E. unfold emplace. destruct (mlsGroups_ s !! g) eqn:Eo; [eauto |].
  rewrite lookup_insert_ne by congruence. eauto.
Qed.

Lemma bound_insert (s s' : state) g G G0 : mlsGroups_ s !! g = Some G0 -> mg_room G = mg_room G0 -> mg_client G = mg_client G0 ->
  mlsGroups_ s' = <[g := G]> (mlsGroups_ s) -> bound s s'.
Proof.
  intros E0 Er Ec E g' G' Eg. rewrite E. destruct (decide (g' = g)) as [-> | Hne].
  - rewrite lookup_insert_eq. exists G. split; [done |]. by simplify_eq.
  - rewrite lookup_insert_ne by done. eauto.
Qed.

(** Pending operations are at most dropped, and no handshake message is sent. *)
Record tame (s s' : state) : Prop := mk_tame {
  tm_ops c op : pendingMlsOperations_ s' !! c = Some op -> pendingMlsOperations_ s !! c = Some op;
  tm_bound : bound s s';
  tm_sent : exists ext, sent_ (base s') = sent_ (base s) ++ ext /\ Forall plain ext;
}.

Lemma tame_refl s : tame s s.
Proof. split; [done | apply bound_refl | exists []; by rewrite app_nil_r]. Qed.

Lemma tame_trans s1 s2 s3 : tame s1 s2 -> tame s2 s3 -> tame s1 s3.
Proof.
  intros [O1 B1 (e1 & E1 & F1)] [O2 B2 (e2 & E2 & F2)]. split; [eauto | by eapply bound_trans |].
  exists (e1 ++ e2). rewrite E2, E1, app_assoc. split; [done |]. by apply Forall_app.
Qed.

(** An update of other fields. *)
Lemma tame_same (s s' : state) : pendingMlsOperations_ s' = pendingMlsOperations_ s -> mlsGroups_ s' = mlsGroups_ s ->
  sent_ (base s') = sent_ (base s) -> tame s s'.
Proof. intros Eo Eg Es. split; [by rewrite Eo | by apply bound_same | exists []; by rewrite Es, app_nil_r]. Qed.

Lemma tame_drop c (s : state) : tame s (s <| pendingMlsOperations_ ::= delete c |>).
Proof.
  split; [| by apply bound_same | exists []; by rewrite app_nil_r]. cbn. intros c' op [_ E]%lookup_delete_Some. done.
Qed.

Lemma wire_send_sent m (s s' : state) r : wire_send m s = (s', r) ->
  pendingMlsOperations_ s' = pendingMlsOperations_ s /\ mlsGroups_ s' = mlsGroups_ s /\
  sent_ (base s') = sent_ (base s) ++ (if is_ok r then [m] else []).
Proof.
  unfold wire_send. destruct (negb (link_up s)); [intros [= <- <-]; cbn; by rewrite app_nil_r |].
  destruct (env_send (clock s)) as [[] | e]; intros [= <- <-]; cbn; by rewrite ?app_nil_r.
Qed.

Lemma tame_send m (s s' : state) r : handshake m = false -> wire_send m s = (s', r) -> tame s s'.
Proof.
  intros Hm E. apply wire_send_sent in E as (Eo & Eg & Es). split; [by rewrite Eo | by apply bound_same |].
  eexists. split; [exact Es |]. destruct (is_ok r); [by repeat constructor | constructor].
Qed.

Lemma tame_on_client {A} c (f : MlsClient -> MlsClient * outcome A) (s s' : state) r : on_client c f s = (s', r) -> tame s s'.
Proof.
  unfold on_client. destruct (clients s !! c) as [client |]; [destruct (f client) |]; intros [= <- _];
    by apply tame_same.
Qed.

End Tame.

Ltac tame_walk :=
  repeat (cbv zeta; match goal with
  | |- tame ?s ?s => apply tame_refl
  | H : wire_send _ ?s0 = (?s1, _) |- tame _ ?s1 =>
      apply (tame_trans _ s0 _); [clear H | refine (tame_send _ _ _ _ _ H); reflexivity]
  | H : on_client _ _ ?s0 = (?s1, _) |- tame _ ?s1 => apply (tame_trans _ s0 _); [clear H | by eapply tame_on_client]
  | |- tame _ (field_update _ _ ?s0) => apply (tame_trans _ s0 _); [| apply tame_same; reflexivity]
  | |- tame _ (field_update pendingMlsOperations_ (delete _) ?s0) => apply (tame_trans _ s0 _); [| apply tame_drop]
  | |- tame _ (emit _ ?s0) => apply (tame_trans _ s0 _); [| apply tame_same; reflexivity]
  | |- tame _ (if ?b then _ else _) => destruct b
  | |- tame _ (match ?x with _ => _ end) => destruct x eqn:?
  | |- tame ?s (_ ?s0) => first [constr_eq s s0; fail 1 | apply (tame_trans _ s0 _); [| solve [auto with tame nocore]]]
  | |- tame _ _ => solve [auto with tame nocore]
  end).

Section TameHandlers.
  Context `{QtText} `{QtOrder} `{CryptoLib} `{QtJson} `{JsonCodec} `{MlsLib} {D F : Type} `{InputDevice D} `{FileSystem F}
    `{HostEnv D}.

#[local] Abbreviation state := (AttachmentWorker D F).

Lemma tame_attachment_error a b c d e r (s : state) : tame s (attachment_error a b c d e r s).
Proof. by apply tame_same. Qed.

Lemma tame_mls_result c ok code m (s : state) : tame s (mls_result c ok code m s).
Proof. by apply tame_same. Qed.

#[local] Hint Resolve tame_attachment_error tame_mls_result : tame.

Lemma tame_sendAttachmentInit a b c (s : state) : tame s (sendAttachmentInit a b c s).
Proof. unfold sendAttachmentInit. tame_walk. Qed.

Lemma tame_sendAttachmentChunk a b c d e (s : state) : tame s (sendAttachmentChunk a b c d e s).
Proof. unfold sendAttachmentChunk. tame_walk. Qed.

Lemma tame_abandon u j r (s : state) : tame s (abandon_upload u j r s).
Proof. unfold abandon_upload. tame_walk. Qed.

#[local] Hint Resolve tame_sendAttachmentInit tame_sendAttachmentChunk tame_abandon : tame.

Lemma tame_fill_window n u (s : state) : tame s (fill_window n u s).
Proof. revert s. induction n as [| n IH]; intros s; cbn [fill_window]; [apply tame_refl |]. tame_walk. Qed.

Lemma tame_sendNext u (s : state) : tame s (sendNextAttachmentChunk u s).
Proof. apply tame_fill_window. Qed.

Lemma tame_resumeAttachment a b (s : state) : tame s (resumeAttachment a b s).
Proof. unfold resumeAttachment. tame_walk. Qed.

Lemma tame_sendAttachmentCommit a b (s : state) : tame s (sendAttachmentCommit a b s).
Proof. unfold sendAttachmentCommit. tame_walk. Qed.

Lemma tame_sendAttachmentDownload a b c (s : state) : tame s (sendAttachmentDownload a b c s).
Proof. unfold sendAttachmentDownload. tame_walk. Qed.

#[local] Hint Resolve tame_sendNext tame_resumeAttachment tame_sendAttachmentCommit tame_sendAttachmentDownload : tame.

Lemma tame_startAttachmentDownload a b c (s : state) : tame s (startAttachmentDownload a b c s).
Proof. unfold startAttachmentDownload. tame_walk. Qed.

Lemma tame_sendAttachmentManifest m (s : state) : tame s (sendAttachmentManifest m s).
Proof. unfold sendAttachmentManifest. tame_walk. Qed.

#[local] Hint Resolve tame_sendAttachmentManifest tame_startAttachmentDownload : tame.

Lemma tame_processAttachmentMessage m (s : state) : tame s (processAttachmentMessage m s).
Proof.
  unfold processAttachmentMessage, on_error_reply, on_init_reply, on_resume_reply, on_chunk_reply, on_chunk_acknowledged,
    on_commit_reply, on_download_reply. tame_walk.
Qed.

Lemma tame_fetchMlsKeyPackage a b c (s : state) : tame s (fetchMlsKeyPackage a b c s).
Proof. unfold fetchMlsKeyPackage. tame_walk. Qed.

Lemma tame_failSetup a b (s : state) : tame s (failAttachmentMlsSetup a b s).
Proof. unfold failAttachmentMlsSetup. tame_walk. Qed.

#[local] Hint Resolve tame_fetchMlsKeyPackage tame_failSetup : tame.

Lemma tame_startNext a (s : state) : tame s (startNextAttachmentMlsSetup a s).
Proof. unfold startNextAttachmentMlsSetup, file_info. tame_walk. Qed.

Lemma tame_inspect a b (s : state) : tame s (inspectMlsGroup a b s).
Proof. unfold inspectMlsGroup. tame_walk. Qed.

Lemma tame_protect a b c (s : state) : tame s (protectMls a b c s).
Proof. unfold protectMls. tame_walk. Qed.

Lemma tame_publish (s : state) : tame s (publishMlsKeyPackage s).
Proof. unfold publishMlsKeyPackage. tame_walk. Qed.

#[local] Hint Resolve tame_startNext tame_publish : tame.

Lemma tame_complete m (s : state) : tame s (complete_operation m s).
Proof. unfold complete_operation, drop_operation. tame_walk. Qed.

Lemma tame_on_mls_error m (s : state) : tame s (on_mls_error m s).
Proof. unfold on_mls_error. tame_walk. Qed.

End TameHandlers.

#[export] Hint Resolve tame_attachment_error tame_mls_result tame_sendAttachmentInit tame_sendAttachmentChunk tame_sendNext
  tame_resumeAttachment tame_sendAttachmentCommit tame_sendAttachmentDownload tame_startAttachmentDownload
  tame_sendAttachmentManifest tame_processAttachmentMessage tame_fetchMlsKeyPackage tame_failSetup tame_startNext
  tame_inspect tame_protect tame_publish tame_complete tame_on_mls_error : tame.

(** ** The order of handshakes *)

Section Order.
  Context `{QtText} `{QtOrder} `{CryptoLib} `{QtJson} `{JsonCodec} `{MlsLib} {D F : Type} `{InputDevice D} `{FileSystem F}
    `{HostEnv D}.

#[local] Abbreviation state := (AttachmentWorker D F).

(** The messages an operation has sent in its phase. *)
Definition handshakes (c : string) (op : PendingMlsOperation) : list Message :=
  match op_phase op with
  | PhaseProposal => [proposal_message c op]
  | PhaseCommit => [proposal_message c op; mls_commit_message c op]
  | PhaseWelcome => [proposal_message c op; mls_commit_message c op; welcome_message c op]
  end.

Definition op_ok (sent : list Message) (c : string) (op : PendingMlsOperation) : Prop :=
  handshakes c op `sublist_of` sent /\ (op_phase op = PhaseWelcome -> op_add op = true).

(** A commit comes after its proposal, a welcome after its proposal and commit. *)
Definition in_order (before : list Message) (m : Message) : Prop :=
  (type m = "mls.group.commit" ->
     exists c op, m = mls_commit_message c op /\ [proposal_message c op] `sublist_of` before) /\
  (type m = "mls.group.welcome" ->
     exists c op, m = welcome_message c op /\ op_add op = true /\
       [proposal_message c op; mls_commit_message c op] `sublist_of` before).

Definition all_in_order (sent : list Message) : Prop := forall k m, sent !! k = Some m -> in_order (take k sent) m.

Record handshake_inv (s : state) : Prop := mk_handshake_inv {
  hi_ops : map_Forall (op_ok (sent_ (base s))) (pendingMlsOperations_ s);
  hi_sent : all_in_order (sent_ (base s));
}.

Lemma op_ok_mono sent ext c op : op_ok sent c op -> op_ok (sent ++ ext) c op.
Proof. intros [Hs Ha]. split; [by apply sublist_inserts_r | done]. Qed.

Lemma in_order_mono before ext m : in_order before m -> in_order (before ++ ext) m.
Proof.
  intros [Hc Hw]. split; intros Ht; [destruct (Hc Ht) as (c & op & E & Hs) | destruct (Hw Ht) as (c & op & E & Ha & Hs)];
    exists c, op; split_and!; try done; by apply sublist_inserts_r.
Qed.

Lemma all_in_order_app sent ext : all_in_order sent -> (forall k m, ext !! k = Some m -> in_order (sent ++ take k ext) m) ->
  all_in_order (sent ++ ext).
Proof.
  intros Hs He k m Hk. apply lookup_app_Some in Hk as [Hk | [Hle Hk]].
  - rewrite take_app_le by (apply lookup_lt_Some in Hk; lia). by apply Hs.
  - rewrite take_app_ge by lia. by apply He.
Qed.

Lemma plain_in_order before m : plain m -> in_order before m.
Proof.
  unfold plain, handshake. intros Hp. bool_hyps. split; congruence.
Qed.

Lemma proposal_in_order before c op : in_order before (proposal_message c op).
Proof. by split. Qed.

Lemma all_in_order_snoc sent m : all_in_order sent -> in_order sent m -> all_in_order (sent ++ [m]).
Proof.
  intros Hs Hm. apply all_in_order_app; [done |]. intros [| k] m' Hk; [| done]. injection Hk as <-. by rewrite app_nil_r.
Qed.

(** A step that keeps the invariant and the groups. *)
Definition safe (s s' : state) : Prop := (handshake_inv s -> handshake_inv s') /\ bound s s'.

Lemma safe_refl s : safe s s.
Proof. split; [done | apply bound_refl]. Qed.

Lemma safe_trans s1 s2 s3 : safe s1 s2 -> safe s2 s3 -> safe s1 s3.
Proof. intros [I1 B1] [I2 B2]. split; [auto | by eapply bound_trans]. Qed.

Lemma tame_safe s s' : tame s s' -> safe s s'.
Proof.
  intros [Ho Hb (ext & Es & Hp)]. split; [| done]. intros [Iops Isent]. split; rewrite Es.
  - intros c op E. apply op_ok_mono, Iops, Ho, E.
  - apply all_in_order_app; [done |]. intros k m Hk. apply plain_in_order. by eapply Forall_lookup_1.
Qed.

(** An operation enters a phase: it is registered and its message has been sent. *)
Lemma phase_safe (s s' : state) c op m :
  pendingMlsOperations_ s' = <[c := op]> (pendingMlsOperations_ s) -> bound s s' ->
  sent_ (base s') = sent_ (base s) ++ [m] ->
  (handshake_inv s -> in_order (sent_ (base s)) m /\ op_ok (sent_ (base s) ++ [m]) c op) -> safe s s'.
Proof.
  intros Eo Hb Es Hm. split; [| done]. intros Hi. destruct (Hm Hi) as [Hin Hop]. destruct Hi as [Iops Isent].
  split; rewrite Es.
  - rewrite Eo. apply map_Forall_insert_2; [done |]. eapply map_Forall_impl; [exact Iops |].
    intros c' op' Hop'. by apply op_ok_mono.
  - by apply all_in_order_snoc.
Qed.

Lemma unregistered_tame (s s' : state) c op :
  pendingMlsOperations_ s' = delete c (<[c := op]> (pendingMlsOperations_ s)) -> bound s s' ->
  sent_ (base s') = sent_ (base s) -> tame s s'.
Proof.
  intros Eo Hb Es. split; [| done | exists []; by rewrite Es, app_nil_r].
  intros c' op' E. rewrite Eo in E. apply lookup_delete_Some in E as [Hne E]. by rewrite lookup_insert_ne in E.
Qed.

(** *** Code that can throw *)

Definition safeM {A} (m : throwing state A) : Prop := forall s, safe s (m s).1.
Definition tameM {A} (m : throwing state A) : Prop := forall s, tame s (m s).1.

Lemma tameM_safeM {A} (m : throwing state A) : tameM m -> safeM m.
Proof. intros Hm s. apply tame_safe, Hm. Qed.

Lemma tameM_then {A B} (m : throwing state A) (k : A -> throwing state B) :
  tameM m -> (forall a, tameM (k a)) -> tameM (then_ m k).
Proof.
  intros Hm Hk s. unfold then_. specialize (Hm s). destruct (m s) as [s1 [a | e]]; [| done].
  eapply tame_trans; [exact Hm | apply Hk].
Qed.

Lemma safeM_then {A B} (m : throwing state A) (k : A -> throwing state B) :
  safeM m -> (forall a, safeM (k a)) -> safeM (then_ m k).
Proof.
  intros Hm Hk s. unfold then_. specialize (Hm s). destruct (m s) as [s1 [a | e]]; [| done].
  eapply safe_trans; [exact Hm | apply Hk].
Qed.

Lemma tameM_pure {A} (f : state -> outcome A) : tameM (fun s => (s, f s)).
Proof. intros s. apply tame_refl. Qed.

Lemma tameM_modify f : (forall s : state, tame s (f s)) -> tameM (modify f).
Proof. intros Hf s. apply Hf. Qed.

Lemma safeM_modify f : (forall s : state, safe s (f s)) -> safeM (modify f).
Proof. intros Hf s. apply Hf. Qed.

Lemma tameM_on_client {A} c (f : MlsClient -> MlsClient * outcome A) : tameM (on_client c f).
Proof. intros s. destruct (on_client c f s) as [s' r] eqn:E. by eapply tame_on_client. Qed.

Lemma tame_catch m h (s : state) : tameM m -> (forall e s, tame s (h e s)) -> tame s (catch m h s).
Proof.
  intros Hm Hh. unfold catch. specialize (Hm s). destruct (m s) as [s1 [a | e]]; [done |].
  eapply tame_trans; [exact Hm | apply Hh].
Qed.

Lemma safe_catch m h (s : state) : safeM m -> (forall e s, safe s (h e s)) -> safe s (catch m h s).
Proof.
  intros Hm Hh. unfold catch. specialize (Hm s). destruct (m s) as [s1 [a | e]]; [done |].
  eapply safe_trans; [exact Hm | apply Hh].
Qed.

Lemma tameM_refuse c code msg : tameM (mls_refuse c code msg).
Proof. apply tameM_modify. auto with tame. Qed.

Lemma tameM_make_client : tameM make_client.
Proof. intros s. unfold make_client. destruct (mls_create _ _); by apply tame_same. Qed.

#[local] Hint Resolve tameM_then tameM_modify tameM_on_client tameM_refuse tameM_make_client tame_catch tame_safe
  tameM_safeM : tame.
#[local] Hint Extern 1 (tameM (ret _)) => apply tameM_pure : tame.
#[local] Hint Extern 1 (tameM (throw _)) => apply tameM_pure : tame.
#[local] Hint Extern 1 (tameM (read _)) => apply tameM_pure : tame.
#[local] Hint Extern 1 (tameM (unwrap _)) => apply tameM_pure : tame.

Lemma tameM_group_client {A} g (f : MlsClient -> MlsClient * outcome A) : tameM (group_client g f).
Proof. unfold group_client. destruct (mg_client g); auto with tame. Qed.

Lemma tameM_make_group g r : tameM (make_group g r).
Proof. unfold make_group. auto 6 with tame. Qed.

#[local] Hint Resolve tameM_group_client tameM_make_group : tame.

Lemma tame_emplace g G (s : state) : tame s (s <| mlsGroups_ ::= emplace g G |>).
Proof. split; [done | by eapply bound_emplace | exists []; by rewrite app_nil_r]. Qed.

#[local] Hint Resolve tame_emplace : tame.

Lemma tame_startAttachmentUpload a b c d (s : state) : tame s (startAttachmentUpload a b c d s).
Proof.
  unfold startAttachmentUpload, file_info. tame_walk. eapply tame_trans; [| apply tame_catch; auto with tame].
  - tame_walk.
  - apply tameM_then; [auto with tame |]. intros g. apply tameM_modify. intros s'. tame_walk.
Qed.

Lemma tame_renew_client (s : state) : tame s (renew_client s).
Proof.
  unfold renew_client. pose proof (tameM_make_client s) as Hc. destruct (make_client s) as [s1 [c | e]];
    apply (tame_trans _ s1 _); try done; by apply tame_same.
Qed.

Lemma tame_unprotect a b c (s : state) : tame s (unprotectMls a b c s).
Proof.
  unfold unprotectMls. cbv zeta. destruct (mlsGroups_ s !! _) as [[[cl |] ? ? ? ?] |];
    [| by apply tame_same | by apply tame_same].
  match goal with |- tame s (match ?m s with _ => _ end) =>
    assert (tameM m) as Hm by auto with tame; specialize (Hm s); destruct (m s) as [s1 [p | e]] end;
    (eapply tame_trans; [exact Hm | by apply tame_same]).
Qed.

(** *** Operations *)

Lemma safeM_submit c e op : (forall n, op_phase (op n) = PhaseProposal) -> safeM (submit_operation c e op).
Proof.
  intros Hph s. unfold submit_operation. destruct (e =? UINT64_MAX); [apply tame_safe, tameM_refuse |]. cbv zeta.
  destruct (_ || _)%bool; [apply tame_safe, tameM_refuse |]. destruct (wire_send _ _) as [s1 [[] | r]] eqn:E; cbn [fst];
    apply wire_send_sent in E as (Eo & Eg & Es); cbn in Eo, Eg, Es.
  - eapply (phase_safe s s1 _ _ _ Eo); [by apply bound_same | exact Es |]. intros Hi.
    split; [apply proposal_in_order |]. unfold op_ok, handshakes. rewrite Hph. split; [by apply sublist_inserts_l | done].
  - apply tame_safe. eapply tame_trans; [| apply tameM_refuse]. eapply unregistered_tame; cbn.
    + by rewrite Eo.
    + by apply bound_same.
    + by rewrite Es, app_nil_r.
Qed.

Lemma safeM_add a b c d e g : safeM (add_to_group a b c d e g).
Proof.
  unfold add_to_group. apply safeM_then; [auto with tame |]. intros p. apply safeM_then; [auto with tame |]. intros q.
  apply safeM_then; [auto with tame |]. intros r. cbv zeta. destruct (_ || _)%bool; unfold too_large_for_frame; auto with tame.
  by apply safeM_submit.
Qed.

Lemma safeM_remove a b c d g : safeM (remove_from_group a b c d g).
Proof.
  unfold remove_from_group. apply safeM_then; [auto with tame |]. intros p.
  apply safeM_then; [auto with tame |]. intros r. cbv zeta. destruct (_ || _)%bool; unfold too_large_for_frame; auto with tame.
  by apply safeM_submit.
Qed.

#[local] Hint Resolve safeM_add safeM_remove safe_catch : tame.

Lemma safe_addMlsMember a b c d (s : state) : safe s (addMlsMember a b c d s).
Proof.
  unfold addMlsMember. cbv zeta. destruct (negb (link_up s)); [auto with tame |].
  destruct (_ || _)%bool; [auto with tame |]. destruct (mlsKeyPackages_ s !! _) as [kp |]; [| auto with tame].
  apply safe_catch; [| auto with tame]. destruct (mlsGroups_ s !! _) as [g |].
  - destruct (negb _); unfold group_mismatch; auto with tame.
  - apply safeM_then; [auto with tame |]. intros g. apply safeM_then; [| auto with tame].
    apply tameM_safeM, tameM_modify. auto with tame.
Qed.

Lemma safe_removeMlsMember a b c d (s : state) : safe s (removeMlsMember a b c d s).
Proof.
  unfold removeMlsMember. cbv zeta. destruct (negb (link_up s)); [auto with tame |].
  destruct (_ || _)%bool; [auto with tame |]. destruct (mlsGroups_ s !! _) as [g |]; [| auto with tame].
  destruct (negb _); auto with tame.
Qed.

(** *** Messages *)

Lemma tameM_encrypted_chat m : tameM (on_encrypted_chat m).
Proof.
  unfold on_encrypted_chat. apply tameM_then; [auto with tame |]. intros env. apply tameM_then; [auto with tame |]. intros v.
  destruct (negb _); [auto with tame |]. apply tameM_then; [auto with tame |]. intros alg.
  destruct (negb _); [auto with tame |]. destruct (member "group_id" env) as [[] |]; auto with tame.
  destruct (member "ciphertext" env) as [[] |]; auto with tame. apply tameM_then; [auto with tame |].
  intros [[[c |] ? ? ? ?] |]; auto with tame. apply tameM_then; [auto with tame |]. intros raw.
  apply tameM_then; [auto with tame |]. intros plain. apply tameM_modify. intros s'. unfold on_manifest. tame_walk.
Qed.

Lemma safe_on_key_package m (s : state) : safe s (on_key_package m s).
Proof.
  unfold on_key_package. cbv zeta.
  match goal with |- safe s (match pendingAttachmentMlsFetches_ ?x !! _ with _ => _ end) => set (s1 := x) end.
  assert (tame s s1) as H1' by (unfold s1; tame_walk). apply (safe_trans _ s1); [by apply tame_safe |].
  destruct (pendingAttachmentMlsFetches_ s1 !! _); [| apply safe_refl].
  match goal with |- safe s1 (match pendingAttachmentMlsSetups_ ?x !! _ with _ => _ end) => set (s2 := x) end.
  assert (tame s1 s2) as H2' by (by apply tame_same). apply (safe_trans _ s2); [by apply tame_safe |].
  destruct (pendingAttachmentMlsSetups_ s2 !! _) as [setup |]; [| apply safe_refl].
  eapply safe_trans; [| apply safe_addMlsMember]. apply tame_safe. by apply tame_same.
Qed.

Lemma tameM_on_proposal m : tameM (on_proposal m).
Proof.
  intros s. unfold on_proposal. destruct (group_of m s) as [g |]; [| by apply tame_same].
  apply (tameM_then _ _); auto with tame.
Qed.

Lemma safe_on_proposal_ack m (s : state) : safe s (on_proposal_ack m s).
Proof.
  unfold on_proposal_ack. cbv zeta. destruct (pendingMlsOperations_ s !! command_id m) as [op |] eqn:Eop; [| apply safe_refl].
  case_bool_decide as Hph; cbn [negb]; [| apply safe_refl]. destruct (wire_send _ _) as [s1 [[] | r]] eqn:E;
    apply wire_send_sent in E as (Eo & Eg & Es); cbn in Eo, Eg, Es.
  - eapply (phase_safe s s1 _ _ _ Eo); [by apply bound_same | exact Es |]. intros [Iops _].
    destruct (Iops _ _ Eop) as [Hs _]. unfold handshakes in Hs. rewrite Hph in Hs. split.
    + split; [| done]. intros _. by exists (command_id m), op.
    + split; [| done].
      by apply (sublist_app [proposal_message (command_id m) op] _ [mls_commit_message (command_id m) op]
                  [mls_commit_message (command_id m) op]).
  - apply tame_safe. eapply tame_trans; [| apply tame_mls_result]. unfold drop_operation. eapply unregistered_tame; cbn.
    + by rewrite Eo.
    + by apply bound_same.
    + by rewrite Es, app_nil_r.
Qed.

Lemma tame_sendWelcomeAccept m (s : state) : tame s (sendWelcomeAccept m s).1.
Proof.
  unfold sendWelcomeAccept. destruct (is_empty _); [apply tame_refl |]. destruct (wire_send _ s) as [s1 r] eqn:E.
  refine (tame_send _ _ _ _ _ E). reflexivity.
Qed.

Lemma tameM_join_group m c : tameM (join_group m c).
Proof.
  unfold join_group. apply tameM_then; [auto with tame |]. intros raw.
  apply tameM_then; [auto with tame |]. intros []. cbv zeta.
  apply tameM_then; [apply tameM_modify; intros s; unfold welcome_event; tame_walk |]. intros [].
  apply tameM_then.
  { intros s. pose proof (tame_sendWelcomeAccept m s). by destruct (sendWelcomeAccept m s). }
  intros [[] | r]; [| auto with tame]. apply tameM_then; [apply tameM_modify; intros s; by apply tame_same |]. intros [].
  apply tameM_then; [auto with tame |]. intros fresh. apply tameM_modify. intros s. tame_walk.
Qed.

Lemma tameM_on_welcome m : tameM (on_welcome m).
Proof.
  intros s. unfold on_welcome. destruct (_ && _)%bool; [by apply tame_same |]. destruct (mlsGroups_ s !! _) as [g |].
  - destruct (negb _); [by apply tame_same |]. destruct (bool_decide _); [| destruct (_ <=? _); by apply tame_same].
    cbv zeta. pose proof (tame_sendWelcomeAccept m (welcome_event m "received" s)) as Hc.
    destruct (sendWelcomeAccept _ _) as [s1 r]. cbn [fst] in *.
    apply (tame_trans _ (welcome_event m "received" s)); [by apply tame_same |].
    destruct (is_ok r); [| done]. eapply tame_trans; [exact Hc | by apply tame_same].
  - destruct (mlsClient_ s) as [c |]; [apply tameM_join_group | by apply tame_same].
Qed.

Lemma group_of_lookup m (s : state) g : group_of m s = Some g -> mlsGroups_ s !! group_id m = Some g.
Proof. unfold group_of. destruct (mlsGroups_ s !! group_id m) as [g' |]; [| done]. destruct (String.eqb _ _); congruence. Qed.

Lemma tameM_on_commit m : tameM (on_commit m).
Proof.
  intros s. unfold on_commit. destruct (group_of m s) as [g |] eqn:Eg; [| by apply tame_same].
  apply group_of_lookup in Eg. destruct (bool_decide _); [apply tame_refl |].
  destruct (negb _); [by apply tame_same |]. unfold then_ at 1, unwrap.
  destruct (decodeMlsOpaque (commit m)) as [raw | e]; [| apply tame_refl]. unfold then_, group_client.
  destruct (mg_client g) as [c |]; [| apply tame_refl].
  destruct (on_client c (handleCommit raw) s) as [s1 [[] | e]] eqn:E; [| by eapply tame_on_client].
  assert (mlsGroups_ s1 = mlsGroups_ s) as Eg1.
  { unfold on_client in E. destruct (clients s !! c) as [client |]; [destruct (handleCommit raw client) |];
      by injection E as <- _. }
  apply tame_on_client in E. eapply tame_trans; [exact E |]. cbn [modify fst].
  split; [done | | exists []; by rewrite app_nil_r]. eapply (bound_insert _ _ (group_id m) _ g); [by rewrite Eg1 | | | reflexivity]; done.
Qed.

(** A group at its next epoch is still the group. *)
Lemma tame_group_update g G G0 (s : state) : mlsGroups_ s !! g = Some G0 -> mg_room G = mg_room G0 -> mg_client G = mg_client G0 ->
  tame s (s <| mlsGroups_ ::= insert g G |>).
Proof.
  intros E Er Ec. split; [done | | exists []; by rewrite app_nil_r]. by eapply (bound_insert _ _ g G G0).
Qed.

Lemma safe_on_commit_ack m (s : state) : safe s (on_commit_ack m s).
Proof.
  unfold on_commit_ack. cbv zeta.
  set (unrelated := if bool_decide (command_id m ∈ pendingMlsCommands_ s) then _ else _).
  assert (safe s unrelated) as Hu by (unfold unrelated; apply tame_safe; tame_walk).
  destruct (pendingMlsOperations_ s !! command_id m) as [op |] eqn:Eop; [| done].
  case_bool_decide as Hph; cbn [negb]; [| done].
  destruct (mlsGroups_ s !! op_group op) as [g |] eqn:Eg.
  2: { apply tame_safe. unfold group_unavailable, drop_operation. tame_walk. }
  match goal with |- safe s (if _ then match wire_send _ (?x <| pendingMlsOperations_ ::= _ |>) with _ => _ end else _) => set (s1 := x) end.
  assert (tame s s1) as H1' by (by eapply tame_group_update).
  destruct (op_add op) eqn:Hadd; [| apply (safe_trans _ s1); [by apply tame_safe | apply tame_safe; auto with tame]].
  destruct (wire_send _ _) as [s2 [[] | r]] eqn:E; apply wire_send_sent in E as (Eo & Eg2 & Es); cbn in Eo, Eg2, Es.
  - eapply (phase_safe s s2 _ _ _ Eo).
    + intros g' G' Eg'. rewrite Eg2. by apply H1'.
    + exact Es.
    + intros [Iops _]. destruct (Iops _ _ Eop) as [Hs _]. unfold handshakes in Hs. rewrite Hph in Hs. split.
      * split; [done |]. intros _. by exists (command_id m), op.
      * split; [| done].
        by apply (sublist_app [proposal_message (command_id m) op; mls_commit_message (command_id m) op] _
                    [welcome_message (command_id m) op] [welcome_message (command_id m) op]).
  - apply tame_safe. eapply tame_trans; [| apply tame_mls_result]. unfold drop_operation. eapply unregistered_tame; cbn.
    + by rewrite Eo.
    + intros g' G' Eg'. cbn. rewrite Eg2. by apply H1'.
    + by rewrite Es, app_nil_r.
Qed.

Lemma safe_on_welcome_ack m (s : state) : safe s (on_welcome_ack m s).
Proof.
  unfold on_welcome_ack. destruct (pendingMlsOperations_ s !! command_id m) as [op |]; [| apply safe_refl].
  destruct (negb _); [apply safe_refl |]. apply tame_safe. eapply tame_trans; [| apply tame_complete].
  split; [done | | exists []; by rewrite app_nil_r]. intros g G E. cbn. destruct (decide (g = op_group op)) as [-> | Hne].
  - rewrite lookup_alter_eq, E. cbn. eauto.
  - rewrite lookup_alter_ne by done. eauto.
Qed.

Lemma safe_processMlsMessage m (s : state) : safe s (processMlsMessage m s).
Proof.
  unfold processMlsMessage. apply safe_catch; [| auto with tame]. unfold dispatch_mls. cbv zeta.
  repeat match goal with |- safeM (if ?b then _ else _) => destruct b end;
    auto using tameM_safeM, tameM_encrypted_chat, tameM_on_proposal, tameM_on_welcome, tameM_on_commit, tameM_pure;
    apply safeM_modify; intros s'; auto using safe_on_key_package, safe_on_proposal_ack, safe_on_commit_ack, safe_on_welcome_ack.
  all: auto using safe_refl with tame.
Qed.

(** *** Logins *)

(** A message sent again, or one of an operation still in its phase. *)
Lemma safe_resend (s s' : state) m r : wire_send m s = (s', r) -> (handshake_inv s -> in_order (sent_ (base s)) m) ->
  safe s s'.
Proof.
  intros E Hm. apply wire_send_sent in E as (Eo & Eg & Es). split; [| by apply bound_same].
  intros Hi. pose proof (Hm Hi) as Hin. destruct Hi as [Iops Isent]. destruct r; cbn [is_ok] in Es.
  - split; rewrite Es; [| by apply all_in_order_snoc]. rewrite Eo. eapply map_Forall_impl; [exact Iops |].
    intros c op. apply op_ok_mono.
  - rewrite app_nil_r in Es. by split; rewrite Es, ?Eo.
Qed.

Lemma wire_send_grows m (s s' : state) r : wire_send m s = (s', r) ->
  exists ext, sent_ (base s') = sent_ (base s) ++ ext.
Proof. intros E. apply wire_send_sent in E as (_ & _ & E). eauto. Qed.

Lemma resume_operation_spec c op (s : state) : op_ok (sent_ (base s)) c op ->
  safe s (resume_operation (c, op) s) /\ exists ext, sent_ (base (resume_operation (c, op) s)) = sent_ (base s) ++ ext.
Proof.
  intros [Hs Ha]. unfold resume_operation. unfold handshakes in Hs. destruct (op_phase op) eqn:Hph.
  - destruct (wire_send _ s) as [s1 r] eqn:E. split.
    + eapply safe_trans; [eapply (safe_resend _ _ _ _ E) | destruct r; [apply safe_refl | auto with tame]].
      intros _. apply proposal_in_order.
    + destruct (wire_send_grows _ _ _ _ E) as [ext Ee]. exists ext. by destruct r.
  - destruct (wire_send _ s) as [s1 r] eqn:E. split.
    + eapply safe_trans; [eapply (safe_resend _ _ _ _ E) | destruct r; [apply safe_refl | auto with tame]].
      intros _. split; [| done]. intros _. exists c, op. split; [done |]. etrans; [| exact Hs].
      apply sublist_skip, sublist_nil_l.
    + destruct (wire_send_grows _ _ _ _ E) as [ext Ee]. exists ext. by destruct r.
  - split; [| exists []; by rewrite app_nil_r]. apply tame_safe. tame_walk.
Qed.

Lemma resume_bound e (s : state) : bound s (resume_operation e s).
Proof.
  destruct e as [c op]. unfold resume_operation.
  destruct (op_phase op); [| | by apply bound_same]; destruct (wire_send _ s) as [s1 r] eqn:E;
    apply wire_send_sent in E as (_ & Eg & _); destruct r; by apply bound_same.
Qed.

Lemma safe_resumeOperations (s : state) : safe s (resumePendingMlsOperations s).
Proof.
  unfold resumePendingMlsOperations. destruct (negb (link_up s)); [apply safe_refl |].
  split.
  - intros Hi.
    assert (Forall (fun e => op_ok (sent_ (base s)) e.1 e.2) (map_entries (pendingMlsOperations_ s))) as Hall.
    { apply Forall_forall. intros [c op] Hin. apply map_entries_elem in Hin. by apply Hi. }
    revert Hi Hall. generalize (map_entries (pendingMlsOperations_ s)). intros l. revert s.
    induction l as [| [c op] l IH]; intros s Hi Hall; [done |]. cbn [foldl]. apply Forall_cons in Hall as [Hop Hall].
    destruct (resume_operation_spec c op s Hop) as [[Hk _] (ext & Ee)]. apply IH; [by apply Hk |].
    eapply Forall_impl; [exact Hall |]. intros e He. rewrite Ee. by apply op_ok_mono.
  - generalize (map_entries (pendingMlsOperations_ s)). intros l. revert s.
    induction l as [| e l IH]; intros s; [apply bound_refl |]. cbn [foldl]. eapply bound_trans; [apply resume_bound | apply IH].
Qed.

Lemma safe_relogin (s : state) : safe s (after_login true s).
Proof.
  unfold after_login. cbn [negb]. cbv zeta. eapply safe_trans; [| apply safe_resumeOperations].
  apply tame_safe. eapply tame_trans; [| apply tame_publish]. destruct (mlsClient_ s); [apply tame_refl | apply tame_renew_client].
Qed.

Lemma inv_after_login b (s : state) : handshake_inv s -> handshake_inv (after_login b s).
Proof.
  destruct b; [apply safe_relogin |]. intros [_ Isent]. unfold after_login, resetMlsState. cbn [negb]. cbv zeta.
  match goal with |- handshake_inv (publishMlsKeyPackage (renew_client ?x)) => set (s1 := x) end.
  apply (tame_safe s1); [eapply tame_trans; [apply tame_renew_client | apply tame_publish] |]. by split.
Qed.

End Order.

(** ** Runs *)

Section Runs.
  Context `{QtText} `{QtOrder} `{CryptoLib} `{QtJson} `{JsonCodec} `{MlsLib} {D F : Type} `{InputDevice D} `{FileSystem F}
    `{HostEnv D}.

#[local] Abbreviation state := (AttachmentWorker D F).

(** What the session of the worker sends is no handshake. *)
Definition sends_plain (w w' : Worker) : Prop := exists ext, sent_ w' = sent_ w ++ ext /\ Forall plain ext.

Lemma same_sends_plain w w' : sent_ w' = sent_ w -> sends_plain w w'.
Proof. intros E. exists []. by rewrite E, app_nil_r. Qed.

Lemma hand_over_plain m r f w : plain m -> (forall w, sent_ (f w) = sent_ w) -> sends_plain w (hand_over m r f w).
Proof.
  intros Hm Hf. destruct r; [exists [m]; by repeat constructor |]. apply same_sends_plain, Hf.
Qed.

Lemma report_sent i w : sent_ (report_undelivered i w) = sent_ w.
Proof. unfold report_undelivered. by destruct (is_empty i). Qed.

Lemma stop_sent w : sent_ (stopReceiveLoop w) = sent_ w.
Proof. unfold stopReceiveLoop. by destruct (running_ w). Qed.

Lemma schedule_sent w : sent_ (scheduleReconnect w) = sent_ w.
Proof.
  unfold scheduleReconnect. destruct (_ || _)%bool; [done |]. cbv zeta. destruct (scheduleNextAttempt _) as [p d].
  destruct (d <? 0); cbn; by rewrite stop_sent.
Qed.

Lemma passive_sent c w : passive c = true -> sends_plain w (worker_step c w).
Proof.
  destruct c; intros Hp; try discriminate Hp; cbn [worker_step];
    unfold sendChatToRoom, sendPrivate, joinRoom, createRoom, sendRoomAction, requestUsers, requestRooms, requestHistory,
      sendAdminAction, on_received, on_receive_failed;
    repeat match goal with |- sends_plain _ (if ?b then _ else _) => destruct b end;
    try (by apply same_sends_plain); try (apply same_sends_plain, report_sent);
    try (apply hand_over_plain; [reflexivity | intros ?; (done || apply report_sent)]);
    apply same_sends_plain; by destruct (is_attachment_event _).
Qed.

Lemma base_tame f (s : state) : sends_plain (base s) (f (base s)) -> tame s (s <| base ::= f |>).
Proof. intros Hf. split; [done | by apply bound_same | exact Hf]. Qed.

Lemma safe_receive m (s : state) : safe s (receive_message m s).
Proof.
  unfold receive_message. cbv zeta. set (s1 := processAttachmentMessage m (processMlsMessage m s)).
  apply (safe_trans _ s1).
  - eapply safe_trans; [apply safe_processMlsMessage | apply tame_safe, tame_processAttachmentMessage].
  - apply tame_safe, base_tame, same_sends_plain. unfold on_received. by destruct (is_attachment_event _), (String.eqb _ _).
Qed.

Lemma inv_retry_loop k attempt logins target report preserve reason (s : state) :
  handshake_inv s -> handshake_inv (mls_retry_loop k attempt logins target report preserve reason s).1.
Proof.
  revert attempt reason s. induction k as [| k IH]; intros attempt reason s Hi; cbn [mls_retry_loop].
  { destruct report; by destruct Hi. }
  destruct (logins attempt) as [admin | r []]; cbv zeta.
  - cbn [fst]. match goal with |- handshake_inv (emit _ (after_login ?b ?x)) =>
      assert (handshake_inv (after_login b x)) as [? ?] by (apply inv_after_login; by destruct Hi) end. by split.
  - destruct report; by destruct Hi.
  - apply IH. by destruct Hi.
Qed.

Lemma inv_retries prepared logins target n report preserve (s : state) :
  handshake_inv s -> handshake_inv (mls_connectToServerWithRetries prepared logins target n report preserve s).1.
Proof.
  intros Hi. unfold mls_connectToServerWithRetries. destruct prepared; [by apply inv_retry_loop |].
  destruct report; by destruct Hi.
Qed.

Lemma bound_retries prepared logins target n report (s : state) :
  bound s (mls_connectToServerWithRetries prepared logins target n report true s).1.
Proof.
  unfold mls_connectToServerWithRetries. destruct prepared; [| destruct report; by apply bound_same].
  generalize (Z.to_nat (Z.max 1 n)) as k. intros k. generalize 0%nat at 1, EmptyString at 1. revert s.
  induction k as [| k IH]; intros s attempt reason; cbn [mls_retry_loop].
  { destruct report; by apply bound_same. }
  destruct (logins attempt) as [admin | r []]; cbv zeta.
  - cbn [fst]. match goal with |- bound s (emit _ (after_login _ ?x)) => apply (bound_trans _ x); [by apply bound_same |];
      destruct (safe_relogin x) as [_ Hb] end. exact Hb.
  - destruct report; by apply bound_same.
  - eapply bound_trans; [| apply IH]. by apply bound_same.
Qed.

Lemma safe_retrySaved p l (s : state) : safe s (mls_retrySavedConnection p l s).
Proof.
  unfold mls_retrySavedConnection. destruct (_ || _)%bool; [apply safe_refl |]. cbv zeta.
  match goal with |- context [mls_connectToServerWithRetries p l ?t 1 false true ?x] => set (s1 := x); set (tg := t) end.
  pose proof (inv_retries p l tg 1 false true s1) as Hi. pose proof (bound_retries p l tg 1 false s1) as Hb.
  destruct (mls_connectToServerWithRetries _ _ _ _ _ _ _) as [s2 ok]. cbn [fst] in *.
  apply (safe_trans _ s1); [apply tame_safe; by apply tame_same |]. apply (safe_trans _ s2); [by split |]. apply tame_safe.
  destruct ok; apply base_tame, same_sends_plain; [done | by rewrite schedule_sent].
Qed.

Lemma safe_timer i p l (s : state) : safe s (mls_timer_fires i p l s).
Proof.
  unfold mls_timer_fires. destruct (timers (base s) !! i) as [g |]; [| apply safe_refl]. cbv zeta.
  destruct (negb _); [apply tame_safe; by apply tame_same |].
  eapply safe_trans; [| apply safe_retrySaved]. apply tame_safe. by apply tame_same.
Qed.

(** Every call but one that connects keeps the invariant and the groups. *)
Lemma safe_step c (s : state) :
  match c with
  | MWorker (WConnect _ _ _ _ _ _ _ _) | MWorker (WLocalHost _ _ _ _ _ _ _ _ _) => True
  | _ => safe s (mls_step c s)
  end.
Proof.
  destruct c as [c | | | | | | | | | | | | | |]; cbn [mls_step];
    try solve [apply tame_safe; auto using tame_startAttachmentUpload, tame_unprotect with tame];
    auto using safe_receive, safe_addMlsMember, safe_removeMlsMember.
  destruct c; auto using safe_timer, safe_receive; apply tame_safe, base_tame; try (by apply passive_sent);
    apply same_sends_plain; cbn [worker_step].
  - unfold disconnectFromServer. cbn. by rewrite stop_sent.
  - apply schedule_sent.
Qed.

Lemma inv_step c (s : state) : handshake_inv s -> handshake_inv (mls_step c s).
Proof.
  intros Hi. pose proof (safe_step c s) as Hs. destruct c as [[] | | | | | | | | | | | | | |]; try (by apply Hs).
  - cbn [mls_step]. unfold mls_connectToServer. cbv zeta. apply inv_retries. destruct Hi as [Ho Hs'].
    split; cbn; by rewrite stop_sent.
  - cbn [mls_step]. unfold mls_connectToLocalHost. rewrite prepare_result. cbv zeta.
    destruct Hi as [Ho Hs']. destruct (new_session_spec (local_target (resolvePath env certFile) username userCode) (base s))
      as (_ & _ & _ & _ & _ & Esent). rewrite <- Esent in Ho, Hs'.
    destruct (hostLocally _ _ _ _ _ _ _ _) as [h []]; cbn [fst snd]; [apply inv_retries |]; by split.
Qed.

(** *** What a step may send *)

(** The message that a call hands to the receive loop. *)
Definition received_by (call : mls_call) : option Message :=
  match call with MWorker (WReceived _ _ _ m) | MReceived m => Some m | _ => None end.

(** The server's answer to the proposal, or the commit, of command [c]. *)
Definition acknowledges (type c : string) (payload : Message -> string) (call : mls_call) : Prop :=
  exists m, received_by call = Some m /\ Message.type m = type /\ payload m = "" /\ command_id m = c.

(** The calls that can log in again as the same user. *)
Definition logs_in (call : mls_call) : bool :=
  match call with MWorker (WConnect _ _ _ _ _ _ _ _) | MWorker (WTimer _ _ _) => true | _ => false end.

(** The calls that ask for a membership change: the user's, and the key package
    that an upload was waiting for. *)
Definition asks_change (call : mls_call) : bool :=
  match call with
  | MAddMember _ _ _ _ | MRemoveMember _ _ _ _ => true
  | _ => match received_by call with
         | Some m => String.eqb (Message.type m) "mls.key_package.fetch" && negb (is_empty (key_package m))
         | None => false
         end
  end.

(** When a membership message may be sent: the proposal when the change is asked
    for, the commit when the server has acknowledged the proposal of the
    operation, the welcome when it has acknowledged the commit of an operation
    that adds a member; and a new login repeats the message of the phase. *)
Definition may_send (call : mls_call) (s : state) (m : Message) : Prop :=
  (Message.type m = "mls.group.proposal" -> asks_change call = true \/
     logs_in call = true /\
     exists c op, pendingMlsOperations_ s !! c = Some op /\ op_phase op = PhaseProposal /\ m = proposal_message c op) /\
  (Message.type m = "mls.group.commit" -> exists c op,
     pendingMlsOperations_ s !! c = Some op /\ m = mls_commit_message c op /\
     (op_phase op = PhaseProposal /\ acknowledges "mls.group.proposal" c proposal call \/
      op_phase op = PhaseCommit /\ logs_in call = true)) /\
  (Message.type m = "mls.group.welcome" -> exists c op,
     pendingMlsOperations_ s !! c = Some op /\ m = welcome_message c op /\
     op_phase op = PhaseCommit /\ op_add op = true /\ acknowledges "mls.group.commit" c Message.commit call).

(** What is sent between two states satisfies [P]. *)
Definition speaks (P : Message -> Prop) (s s' : state) : Prop :=
  exists ext, sent_ (base s') = sent_ (base s) ++ ext /\ Forall (fun m => plain m \/ P m) ext.

Lemma speaks_trans P s1 s2 s3 : speaks P s1 s2 -> speaks P s2 s3 -> speaks P s1 s3.
Proof. intros (e1 & E1 & F1) (e2 & E2 & F2). exists (e1 ++ e2). rewrite E2, E1, app_assoc. split; [done |]. by apply Forall_app. Qed.

Lemma speaks_mono (P Q : Message -> Prop) s s' : (forall m, P m -> Q m) -> speaks P s s' -> speaks Q s s'.
Proof. intros HPQ (e & E & Hf). exists e. split; [done |]. eapply Forall_impl; [exact Hf |]. intros m [?|?]; auto. Qed.

Lemma tame_speaks P s s' : tame s s' -> speaks P s s'.
Proof. intros [_ _ (e & E & Hf)]. exists e. split; [done |]. eapply Forall_impl; [exact Hf |]. auto. Qed.

Lemma same_speaks P (s s' : state) : sent_ (base s') = sent_ (base s) -> speaks P s s'.
Proof. intros E. exists []. by rewrite E, app_nil_r. Qed.

Lemma speaks_send (P : Message -> Prop) m (s s1 s' : state) r : P m -> wire_send m s = (s1, r) -> sent_ (base s') = sent_ (base s1) -> speaks P s s'.
Proof.
  intros Hm E E'. apply wire_send_sent in E as (_ & _ & Es).
  exists (if is_ok r then [m] else []). rewrite E', Es. split; [done |].
  destruct (is_ok r); constructor; [by right | constructor].
Qed.

Definition speaksM {A} (P : Message -> Prop) (m : throwing state A) : Prop := forall s, speaks P s (m s).1.

Lemma tameM_speaksM {A} P (m : throwing state A) : tameM m -> speaksM P m.
Proof. intros Hm s. apply tame_speaks, Hm. Qed.

Lemma speaksM_then {A B} P (m : throwing state A) (k : A -> throwing state B) :
  speaksM P m -> (forall a, speaksM P (k a)) -> speaksM P (then_ m k).
Proof.
  intros Hm Hk s. unfold then_. specialize (Hm s). destruct (m s) as [s1 [a | e]]; [| done].
  eapply speaks_trans; [exact Hm | apply Hk].
Qed.

Lemma speaks_catch P m h (s : state) : speaks P s (m s).1 -> (forall e s, tame s (h e s)) -> speaks P s (catch m h s).
Proof.
  intros Hm Hh. unfold catch. destruct (m s) as [s1 [a | e]]; [done |].
  eapply speaks_trans; [exact Hm | apply tame_speaks, Hh].
Qed.

Definition is_proposal (m : Message) : Prop := exists c op, m = proposal_message c op.

Lemma submit_speaks c e op : speaksM is_proposal (submit_operation c e op).
Proof.
  intros s. unfold submit_operation. destruct (e =? UINT64_MAX); [apply tame_speaks, tameM_refuse |]. cbv zeta.
  destruct (_ || _)%bool; [apply tame_speaks, tameM_refuse |]. destruct (wire_send _ _) as [s1 [[] | r]] eqn:E; cbn [fst].
  - apply (speaks_trans _ _ (s <| pendingMlsOperations_ ::= insert (trimmed c) (op (e + 1)) |> <| pendingMlsCommands_ ::= union {[ c ]} |>));
      [by apply same_speaks | eapply speaks_send; [| exact E | done]]. by eexists _, _.
  - apply (speaks_trans _ _ (s <| pendingMlsOperations_ ::= insert (trimmed c) (op (e + 1)) |> <| pendingMlsCommands_ ::= union {[ c ]} |>));
      [by apply same_speaks | eapply speaks_send; [| exact E | done]]. by eexists _, _.
Qed.

Lemma add_speaks a b c d e g : speaksM is_proposal (add_to_group a b c d e g).
Proof.
  unfold add_to_group. repeat (apply speaksM_then; [apply tameM_speaksM; first [apply tameM_group_client | apply tameM_pure] | intros ?]).
  cbv zeta. destruct (_ || _)%bool; [apply tameM_speaksM, tameM_refuse | apply submit_speaks].
Qed.

Lemma remove_speaks a b c d g : speaksM is_proposal (remove_from_group a b c d g).
Proof.
  unfold remove_from_group. repeat (apply speaksM_then; [apply tameM_speaksM, tameM_group_client | intros ?]).
  cbv zeta. destruct (_ || _)%bool; [apply tameM_speaksM, tameM_refuse | apply submit_speaks].
Qed.

Lemma addMlsMember_speaks a b c d (s : state) : speaks is_proposal s (addMlsMember a b c d s).
Proof.
  unfold addMlsMember. cbv zeta. destruct (negb (link_up s)); [by apply same_speaks |].
  destruct (_ || _)%bool; [by apply same_speaks |]. destruct (mlsKeyPackages_ s !! _) as [kp |]; [| by apply same_speaks].
  apply speaks_catch; [| auto with tame]. destruct (mlsGroups_ s !! _) as [g |].
  - destruct (negb _); [by apply same_speaks | apply add_speaks].
  - apply speaksM_then; [apply tameM_speaksM, tameM_make_group |]. intros g.
    apply speaksM_then; [| intros _; apply add_speaks]. intros s'. by apply same_speaks.
Qed.

Lemma removeMlsMember_speaks a b c d (s : state) : speaks is_proposal s (removeMlsMember a b c d s).
Proof.
  unfold removeMlsMember. cbv zeta. destruct (negb (link_up s)); [by apply same_speaks |].
  destruct (_ || _)%bool; [by apply same_speaks |]. destruct (mlsGroups_ s !! _) as [g |]; [| by apply same_speaks].
  destruct (negb _); [by apply same_speaks |]. apply speaks_catch; [apply remove_speaks | auto with tame].
Qed.

Lemma key_package_speaks m (s : state) : speaks is_proposal s (on_key_package m s).
Proof.
  unfold on_key_package. cbv zeta.
  match goal with |- speaks _ s (match pendingAttachmentMlsFetches_ ?x !! _ with _ => _ end) => set (s1 := x) end.
  assert (tame s s1) as Ht by (unfold s1; tame_walk). apply (speaks_trans _ _ s1); [by apply tame_speaks |].
  destruct (pendingAttachmentMlsFetches_ s1 !! _); [| by apply same_speaks].
  match goal with |- context [pendingAttachmentMlsSetups_ ?x !! _] => destruct (pendingAttachmentMlsSetups_ x !! _) as [setup |] end;
    [| by apply same_speaks].
  eapply speaks_trans; [| apply addMlsMember_speaks]. by apply same_speaks.
Qed.

Lemma proposal_may_send call s m : asks_change call = true -> is_proposal m -> may_send call s m.
Proof. intros Hc (c & op & ->). split_and!; [by left | done | done]. Qed.

Lemma proposal_ack_speaks call m (s : state) : received_by call = Some m -> Message.type m = "mls.group.proposal" -> proposal m = "" ->
  speaks (may_send call s) s (on_proposal_ack m s).
Proof.
  intros Hr Ht Hp. unfold on_proposal_ack. cbv zeta. destruct (pendingMlsOperations_ s !! command_id m) as [op |] eqn:Eop; [| by apply same_speaks].
  case_bool_decide as Hph; cbn [negb]; [| by apply same_speaks].
  apply (speaks_trans _ _ (s <| pendingMlsOperations_ ::= insert (command_id m) (op <| op_phase := PhaseCommit |>) |>)); [by apply same_speaks |].
  destruct (wire_send _ _) as [s1 [[] | r]] eqn:E; (eapply speaks_send; [| exact E | done]).
  all: split_and!; [done | | done]; intros _; exists (command_id m), op; split_and!; [done | done |]; left; split; [done | by exists m].
Qed.

Lemma commit_ack_speaks call m (s : state) : received_by call = Some m -> Message.type m = "mls.group.commit" -> Message.commit m = "" ->
  speaks (may_send call s) s (on_commit_ack m s).
Proof.
  intros Hr Ht Hp. unfold on_commit_ack. cbv zeta.
  set (unrelated := if bool_decide (command_id m ∈ pendingMlsCommands_ s) then _ else _).
  assert (speaks (may_send call s) s unrelated) as Hu by (unfold unrelated; apply tame_speaks; tame_walk).
  destruct (pendingMlsOperations_ s !! command_id m) as [op |] eqn:Eop; [| done].
  case_bool_decide as Hph; cbn [negb]; [| done].
  destruct (mlsGroups_ s !! op_group op) as [g |] eqn:Eg; [| by apply same_speaks].
  match goal with |- speaks _ s (if _ then match wire_send _ (?x <| pendingMlsOperations_ ::= ?f |>) with _ => _ end else _) =>
    set (s1 := x); set (s2 := x <| pendingMlsOperations_ ::= f |>) end.
  destruct (op_add op) eqn:Hadd.
  2: { apply (speaks_trans _ _ s1); [by apply same_speaks | apply tame_speaks, tame_complete]. }
  apply (speaks_trans _ _ s2); [by apply same_speaks |].
  destruct (wire_send _ _) as [s3 [[] | r]] eqn:E; (eapply speaks_send; [| exact E | done]).
  all: split_and!; [done | done |]; intros _; exists (command_id m), op; split_and!; try done; by exists m.
Qed.

Lemma receive_speaks call m (s : state) : received_by call = Some m -> speaks (may_send call s) s (receive_message m s).
Proof.
  intros Hr. unfold receive_message. cbv zeta. set (s1 := processAttachmentMessage m (processMlsMessage m s)).
  apply (speaks_trans _ _ s1).
  2: { apply same_speaks. cbn. unfold on_received. by destruct (is_attachment_event _), (String.eqb _ _). }
  eapply speaks_trans; [| apply tame_speaks, tame_processAttachmentMessage].
  unfold processMlsMessage. apply speaks_catch; [| auto with tame]. unfold dispatch_mls. cbv zeta.
  destruct (_ && _)%bool; [apply tame_speaks, tameM_encrypted_chat |].
  destruct (String.eqb (Message.type m) "mls.key_package.fetch" && _)%bool eqn:Ek.
  { apply (speaks_mono is_proposal); [| apply key_package_speaks]. intros m'. apply proposal_may_send.
    unfold asks_change. rewrite Hr. by destruct call. }
  clear Ek.
  destruct (String.eqb (Message.type m) "mls.group.proposal") eqn:Et; cbn [andb].
  { apply String.eqb_eq in Et. destruct (is_empty (proposal m)) eqn:Ep; cbn [negb]; [| apply tame_speaks, tameM_on_proposal].
    apply is_empty_true in Ep. destruct (is_empty (command_id m)); cbn [negb]; [| by apply proposal_ack_speaks]. rewrite Et. cbn. by apply same_speaks. }
  destruct (_ && negb (is_empty (welcome m)))%bool; [apply tame_speaks, tameM_on_welcome |].
  destruct (String.eqb (Message.type m) "mls.group.commit") eqn:Ec; cbn [andb].
  { apply String.eqb_eq in Ec. destruct (is_empty (Message.commit m)) eqn:Ep; cbn [negb]; [| apply tame_speaks, tameM_on_commit].
    apply is_empty_true in Ep. destruct (is_empty (command_id m)); cbn [negb]; [| by apply commit_ack_speaks]. rewrite Ec. cbn. by apply same_speaks. }
  destruct (_ && _)%bool; [| destruct (_ && _)%bool; [apply tame_speaks, tame_on_mls_error | by apply same_speaks]].
  cbn [modify fst]. unfold on_welcome_ack. destruct (pendingMlsOperations_ s !! command_id m) as [op |]; [| by apply same_speaks].
  destruct (negb _); [by apply same_speaks |]. eapply speaks_trans; [| apply tame_speaks, tame_complete]. by apply same_speaks.
Qed.

(** The message of the phase of a pending operation. *)
Definition repeats (s : state) (m : Message) : Prop :=
  exists c op, pendingMlsOperations_ s !! c = Some op /\
    (op_phase op = PhaseProposal /\ m = proposal_message c op \/ op_phase op = PhaseCommit /\ m = mls_commit_message c op).

Lemma resume_speaks (s0 s : state) l : Forall (fun e => pendingMlsOperations_ s0 !! e.1 = Some e.2) l ->
  speaks (repeats s0) s (foldl (fun s entry => resume_operation entry s) s l).
Proof.
  intros Hl. revert s. induction Hl as [| [c op] l Hop _ IH]; intros s; [by apply same_speaks |]. cbn [foldl].
  eapply speaks_trans; [| apply IH]. cbn in Hop. unfold resume_operation. destruct (op_phase op) eqn:Hph; [.. | by apply same_speaks].
  all: destruct (wire_send _ s) as [s1 [[] | r]] eqn:E; (eapply speaks_send; [| exact E | done]); exists c, op; auto.
Qed.

Lemma after_login_speaks b (s0 s : state) :
  (forall c op, pendingMlsOperations_ s !! c = Some op -> pendingMlsOperations_ s0 !! c = Some op) ->
  speaks (fun m => b = true /\ repeats s0 m) s (after_login b s).
Proof.
  intros Hs. unfold after_login. cbv zeta. destruct b; cbn [negb].
  - set (s1 := publishMlsKeyPackage _).
    assert (tame s s1) as Ht.
    { unfold s1. eapply tame_trans; [| apply tame_publish]. destruct (mlsClient_ s); [apply tame_refl | apply tame_renew_client]. }
    apply (speaks_trans _ _ s1); [by apply tame_speaks |]. apply (speaks_mono (repeats s0)); [auto |].
    unfold resumePendingMlsOperations. destruct (negb _); [by apply same_speaks |]. apply resume_speaks.
    apply Forall_forall. intros [c op] Hin%map_entries_elem. apply Hs, (tm_ops _ _ Ht), Hin.
  - unfold resetMlsState. match goal with |- speaks _ _ (publishMlsKeyPackage (renew_client ?x)) => apply (speaks_trans _ _ x) end;
      [by apply same_speaks |]. apply tame_speaks. eapply tame_trans; [apply tame_renew_client | apply tame_publish].
Qed.

Lemma retries_speak prepared logins target n report preserve (s0 s : state) :
  pendingMlsOperations_ s = pendingMlsOperations_ s0 ->
  speaks (fun m => preserve = true /\ repeats s0 m) s (mls_connectToServerWithRetries prepared logins target n report preserve s).1.
Proof.
  unfold mls_connectToServerWithRetries. destruct prepared; [| destruct report; by intros _; apply same_speaks].
  generalize (Z.to_nat (Z.max 1 n)) as k. intros k. generalize 0%nat at 1, EmptyString at 1. revert s.
  induction k as [| k IH]; intros s attempt reason Es; cbn [mls_retry_loop]; [destruct report; by apply same_speaks |].
  destruct (logins attempt) as [admin | r []]; cbv zeta.
  - cbn [fst]. match goal with |- speaks _ s (emit _ (after_login _ ?x)) => apply (speaks_trans _ _ x); [by apply same_speaks |];
      eapply speaks_trans; [apply (after_login_speaks preserve s0 x) | by apply same_speaks] end.
    intros c op. cbn. by rewrite Es.
  - destruct report; by apply same_speaks.
  - eapply speaks_trans; [| by apply IH]. by apply same_speaks.
Qed.

Lemma repeats_may_send call s m : logs_in call = true -> repeats s m -> may_send call s m.
Proof. intros Hl (c & op & E & [[Hp ->] | [Hp ->]]); split_and!; try done; intros _; [right; split; [done |]; by exists c, op |]. exists c, op. auto. Qed.

Lemma timer_speaks call i p l (s : state) : logs_in call = true -> speaks (may_send call s) s (mls_timer_fires i p l s).
Proof.
  intros Hl. unfold mls_timer_fires. destruct (timers (base s) !! i) as [g |]; [| by apply same_speaks]. cbv zeta.
  destruct (negb _); [by apply same_speaks |]. unfold mls_retrySavedConnection. destruct (_ || _)%bool; [by apply same_speaks |]. cbv zeta.
  match goal with |- context [mls_connectToServerWithRetries p l ?t 1 false true ?x] => set (s1 := x); set (tg := t);
    pose proof (retries_speak p l tg 1 false true s s1 eq_refl) as Hr end.
  destruct (mls_connectToServerWithRetries _ _ _ _ _ _ _) as [s2 ok]. cbn [fst] in Hr.
  apply (speaks_trans _ _ s1); [by apply same_speaks |]. apply (speaks_trans _ _ s2).
  - eapply speaks_mono; [| exact Hr]. intros m [_ Hm]. by apply repeats_may_send.
  - apply same_speaks. destruct ok; [done |]. cbn. by rewrite schedule_sent.
Qed.

Lemma step_speaks call (s : state) : speaks (may_send call s) s (mls_step call s).
Proof.
  destruct call as [c | | | | | | | | | | | | | |]; cbn [mls_step];
    try solve [apply tame_speaks; auto using tame_startAttachmentUpload, tame_unprotect with tame].
  - destruct c; cbn [mls_step]; try (by apply receive_speaks); try (by apply timer_speaks);
      try (apply tame_speaks, base_tame; by apply passive_sent).
    + unfold mls_connectToServer. cbv zeta. match goal with |- speaks _ s (mls_connectToServerWithRetries ?p ?l ?t ?n ?r ?b ?x).1 =>
        apply (speaks_trans _ _ x); [apply same_speaks; cbn; by rewrite stop_sent |];
        eapply speaks_mono; [| exact (retries_speak p l t n r b s x eq_refl)] end. intros m [_ Hm]. by apply repeats_may_send.
    + unfold mls_connectToLocalHost. rewrite prepare_result. cbv zeta.
      destruct (new_session_spec (local_target (resolvePath env certFile) username userCode) (base s)) as (_ & _ & _ & _ & _ & Esent).
      destruct (hostLocally _ _ _ _ _ _ _ _) as [h []]; cbn [fst snd].
      * match goal with |- speaks _ s (mls_connectToServerWithRetries ?p ?l ?t ?n ?r ?b ?x).1 =>
          apply (speaks_trans _ _ x); [by apply same_speaks |];
          eapply speaks_mono; [| exact (retries_speak p l t n r b s x eq_refl)] end. by intros m [? _].
      * by apply same_speaks.
    + apply same_speaks. cbn [worker_step]. unfold disconnectFromServer. cbn. by rewrite stop_sent.
    + apply same_speaks. apply schedule_sent.
  - by apply receive_speaks.
  - apply (speaks_mono is_proposal); [| apply addMlsMember_speaks]. intros m. by apply proposal_may_send.
  - apply (speaks_mono is_proposal); [| apply removeMlsMember_speaks]. intros m. by apply proposal_may_send.
Qed.


(** A call that may forget the groups ([preserveMlsState] is false in it): a
    connection as another user than the saved one, the first connection, and the
    opening of a local room, by whichever user: [connectToLocalHost] leaves
    [preserveMlsState] at its default, so it forgets the groups of the same user
    too. *)
Definition forgets_groups (c : mls_call) (s : state) : bool :=
  match c with
  | MWorker (WConnect _ _ _ _ _ userCode _ _) =>
      negb (sc_valid (savedConnection_ (base s)) && eq_ci (sc_userCode (savedConnection_ (base s))) userCode)
  | MWorker (WLocalHost _ _ _ _ _ _ _ _ _) => true
  | _ => false
  end.

Lemma bound_step c (s : state) : forgets_groups c s = false -> bound s (mls_step c s).
Proof.
  intros Hn. pose proof (safe_step c s) as Hs. destruct c as [[] | | | | | | | | | | | | | |]; try (by apply Hs); try done.
  cbn [mls_step forgets_groups] in *. unfold mls_connectToServer. cbv zeta.
  match goal with |- bound s (mls_connectToServerWithRetries _ _ _ _ _ ?b ?x).1 =>
    assert (b = true) as -> by (apply negb_false_iff in Hn; cbn; rewrite <- Hn; unfold stopReceiveLoop; by destruct (running_ (base s)));
    apply (bound_trans _ x); [by apply bound_same | apply bound_retries] end.
Qed.

Fixpoint keeps_groups (cs : list mls_call) (s : state) : bool :=
  match cs with
  | [] => true
  | c :: cs => negb (forgets_groups c s) && keeps_groups cs (mls_step c s)
  end.

(** C36: until the user connects under another code or opens a local room
    (which forgets every group, even when it is the same user who opens it), no
    group is forgotten and none changes the room or the MLS client it is bound
    to, through any number of lost and renewed connections and whatever the
    server sends. *)
Theorem group_binding_fixed (cs : list mls_call) (s : state) (g : string) (group : MlsGroupState) :
  keeps_groups cs s = true -> mlsGroups_ s !! g = Some group ->
  exists group', mlsGroups_ (run_mls cs s) !! g = Some group' /\
    mg_room group' = mg_room group /\ mg_client group' = mg_client group.
Proof.
  intros Hc. revert g group. change (bound s (run_mls cs s)). revert s Hc.
  induction cs as [| c cs IH]; intros s Hc; [apply bound_refl |]. cbn [keeps_groups] in Hc.
  apply andb_true_iff in Hc as [Hn%negb_true_iff Hc]. eapply bound_trans; [by apply bound_step | by apply IH].
Qed.

End Runs.

(** ** Witness *)

Section Witnesses.

#[local] Existing Instances ascii_order toy_crypto toy_laws tree_json toy_mls.

#[local] Instance ex_quiet_host : HostEnv buffer := ex_host (fun _ => None) (fun _ => Ok tt).

(** Alice connects, learns bob's key package and adds him to a new group. *)
Definition ex_connect : mls_call :=
  MWorker (WConnect (Ok tt) (fun _ => LoggedIn false) "127.0.0.1" 8888 "alice" "alice01" "" "").

Definition ex_bob_key_package : Message :=
  empty_message <| type := "mls.key_package.fetch" |> <| target_user_code := "bob02" |>
    <| key_package := to_base64 [x4b; x62] |>.

Definition ex_added : AttachmentWorker buffer Download.disk :=
  run_mls [ex_connect; MReceived ex_bob_key_package; MAddMember "lobby" "g" "bob02" "add-1"]
    (fresh_worker initial_worker (mk_disk ∅ [])).

Definition ex_proposal_ack : Message := empty_message <| type := "mls.group.proposal" |> <| command_id := "add-1" |>.

Lemma group_binding_fixed_witness :
  exists group', mlsGroups_ (run_mls [MWorker (WDisconnect (mk_stop false true)); ex_connect; MReceived ex_proposal_ack] ex_added) !! "g" = Some group' /\
    mg_room group' = "lobby".
Proof.
  destruct (group_binding_fixed [MWorker (WDisconnect (mk_stop false true)); ex_connect; MReceived ex_proposal_ack] ex_added "g"
              (mk_mls_group (Some 1%nat) "lobby" 0 ∅ ∅)) as (group' & E & Er & _).
  - vm_compute. reflexivity.
  - vm_compute. reflexivity.
  - exists group'. split; [exact E | exact Er].
Defined.

End Witnesses.
