(* ===== verification/AttachmentDelivery.v ===== *)
(** * AttachmentDelivery: from the sender's file to the receiver's

    Two workers, each with its own host and disk: the manifest of an attachment
    that one of them sends over a shared MLS group is stored by the other, and
    the chunks of the upload, relayed by the server, rebuild the file. *)

From Stdlib Require Import Strings.Byte.
From S2P Require Import Prelude Text Protocol Json JsonCodecInstance Message BridgeProtocol Crypto TransferState.
From S2P Require Import TransferClient Manifest Download MlsClient Worker Attachments UploadWindow MlsGroups.

(** ** Opaque values *)

Section Opaque.
  Context `{CryptoLaws}.

Lemma decode_encodeOpaque value : encodeMlsOpaque value <> "" -> decodeMlsOpaque (encodeMlsOpaque value) = Ok value.
Proof.
  unfold encodeMlsOpaque, decodeMlsOpaque. destruct value as [| x value]; [done |].
  destruct (size _ <=? _) eqn:E; [| done]. intros Hne. apply is_empty_false in Hne. rewrite Hne, base64_roundtrip, String.eqb_refl.
  by rewrite (proj2 (Z.ltb_ge _ _)) by (apply Z.leb_le in E; lia).
Qed.

End Opaque.

(** ** The manifest *)

Section Sender.
  Context `{QtTextLaws} `{CryptoLaws} `{QtJsonLaws} `{JsonCodecLaws} `{MlsLaws} {D F : Type} `{HostEnv D}.

(** What a manifest that was sent looks like. *)
Lemma manifest_sent (a : AttachmentWorker D F) manifest group c client m :
  mlsGroups_ a !! mf_groupId manifest = Some group -> mg_client group = Some c -> clients a !! c = Some client ->
  sent_ (base (sendAttachmentManifest manifest a)) = sent_ (base a) ++ [m] ->
  exists client' protected envelope,
    valid manifest = true /\
    protect (bytes_of (manifest_encode manifest)) client = (client', Ok protected) /\
    encodeMlsOpaque protected <> "" /\
    json_dump (mls_envelope (mf_groupId manifest) (mg_epoch group) (encodeMlsOpaque protected)) = Ok envelope /\
    m = manifest_message manifest envelope /\
    clients (sendAttachmentManifest manifest a) !! c = Some client'.
Proof.
  intros Eg Ec El. unfold sendAttachmentManifest. rewrite Eg, Ec.
  assert (forall s s' : AttachmentWorker D F, sent_ (base s') = sent_ (base s) -> sent_ (base s') <> sent_ (base s) ++ [m]) as Hno.
  { intros s s' -> E. apply (f_equal length) in E. rewrite length_app in E. cbn in E. lia. }
  destruct (is_empty (manifest_encode manifest)) eqn:Ev; [by intros ?%Hno |].
  unfold on_client. rewrite El. destruct (protect _ client) as [client' [protected | e]] eqn:Ep; [| by intros ?%Hno].
  destruct (is_empty (encodeMlsOpaque protected)) eqn:Ee; [by intros ?%Hno |].
  destruct (json_dump _) as [envelope | e] eqn:Ej; [| by intros ?%Hno].
  unfold wire_send. set (s1 := a <| clients ::= _ |>). destruct (negb (link_up s1)); [by intros ?%Hno |].
  destruct (env_send (clock s1)) as [[] | e]; [| by intros ?%Hno]. intros E.
  change (sent_ (base a) ++ [manifest_message manifest envelope] = sent_ (base a) ++ [m]) in E.
  apply app_inv_head in E. injection E as <-. exists client', protected, envelope. split_and!; try done.
  - unfold manifest_encode in Ev. by destruct (valid manifest).
  - by apply is_empty_false.
  - change (<[c := client']> (clients a) !! c = Some client'). apply list_lookup_insert_eq. by eapply lookup_lt_Some.
Qed.

(** When nothing stands in its way, the manifest is sent. *)
Lemma manifest_leaves (a : AttachmentWorker D F) manifest group c client client' protected envelope :
  mlsGroups_ a !! mf_groupId manifest = Some group -> mg_client group = Some c -> clients a !! c = Some client ->
  is_empty (manifest_encode manifest) = false ->
  protect (bytes_of (manifest_encode manifest)) client = (client', Ok protected) ->
  is_empty (encodeMlsOpaque protected) = false ->
  json_dump (mls_envelope (mf_groupId manifest) (mg_epoch group) (encodeMlsOpaque protected)) = Ok envelope ->
  link_up a = true -> env_send (clock a) = Ok tt ->
  sent_ (base (sendAttachmentManifest manifest a)) = sent_ (base a) ++ [manifest_message manifest envelope].
Proof.
  intros Eg Ec El Hv Ep He Ej Hl Hs. unfold sendAttachmentManifest. rewrite Eg, Ec, Hv. unfold on_client.
  rewrite El, Ep, He, Ej. by rewrite wire_send_ok.
Qed.

End Sender.

Section Receiver.
  Context `{QtTextLaws} `{CryptoLaws} `{QtJsonLaws} `{JsonCodecLaws} `{MlsLaws} {D F : Type} `{HostEnv D}.

(** The envelope of an encrypted message, as the receiver reads it. *)
Lemma envelope_read groupId e ciphertext envelope : 0 <= e <= UINT64_MAX ->
  json_dump (mls_envelope groupId e ciphertext) = Ok envelope ->
  exists o, json_parse envelope = Ok (JObj o) /\ obj_get "v" o = Some (JUInt 1) /\ obj_get "alg" o = Some (JStr "mls-v1") /\
    obj_get "group_id" o = Some (JStr groupId) /\ obj_get "ciphertext" o = Some (JStr ciphertext).
Proof.
  intros He E. apply json_parse_dump in E; [eexists; split; [exact E | by split_and!] |].
  unfold mls_envelope. cbn [json_wf]. rewrite obj_build_sorted. cbn [andb]. apply forallb_forall. intros kv Hin.
  apply list_elem_of_In in Hin. revert kv Hin. apply Forall_forall.
  apply (obj_build_values (fun j => json_wf j = true)). repeat constructor; cbn; intros v [= <-]; try done.
  cbn. by rewrite !(proj2 (Z.leb_le _ _)) by lia.
Qed.

(** A relayed manifest is stored. *)
Lemma manifest_stored (b : AttachmentWorker D F) manifest group c client client' protected e envelope incoming :
  mlsGroups_ b !! mf_groupId manifest = Some group -> mg_client group = Some c -> clients b !! c = Some client ->
  valid manifest = true -> in_int64 (mf_logicalSize manifest) -> in_int64 (mf_chunkSize manifest) -> in_uint64 (mf_epoch manifest) ->
  encodeMlsOpaque protected <> "" -> 0 <= e <= UINT64_MAX ->
  json_dump (mls_envelope (mf_groupId manifest) e (encodeMlsOpaque protected)) = Ok envelope ->
  unprotect protected client = (client', Ok (bytes_of (manifest_encode manifest))) ->
  type incoming = "chat" -> crypto incoming = envelope -> room incoming = mf_room manifest ->
  let b' := processMlsMessage incoming b in
  receivedAttachmentManifests_ b' = <[mf_attachmentId manifest := manifest]> (receivedAttachmentManifests_ b) /\
  clients b' = <[c := client']> (clients b) /\ mlsGroups_ b' = mlsGroups_ b /\ disk b' = disk b /\
  clock b' = clock b /\ link_up b' = link_up b /\ sent_ (base b') = sent_ (base b) /\
  attachmentDownloadJobs_ b' = attachmentDownloadJobs_ b.
Proof.
  intros Eg Ec El Hv Hs1 Hs2 Hs3 Hne He Ej Eu Hty Hcr Hroom b'.
  destruct (envelope_read _ _ _ _ He Ej) as (o & Ep & Ov & Oa & Og & Oc).
  assert (b' = on_manifest (mf_groupId manifest) (bytes_of (manifest_encode manifest)) incoming
                 (b <| clients ::= <[c := client']> |>)) as ->.
  { unfold b', processMlsMessage, catch, dispatch_mls. rewrite Hty, Hcr.
    assert (envelope <> "") as Hn%is_empty_false by (by eapply json_dump_nonempty). rewrite Hn.
    cbn [String.eqb Ascii.eqb Bool.eqb andb negb]. unfold on_encrypted_chat, then_, unwrap, read, modify. rewrite Hcr, Ep.
    unfold json_value, member. rewrite Ov. cbn [get_int]. change (wrap32 1 =? 1) with true. cbn [negb]. rewrite Oa. cbn [get_string].
    cbn [String.eqb Ascii.eqb Bool.eqb negb]. rewrite Og, Oc, Eg. destruct group as [gc ? ? ? ?]. cbn in Ec. rewrite Ec.
    rewrite decode_encodeOpaque by done. unfold on_client. rewrite El, Eu. done. }
  unfold on_manifest. rewrite text_of_bytes_of, manifest_decode_encode by done. rewrite Hroom, !String.eqb_refl. done.
Qed.

End Receiver.

Section Manifests.
  Context `{QtTextLaws} `{CryptoLaws} `{QtJsonLaws} `{JsonCodecLaws} `{MlsLaws} {DA FA DB FB : Type} `{HostEnv DA} `{HostEnv DB}.

(** a manifest that a worker sends over an MLS group is stored, key and
    64-bit epoch included, by any worker whose client is in sync with the
    sender's and which receives the message the server relays (with any sender
    name, time or id), and the two clients stay in sync. *)
Theorem manifest_delivered (a : AttachmentWorker DA FA) (b : AttachmentWorker DB FB) manifest ga ca cla gb cb clb m incoming :
  mlsGroups_ a !! mf_groupId manifest = Some ga -> mg_client ga = Some ca -> clients a !! ca = Some cla ->
  mlsGroups_ b !! mf_groupId manifest = Some gb -> mg_client gb = Some cb -> clients b !! cb = Some clb ->
  clients_in_sync cla clb ->
  in_int64 (mf_logicalSize manifest) -> in_int64 (mf_chunkSize manifest) -> in_uint64 (mf_epoch manifest) ->
  0 <= mg_epoch ga <= UINT64_MAX ->
  sent_ (base (sendAttachmentManifest manifest a)) = sent_ (base a) ++ [m] ->
  type incoming = type m -> crypto incoming = crypto m -> room incoming = room m ->
  receivedAttachmentManifests_ (processMlsMessage incoming b) !! mf_attachmentId manifest = Some manifest /\
  exists cla' clb', clients (sendAttachmentManifest manifest a) !! ca = Some cla' /\
    clients (processMlsMessage incoming b) !! cb = Some clb' /\ clients_in_sync cla' clb'.
Proof.
  intros Ega Eca Ela Egb Ecb Elb Hsync Hl Hc He Hep Hsent Hty Hcr Hroom.
  destruct (manifest_sent a manifest ga ca cla m Ega Eca Ela Hsent)
    as (cla' & protected & envelope & Hv & Ep & Hne & Ej & -> & Ea').
  destruct (unprotect_protect _ _ _ _ _ Hsync Ep) as (clb' & Eu & Hs').
  destruct (manifest_stored b manifest gb cb clb clb' protected (mg_epoch ga) envelope incoming) as (Er & Eb' & _); try done.
  rewrite Er, Eb'. split; [apply lookup_insert_eq |]. exists cla', clb'. split_and!; [done | | done].
  apply list_lookup_insert_eq. by eapply lookup_lt_Some.
Qed.

End Manifests.

(** ** The download *)

Section Downloads.
  Context `{QtTextLaws} `{QtOrder} `{CryptoLaws} `{QtJson} `{JsonCodec} `{MlsLib} {D F : Type} `{InputDevice D} `{FileSystemLaws F} `{HostEnv D}.

#[local] Abbreviation state := (AttachmentWorker D F).

(** One download: the attachment and its file, the command and the path. *)
Context (room grp att cmd out : string) (key file : bytes).
Context (Hsends : forall n, env_send n = Ok tt) (Hseal : seal_total).
Context (Hatt : trimmed att = att) (Hatt0 : att <> "") (Hcmd : trimmed cmd = cmd) (Hcmd0 : cmd <> "").
Context (Hroom : room <> "") (Hsize : 0 < file_size file <= MaxLogicalBytes).

Definition download_request (i : Z) : Message :=
  empty_message <| type := "attachment.download" |> <| attachment_id := att |> <| chunk_index := i |> <| command_id := cmd |>.

(** The server's answer to the request of chunk [i]: the sealed chunk. *)
Definition download_reply (i : Z) (m : Message) : Prop :=
  type m = "attachment.download" /\ attachment_id m = att /\ chunk_index m = i /\
  ciphertext m = to_base64 (sealed room grp att key file i) /\
  cipher_sha256 m = ascii_lower (cipher_hash (sealed room grp att key file i)) /\
  (content m = "last" <-> i + 1 = chunk_total file).

Lemma request_ok commandId i (s : state) : trimmed commandId = cmd -> link_up s = true -> 0 <= i ->
  sendAttachmentDownload att i commandId s = after_send (download_request i) s.
Proof.
  intros Hc Hl Hi. unfold sendAttachmentDownload.
  rewrite Hl, Hatt, Hc, !(proj2 (is_empty_false _)), (proj2 (Z.ltb_ge _ _)) by done. cbn [negb orb]. by rewrite wire_send_ok.
Qed.

(** The download has asked for chunk [length ps]. *)
Record fetching (f0 : F) (sent0 : list Message) (ps : list bytes) (text : bytes) (s : state) (job : AttachmentDownloadJob) : Prop := {
  ft_job : attachmentDownloadJobs_ s !! att = Some job;
  ft_command : dj_commandId job = cmd;
  ft_key : key_ (dj_assembler job) = key;
  ft_context : context_ (dj_assembler job) = mk_context att room grp (file_size file) ChunkSize 0;
  ft_output : outputPath_ (dj_assembler job) = out;
  ft_part : partPath_ (dj_assembler job) = partPathFor out;
  ft_downloading : downloading (disk s) (dj_assembler job) ps;
  ft_sound : fs_sound (disk s);
  ft_text : concat ps ++ text = file;
  ft_elsewhere : delete (partPathFor out) (fs_view (disk s)) = delete (partPathFor out) (fs_view f0);
  ft_link : link_up s = true;
  ft_sent : sent_ (base s) = sent0 ++ map download_request (seqZ 0 (Z.of_nat (length ps) + 1));
}.

Record downloaded (f0 : F) (sent0 : list Message) (s : state) : Prop := {
  dd_job : attachmentDownloadJobs_ s !! att = None;
  dd_file : fs_view (disk s) = <[out := file]> (delete (partPathFor out) (fs_view f0));
  dd_sent : sent_ (base s) = sent0 ++ map download_request (seqZ 0 (chunk_total file));
}.

(** The context of every chunk is valid. *)
Lemma download_context_valid : valid_context (mk_context att room grp (file_size file) ChunkSize 0) = true.
Proof. apply valid_context_iff. cbn. pose proof ChunkSize_pos. split_and!; (done || lia). Qed.

(** The text left is the file from chunk [length ps] on. *)
Lemma fetching_text f0 sent0 ps text s job : fetching f0 sent0 ps text s job ->
  take (Z.to_nat ChunkSize) text = piece file (Z.of_nat (length ps)).
Proof.
  intros Hf. pose proof (dl_length _ _ _ (ft_downloading _ _ _ _ _ _ Hf)) as Hl.
  rewrite (ft_context _ _ _ _ _ _ Hf) in Hl. cbn in Hl. unfold piece. f_equal.
  rewrite <- (ft_text _ _ _ _ _ _ Hf). symmetry. apply drop_app_length'. lia.
Qed.

(** What the worker does with an accepted chunk. *)
Lemma on_download_accepted (s : state) job f1 a1 incoming :
  type incoming = "attachment.download" -> attachment_id incoming = att -> attachmentDownloadJobs_ s !! att = Some job ->
  dj_commandId job = cmd -> link_up s = true -> 0 <= chunk_index incoming -> chunk_index incoming + 1 <= INT64_MAX ->
  acceptChunk (chunk_index incoming) (from_base64 (ciphertext incoming)) (cipher_sha256 incoming)
    (String.eqb (content incoming) "last") (disk s) (dj_assembler job) = (f1, a1, Ok tt) ->
  let s1 := s <| disk := f1 |> <| attachmentDownloadJobs_ ::= insert att (job <| dj_assembler := a1 |>) |> in
  processAttachmentMessage incoming s =
    if complete_ a1
    then emit (AttachmentEvent "completed" att "" cmd (chunk_size incoming) (chunk_index incoming) "" "" "" [] "" 0)
           (s1 <| attachmentDownloadJobs_ ::= delete att |>)
    else after_send (download_request (chunk_index incoming + 1)) s1.
Proof.
  intros Hty Ha Ej Ec Hl Hi0 Hi1 Eacc s1. unfold processAttachmentMessage. rewrite Hty. cbn [String.eqb Ascii.eqb Bool.eqb].
  unfold on_download_reply. rewrite Ha, Ej, Eacc. cbv zeta. fold s1. rewrite Ec. destruct (complete_ a1); [done |].
  rewrite wrap64_id by (unfold in_int64; lia). apply request_ok; [done | done | lia].
Qed.

Lemma download_step f0 sent0 ps text (s : state) job incoming :
  fetching f0 sent0 ps text s job -> download_reply (Z.of_nat (length ps)) incoming ->
  let s' := processAttachmentMessage incoming s in
  (exists job', fetching f0 sent0 (ps ++ [take (Z.to_nat ChunkSize) text]) (drop (Z.to_nat ChunkSize) text) s' job') \/
  (Z.of_nat (length ps) + 1 = chunk_total file /\ downloaded f0 sent0 s').
Proof.
  intros Hf (Hty & Ha & Hi & Hct & Hsha & Hlast) s'. pose proof (fetching_text _ _ _ _ _ _ Hf) as Hpiece.
  destruct Hf as [Ej Ec Ek Ex Eo Ep Hd Hs Ht He Hl Hsent].
  pose proof (dl_open _ _ _ Hd) as Hopen. pose proof (dl_bound _ _ _ Hd) as Hb.
  destruct (accept_next_piece f0 (disk s) (dj_assembler job) ps text file) as
    (e & f1 & a1 & Hne & Ee & Eacc & Hs1 & Ek1 & Ex1 & Eo1 & Hfile1 & Hnext); rewrite ?Ex, ?Ep; try done.
  { apply download_context_valid. }
  rewrite Ex, Ek, Ep, Eo in *. cbn [cc_chunk_size cc_logical_size] in *.
  assert (sealed room grp att key file (Z.of_nat (length ps)) = e) as Esealed.
  { unfold sealed. rewrite <- Hpiece. unfold chunk_context. cbn in Ee. by rewrite Ee. }
  unfold accept, call_of in Eacc. cbn [ch_index ch_cipher ch_sha ch_last tc_index tc_ciphertext tc_cipher_sha256] in Eacc.
  pose proof (on_download_accepted s job f1 a1 incoming Hty Ha Ej Ec Hl) as Es'. rewrite Hi in Es'. cbv zeta in Es'.
  unfold s'. rewrite Es'; clear s' Es'; [| lia | |].
  2: { apply ceil_div_lt_iff in Hopen; unfold MaxLogicalBytes, ChunkSize, PlaintextChunkBytes, INT64_MAX in *; lia. }
  2: { rewrite Hct, Hsha, base64_roundtrip, Esealed. unfold cipher_hash at 1. rewrite toHex_lower. fold (cipher_hash e).
       rewrite <- Eacc. f_equal. apply Bool.eq_iff_eq_true. rewrite String.eqb_eq, Z.eqb_eq. exact Hlast. }
  destruct Hnext as [(Hd1 & Ep1 & He1) | (Hdn & Hc1 & Hv1)].
  - left. exists (job <| dj_assembler := a1 |>). rewrite (dl_complete _ _ _ Hd1). split; try done.
    + apply lookup_insert_eq.
    + change (sent_ (base s) ++ [download_request (Z.of_nat (length ps) + 1)] = sent0 ++ map download_request
        (seqZ 0 (Z.of_nat (length (ps ++ [take (Z.to_nat ChunkSize) text])) + 1))).
      rewrite Hsent, length_app. cbn [length].
      replace (Z.of_nat (length ps + 1) + 1) with (Z.of_nat (S (length ps + 1))) by lia.
      replace (Z.of_nat (length ps) + 1) with (Z.of_nat (length ps + 1)) by lia.
      rewrite seqZ_S, map_app, app_assoc. cbn [map]. by rewrite Z.add_0_l.
  - right. assert (Z.of_nat (length ps) + 1 = chunk_total file) as Htot.
    { pose proof (dl_length _ _ _ Hd) as Hlen. rewrite Ex in Hlen. cbn in Hlen.
      apply (f_equal length) in Hfile1. rewrite Hdn, concat_app in Hfile1. rewrite !length_app in Hfile1. cbn in Hfile1.
      rewrite length_app, length_take in Hfile1. cbn in Hfile1. unfold chunk_total.
      destruct (Z_lt_dec (Z.of_nat (length ps) + 1) (ceil_div (file_size file) ChunkSize)) as [Hlt | Hge]; [| lia].
      apply ceil_div_lt_iff in Hlt; unfold ChunkSize, PlaintextChunkBytes in *; [| lia | lia]. unfold file_size in Hlt. lia. }
    split; [done |]. rewrite Hc1. split; [| done |].
    + apply lookup_delete_eq.
    + change (sent_ (base s) = sent0 ++ map download_request (seqZ 0 (chunk_total file))). by rewrite Hsent, Htot.
Qed.

(** Every chunk, one after the other. *)
Lemma download_all f0 sent0 : forall replies ps text (s : state) job,
  fetching f0 sent0 ps text s job ->
  Forall2 download_reply (seqZ (Z.of_nat (length ps)) (chunk_total file - Z.of_nat (length ps))) replies ->
  downloaded f0 sent0 (receive_all replies s).
Proof.
  induction replies as [| m replies IH]; intros ps text s job Hf Hr;
    pose proof (dl_open _ _ _ (ft_downloading _ _ _ _ _ _ Hf)) as Hopen; rewrite (ft_context _ _ _ _ _ _ Hf) in Hopen;
    change (Z.of_nat (length ps) < chunk_total file) in Hopen; rewrite seqZ_cons in Hr by lia.
  { by inversion Hr. }
  apply Forall2_cons_1 in Hr as [Hm Hr]. change (receive_all (m :: replies) s) with (receive_all replies (processAttachmentMessage m s)).
  destruct (download_step f0 sent0 ps text s job m Hf Hm) as [(job' & Hf') | [Htot Hd]].
  - apply (IH _ _ _ job' Hf'). rewrite length_app. cbn [length].
    replace (Z.of_nat (length ps + 1)) with (Z.succ (Z.of_nat (length ps))) by lia.
    replace (chunk_total file - Z.succ (Z.of_nat (length ps))) with (Z.pred (chunk_total file - Z.of_nat (length ps))) by lia. done.
  - rewrite seqZ_nil in Hr by lia. by apply Forall2_nil_inv_l in Hr as ->.
Qed.

(** A download that starts. *)
Lemma download_starts (s : state) name e outputPath commandId :
  receivedAttachmentManifests_ s !! att = Some (mk_manifest att name room grp (file_size file) ChunkSize e key) ->
  length key = KeySize -> trimmed outputPath = out -> out <> "" -> trimmed commandId = cmd -> link_up s = true -> fs_sound (disk s) ->
  exists job, fetching (disk s) (sent_ (base s)) [] file (startAttachmentDownload att outputPath commandId s) job.
Proof.
  intros Em Hk Ho Ho0 Hc Hl Hs. unfold startAttachmentDownload.
  rewrite Hatt, Em, Ho, Hc, !(proj2 (is_empty_false _)) by done. cbn [orb mf_key]. unfold attachmentKeyFromBytes.
  rewrite (proj2 (Nat.eqb_eq _ _) Hk). cbn [negb mf_attachmentId mf_room mf_groupId mf_logicalSize mf_chunkSize].
  set (context := mk_context _ _ _ _ _ _).
  destruct (asm_begin_sound out key context (disk s) Hs Ho0 download_context_valid eq_refl) as (f1 & a1 & Eb & Hs1 & Hv1).
  rewrite Eb. destruct (asm_begin_ok _ _ _ _ _ _ _ Eb) as (Hd & Eo & Ek & Ex).
  { cbn. unfold MaxLogicalBytes, ChunkSize, PlaintextChunkBytes, INT64_MAX in *. lia. }
  rewrite (request_ok commandId) by done. exists (mk_download_job (mk_manifest att name room grp (file_size file) ChunkSize e key) key a1 cmd).
  split; try done.
  - apply lookup_insert_eq.
  - cbn. by rewrite (dl_part _ _ _ Hd), Eo.
Qed.

End Downloads.

(** ** What an upload leaves alone *)

Section Uploads.
  Context `{QtText} `{QtOrder} `{CryptoLib} `{QtJson} `{JsonCodec} `{MlsLib} {D F : Type} `{InputDevice D} `{FileSystem F}
    `{HostEnv D}.

#[local] Abbreviation state := (AttachmentWorker D F).

Definition mls_view (s : state) := (mlsGroups_ s, clients s).

Lemma mls_view_send m (s s' : state) r : wire_send m s = (s', r) -> mls_view s' = mls_view s.
Proof.
  unfold wire_send. destruct (negb (link_up s)); [by intros [= <- _] |]. destruct (env_send (clock s)); by intros [= <- _].
Qed.

End Uploads.

Create Rewrite HintDb mls_view.

Ltac mls_view_walk :=
  repeat (cbv zeta; match goal with
  | |- mls_view ?s = mls_view ?s => reflexivity
  | H : wire_send _ ?s0 = (?s1, _) |- mls_view ?s1 = _ => rewrite (mls_view_send _ _ _ _ H); clear H
  | |- mls_view (field_update _ _ ?s0) = _ => transitivity (mls_view s0); [reflexivity |]
  | |- mls_view (emit _ ?s0) = _ => transitivity (mls_view s0); [reflexivity |]
  | |- mls_view (attachment_error _ _ _ _ _ _ ?s0) = _ => transitivity (mls_view s0); [reflexivity |]
  | |- mls_view (if ?b then _ else _) = _ => destruct b
  | |- mls_view (match ?x with _ => _ end) = _ => destruct x eqn:?
  | |- mls_view _ = _ => progress autorewrite with mls_view
  end).

Section UploadsProofs.
  Context `{QtText} `{QtOrder} `{CryptoLib} `{QtJson} `{JsonCodec} `{MlsLib} {D F : Type} `{InputDevice D} `{FileSystem F}
    `{HostEnv D}.

#[local] Abbreviation state := (AttachmentWorker D F).

Lemma mls_view_sendChunk a b c d e (s : state) : mls_view (sendAttachmentChunk a b c d e s) = mls_view s.
Proof. unfold sendAttachmentChunk. mls_view_walk. Qed.

Lemma mls_view_abandon u j r (s : state) : mls_view (abandon_upload u j r s) = mls_view s.
Proof. unfold abandon_upload. mls_view_walk. Qed.

Lemma mls_view_sendCommit a b (s : state) : mls_view (sendAttachmentCommit a b s) = mls_view s.
Proof. unfold sendAttachmentCommit. mls_view_walk. Qed.

#[local] Hint Rewrite @mls_view_sendChunk @mls_view_abandon @mls_view_sendCommit : mls_view.

Lemma mls_view_sendNext u (s : state) : mls_view (sendNextAttachmentChunk u s) = mls_view s.
Proof.
  unfold sendNextAttachmentChunk. match goal with |- mls_view (fill_window ?n _ _) = _ => generalize n end. intros n. revert s.
  induction n as [| n IH]; intros s; cbn [fill_window]; [done |]. mls_view_walk; rewrite IH; mls_view_walk.
Qed.

#[local] Hint Rewrite @mls_view_sendNext : mls_view.

(** The replies of an upload leave groups and clients alone. *)
Lemma mls_view_upload_reply m (s : state) : type m = "attachment.init" \/ type m = "attachment.chunk" ->
  mls_view (processAttachmentMessage m s) = mls_view s.
Proof.
  unfold processAttachmentMessage. intros [-> | ->]; cbn [String.eqb Ascii.eqb Bool.eqb];
    unfold on_init_reply, on_chunk_reply, on_chunk_acknowledged; mls_view_walk.
Qed.

Lemma mls_view_upload ms (s : state) : Forall (fun m => type m = "attachment.init" \/ type m = "attachment.chunk") ms ->
  mls_view (receive_all ms s) = mls_view s.
Proof.
  intros Hms. revert s. induction Hms as [| m ms Hm _ IH]; intros s; [done |].
  change (receive_all (m :: ms) s) with (receive_all ms (processAttachmentMessage m s)). rewrite IH.
  by apply mls_view_upload_reply.
Qed.

End UploadsProofs.

(** ** The whole way *)

Section EndToEnd.
  Context `{QtTextLaws} `{QtOrder} `{CryptoLaws} `{QtJsonLaws} `{JsonCodecLaws} `{MlsLaws}
    {DA FA : Type} `{InputDeviceLaws DA} `{FileSystem FA} {hostA : HostEnv DA}
    {DB FB : Type} `{InputDevice DB} `{FileSystemLaws FB} {hostB : HostEnv DB}.

(** The server's answer to a request for the uploaded chunk [c] of [total]. *)
Definition relays_chunk (att : string) (total : Z) (c m : Message) : Prop :=
  type m = "attachment.download" /\ attachment_id m = att /\ chunk_index m = chunk_index c /\
  ciphertext m = ciphertext c /\ cipher_sha256 m = cipher_sha256 c /\ (content m = "last" <-> chunk_index c + 1 = total).

Definition attachment_manifest (att path room grp : string) (file key : bytes) (e : Z) : AttachmentManifest :=
  mk_manifest att (hostA.(env_fileName) path) room grp (file_size file) ChunkSize e key.

(** The worker's reaction to the commit of an upload. *)
Lemma commit_sends_manifest (s : AttachmentWorker DA FA) manifest incoming :
  pendingAttachmentManifests_ s !! command_id incoming = Some manifest ->
  type incoming = "attachment.commit" -> attachment_id incoming = mf_attachmentId manifest ->
  processAttachmentMessage incoming s =
    sendAttachmentManifest manifest (s <| pendingAttachmentManifests_ ::= delete (command_id incoming) |>).
Proof.
  intros Hp Hty Ha. unfold processAttachmentMessage. rewrite Hty. cbn [String.eqb Ascii.eqb Bool.eqb].
  unfold on_commit_reply. rewrite Hp, Ha, String.eqb_refl. done.
Qed.

(** Either the manifest is sent, or nothing is. *)
Lemma manifest_sent_or_not manifest (s : AttachmentWorker DA FA) :
  sent_ (base (sendAttachmentManifest manifest s)) = sent_ (base s) \/
  exists m, sent_ (base (sendAttachmentManifest manifest s)) = sent_ (base s) ++ [m].
Proof.
  unfold sendAttachmentManifest. destruct (mlsGroups_ s !! _) as [group |]; [| by left].
  destruct (mg_client group) as [c |]; [| by left]. destruct (is_empty _); [by left |].
  unfold on_client. destruct (clients s !! c) as [client |]; [| by left].
  destruct (protect _ client) as [client' [protected | e]]; [| by left]. destruct (is_empty _); [by left |].
  destruct (json_dump _) as [envelope | e]; [| by left]. unfold wire_send.
  set (s1 := s <| clients ::= _ |>). destruct (negb (link_up s1)); [by left |].
  destruct (env_send (clock s1)) as [[] | e]; [right; by eexists | by left].
Qed.

Lemma relays_reply u cmd room grp att key file i m :
  relays_chunk att (chunk_total file) (chunk_sent u cmd room grp att key file i) m ->
  download_reply room grp att key file i m.
Proof. intros (Ht & Ha & Hi & Hc & Hs & Hl). by split_and!. Qed.

(** The sender, once the server has confirmed the commit. *)
Lemma sender_commits u cmd room grp att path key file rest (a : AttachmentWorker DA FA) d init ids acks commit_reply ga :
  upload_ok (D := DA) u cmd room att file -> link_up a = true ->
  pendingAttachmentInits_ a !! cmd = Some (begin (file_size file) ChunkSize initial_transfer).1 ->
  pendingAttachmentFiles_ a !! cmd = Some (mk_pending_file room grp path key (file_size file)) ->
  env_open (clock a) path = Some d -> device_at file rest 0 d ->
  type init = "attachment.init" -> command_id init = cmd -> upload_id init = u -> attachment_id init = att ->
  chunk_size init = ChunkSize -> expires_at init <> "" ->
  window_order (chunk_total file) ids -> Forall2 (ack_for cmd) ids acks ->
  type commit_reply = "attachment.commit" -> command_id commit_reply = commit_command cmd -> attachment_id commit_reply = att ->
  mlsGroups_ a !! grp = Some ga ->
  exists a1, receive_all (init :: acks ++ [commit_reply]) a =
      sendAttachmentManifest (attachment_manifest att path room grp file key (mg_epoch ga)) a1 /\
    mls_view a1 = mls_view a /\
    sent_ (base a1) = sent_ (base a) ++ map (chunk_sent u cmd room grp att key file) (seqZ 0 (chunk_total file)) ++
                        [commit_message u (commit_command cmd)].
Proof.
  intros Hok Hl Hi Hf Ho Hd Hty Hc Hu Ha Hcs He Hord Hacks Cty Cc Ca Ega.
  pose proof (init_window u cmd room (hostA.(env_fileName) path) grp att key file rest Hok (sent_ (base a)) a path d init
                Hl eq_refl Hi Hf Ho eq_refl Hd Hty Hc Hu Ha Hcs He) as Hw.
  assert (uploaded u cmd room (hostA.(env_fileName) path) grp att key file (sent_ (base a)) (receive_all (init :: acks) a)) as [Us _ _ Um].
  { change (receive_all (init :: acks) a) with (receive_all acks (processAttachmentMessage init a)). by eapply acks_complete. }
  assert (mls_view (receive_all (init :: acks) a) = mls_view a) as Hv.
  { apply mls_view_upload. constructor; [by left |]. clear -Hacks. induction Hacks as [| i m ids acks [Ht _] _ IH]; constructor; [by right | done]. }
  assert (group_epoch grp (receive_all (init :: acks) a) = mg_epoch ga) as Eep.
  { unfold group_epoch. pose proof (f_equal fst Hv) as Hg. cbn [fst mls_view] in Hg. by rewrite Hg, Ega. }
  rewrite Eep in Um.
  eexists. rewrite app_comm_cons, receive_all_snoc. split_and!;
    [eapply commit_sends_manifest; [rewrite Cc; exact Um | done | done] | exact Hv | exact Us].
Qed.

(** The receiver, from the relayed manifest on. *)
Lemma receiver_downloads u cmd room grp att key file name e (b : AttachmentWorker DB FB) outputPath commandId replies :
  seal_total -> att <> "" -> room <> "" -> 0 < file_size file <= MaxLogicalBytes ->
  receivedAttachmentManifests_ b !! att = Some (mk_manifest att name room grp (file_size file) ChunkSize e key) ->
  length key = KeySize -> trimmed att = att -> trimmed outputPath <> "" -> trimmed commandId <> "" ->
  link_up b = true -> (forall n, hostB.(env_send) n = Ok tt) -> fs_sound (disk b) ->
  Forall2 (relays_chunk att (chunk_total file)) (map (chunk_sent u cmd room grp att key file) (seqZ 0 (chunk_total file))) replies ->
  fs_view (disk (receive_all replies (startAttachmentDownload att outputPath commandId b))) =
    <[trimmed outputPath := file]> (delete (partPathFor (trimmed outputPath)) (fs_view (disk b))).
Proof.
  intros Hseal Ha0 Hr0 Hsz Em Hk Ha Ho Hc Hl Hs Hf Hrel.
  destruct (download_starts room grp att (trimmed commandId) (trimmed outputPath) key file Hs Ha Ha0 Hc Hr0 Hsz b name e outputPath commandId)
    as [job Hstart]; try done.
  eapply dd_file, (download_all _ _ _ _ _ _ _ Hs Hseal Ha Ha0 (trimmed_idem _) Hc Hr0 Hsz _ _ replies [] file _ job Hstart).
  cbn [length]. rewrite Z.sub_0_r. clear -Hrel. apply (proj1 (Forall2_fmap_l (chunk_sent u cmd room grp att key file) _ _ _)) in Hrel.
  eapply Forall2_impl; [exact Hrel |]. intros i m. apply relays_reply.
Qed.

(** C1: an attachment arrives.  A worker uploads a file whose chunks are
    acknowledged in any order the window allows, the server confirms the commit
    and the worker's manifest leaves; another worker whose MLS client is in
    sync receives the relayed manifest and downloads the chunks the server
    relays.  Then its output path holds the sender's file, byte for byte, the
    partial file is gone, and nothing else on its disk has changed. *)
Theorem attachment_delivered u cmd room grp att path key file rest (a : AttachmentWorker DA FA) d init ids acks commit_reply
    ga ca cla m (b : AttachmentWorker DB FB) gb cb clb incoming outputPath commandId replies :
  upload_ok (D := DA) u cmd room att file -> link_up a = true ->
  pendingAttachmentInits_ a !! cmd = Some (begin (file_size file) ChunkSize initial_transfer).1 ->
  pendingAttachmentFiles_ a !! cmd = Some (mk_pending_file room grp path key (file_size file)) ->
  env_open (clock a) path = Some d -> device_at file rest 0 d ->
  type init = "attachment.init" -> command_id init = cmd -> upload_id init = u -> attachment_id init = att ->
  chunk_size init = ChunkSize -> expires_at init <> "" ->
  window_order (chunk_total file) ids -> Forall2 (ack_for cmd) ids acks ->
  type commit_reply = "attachment.commit" -> command_id commit_reply = commit_command cmd -> attachment_id commit_reply = att ->
  mlsGroups_ a !! grp = Some ga -> mg_client ga = Some ca -> clients a !! ca = Some cla -> in_uint64 (mg_epoch ga) ->
  mlsGroups_ b !! grp = Some gb -> mg_client gb = Some cb -> clients b !! cb = Some clb -> clients_in_sync cla clb ->
  last (sent_ (base (receive_all (init :: acks ++ [commit_reply]) a))) = Some m -> type m = "chat" ->
  type incoming = type m -> crypto incoming = crypto m -> Message.room incoming = Message.room m ->
  trimmed att = att -> trimmed outputPath <> "" -> trimmed commandId <> "" ->
  link_up b = true -> (forall n, hostB.(env_send) n = Ok tt) -> fs_sound (disk b) ->
  Forall2 (relays_chunk att (chunk_total file)) (map (chunk_sent u cmd room grp att key file) (seqZ 0 (chunk_total file))) replies ->
  let sender := receive_all (init :: acks ++ [commit_reply]) a in
  let receiver := receive_all replies (startAttachmentDownload att outputPath commandId (processMlsMessage incoming b)) in
  sent_ (base sender) =
    sent_ (base a) ++ map (chunk_sent u cmd room grp att key file) (seqZ 0 (chunk_total file)) ++
      [commit_message u (commit_command cmd); m] /\
  fs_view (disk receiver) =
    <[trimmed outputPath := file]> (delete (partPathFor (trimmed outputPath)) (fs_view (disk b))).
Proof.
  intros Hok Hl Hi Hf Ho Hd Hty Hc Hu Ha Hcs He Hord Hacks Cty Cc Ca Ega Eca Ela Hep Egb Ecb Elb Hsync Hlast Hm
    Ity Icr Iroom Hatt Hout Hcmd Hlb Hsb Hfs Hrel. cbv zeta.
  destruct (sender_commits u cmd room grp att path key file rest a d init ids acks commit_reply ga) as (a1 & Er & Hv & Es); try done.
  set (manifest := attachment_manifest att path room grp file key (mg_epoch ga)) in *. rewrite Er in *.
  pose proof (f_equal fst Hv) as Hg. pose proof (f_equal snd Hv) as Hcl. cbn [fst snd mls_view] in Hg, Hcl.
  rewrite <- Hg in Ega. rewrite <- Hcl in Ela.
  destruct (manifest_sent_or_not manifest a1) as [E | [m' E]].
  { exfalso. rewrite E, Es, app_assoc, last_snoc in Hlast. injection Hlast as <-. discriminate Hm. }
  assert (m' = m) as -> by (rewrite E, last_snoc in Hlast; congruence).
  split; [rewrite E, Es; by rewrite <- !app_assoc |].
  destruct (manifest_sent a1 manifest ga ca cla m Ega Eca Ela E) as (cla' & protected & envelope & Hval & Ep & Hne & Ej & -> & _).
  destruct (unprotect_protect _ _ _ _ _ Hsync Ep) as (clb' & Eu & _). pose proof (uo_size _ _ _ _ _ Hok) as Hsz.
  destruct (manifest_stored b manifest gb cb clb clb' protected (mg_epoch ga) envelope incoming) as (Em & _ & _ & Ed & _ & Elk & _);
    try done; [unfold in_int64, MaxLogicalBytes, INT64_MAX in *; cbn; lia |].
  rewrite <- Ed. eapply (receiver_downloads u cmd room grp att key file (hostA.(env_fileName) path) (mg_epoch ga)); try done; try apply Hok.
  - rewrite Em. apply lookup_insert_eq.
  - unfold valid in Hval. apply andb_true_iff in Hval as [_ Hkey]. by apply Nat.eqb_eq in Hkey.
  - by rewrite Elk.
  - by rewrite Ed.
Qed.

End EndToEnd.

(** ** Witnesses *)

Section Witnesses.

#[local] Existing Instances ascii_order toy_crypto toy_laws tree_json tree_json_laws toy_mls.

#[local] Instance ex_delivery_host : HostEnv buffer :=
  ex_host (fun path => if String.eqb path "/short.txt" then Some ex_file else None) (fun _ => Ok tt).

(** The members of group "g" at epoch 3. *)
Definition ex_member (who : bytes) : MlsClient := mk_mls_client who (Some (mk_toy_session [x67] 3 [])) None.

Definition ex_in_group (c : MlsClient) (s : AttachmentWorker buffer Download.disk) : AttachmentWorker buffer Download.disk :=
  s <| clients := [c] |> <| mlsGroups_ := {["g" := mk_mls_group (Some 0%nat) "lobby" 3 ∅ ∅]} |>.

Definition ex_alice : AttachmentWorker buffer Download.disk :=
  ex_in_group (ex_member [x61])
    ((fresh_worker ex_worker (mk_disk ∅ []))
       <| pendingAttachmentInits_ := {["up" := (begin 10 ChunkSize initial_transfer).1]} |>
       <| pendingAttachmentFiles_ := {["up" := mk_pending_file "lobby" "g" "/short.txt" ex_key 10]} |>).

Definition ex_bob : AttachmentWorker buffer Download.disk := ex_in_group (ex_member [x62]) (fresh_worker ex_worker (ex_disk [])).

Lemma ex_in_sync : clients_in_sync (ex_member [x61]) (ex_member [x62]).
Proof. by eexists _, _. Qed.

Definition ex_att_manifest : AttachmentManifest := mk_manifest "att-1" "notes.txt" "lobby" "g" 10 ChunkSize 3 ex_key.

(** What leaves alice for the group. *)
Definition ex_manifest_message (manifest : AttachmentManifest) : Message :=
  manifest_message manifest (bits_of (encode (to_tree (reparse
    (mls_envelope "g" 3 (encodeMlsOpaque (x50 :: bytes_of (manifest_encode manifest)))))))).

Lemma ex_manifest_leaves (a : AttachmentWorker buffer Download.disk) manifest :
  mlsGroups_ a = mlsGroups_ ex_alice -> clients a = clients ex_alice -> link_up a = true -> mf_groupId manifest = "g" ->
  is_empty (manifest_encode manifest) = false ->
  is_empty (encodeMlsOpaque (x50 :: bytes_of (manifest_encode manifest))) = false ->
  sent_ (base (sendAttachmentManifest manifest a)) = sent_ (base a) ++ [ex_manifest_message manifest].
Proof.
  intros Eg Ec Hl Em H1 H2. eapply (manifest_leaves a manifest (mk_mls_group (Some 0%nat) "lobby" 3 ∅ ∅) 0%nat (ex_member [x61])); try done.
  - by rewrite Eg, Em.
  - by rewrite Ec.
  - by rewrite Em.
Qed.

Lemma manifest_delivered_witness :
  receivedAttachmentManifests_ (processMlsMessage ((ex_manifest_message ex_att_manifest) <| username := "alice" |>) ex_bob)
    !! "att-1" = Some ex_att_manifest.
Proof.
  destruct (manifest_delivered ex_alice ex_bob ex_att_manifest (mk_mls_group (Some 0%nat) "lobby" 3 ∅ ∅) 0%nat (ex_member [x61])
              (mk_mls_group (Some 0%nat) "lobby" 3 ∅ ∅) 0%nat (ex_member [x62]) (ex_manifest_message ex_att_manifest)
              ((ex_manifest_message ex_att_manifest) <| username := "alice" |>)) as [X _].
  - reflexivity.
  - reflexivity.
  - reflexivity.
  - reflexivity.
  - reflexivity.
  - reflexivity.
  - exact ex_in_sync.
  - unfold in_int64. vm_compute. split; discriminate.
  - unfold in_int64. vm_compute. split; discriminate.
  - unfold in_uint64. vm_compute. split; discriminate.
  - vm_compute. split; discriminate.
  - apply ex_manifest_leaves; try reflexivity; vm_compute; reflexivity.
  - reflexivity.
  - reflexivity.
  - reflexivity.
  - exact X.
Defined.

Definition ex_commit_reply : Message :=
  empty_message <| type := "attachment.commit" |> <| command_id := "up-commit" |> <| attachment_id := "att-1" |>.

Definition ex_sent_chunk : Message := chunk_sent "u1" "up" "lobby" "g" "att-1" ex_key ex_file 0.

Definition ex_relayed_chunk : Message :=
  ex_sent_chunk <| type := "attachment.download" |> <| attachment_id := "att-1" |> <| content := "last" |>.

Lemma ex_delivery_ok : upload_ok "u1" "up" "lobby" "att-1" ex_file.
Proof.
  split; [done | exact toy_seal_total | done | done | done |]. vm_compute. split; [reflexivity | discriminate].
Qed.

Definition ex_short_manifest : AttachmentManifest := mk_manifest "att-1" "/short.txt" "lobby" "g" 10 ChunkSize 3 ex_key.

Lemma ex_alice_sends_manifest :
  last (sent_ (base (receive_all [ex_init_reply; ex_ack 0; ex_commit_reply] ex_alice))) = Some (ex_manifest_message ex_short_manifest).
Proof.
  rewrite (receive_all_snoc [ex_init_reply; ex_ack 0] ex_commit_reply ex_alice).
  rewrite (commit_sends_manifest _ ex_short_manifest) by (vm_compute; reflexivity).
  rewrite ex_manifest_leaves, last_snoc by (vm_compute; reflexivity). reflexivity.
Qed.

Lemma ex_relays : Forall2 (relays_chunk "att-1" (chunk_total ex_file))
  (map (chunk_sent "u1" "up" "lobby" "g" "att-1" ex_key ex_file) (seqZ 0 (chunk_total ex_file))) [ex_relayed_chunk].
Proof.
  assert (chunk_total ex_file = 1) as -> by (vm_compute; reflexivity).
  change (map (chunk_sent "u1" "up" "lobby" "g" "att-1" ex_key ex_file) (seqZ 0 1)) with [ex_sent_chunk].
  assert (chunk_index ex_sent_chunk = 0) as Hi by reflexivity. constructor; [| constructor].
  unfold relays_chunk, ex_relayed_chunk. generalize dependent ex_sent_chunk. intros c Hi. cbn. rewrite Hi. done.
Qed.

Lemma attachment_delivered_witness :
  fs_view (disk (receive_all [ex_relayed_chunk] (startAttachmentDownload "att-1" "out" "dl"
    (processMlsMessage ((ex_manifest_message ex_short_manifest) <| username := "alice" |>) ex_bob)))) !! "out" = Some ex_file.
Proof.
  destruct (attachment_delivered "u1" "up" "lobby" "g" "att-1" "/short.txt" ex_key ex_file [] ex_alice (mk_buffer ex_file) ex_init_reply
              [0] [ex_ack 0] ex_commit_reply (mk_mls_group (Some 0%nat) "lobby" 3 ∅ ∅) 0%nat (ex_member [x61]) (ex_manifest_message ex_short_manifest)
              ex_bob (mk_mls_group (Some 0%nat) "lobby" 3 ∅ ∅) 0%nat (ex_member [x62]) ((ex_manifest_message ex_short_manifest) <| username := "alice" |>) "out" "dl"
              [ex_relayed_chunk]) as [_ X].
  - exact ex_delivery_ok.
  - reflexivity.
  - reflexivity.
  - reflexivity.
  - reflexivity.
  - repeat split.
  - reflexivity.
  - reflexivity.
  - reflexivity.
  - reflexivity.
  - reflexivity.
  - discriminate.
  - split; [reflexivity |]. intros [| k] i Hk; cbn in Hk; [injection Hk as <- | discriminate]. unfold WindowSize. lia.
  - repeat constructor.
  - reflexivity.
  - reflexivity.
  - reflexivity.
  - reflexivity.
  - reflexivity.
  - reflexivity.
  - unfold in_uint64. vm_compute. split; discriminate.
  - reflexivity.
  - reflexivity.
  - reflexivity.
  - exact ex_in_sync.
  - exact ex_alice_sends_manifest.
  - reflexivity.
  - reflexivity.
  - reflexivity.
  - reflexivity.
  - reflexivity.
  - discriminate.
  - discriminate.
  - reflexivity.
  - reflexivity.
  - done.
  - exact ex_relays.
  - rewrite X. apply lookup_insert_eq.
Defined.

End Witnesses.
