(* ===== verification/MlsFaults.v ===== *)
(** * MlsFaults: where the MLS part of the worker gets stuck

    Two behaviours of client-cpp/gui/src/gui_connection_worker.cpp that the
    theorems of [MlsHandshake] do not exclude: a welcome whose acceptance cannot
    be sent leaves a client without a key package behind, after which every
    login is reported as a lost connection; and an upload started while the link
    is down waits for ever without an error for its attachment. *)

From Stdlib Require Import Strings.Byte.
From S2P Require Import Prelude Text Protocol Json JsonCodecInstance Message BridgeProtocol Crypto TransferState.
From S2P Require Import TransferClient Manifest Download MlsClient Worker Attachments MlsGroups MlsSession.

Section Faults.
  Context `{QtText} `{QtOrder} `{CryptoLib} `{QtJson} `{JsonCodec} `{MlsLib} {D F : Type} `{InputDevice D} `{FileSystem F}
    `{HostEnv D}.

#[local] Abbreviation state := (AttachmentWorker D F).

(** ** A client without a key package *)

(** The client that should publish a key package has none left. *)
Definition poisoned (c : nat) (s : state) : Prop :=
  mlsClient_ s = Some c /\ exists client, clients s !! c = Some client /\ keyPackage client = Fail no_key_package.

Definition key_package_lost : signal := ConnectionLost ("MLS key package initialization failed: " +:+ no_key_package).

Lemma wire_send_signals m (s s' : state) r : wire_send m s = (s', r) ->
  mlsClient_ s' = mlsClient_ s /\ clients s' = clients s /\ signals (base s') = signals (base s).
Proof.
  unfold wire_send. destruct (negb (link_up s)); [by intros [= <- _] |]. destruct (env_send (clock s)); by intros [= <- _].
Qed.

Lemma resume_signals l : forall s : state,
  let s' := foldl (fun s entry => resume_operation entry s) s l in
  mlsClient_ s' = mlsClient_ s /\ clients s' = clients s /\ exists ext, signals (base s') = signals (base s) ++ ext.
Proof.
  induction l as [| [c op] l IH]; intros s; [split_and!; try done; exists []; by rewrite app_nil_r |].
  cbn [foldl]. destruct (IH (resume_operation (c, op) s)) as (-> & -> & (ext & ->)).
  enough (mlsClient_ (resume_operation (c, op) s) = mlsClient_ s /\ clients (resume_operation (c, op) s) = clients s /\
          exists ext, signals (base (resume_operation (c, op) s)) = signals (base s) ++ ext) as (-> & -> & (ext' & ->)).
  { split_and!; try done. exists (ext' ++ ext). by rewrite app_assoc. }
  unfold resume_operation. destruct (op_phase op); [| | split_and!; try done; exists []; by rewrite app_nil_r];
    destruct (wire_send _ s) as [s1 r] eqn:E; apply wire_send_signals in E as (Em & Ec & Es); destruct r as [[] | reason];
    (split_and!; [done | done |]).
  - exists []. by rewrite Es, app_nil_r.
  - exists [MlsCommandResult c false "send_failed" reason]. change (signals (base s1) ++ [MlsCommandResult c false "send_failed" reason] =
      signals (base s) ++ [MlsCommandResult c false "send_failed" reason]). by rewrite Es.
  - exists []. by rewrite Es, app_nil_r.
  - exists [MlsCommandResult c false "send_failed" reason]. change (signals (base s1) ++ [MlsCommandResult c false "send_failed" reason] =
      signals (base s) ++ [MlsCommandResult c false "send_failed" reason]). by rewrite Es.
Qed.

Lemma poisoned_publish c (s : state) : poisoned c s -> link_up s = true ->
  exists s1, publishMlsKeyPackage s = emit key_package_lost s1 /\ poisoned c s1 /\ base s1 = base s.
Proof.
  intros (Em & client & Ec & Ek) Hl. unfold publishMlsKeyPackage, on_client. rewrite Hl, Em, Ec, Ek. cbn [negb].
  eexists. split; [reflexivity |]. split; [| done]. split; [done |]. exists client. split; [| done].
  cbn. apply list_lookup_insert_eq. by eapply lookup_lt_Some.
Qed.

(** A login of a poisoned worker is reported as lost, and it stays poisoned. *)
Lemma poisoned_login c (s : state) : poisoned c s -> link_up s = true ->
  poisoned c (after_login true s) /\
  exists ext, signals (base (after_login true s)) = signals (base s) ++ key_package_lost :: ext.
Proof.
  intros Hp Hl. unfold after_login. cbn [negb]. cbv zeta. rewrite (proj1 Hp).
  destruct (poisoned_publish c s Hp Hl) as (s1 & -> & Hp1 & Eb). unfold resumePendingMlsOperations.
  destruct (negb _).
  - split; [exact Hp1 |]. exists []. cbn. by rewrite Eb.
  - destruct (resume_signals (map_entries (pendingMlsOperations_ (emit key_package_lost s1))) (emit key_package_lost s1))
      as (Em & Ec & ext & Es). split; [unfold poisoned; rewrite Em, Ec; exact Hp1 |].
    exists ext. rewrite Es. cbn. by rewrite Eb, <- app_assoc.
Qed.

(** One round of reconnecting: the loss is noticed, the timer is armed, and
    when it fires the login succeeds. *)
Definition reconnect_round (isAdmin : bool) (s : state) : state :=
  mls_retrySavedConnection (Ok tt) (fun _ => LoggedIn isAdmin) (s <| base ::= scheduleReconnect |>).

Record reconnecting (c : nat) (s : state) : Prop := {
  rc_poisoned : poisoned c s;
  rc_wanted : explicitDisconnect_ (base s) = false;
  rc_saved : sc_valid (savedConnection_ (base s)) = true;
}.

Lemma schedule_keeps w : explicitDisconnect_ (scheduleReconnect w) = explicitDisconnect_ w /\
  savedConnection_ (scheduleReconnect w) = savedConnection_ w /\ exists ext, signals (scheduleReconnect w) = signals w ++ ext.
Proof.
  unfold scheduleReconnect. destruct (_ || _)%bool; [split_and!; try done; exists []; by rewrite app_nil_r |].
  assert (policy_view (stopReceiveLoop w) = policy_view w /\ signals (stopReceiveLoop w) = signals w) as [Hv Hs].
  { split; [apply stopReceiveLoop_view |]. unfold stopReceiveLoop. by destruct (running_ w). }
  injection Hv as _ _ _ Ee Ev. cbv zeta. destruct (scheduleNextAttempt _) as [p d].
  destruct (d <? 0); split_and!; try done; cbn; rewrite Hs; [exists []; by rewrite app_nil_r | eauto].
Qed.

Lemma reconnect_round_lost isAdmin c (s : state) : reconnecting c s ->
  reconnecting c (reconnect_round isAdmin s) /\
  exists before after, signals (base (reconnect_round isAdmin s)) = signals (base s) ++ before ++ key_package_lost :: after.
Proof.
  intros [Hp He Hv]. destruct (schedule_keeps (base s)) as (Ee & Ev & ext0 & Es0).
  unfold reconnect_round, mls_retrySavedConnection.
  set (s0 := s <| base ::= scheduleReconnect |>).
  change (explicitDisconnect_ (base s0)) with (explicitDisconnect_ (scheduleReconnect (base s))).
  change (savedConnection_ (base s0)) with (savedConnection_ (scheduleReconnect (base s))). rewrite Ee, Ev, He, Hv. cbn [negb orb].
  cbv zeta. unfold mls_connectToServerWithRetries. change (Z.to_nat (Z.max 1 1)) with 1%nat. cbn [mls_retry_loop].
  match goal with |- context [after_login true ?x] => set (s1 := x) end.
  destruct (poisoned_login c s1) as [Hp1 (ext & Es)]; [exact Hp | done |].
  assert (session_view (base (after_login true s1)) = session_view (base s1)) as Hview by apply calm_after_login.
  set (s2 := after_login true s1) in *. clearbody s2.
  split.
  - split; [exact Hp1 | |].
    + change (explicitDisconnect_ (base s2) = false).
      injection Hview as _ _ _ E4 _ _ _ _. rewrite E4. change (explicitDisconnect_ (scheduleReconnect (base s)) = false). congruence.
    + change (sc_valid (savedConnection_ (base s2)) = true).
      injection Hview as _ _ _ _ E5 _ _ _. rewrite E5. change (sc_valid (savedConnection_ (scheduleReconnect (base s))) = true). congruence.
  - exists (ext0 ++ [ReconnectAttempt (attemptCount_ (reconnectPolicy_ (base s0)))]), (ext ++ [Connected isAdmin]).
    change (signals (base s2) ++ [Connected isAdmin] = signals (base s) ++
      (ext0 ++ [ReconnectAttempt (attemptCount_ (reconnectPolicy_ (base s0)))]) ++ key_package_lost :: ext ++ [Connected isAdmin]).
    rewrite Es. change (signals (base s1)) with (signals (scheduleReconnect (base s)) ++
      [ReconnectAttempt (attemptCount_ (reconnectPolicy_ (base s0)))]). rewrite Es0. by rewrite <- !app_assoc.
Qed.

(** The welcome is accepted by the client and its acceptance cannot be sent. *)
Lemma unsent_accept_poisons incoming (s : state) c client client' raw reason :
  type incoming = "mls.group.welcome" -> welcome incoming <> "" -> proposal_id incoming <> "" ->
  target_user_code incoming = user_code_of s -> mlsGroups_ s !! group_id incoming = None ->
  mlsClient_ s = Some c -> clients s !! c = Some client ->
  decodeMlsOpaque (welcome incoming) = Ok raw -> mls_join raw client = (client', Ok tt) ->
  link_up s = true -> env_send (clock s) = Fail reason ->
  let s1 := processMlsMessage incoming s in
  poisoned c s1 /\ explicitDisconnect_ (base s1) = explicitDisconnect_ (base s) /\ savedConnection_ (base s1) = savedConnection_ (base s).
Proof.
  intros Hty Hw Hpid Htgt Hg Hm Hc Hraw Hj Hl Hs s1. unfold s1, processMlsMessage, catch, dispatch_mls.
  rewrite Hty, (proj2 (is_empty_false _) Hw). cbn [String.eqb Ascii.eqb Bool.eqb andb negb]. unfold on_welcome.
  assert (eq_ci (target_user_code incoming) (user_code_of s) = true) as -> by (rewrite Htgt; apply String.eqb_refl).
  rewrite Bool.andb_false_r, Hg, Hm. unfold join_group, then_, unwrap. rewrite Hraw. unfold on_client. rewrite Hc, Hj.
  unfold modify, sendWelcomeAccept. rewrite (proj2 (is_empty_false _) Hpid). unfold wire_send.
  match goal with |- context [negb (link_up ?x)] => change (link_up x) with (link_up s); change (env_send (clock x)) with (env_send (clock s)) end.
  rewrite Hl, Hs. cbn [negb]. split; [| done]. split; [exact Hm |]. exists client'. split.
  - change (<[c := client']> (clients s) !! c = Some client'). apply list_lookup_insert_eq. by eapply lookup_lt_Some.
  - by eapply joined_has_no_key_package.
Qed.

(** when the acceptance of a first welcome cannot be sent, every later
    login of the same user, any number of reconnections on, is reported as a
    lost connection: the client that publishes the key package has already
    spent it and is never replaced. *)
Theorem unsent_accept_poisons_logins incoming (s : state) c client client' raw reason n isAdmin :
  type incoming = "mls.group.welcome" -> welcome incoming <> "" -> proposal_id incoming <> "" ->
  target_user_code incoming = user_code_of s -> mlsGroups_ s !! group_id incoming = None ->
  mlsClient_ s = Some c -> clients s !! c = Some client ->
  decodeMlsOpaque (welcome incoming) = Ok raw -> mls_join raw client = (client', Ok tt) ->
  link_up s = true -> env_send (clock s) = Fail reason ->
  explicitDisconnect_ (base s) = false -> sc_valid (savedConnection_ (base s)) = true ->
  let s1 := Nat.iter n (reconnect_round isAdmin) (processMlsMessage incoming s) in
  exists before after, signals (base (reconnect_round isAdmin s1)) = signals (base s1) ++ before ++ key_package_lost :: after.
Proof.
  intros Hty Hw Hpid Htgt Hg Hm Hc Hraw Hj Hl Hs He Hv. cbv zeta.
  enough (reconnecting c (Nat.iter n (reconnect_round isAdmin) (processMlsMessage incoming s))) as Hr by (by eapply reconnect_round_lost).
  induction n as [| n IH]; [| by apply reconnect_round_lost].
  destruct (unsent_accept_poisons incoming s c client client' raw reason) as (Hp & Ee & Ev); try done.
  change (reconnecting c (processMlsMessage incoming s)). split; [exact Hp | by rewrite Ee | by rewrite Ev].
Qed.

(** ** An upload without a link *)

Lemma make_group_ok groupId room (s : state) client session :
  mls_create (length (clients s)) (bytes_of (user_code_of s)) = Ok client ->
  mls_begin_session (client_ client) (bytes_of groupId) = Ok session ->
  exists s1, make_group groupId room s = (s1, Ok (mk_mls_group (Some (length (clients s))) room 0 ∅ ∅)) /\ base s1 = base s /\
    pendingAttachmentMlsSetups_ s1 = pendingAttachmentMlsSetups_ s.
Proof.
  intros Hc Hs. unfold make_group, then_, make_client. rewrite Hc. unfold on_client.
  match goal with |- context [clients ?x !! _] => change (clients x) with (clients s ++ [client]) end.
  rewrite lookup_app_r, Nat.sub_diag by done. cbn [lookup list_lookup]. unfold createGroup. rewrite Hs.
  eexists. split; [reflexivity |]. done.
Qed.

(** an upload that is started while the link is down reports no error for
    its attachment: it only answers the key-package command it made up itself,
    and leaves a set-up behind that waits for a reply to a request that was
    never sent. *)
Theorem offline_upload_waits room filePath targetUsers commandId (s : state) target rest info :
  targetUsers = target :: rest ->
  env_file (clock s) filePath = info -> fi_isFile info = true -> fi_isReadable info = true -> fi_size info <= MaxLogicalBytes ->
  trimmed commandId = commandId -> commandId <> "" -> link_up s = false ->
  (exists client session, mls_create (length (clients s)) (bytes_of (user_code_of s)) = Ok client /\
     mls_begin_session (client_ client) (bytes_of (attachment_mls_group_id (trimmed room) commandId)) = Ok session) ->
  let s1 := startAttachmentUpload room filePath targetUsers commandId s in
  signals (base s1) = signals (base s) ++
    [MlsCommandResult (fetch_command commandId 0) false "not_connected" "MLS control requires an active connection"] /\
  sent_ (base s1) = sent_ (base s) /\
  pendingAttachmentMlsFetches_ s1 !! fetch_command commandId 0 = Some commandId /\
  is_Some (pendingAttachmentMlsSetups_ s1 !! commandId).
Proof.
  intros -> Hi Hf Hr Hsz Hc Hc0 Hl (client & session & Hcl & Hse) s1.
  unfold s1, startAttachmentUpload, file_info. cbv beta iota zeta. rewrite Hi, Hf, Hr, Hc, (proj2 (is_empty_false _) Hc0), (proj2 (Z.ltb_ge _ _) Hsz).
  rewrite (bool_decide_false (target :: rest = [])) by done. cbn [negb orb]. unfold catch, then_, modify.
  match goal with |- context [make_group ?g ?r ?x] =>
    destruct (make_group_ok g r x client session Hcl Hse) as (s2 & Eg & Eb & _); rewrite Eg end. unfold startNextAttachmentMlsSetup.
  match goal with |- context [pendingAttachmentMlsSetups_ ?x !! commandId] =>
    change (pendingAttachmentMlsSetups_ x) with (<[commandId := mk_mls_setup (trimmed room) (fi_absoluteFilePath info)
      (attachment_mls_group_id (trimmed room) commandId) commandId (target :: rest) 0]> (pendingAttachmentMlsSetups_ s2)) end.
  rewrite lookup_insert_eq. cbn [ms_targetUsers ms_nextTarget ms_room Z.to_nat lookup list_lookup]. cbv zeta. unfold fetchMlsKeyPackage.
  match goal with |- context [negb (link_up ?x)] => assert (link_up x = false) as -> by (unfold link_up in *; cbn; by rewrite Eb) end.
  cbn [negb]. split_and!.
  - cbn. by rewrite Eb.
  - cbn. by rewrite Eb.
  - apply lookup_insert_eq.
  - eexists. apply lookup_insert_eq.
Qed.

End Faults.

(** ** Witnesses *)

Section Witnesses.

#[local] Existing Instances ascii_order toy_crypto toy_laws tree_json toy_mls.

#[local] Instance ex_faulty_host : HostEnv buffer := ex_host (fun path => Some [x61]) (fun _ => Fail "Send timeout").

Definition ex_client (who : bytes) (session : option toy_session) (join : option bytes) : MlsClient := mk_mls_client who session join.

Definition ex_invited : AttachmentWorker buffer Download.disk :=
  (fresh_worker ex_worker (mk_disk ∅ [])) <| clients := [ex_client [x61] None (Some [x61])] |> <| mlsClient_ := Some 0%nat |>.

Definition ex_welcome : Message :=
  empty_message <| type := "mls.group.welcome" |> <| target_user_code := "alice01" |> <| group_id := "g" |> <| epoch := 1 |>
    <| proposal_id := "add-1" |> <| welcome := to_base64 [x57; x67] |>.

Lemma unsent_accept_poisons_logins_witness :
  let s1 := Nat.iter 5 (reconnect_round false) (processMlsMessage ex_welcome ex_invited) in
  exists before after, signals (base (reconnect_round false s1)) = signals (base s1) ++ before ++ key_package_lost :: after.
Proof.
  apply (unsent_accept_poisons_logins ex_welcome ex_invited 0%nat (ex_client [x61] None (Some [x61]))
           (ex_client [x61] (Some (mk_toy_session [x67] 0 [[x61]])) None) [x57; x67] "Send timeout" 5 false);
    first [reflexivity | discriminate | vm_compute; reflexivity].
Defined.

Definition ex_offline : AttachmentWorker buffer Download.disk := fresh_worker initial_worker (mk_disk ∅ []).

Lemma offline_upload_waits_witness :
  signals (base (startAttachmentUpload "lobby" "/a" ["bob02"] "up" ex_offline)) =
    [MlsCommandResult "up-mls-fetch-0" false "not_connected" "MLS control requires an active connection"].
Proof.
  destruct (offline_upload_waits "lobby" "/a" ["bob02"] "up" ex_offline "bob02" [] (mk_file_info 1 true true "/a")) as (X & _).
  - reflexivity.
  - reflexivity.
  - reflexivity.
  - reflexivity.
  - vm_compute. discriminate.
  - reflexivity.
  - discriminate.
  - reflexivity.
  - eexists _, _. split; reflexivity.
  - exact X.
Defined.

End Witnesses.
