(* ===== verification/ConsoleInput.v ===== *)
(** * ConsoleInput: reading lines in the console client

    Models the input half of client-cpp/src/main.cpp: the line editor on
    console key events, the reader of a redirected pipe and the conversions
    between UTF-8 and UTF-16.  The conversions of the Windows API are the
    parameter class [WinText]; what the API returns at each call of a loop is a
    list of events. *)

From S2P Require Import Prelude Text.
From Stdlib Require Import Ascii.

(** ** UTF-16 *)

(** A [std::wstring]: its code units. *)
Definition wide := list Z.

Class WinText := {
  wc_to_utf8 : wide -> option string;   (* WideCharToMultiByte(CP_UTF8, WC_ERR_INVALID_CHARS) of a text without NUL *)
  mb_to_wide : string -> option wide;   (* MultiByteToWideChar(CP_UTF8, MB_ERR_INVALID_CHARS) of a nonempty text *)
}.

(** Documented behaviour: valid UTF-8 is converted without loss. *)
Class WinTextLaws `{WinText} : Prop := {
  utf8_wide_utf8 s w : mb_to_wide s = Some w -> 0 ∉ w -> wc_to_utf8 w = Some s;
}.

(** [value.c_str()]: the text up to the first NUL. *)
Fixpoint c_str (value : wide) : wide :=
  match value with
  | [] => []
  | u :: rest => if u =? 0 then [] else u :: c_str rest
  end.

Section Conversions.
  Context `{WinText}.

Definition utf8_from_wide (value : wide) : string := default "" (wc_to_utf8 (c_str value)).

(** [None] stands for [valid = false]. *)
Definition wide_from_utf8 (value : string) : option wide := if is_empty value then Some [] else mb_to_wide value.

End Conversions.

Definition is_high_surrogate (value : Z) : bool := (0xD800 <=? value) && (value <=? 0xDBFF).

(** The text left and the number of units removed. *)
Definition erase_last_utf16_code_point (input : wide) : wide * nat :=
  match rev input with
  | [] => (input, 0%nat)
  | _ :: rest =>
      match rest with
      | u :: rest' => if is_high_surrogate u then (rev rest', 2%nat) else (rev rest, 1%nat)
      | [] => ([], 1%nat)
      end
  end.

(** ** The console *)

Inductive InputReadResult := kLineReady | kInterrupted | kEndOfInput | kError.

#[export] Instance InputReadResult_eq_dec : EqDecision InputReadResult.
Proof. solve_decision. Defined.

Definition VK_BACK : Z := 8.
Definition VK_RETURN : Z := 13.

(** An INPUT_RECORD; [RunningCleared] marks where the other thread clears [running]. *)
Inductive console_record :=
  | KeyEvent (keyDown : bool) (virtualKeyCode unicodeChar : Z)
  | OtherEvent
  | RunningCleared.

(** What one round of the loop of [read_console_line] meets. *)
Inductive poll :=
  | PollTimeout
  | PollFailed                                  (* the wait or the read failed *)
  | PollRecords (records : list console_record)
  | PollStopped.                                (* [running] is false at the head of the loop *)

(** The echo of a key: what is written to the console. *)
Definition erase_echo : wide := [8; 32; 8].
Definition newline_echo : wide := [13; 10].

Inductive batch_result :=
  | BatchLine (line : wide) (echo : wide)                    (* the rest of the batch is lost *)
  | BatchEnd (current : wide) (echo : wide) (running : bool).

(** The [for] loop over the records of one read. *)
Fixpoint read_records (records : list console_record) (current echo : wide) : batch_result :=
  match records with
  | [] => BatchEnd current echo true
  | RunningCleared :: _ => BatchEnd current echo false
  | OtherEvent :: rest => read_records rest current echo
  | KeyEvent down vk unicode :: rest =>
      if negb down then read_records rest current echo
      else if vk =? VK_RETURN then BatchLine current (echo ++ newline_echo)
      else if vk =? VK_BACK then
        let '(current, removed) := erase_last_utf16_code_point current in
        read_records rest current (echo ++ concat (repeat erase_echo removed))
      else if (32 <=? unicode) && negb (unicode =? 0x7F)
      then read_records rest (current ++ [unicode]) (echo ++ [unicode])
      else read_records rest current echo
  end.

(** [None]: still waiting for events.  Otherwise the result, the line and the
    text left in [current_input], the echo and the events not yet met. *)
Fixpoint read_console_line (polls : list poll) (current echo : wide)
    : option (InputReadResult * wide * wide * wide * list poll) :=
  match polls with
  | [] => None
  | PollStopped :: rest => Some (kInterrupted, [], current, echo, rest)
  | PollTimeout :: rest => read_console_line rest current echo
  | PollFailed :: rest => Some (kError, [], current, echo, rest)
  | PollRecords records :: rest =>
      match read_records records current echo with
      | BatchLine line echo => Some (kLineReady, line, [], echo, rest)
      | BatchEnd current echo true => read_console_line rest current echo
      | BatchEnd current echo false => Some (kInterrupted, [], current, echo, rest)
      end
  end.

(** ** A redirected pipe *)

Inductive pipe_event :=
  | PipeTimeout
  | PipeFailed                      (* the wait, or the read with another error than a broken pipe *)
  | PipeBroken                      (* ERROR_BROKEN_PIPE *)
  | PipeRead (data : string)
  | PipeStopped.                    (* [running] is false at the head of the loop *)

Definition newline : ascii := "010".
Definition carriage_return : ascii := "013".

(** [if (!line.empty() && line.back() == '\r') line.pop_back()] *)
Fixpoint strip_cr (line : string) : string :=
  match line with
  | "" => ""
  | String c "" => if Ascii.eqb c carriage_return then "" else line
  | String c rest => String c (strip_cr rest)
  end.

(** [pending_input.find('\n')]: the line and what follows the newline. *)
Fixpoint split_line (pending : string) : option (string * string) :=
  match pending with
  | "" => None
  | String c rest =>
      if Ascii.eqb c newline then Some ("", rest)
      else match split_line rest with
           | Some (line, remaining) => Some (String c line, remaining)
           | None => None
           end
  end.

Section Pipe.
  Context `{WinText}.

Definition deliver_line (utf8_line : string) : InputReadResult * wide :=
  match wide_from_utf8 (strip_cr utf8_line) with
  | Some line => (kLineReady, line)
  | None => (kError, [])
  end.

(** [None]: still waiting.  Otherwise the result, the line, [pending_input] and
    the events not yet met. *)
Fixpoint read_redirected_pipe_line (events : list pipe_event) (pending : string)
    : option (InputReadResult * wide * string * list pipe_event) :=
  match events with
  | PipeStopped :: rest => Some (kInterrupted, [], pending, rest)
  | _ =>
      match split_line pending with
      | Some (line, remaining) => Some (deliver_line line, remaining, events)
      | None =>
          match events with
          | [] => None
          | PipeTimeout :: rest => read_redirected_pipe_line rest pending
          | PipeRead data :: rest =>
              if is_empty data then Some (kEndOfInput, [], pending, rest)
              else read_redirected_pipe_line rest (pending +:+ data)
          | PipeBroken :: rest => Some (kEndOfInput, [], pending, rest)
          | PipeFailed :: rest | PipeStopped :: rest => Some (kError, [], pending, rest)
          end
      end
  end.

End Pipe.

(** ** The line editor edits code points *)

(** A character that can be typed. *)
Definition scalar (c : Z) : Prop := 32 <= c <= 0x10FFFF /\ c <> 0x7F /\ ~ (0xD800 <= c <= 0xDFFF).

Definition utf16 (c : Z) : wide :=
  if c <? 0x10000 then [c] else [0xD800 + (c - 0x10000) / 1024; 0xDC00 + (c - 0x10000) mod 1024].

Definition utf16s (cs : list Z) : wide := concat (map utf16 cs).

Inductive keystroke := TypeChar (c : Z) | EraseChar.

(** Editing a text of code points. *)
Definition edit (cs : list Z) (k : keystroke) : list Z :=
  match k with TypeChar c => cs ++ [c] | EraseChar => removelast cs end.

(** Records without effect: other events, released keys, keys without a character. *)
Definition noise (r : console_record) : bool :=
  match r with
  | OtherEvent => true
  | KeyEvent down vk unicode =>
      negb down || (negb (vk =? VK_RETURN) && negb (vk =? VK_BACK) && ((unicode <? 32) || (unicode =? 0x7F)))
  | RunningCleared => false
  end.

Definition char_key (vk : Z) : Prop := vk <> VK_RETURN /\ vk <> VK_BACK.

(** The records of a sequence of key strokes: a character outside the basic
    plane arrives as two records, one for each surrogate. *)
Inductive typed : list keystroke -> list console_record -> Prop :=
  | typed_nil : typed [] []
  | typed_noise r ks rs : noise r = true -> typed ks rs -> typed ks (r :: rs)
  | typed_char c vk ks rs : scalar c -> c < 0x10000 -> char_key vk -> typed ks rs ->
      typed (TypeChar c :: ks) (KeyEvent true vk c :: rs)
  | typed_pair c vk vk' hi lo ns ks rs : scalar c -> 0x10000 <= c -> utf16 c = [hi; lo] -> char_key vk -> char_key vk' ->
      Forall (fun r => noise r = true) ns -> typed ks rs ->
      typed (TypeChar c :: ks) (KeyEvent true vk hi :: ns ++ KeyEvent true vk' lo :: rs)
  | typed_erase u ks rs : typed ks rs -> typed (EraseChar :: ks) (KeyEvent true VK_BACK u :: rs).

Lemma utf16_units c : scalar c ->
  (c < 0x10000 /\ utf16 c = [c]) \/
  (0x10000 <= c /\ exists hi lo, utf16 c = [hi; lo] /\ is_high_surrogate hi = true /\ 0xD800 <= hi <= 0xDBFF /\ 0xDC00 <= lo <= 0xDFFF).
Proof.
  intros ((Hlo & Hhi) & _ & _). unfold utf16. destruct (c <? 0x10000) eqn:E.
  - left. by apply Z.ltb_lt in E.
  - right. apply Z.ltb_ge in E. split; [done |]. eexists _, _. split; [done |].
    assert (0 <= (c - 0x10000) / 1024 < 0x400) by (split; [apply Z.div_pos; lia | apply Z.div_lt_upper_bound; lia]).
    pose proof (Z.mod_pos_bound (c - 0x10000) 1024 ltac:(lia)).
    split; [| lia]. unfold is_high_surrogate. apply andb_true_iff. split; apply Z.leb_le; lia.
Qed.

(** The last unit of a text of code points is no high surrogate. *)
Lemma utf16s_last cs u rest : Forall scalar cs -> rev (utf16s cs) = u :: rest -> is_high_surrogate u = false.
Proof.
  intros Hcs. destruct cs as [| c cs _] using rev_ind; [done |]. apply Forall_app in Hcs as [_ Hc]. apply Forall_inv in Hc.
  unfold utf16s. rewrite map_app, concat_app. cbn [map concat]. rewrite app_nil_r, rev_app_distr.
  destruct (utf16_units c Hc) as [[Hs ->] | (Hs & hi & lo & -> & _ & _ & Hlo)]; cbn; intros [= <- _];
    unfold is_high_surrogate; destruct Hc as (_ & _ & Hn); apply andb_false_iff; rewrite !Z.leb_gt; lia.
Qed.

Lemma utf16s_snoc cs c : utf16s (cs ++ [c]) = utf16s cs ++ utf16 c.
Proof. unfold utf16s. rewrite map_app, concat_app. cbn. by rewrite app_nil_r. Qed.

Lemma erase_utf16s cs : Forall scalar cs -> (erase_last_utf16_code_point (utf16s cs)).1 = utf16s (removelast cs).
Proof.
  intros Hcs. destruct cs as [| c cs _] using rev_ind; [done |]. rewrite removelast_last.
  apply Forall_app in Hcs as [Hcs Hc]. apply Forall_inv in Hc. rewrite utf16s_snoc.
  unfold erase_last_utf16_code_point. rewrite rev_app_distr.
  destruct (utf16_units c Hc) as [[Hs ->] | (Hs & hi & lo & -> & Hhi & _)]; cbn [rev app].
  - destruct (rev (utf16s cs)) as [| u rest] eqn:E.
    + apply (f_equal (@rev Z)) in E. rewrite rev_involutive in E. by rewrite E.
    + rewrite (utf16s_last cs u rest Hcs E). cbn [fst]. by rewrite <- E, rev_involutive.
  - rewrite Hhi. cbn [fst]. apply rev_involutive.
Qed.

(** ** Records in several batches *)

Lemma read_records_app rs rs' current echo :
  read_records (rs ++ rs') current echo =
  match read_records rs current echo with
  | BatchEnd current echo true => read_records rs' current echo
  | r => r
  end.
Proof.
  revert current echo. induction rs as [| r rs IH]; intros current echo; [done |]. destruct r as [down vk u | |]; cbn [read_records app].
  - destruct (negb down); [apply IH |]. destruct (vk =? VK_RETURN); [done |]. destruct (vk =? VK_BACK).
    + destruct (erase_last_utf16_code_point current) as [c n]. apply IH.
    + destruct (_ && _)%bool; apply IH.
  - apply IH.
  - done.
Qed.

Lemma read_noise r rs current echo : noise r = true -> read_records (r :: rs) current echo = read_records rs current echo.
Proof.
  destruct r as [down vk u | |]; cbn [noise read_records]; [| done | done]. destruct (negb down); [done |]. cbn [orb]. intros Hn.
  apply andb_true_iff in Hn as [Hk Hu]. apply andb_true_iff in Hk as [Hr%negb_true_iff Hb%negb_true_iff]. rewrite Hr, Hb.
  replace ((32 <=? u) && negb (u =? 0x7F)) with false; [done |]. symmetry. apply andb_false_iff.
  apply orb_true_iff in Hu as [Hu%Z.ltb_lt | ->]; [left; by apply Z.leb_gt | by right].
Qed.

Lemma read_noises ns rs current echo : Forall (fun r => noise r = true) ns ->
  read_records (ns ++ rs) current echo = read_records rs current echo.
Proof. induction 1 as [| r ns Hr _ IH]; [done |]. cbn [app]. by rewrite read_noise. Qed.

(** A record that carries a unit of a character. *)
Lemma read_char vk u rs current echo : char_key vk -> 32 <= u -> u <> 0x7F ->
  read_records (KeyEvent true vk u :: rs) current echo = read_records rs (current ++ [u]) (echo ++ [u]).
Proof.
  intros [Hr Hb] Hu Hd. cbn [read_records negb]. rewrite !(proj2 (Z.eqb_neq _ _)) by done.
  by rewrite (proj2 (Z.leb_le _ _)) by lia.
Qed.

Lemma typed_scalars ks rs : typed ks rs -> Forall (fun k => match k with TypeChar c => scalar c | EraseChar => True end) ks.
Proof. induction 1; auto. Qed.

Lemma edit_scalars ks cs : Forall scalar cs -> Forall (fun k => match k with TypeChar c => scalar c | EraseChar => True end) ks ->
  Forall scalar (foldl edit cs ks).
Proof.
  intros Hcs Hks. revert cs Hcs. induction Hks as [| [c |] ks Hk _ IH]; intros cs Hcs; [done | |]; cbn [foldl]; apply IH.
  - apply Forall_app. by split; [| constructor].
  - destruct cs as [| c cs _] using rev_ind; [done |]. cbn [edit]. rewrite removelast_last. by apply Forall_app in Hcs as [? _].
Qed.

Lemma typed_reads ks rs : typed ks rs -> forall cs echo, Forall scalar cs ->
  exists echo', read_records rs (utf16s cs) echo = BatchEnd (utf16s (foldl edit cs ks)) echo' true.
Proof.
  induction 1 as [| r ks rs Hr _ IH | c vk ks rs Hc Hs Hk _ IH | c vk vk' hi lo ns ks rs Hc Hs Hu Hk Hk' Hns _ IH | u ks rs _ IH];
    intros cs echo Hcs.
  - by exists echo.
  - rewrite read_noise by done. by apply IH.
  - rewrite read_char by (done || apply Hc). destruct (IH (cs ++ [c]) (echo ++ [c])) as [echo' E].
    { apply Forall_app. by split; [| constructor]. }
    exists echo'. cbn [foldl edit]. rewrite <- E, utf16s_snoc. destruct (utf16_units c Hc) as [[_ ->] | [Hge _]]; [done | lia].
  - destruct (utf16_units c Hc) as [[Hlt _] | (_ & hi' & lo' & E' & _ & Hhi & Hlo)]; [lia |]. rewrite Hu in E'. injection E' as <- <-.
    rewrite read_char by (done || lia). rewrite read_noises by done. rewrite read_char by (done || lia).
    destruct (IH (cs ++ [c]) ((echo ++ [hi]) ++ [lo])) as [echo' E].
    { apply Forall_app. by split; [| constructor]. }
    exists echo'. cbn [foldl edit]. rewrite <- E, utf16s_snoc, Hu. by rewrite <- !app_assoc.
  - cbn [read_records negb]. change (VK_BACK =? VK_RETURN) with false. change (VK_BACK =? VK_BACK) with true. cbv iota.
    pose proof (erase_utf16s cs Hcs) as He. destruct (erase_last_utf16_code_point _) as [cur n]. cbn [fst] in He. subst cur.
    apply IH. apply (edit_scalars [EraseChar]); [done | by constructor].
Qed.

(** Polls that deliver these records, with time-outs in between. *)
Fixpoint delivers (polls : list poll) (rs : list console_record) : Prop :=
  match polls with
  | [] => rs = []
  | PollTimeout :: rest => delivers rest rs
  | PollRecords batch :: rest => exists rs', rs = batch ++ rs' /\ delivers rest rs'
  | _ => False
  end.

Lemma polls_read polls : forall rs more current echo current' echo',
  delivers polls rs -> read_records rs current echo = BatchEnd current' echo' true ->
  read_console_line (polls ++ more) current echo = read_console_line more current' echo'.
Proof.
  induction polls as [| [| | batch |] polls IH]; intros rs more current echo current' echo' Hd Hr; try done; cbn [delivers app read_console_line] in *.
  - subst rs. by injection Hr as <- <-.
  - by eapply IH.
  - destruct Hd as (rs' & -> & Hd). rewrite read_records_app in Hr.
    destruct (read_records batch current echo) as [| cur ec []]; try done. by eapply IH.
Qed.

(** C19: the console editor on UTF-16 units is the editor of code points: however
    the records of the key strokes are spread over reads and whatever other
    events come with them, Enter delivers the edited text and empties the
    input; the records read together with Enter but after it are lost. *)
Theorem console_line_edited ks rs polls last_batch cs echo u lost more :
  typed ks (rs ++ last_batch) -> delivers polls rs -> Forall scalar cs ->
  exists echo', read_console_line (polls ++ PollRecords (last_batch ++ KeyEvent true VK_RETURN u :: lost) :: more) (utf16s cs) echo =
    Some (kLineReady, utf16s (foldl edit cs ks), [], echo', more).
Proof.
  intros Ht Hd Hcs. destruct (typed_reads _ _ Ht cs echo Hcs) as [echo' E]. rewrite read_records_app in E.
  destruct (read_records rs (utf16s cs) echo) as [| cur ec []] eqn:Er; try done.
  rewrite (polls_read polls rs _ _ _ cur ec Hd Er). cbn [read_console_line]. rewrite read_records_app, E.
  exists (echo' ++ newline_echo). reflexivity.
Qed.

Lemma console_line_edited_witness :
  exists echo', read_console_line
    ([PollTimeout; PollRecords [KeyEvent true 72 104; KeyEvent false 72 104; KeyEvent true 231 0xD83D]; PollTimeout] ++
     PollRecords ([KeyEvent true 231 0xDE00; KeyEvent true VK_BACK 8; KeyEvent true 73 105] ++ KeyEvent true VK_RETURN 13 :: [KeyEvent true 65 97]) :: [])
    [] [] = Some (kLineReady, [104; 105], [], echo', []).
Proof.
  apply (console_line_edited [TypeChar 104; TypeChar 0x1F600; EraseChar; TypeChar 105]
           [KeyEvent true 72 104; KeyEvent false 72 104; KeyEvent true 231 0xD83D]
           [PollTimeout; PollRecords [KeyEvent true 72 104; KeyEvent false 72 104; KeyEvent true 231 0xD83D]; PollTimeout]
           [KeyEvent true 231 0xDE00; KeyEvent true VK_BACK 8; KeyEvent true 73 105] [] [] 13 [KeyEvent true 65 97] []).
  - cbn [app]. apply typed_char; unfold scalar, char_key, VK_RETURN, VK_BACK; [lia | lia | lia |].
    apply typed_noise; [reflexivity |].
    apply (typed_pair 0x1F600 231 231 0xD83D 0xDE00 []); unfold scalar, char_key, VK_RETURN, VK_BACK; [lia | lia | reflexivity | lia | lia | constructor |].
    apply typed_erase. apply typed_char; unfold scalar, char_key, VK_RETURN, VK_BACK; [lia | lia | lia | constructor].
  - exists []. split; [by rewrite app_nil_r | done].
  - constructor.
Defined.

(** ** A pipe delivers the lines of its text *)

Section PipeLines.
  Context `{WinText}.

(** The lines of a text that are ended by a newline; what follows the last
    newline is no line for the reader. *)
Fixpoint lines_from (acc s : string) : list string :=
  match s with
  | "" => []
  | String c rest => if Ascii.eqb c newline then acc :: lines_from "" rest else lines_from (acc +:+ String c "") rest
  end.

Definition complete_lines (s : string) : list string := lines_from "" s.

Lemma lines_from_split acc s :
  lines_from acc s = match split_line s with Some (line, remaining) => (acc +:+ line) :: lines_from "" remaining | None => [] end.
Proof.
  revert acc. induction s as [| c s IH]; intros acc; [done |]. cbn [lines_from split_line]. destruct (Ascii.eqb c newline).
  - by rewrite str_app_nil_r.
  - rewrite IH. destruct (split_line s) as [[line remaining] |]; [| done]. f_equal. by rewrite str_app_assoc.
Qed.

Lemma split_line_app p d line remaining : split_line p = Some (line, remaining) -> split_line (p +:+ d) = Some (line, remaining +:+ d).
Proof.
  revert line remaining. induction p as [| c p IH]; intros line remaining; [done |]. cbn [split_line String.append].
  destruct (Ascii.eqb c newline); [by intros [= <- <-] |]. destruct (split_line p) as [[l r] |]; [| done].
  intros [= <- <-]. by rewrite (IH l r).
Qed.

Lemma split_line_shorter s line remaining : split_line s = Some (line, remaining) -> (String.length remaining < String.length s)%nat.
Proof.
  revert line remaining. induction s as [| c s IH]; intros line remaining; [done |]. cbn [split_line String.length].
  destruct (Ascii.eqb c newline); [intros [= _ <-]; lia |]. destruct (split_line s) as [[l r] |]; [| done].
  intros [= _ <-]. specialize (IH l r eq_refl). lia.
Qed.

(** Reads of a pipe, with time-outs in between, that carry a text. *)
Fixpoint carries_text (events : list pipe_event) (text : string) : Prop :=
  match events with
  | [] => text = ""
  | PipeTimeout :: rest => carries_text rest text
  | PipeRead data :: rest => is_empty data = false /\ exists text', text = data +:+ text' /\ carries_text rest text'
  | _ => False
  end.

Lemma read_one_line events : forall text pending,
  carries_text events text ->
  match split_line (pending +:+ text) with
  | Some (line, remaining) =>
      exists pending' events' text', read_redirected_pipe_line (events ++ [PipeBroken]) pending =
        Some (deliver_line line, pending', events' ++ [PipeBroken]) /\ carries_text events' text' /\ pending' +:+ text' = remaining
  | None => exists pending', read_redirected_pipe_line (events ++ [PipeBroken]) pending = Some (kEndOfInput, [], pending', [])
  end.
Proof.
  induction events as [| e events IH]; intros text pending Ht; cbn [carries_text] in Ht.
  - subst text. rewrite str_app_nil_r. cbn [app read_redirected_pipe_line].
    destruct (split_line pending) as [[line remaining] |] eqn:E; [| eauto]. exists remaining, [], "". by rewrite str_app_nil_r.
  - destruct (split_line pending) as [[line remaining] |] eqn:E.
    + rewrite (split_line_app _ text _ _ E). exists remaining, (e :: events), text. split; [| done].
      destruct e; try done; cbn [app read_redirected_pipe_line]; by rewrite E.
    + destruct e as [| | | data |]; try done; cbn [app read_redirected_pipe_line]; rewrite E.
      * by apply IH.
      * destruct Ht as (Hne & text' & -> & Ht). rewrite Hne. specialize (IH text' (pending +:+ data) Ht).
        by rewrite str_app_assoc in IH.
Qed.

(** Reading until something else than a line comes. *)
Fixpoint read_all (fuel : nat) (events : list pipe_event) (pending : string) : list (InputReadResult * wide) :=
  match fuel with
  | O => []
  | S fuel =>
      match read_redirected_pipe_line events pending with
      | None => []
      | Some (r, line, pending, events) => (r, line) :: if decide (r = kLineReady) then read_all fuel events pending else []
      end
  end.

Fixpoint until_not_line (l : list (InputReadResult * wide)) : list (InputReadResult * wide) :=
  match l with
  | [] => []
  | (r, line) :: rest => (r, line) :: if decide (r = kLineReady) then until_not_line rest else []
  end.

Lemma read_all_lines fuel : forall events text pending,
  (String.length (pending +:+ text) < fuel)%nat -> carries_text events text ->
  read_all fuel (events ++ [PipeBroken]) pending =
  until_not_line (map deliver_line (complete_lines (pending +:+ text)) ++ [(kEndOfInput, [])]).
Proof.
  induction fuel as [| fuel IH]; intros events text pending Hf Ht; [lia |]. cbn [read_all].
  pose proof (read_one_line events text pending Ht) as Hr. unfold complete_lines. rewrite lines_from_split.
  destruct (split_line (pending +:+ text)) as [[line remaining] |] eqn:E.
  - destruct Hr as (pending' & events' & text' & -> & Ht' & Hrem). cbn [map app until_not_line].
    change ("" +:+ line) with line. destruct (deliver_line line) as [r w]. destruct (decide (r = kLineReady)); [| done].
    f_equal. rewrite (IH events' text' pending'); [by rewrite Hrem | | done]. apply split_line_shorter in E. rewrite Hrem. lia.
  - destruct Hr as (pending' & ->). done.
Qed.

Definition one_line (s : string) : Prop := string_forall (fun c => negb (Ascii.eqb c newline)) s = true.

(** Lines, each ended by a newline, and a rest that is not. *)
Definition lines_text (lines : list string) (rest : string) : string :=
  foldr (fun line text => line +:+ String newline text) rest lines.

Lemma split_one_line line text : one_line line ->
  split_line (line +:+ String newline text) = Some (line, text) /\ split_line line = None.
Proof.
  unfold one_line. induction line as [| c line IH]; intros Hl; [done |]. cbn [string_forall] in Hl.
  apply andb_true_iff in Hl as [Hc%negb_true_iff Hl]. destruct (IH Hl) as [E1 E2].
  cbn [String.append split_line]. by rewrite Hc, E1, E2.
Qed.

Lemma complete_lines_text lines rest : Forall one_line lines -> one_line rest -> complete_lines (lines_text lines rest) = lines.
Proof.
  intros Hl Hr. induction Hl as [| line lines Hline _ IH]; unfold complete_lines in *; rewrite lines_from_split; cbn [lines_text foldr].
  - by destruct (split_one_line rest "" Hr) as [_ ->].
  - destruct (split_one_line line (lines_text lines rest) Hline) as [E _]. unfold lines_text in E, IH. rewrite E. by rewrite IH.
Qed.

(** A line of a pipe: its text, and whether a carriage return precedes its newline. *)
Definition raw_line (l : string * bool) : string := if l.2 then l.1 +:+ String carriage_return "" else l.1.

Definition line_ok (l : string * bool) : Prop :=
  one_line l.1 /\ (l.2 = false -> ~ exists t, l.1 = t +:+ String carriage_return "").

Lemma strip_cr_app s : strip_cr (s +:+ String carriage_return "") = s.
Proof.
  induction s as [| c s IH]; [done |]. change (strip_cr (String c (s +:+ String carriage_return "")) = String c s).
  cbn [strip_cr]. destruct s; [done |]. cbn [String.append] in *. by rewrite IH.
Qed.

Lemma strip_cr_other s : (~ exists t, s = t +:+ String carriage_return "") -> strip_cr s = s.
Proof.
  induction s as [| c s IH]; [done |]. intros Hn. cbn [strip_cr]. destruct s as [| c' s'].
  - destruct (Ascii.eqb_spec c carriage_return) as [-> | _]; [| done]. destruct Hn. by exists "".
  - rewrite IH; [done |]. intros [t Et]. apply Hn. exists (String c t). by rewrite Et.
Qed.

Lemma raw_line_ok l : line_ok l -> one_line (raw_line l) /\ strip_cr (raw_line l) = l.1.
Proof.
  unfold line_ok, raw_line. destruct l as [text []]; cbn [fst snd]; intros [Hl Hc].
  - split; [| apply strip_cr_app]. unfold one_line in *. clear Hc. induction text as [| c text IH]; [done |].
    cbn [string_forall String.append] in *. apply andb_true_iff in Hl as [-> Hl]. by rewrite IH.
  - split; [done |]. apply strip_cr_other, Hc. done.
Qed.

(** What the client makes of a text: its UTF-16 form, or an error. *)
Definition delivered (text : string) : InputReadResult * wide :=
  match wide_from_utf8 text with Some line => (kLineReady, line) | None => (kError, []) end.

(** C38: what a pipe delivers until its writer closes it.  Let its text be lines
    that are each ended by a newline, some by a carriage return and a newline,
    and a rest that is not ended: however its bytes are cut into reads and
    whatever time-outs come in between, the client reads exactly those lines,
    without their carriage returns and in UTF-16, up to the first that is not
    valid UTF-8, and then the end of the input; the rest after the last newline
    is lost. *)
Theorem pipe_lines events lines rest fuel :
  Forall line_ok lines -> one_line rest -> carries_text events (lines_text (map raw_line lines) rest) ->
  (String.length (lines_text (map raw_line lines) rest) < fuel)%nat ->
  read_all fuel (events ++ [PipeBroken]) "" = until_not_line (map (fun l => delivered l.1) lines ++ [(kEndOfInput, [])]).
Proof.
  intros Hl Hr Ht Hf. transitivity (until_not_line (map deliver_line (map raw_line lines) ++ [(kEndOfInput, [])])).
  - rewrite <- (complete_lines_text (map raw_line lines) rest) at 1; [by apply (read_all_lines fuel events (lines_text (map raw_line lines) rest) "") | | done].
    clear -Hl. induction Hl as [| l lines Hl _ IH]; constructor; [by apply raw_line_ok | exact IH].
  - do 2 f_equal. clear -Hl. induction Hl as [| l lines Hl _ IH]; [done |]. cbn [map]. rewrite IH. f_equal.
    unfold deliver_line, delivered. by destruct (raw_line_ok l Hl) as [_ ->].
Qed.

End PipeLines.

(** ** Witness *)

(** ASCII text, and nothing else, is converted. *)
Definition ascii_win : WinText := {|
  wc_to_utf8 w := if forallb (fun u => (0 <=? u) && (u <? 128)) w
                  then Some (String.string_of_list_ascii (map (fun u => ascii_of_N (Z.to_N u)) w)) else None;
  mb_to_wide s := if string_forall (fun c => code c <? 128) s then Some (map code (String.list_ascii_of_string s)) else None;
|}.

Definition ex_pipe : list pipe_event :=
  [PipeRead "hel"; PipeTimeout; PipeRead ("lo" +:+ String "013" (String "010" "/us")); PipeRead ("ers" +:+ String "010" "rest")].

Lemma pipe_lines_witness :
  @read_all ascii_win 30 (ex_pipe ++ [PipeBroken]) "" =
  [(kLineReady, [104; 101; 108; 108; 111]); (kLineReady, [47; 117; 115; 101; 114; 115]); (kEndOfInput, [])].
Proof.
  rewrite (@pipe_lines ascii_win ex_pipe [("hello", true); ("/users", false)] "rest").
  - vm_compute. reflexivity.
  - repeat constructor; cbn; try discriminate. intros _ [t Et].
    assert (strip_cr "/users" = "/users") as Es by reflexivity. rewrite Et, strip_cr_app in Es.
    apply (f_equal String.length) in Es. rewrite str_length_app in Es. cbn in Es. lia.
  - reflexivity.
  - split; [reflexivity |]. eexists. split; [reflexivity |]. split; [reflexivity |]. eexists. split; [reflexivity |].
    split; [reflexivity |]. eexists. split; reflexivity.
  - vm_compute. lia.
Defined.
