(* ===== verification/Console.v ===== *)
(** * Console: the console client

    Models the rest of client-cpp/src/main.cpp: what the client does with an
    input line and with a received message, and its two threads.  The
    connection is [Connection]; its answers are the events of a run here, and
    the calls made on it are recorded.  Each thread is a sequence of small
    actions, so that the theorems hold for every interleaving. *)

From Stdlib Require Import Ascii.
From S2P Require Import Prelude Text Command Auth Json Message Connection ConsoleInput.

(** ** Texts *)

Definition nl : string := String "010" "".

Definition format_identity (m : Message) : string :=
  if is_empty (username m) then ""
  else if is_empty (user_code m) then username m
  else username m +:+ "#" +:+ user_code m.

Definition normalize_user_code (user_code : string) : string := ascii_lower user_code.

Fixpoint numbered (index : Z) (names : list string) : string :=
  match names with
  | [] => ""
  | name :: rest => to_string (index + 1) +:+ ". " +:+ name +:+ nl +:+ numbered (index + 1) rest
  end.

Definition print_users_response (m : Message) : string := "Online Users:" +:+ nl +:+ numbered 0 (users m).

Definition print_room_list_response (m : Message) : string :=
  "Rooms:" +:+ nl +:+ numbered 0 (match rooms m with [] => users m | _ => rooms m end).

Definition print_help : string :=
  "Commands:" +:+ nl +:+ "/help  Show this help" +:+ nl +:+ "/users Show online users" +:+ nl +:+
  "/rooms Show available rooms" +:+ nl +:+ "/kick Name#Code  Kick a user (administrator)" +:+ nl +:+
  "/mute Name#Code  Toggle mute (administrator)" +:+ nl +:+ "/join room_name  Join or create a room" +:+ nl +:+
  "/leave Return to lobby" +:+ nl +:+ "/msg Name#Code message  Send a private message" +:+ nl +:+ "/quit  Exit the chat" +:+ nl.

(** [Message] has the member that [has_target_user_code] asks for. *)
Definition get_target_user_code (m : Message) : string := target_user_code m.

Definition set_target_user_code (code : string) (m : Message) : Message := m <| target_user_code := code |>.

Inductive stream := Out | Err.

(** The name of the peer of a private message of one's own. *)
Definition peer_identity (peers : gmap string string) (target_code : string) : string :=
  match peers !! normalize_user_code target_code with
  | Some name => if is_empty name then "#" +:+ target_code else name
  | None => "#" +:+ target_code
  end.

(** What [receive_loop] prints for a message. *)
Definition display (local_user_code : string) (peers : gmap string string) (m : Message) : stream * string :=
  let is_type t := String.eqb (type m) t in
  let identity := format_identity m in
  if is_type "chat" then (Out, (if is_empty identity then "" else identity +:+ ": ") +:+ content m +:+ nl)
  else if is_type "system" then (Out, "[System] " +:+ (if is_empty identity then "" else identity +:+ " ") +:+ content m +:+ nl)
  else if is_type "users_response" then (Out, print_users_response m)
  else if is_type "room_list_response" || is_type "rooms_response" then (Out, print_room_list_response m)
  else if is_type "private_chat" then
    let sender_code := normalize_user_code (user_code m) in
    if negb (is_empty sender_code) && String.eqb sender_code (normalize_user_code local_user_code)
    then (Out, "[Private -> " +:+ peer_identity peers (get_target_user_code m) +:+ "] " +:+ content m +:+ nl)
    else (Out, "[Private from " +:+ (if is_empty identity then username m else identity) +:+ "] " +:+ content m +:+ nl)
  else if is_type "offline_message"
  then (Out, "[Offline private from " +:+ (if is_empty identity then username m else identity) +:+ "] " +:+ content m +:+ nl)
  else if is_type "error" then (Err, "Server error: " +:+ content m +:+ nl)
  else if is_type "login_error" then (Err, "Unexpected login_error after login: " +:+ content m +:+ nl)
  else (Out, "Received " +:+ type m +:+ ": " +:+ content m +:+ nl).

(** ** State *)

(** The calls on the connection that have no answer. *)
Inductive conn_call := RequestDisconnect | RequestStop | CloseCurrent.

#[export] Instance conn_call_eq_dec : EqDecision conn_call.
Proof. solve_decision. Defined.

(** What the input thread does next. *)
Inductive input_action :=
  | APrint (where_ : stream) (text : string)
  | ASend (m : Message) (error_text : string) (disconnect : bool)   (* [disconnect]: as [send_or_report] does *)
  | ARemember (code name : string)
  | AClearReconnect
  | AClearRunning
  | ACall (c : conn_call)
  | ALeaveLoop                                                      (* [break] *)
  | AJoin.                                                          (* [receiver_thread.join()] *)

(** Where the input thread is in its loop. *)
Inductive input_place := LoopHead | Reading | LoopLeft.

Inductive receiver_phase := AtHead | InReceive | Retrying | Waiting | LoggingIn | Ended.

#[export] Instance receiver_phase_eq_dec : EqDecision receiver_phase.
Proof. solve_decision. Defined.

Record console := mk_console {
  running : bool;
  reconnect_enabled : bool;
  private_peer_names : gmap string string;
  printed : list (stream * string);
  c_sent : list Message;              (* messages handed to the connection *)
  calls : list conn_call;
  todo : list input_action;           (* what the input thread does first *)
  place : input_place;                (* then *)
  phase : receiver_phase;
  backoff : nat;
  c_logins : nat;                     (* logins the receiver has started *)
}.

#[export] Instance eta_console : EtaRecord console := fun c =>
  {| running := running c; reconnect_enabled := reconnect_enabled c; private_peer_names := private_peer_names c;
     printed := printed c; c_sent := c_sent c; calls := calls c; todo := todo c; place := place c; phase := phase c;
     backoff := backoff c; c_logins := c_logins c |}.

Definition print (where_ : stream) (text : string) (c : console) : console := c <| printed ::= fun l => l ++ [(where_, text)] |>.

(** ** Input *)

Definition stop_actions : list input_action := [AClearReconnect; AClearRunning; ACall RequestStop].

(** After the loop. *)
Definition shutdown_actions : list input_action :=
  [AClearReconnect; AClearRunning; ACall RequestStop; AJoin; ACall CloseCurrent].

Definition send_or_report (m : Message) (error_text : string) : list input_action := [ASend m error_text true].

Definition plain_request (t : string) : Message := empty_message <| type := t |>.

(** The code of "Name#Code", or [None] where the usage is printed. *)
Definition admin_target (target : string) : option string :=
  match find_first is_hash 0 target with
  | None => None
  | Some separator =>
      if (separator =? 0)%nat || (String.length target <=? separator + 1)%nat ||
         bool_decide (is_Some (find_first is_blank (separator + 1) target))
      then None
      else Some (drop_str (separator + 1) target)
  end.

Definition admin_actions (input_line : string) : list input_action :=
  let action := substr 1 4 input_line in
  match admin_target (drop_str 6 input_line) with
  | None => [APrint Err ("Usage: /" +:+ action +:+ " Name#Code" +:+ nl)]
  | Some code =>
      send_or_report (empty_message <| type := "admin_action" |> <| content := action |> <| target_user_code := code |>)
        "Failed to send administrator command."
  end.

Definition join_actions (input_line : string) : list input_action :=
  match parse_join_command input_line with
  | None => [APrint Err ("Invalid room name. Use ASCII letters, digits, or underscore; length 1-32." +:+ nl)]
  | Some command =>
      send_or_report (empty_message <| type := "room_join" |> <| content := room_name command |> <| room := room_name command |>)
        "Failed to join room."
  end.

Definition private_actions (input_line : string) : list input_action :=
  match parse_private_message input_line with
  | None => [APrint Err ("Invalid private message. Use: /msg Name#Code message" +:+ nl)]
  | Some command =>
      let code := Command.target_user_code command in
      ARemember (normalize_user_code code) (target_name command +:+ "#" +:+ code) ::
      send_or_report
        (set_target_user_code code (empty_message <| type := "private_chat" |> <| content := pm_content command |> <| target_user_code := code |>))
        "Failed to send private message."
  end.

Definition chat_actions (input_line : string) : list input_action :=
  send_or_report (empty_message <| type := "chat" |> <| content := input_line |>) "Failed to send chat message.".

(** What a nonempty line makes the input thread do. *)
Definition line_actions (input_line : string) : list input_action :=
  if String.eqb input_line "/help" then [APrint Out print_help]
  else if has_prefix "/kick " input_line || has_prefix "/mute " input_line then admin_actions input_line
  else if has_prefix "/" input_line then
    if String.eqb input_line "/users" then send_or_report (plain_request "users_request") "Failed to request online users."
    else if String.eqb input_line "/rooms" then send_or_report (plain_request "rooms_request") "Failed to request rooms."
    else if String.eqb input_line "/leave" then send_or_report (plain_request "room_leave") "Failed to leave room."
    else if is_join_command input_line then join_actions input_line
    else if String.eqb input_line "/quit"
    then ASend (plain_request "quit") "Failed to send quit message." false :: stop_actions ++ [ALeaveLoop]
    else if is_private_message_command input_line then private_actions input_line
    else [APrint Err ("Unknown command. Type /help for help." +:+ nl)]
  else chat_actions input_line.

Section Threads.
  Context `{WinText}.

(** The text of a line that was read. *)
Definition input_text (line : wide) : string := match line with [] => "" | _ => utf8_from_wide line end.

(** What a result of [read_next_input_line] makes the input thread do. *)
Definition input_actions (r : InputReadResult) (line : wide) : list input_action :=
  match r with
  | kInterrupted => [ALeaveLoop]
  | kError => APrint Err ("Failed to read input." +:+ nl) :: stop_actions ++ [ALeaveLoop]
  | kEndOfInput => stop_actions ++ [ALeaveLoop]
  | kLineReady => if is_empty (input_text line) then [] else line_actions (input_text line)
  end.

(** One action; [sent] is the answer of [send], if it is one. *)
Definition perform (a : input_action) (sent : bool) (c : console) : console :=
  match a with
  | APrint where_ text => print where_ text c
  | ASend m error_text disconnect =>
      if sent then c <| c_sent ::= fun l => l ++ [m] |>
      else c <| todo ::= fun l => APrint Err (error_text +:+ nl) :: (if disconnect then [ACall RequestDisconnect] else []) ++ l |>
  | ARemember code name => c <| private_peer_names ::= insert code name |>
  | AClearReconnect => c <| reconnect_enabled := false |>
  | AClearRunning => c <| running := false |>
  | ACall call => c <| calls ::= fun l => l ++ [call] |>
  | ALeaveLoop => c <| place := LoopLeft |> <| todo := shutdown_actions |>
  | AJoin => c
  end.

Inductive login_answer := LoginOk | LoginRetry | LoginRejected (content : string).

Inductive console_event :=
  | EInput (r : InputReadResult) (line : wide)     (* the read of the input thread returns *)
  | EAction (sent : bool)                          (* its next action *)
  | EReceiver (received : option Message) (login : login_answer).  (* the next step of the receiver *)

(** The predicate of [wait_before_retry]. *)
Definition wait_over (c : console) : bool :=
  bool_decide (RequestStop ∈ calls c) || negb (running c) || negb (reconnect_enabled c).
(** One step of [receive_loop]; [received] answers [receive], [login] answers
    [connect_and_login]. *)
Definition receiver_step (local_user_code : string) (received : option Message) (login : login_answer) (c : console) : console :=
  match phase c with
  | AtHead => c <| phase := if running c then InReceive else Ended |>
  | InReceive =>
      match received with
      | Some m => let '(where_, text) := display local_user_code (private_peer_names c) m in
                  print where_ text (c <| phase := AtHead |>)
      | None =>
          let c := c <| calls ::= fun l => l ++ [CloseCurrent] |> in
          if negb (running c) || negb (reconnect_enabled c) then c <| phase := Ended |>
          else print Err ("Connection to server lost." +:+ nl) (c <| phase := Retrying |>)
      end
  | Retrying =>
      if running c && reconnect_enabled c
      then print Out ("Reconnecting..." +:+ nl) (c <| phase := Waiting |> <| backoff ::= fun a => (next_delay a).1 |>)
      else c <| phase := AtHead |>
  | Waiting => if wait_over c then c <| phase := Ended |> else c <| phase := LoggingIn |> <| c_logins ::= S |>
  | LoggingIn =>
      match login with
      | LoginOk => print Out ("Reconnected and logged in." +:+ nl) (c <| phase := AtHead |> <| backoff := backoff_reset |>)
      | LoginRejected content =>
          (print Err ("Login rejected after reconnect: " +:+ content +:+ nl) c)
            <| reconnect_enabled := false |> <| running := false |> <| calls ::= fun l => l ++ [RequestStop] |> <| phase := Ended |>
      | LoginRetry => c <| phase := Retrying |>
      end
  | Ended => c
  end.

Definition console_step (local_user_code : string) (e : console_event) (c : console) : console :=
  match e with
  | EInput r line =>
      match todo c, place c with
      | [], Reading => c <| place := LoopHead |> <| todo := input_actions r line |>
      | _, _ => c
      end
  | EAction sent =>
      match todo c with
      | [] => match place c with
              | LoopHead => if running c then c <| place := Reading |> else c <| place := LoopLeft |> <| todo := shutdown_actions |>
              | _ => c
              end
      | AJoin :: rest => if decide (phase c = Ended) then c <| todo := rest |> else c
      | a :: rest => perform a sent (c <| todo := rest |>)
      end
  | EReceiver received login => receiver_step local_user_code received login c
  end.

Definition run_console (local_user_code : string) (es : list console_event) (c : console) : console :=
  foldl (fun c e => console_step local_user_code e c) c es.

End Threads.

(** ** Start *)

(** Both threads start after the login; [input_ready] is false when the console
    cannot be configured. *)
Definition console_start (input_ready : bool) : console :=
  let c := mk_console true true ∅ [(Out, print_help)] [] [] [] LoopHead AtHead 0 0 in
  if input_ready then c
  else c <| place := LoopLeft |>
         <| todo := APrint Err ("Failed to configure console input." +:+ nl) :: stop_actions ++ shutdown_actions |>.

(** ** Stopping *)

Ltac settle := split_and!; first [done | assumption | lia | cbn; lia | reflexivity].

Section Stopping.
  Context `{WinText} (local_user_code : string).

Definition is_action (e : console_event) : bool := match e with EAction _ => true | _ => false end.
Definition is_receiver (e : console_event) : bool := match e with EReceiver _ _ => true | _ => false end.

(** How often an event of a kind occurs. *)
Definition count (p : console_event -> bool) (es : list console_event) : nat := length (List.filter p es).

Lemma perform_stopped a sent c : running c = false ->
  running (perform a sent c) = false /\ phase (perform a sent c) = phase c /\ c_logins (perform a sent c) = c_logins c.
Proof. intros Hr. destruct a; try done. cbn. by destruct sent. Qed.

(** The steps of the receiver until it ends. *)
Definition distance (p : receiver_phase) : nat :=
  match p with LoggingIn => 3 | Retrying | InReceive => 2 | AtHead | Waiting => 1 | Ended => 0 end.

Lemma distance_zero p n : (distance p <= distance Ended - n)%nat -> p = Ended.
Proof. destruct p; cbn; (done || lia). Qed.

Lemma receiver_step_stopped received login c : running c = false ->
  let c' := receiver_step local_user_code received login c in
  running c' = false /\ c_logins c' = c_logins c /\ (distance (phase c') <= distance (phase c) - 1)%nat.
Proof.
  intros Hr. cbv zeta. unfold receiver_step, wait_over. rewrite Hr. cbn [negb].
  destruct (phase c) eqn:Eph; cbn [andb orb].
  - settle.
  - destruct received as [m |].
    + destruct (display _ _ m). settle.
    + cbn. rewrite Hr. settle.
  - settle.
  - rewrite Bool.orb_true_r. settle.
  - destruct login; settle.
  - rewrite Eph. settle.
Qed.

Lemma step_stopped e c : running c = false ->
  let c' := console_step local_user_code e c in
  running c' = false /\ c_logins c' = c_logins c /\
  (distance (phase c') <= distance (phase c) - (if is_receiver e then 1 else 0))%nat.
Proof.
  intros Hr. destruct e as [r line | sent | received login]; cbn [console_step is_receiver].
  - destruct (todo c), (place c); (split_and!; [done | done |]); change (distance (phase c) <= distance (phase c) - 0)%nat; lia.
  - destruct (todo c) as [| a rest].
    + destruct (place c); rewrite ?Hr; (split_and!; [done | done |]); change (distance (phase c) <= distance (phase c) - 0)%nat; lia.
    + destruct a; try (match goal with |- context [perform ?x ?b ?y] =>
        destruct (perform_stopped x b y Hr) as (E1 & E2 & E3); change (phase y) with (phase c) in E2;
        change (c_logins y) with (c_logins c) in E3; rewrite E1, E2, E3 end; settle).
      case_decide; (split_and!; [done | done |]); change (distance (phase c) <= distance (phase c) - 0)%nat; lia.
  - by apply receiver_step_stopped.
Qed.

Lemma run_stopped es : forall c, running c = false ->
  let c' := run_console local_user_code es c in
  running c' = false /\ c_logins c' = c_logins c /\ (distance (phase c') <= distance (phase c) - count is_receiver es)%nat.
Proof.
  induction es as [| e es IH]; intros c Hr; [cbn; split_and!; try done; lia |].
  destruct (step_stopped e c Hr) as (Hr1 & Hl1 & Hd1).
  change (run_console local_user_code (e :: es) c) with (run_console local_user_code es (console_step local_user_code e c)).
  destruct (IH _ Hr1) as (Hr2 & Hl2 & Hd2). split_and!; [done | congruence |].
  unfold count. cbn [List.filter]. destruct (is_receiver e); cbn [length]; unfold count in Hd2; lia.
Qed.

(** What is left to do after "/quit". *)
Definition quit_todo (n : nat) : list input_action :=
  nth n [[]; [ACall CloseCurrent]; [AJoin; ACall CloseCurrent];
         [ACall RequestStop; AJoin; ACall CloseCurrent]; [AClearRunning; ACall RequestStop; AJoin; ACall CloseCurrent];
         shutdown_actions; [ALeaveLoop]; [ACall RequestStop; ALeaveLoop];
         [AClearRunning; ACall RequestStop; ALeaveLoop]; stop_actions ++ [ALeaveLoop];
         APrint Err ("Failed to send quit message." +:+ nl) :: stop_actions ++ [ALeaveLoop];
         ASend (plain_request "quit") "Failed to send quit message." false :: stop_actions ++ [ALeaveLoop]] [].

Record quitting (n : nat) (c : console) : Prop := {
  qt_stage : (n <= 11)%nat;
  qt_todo : todo c = quit_todo n;
  qt_place : place c = if (n <=? 5)%nat then LoopLeft else LoopHead;
  qt_running : (n <= 7)%nat -> running c = false;
}.

Lemma quitting_input n r line c : quitting n c -> console_step local_user_code (EInput r line) c = c.
Proof.
  intros [Hn Ht Hp _]. cbn [console_step]. rewrite Ht, Hp. destruct n as [| [| [| [| [| [| [| [| [| [| [| [| n]]]]]]]]]]]]; try done. lia.
Qed.

Ltac stage_settle :=
  split; first [lia | done | assumption | intros _; match goal with Hr : (_ -> running _ = false) |- _ => apply Hr; lia end | intros _; done].

(** An action brings it nearer to the end, unless it waits for the receiver. *)
Lemma quitting_action n sent c : quitting n c ->
  exists m, quitting m (console_step local_user_code (EAction sent) c) /\
    ((m <= n - 1)%nat \/ (m = 2%nat /\ n = 2%nat /\ phase c <> Ended)).
Proof.
  intros [Hn Ht Hp Hr]. cbn [console_step].
  destruct n as [| [| [| [| [| [| [| [| [| [| [| [| n]]]]]]]]]]]]; [.. | lia];
    rewrite Ht; cbn [quit_todo nth shutdown_actions stop_actions app]; clear Hn.
  - exists 0%nat. rewrite Hp. split; [stage_settle | lia].
  - exists 0%nat. split; [stage_settle | lia].
  - case_decide as He; [exists 1%nat | exists 2%nat]; (split; [stage_settle | (lia || by right)]).
  - exists 2%nat. split; [stage_settle | lia].
  - exists 3%nat. split; [stage_settle | lia].
  - exists 4%nat. split; [stage_settle | lia].
  - exists 5%nat. split; [stage_settle | lia].
  - exists 6%nat. split; [stage_settle | lia].
  - exists 7%nat. split; [stage_settle | lia].
  - exists 8%nat. split; [stage_settle | lia].
  - exists 9%nat. split; [stage_settle | lia].
  - destruct sent; [exists 9%nat | exists 10%nat]; (split; [stage_settle | lia]).
Qed.

Lemma quitting_receiver n received login c : quitting n c ->
  quitting n (console_step local_user_code (EReceiver received login) c).
Proof.
  intros [Hn Ht Hp Hr]. cbn [console_step].
  assert (todo (receiver_step local_user_code received login c) = todo c /\ place (receiver_step local_user_code received login c) = place c) as [Et Ep].
  { unfold receiver_step. destruct (phase c); [done | | | | | done].
    - destruct received as [m |]; [by destruct (display _ _ m) |]. cbv zeta. by destruct (_ || _)%bool.
    - by destruct (_ && _)%bool.
    - by destruct (wait_over c).
    - by destruct login. }
  split; [done | by rewrite Et | by rewrite Ep |]. intros Hle. by apply receiver_step_stopped, Hr.
Qed.

Lemma quitting_run es : forall n c, quitting n c ->
  exists m, quitting m (run_console local_user_code es c) /\ (m <= n)%nat /\
    ((m <= Nat.max 2 (n - count is_action es))%nat) /\
    (phase c = Ended -> running c = false -> (m <= n - count is_action es)%nat).
Proof.
  induction es as [| e es IH]; intros n c Hq.
  { exists n. cbn. split_and!; (done || lia). }
  change (run_console local_user_code (e :: es) c) with (run_console local_user_code es (console_step local_user_code e c)).
  unfold count in *. destruct e as [r line | sent | received login]; cbn [List.filter is_action].
  - rewrite (quitting_input n r line c Hq). by apply IH.
  - destruct (quitting_action n sent c Hq) as (k & Hk & Hle). destruct (IH k _ Hk) as (m & Hm & Hmk & Hcnt & Hend).
    exists m. cbn [length]. split_and!; [done | lia | lia |]. intros He Hr.
    destruct (step_stopped (EAction sent) c Hr) as (Hr1 & _ & Hd1). rewrite He in Hd1. apply distance_zero in Hd1.
    specialize (Hend Hd1 Hr1). destruct Hle as [Hle | (_ & _ & Hne)]; [lia | done].
  - destruct (IH n _ (quitting_receiver n received login c Hq)) as (m & Hm & Hmn & Hcnt & Hend). exists m.
    split_and!; try done. intros He Hr. apply Hend; [| by apply receiver_step_stopped]. cbn [console_step].
    unfold receiver_step. by rewrite He.
Qed.

(** "/quit" ends the client.  In every interleaving of the two threads,
    whatever the server, the user and the connection do: nine actions of the
    input thread after the line was read the client is stopping, three steps of
    the receiver later the receiver has ended, and two actions later the client
    has closed the connection and nothing is left to do; no login is started on
    the way once the client is stopping. *)
Lemma quit_terminates line es1 es2 es3 c :
  input_text line = "/quit" -> todo c = [] -> place c = Reading ->
  (9 <= count is_action es1)%nat -> (3 <= count is_receiver es2)%nat -> (2 <= count is_action es3)%nat ->
  let c1 := run_console local_user_code (EInput kLineReady line :: es1) c in
  let c3 := run_console local_user_code (es2 ++ es3) c1 in
  running c1 = false /\ todo c3 = [] /\ place c3 = LoopLeft /\ phase c3 = Ended /\ c_logins c3 = c_logins c1.
Proof.
  intros Hl Ht Hp H1 H2 H3. cbv zeta.
  change (run_console local_user_code (EInput kLineReady line :: es1) c) with
    (run_console local_user_code es1 (console_step local_user_code (EInput kLineReady line) c)).
  assert (quitting 11 (console_step local_user_code (EInput kLineReady line) c)) as Hq.
  { cbn [console_step]. rewrite Ht, Hp. unfold input_actions. rewrite Hl. split; [lia | done | done | lia]. }
  destruct (quitting_run es1 11 _ Hq) as (m & Hm & _ & Hcnt & _). set (c1 := run_console _ es1 _) in *.
  assert (m <= 2)%nat as Hm2 by lia. assert (running c1 = false) as Hr by (apply (qt_running _ _ Hm); lia).
  unfold run_console. rewrite foldl_app. fold (run_console local_user_code es2 c1).
  destruct (run_stopped es2 c1 Hr) as (Hr2 & Hl2 & Hd2). set (c2 := run_console local_user_code es2 c1) in *.
  assert (phase c2 = Ended) as He.
  { assert (distance (phase c1) <= 3)%nat by (destruct (phase c1); cbn; lia).
    destruct (phase c2); cbn in Hd2; (done || lia). }
  destruct (quitting_run es2 m c1 Hm) as (m2 & Hm2' & Hle & _ & _). fold c2 in Hm2'.
  destruct (quitting_run es3 m2 c2 Hm2') as (m3 & Hm3 & _ & _ & Hend). specialize (Hend He Hr2).
  fold (run_console local_user_code es3 c2). destruct (run_stopped es3 c2 Hr2) as (_ & Hl3 & Hd3).
  assert (m3 = 0)%nat as -> by lia. destruct Hm3 as [_ Ht3 Hp3 _]. split_and!; [done | exact Ht3 | exact Hp3 | | congruence].
  rewrite He in Hd3. by apply distance_zero in Hd3.
Qed.

End Stopping.

(** ** What is sent *)

Section Sent.
  Context `{WinText} (local_user_code : string).

(** A message that the client may send. *)
Record well_formed (m : Message) : Prop := {
  wf_type : type m ∈ ["chat"; "private_chat"; "room_join"; "room_leave"; "admin_action"; "users_request"; "rooms_request"; "quit"];
  wf_chat : type m = "chat" -> content m <> "" /\ has_prefix "/" (content m) = false;
  wf_private : type m = "private_chat" -> is_valid_code (target_user_code m) = true /\ content m <> "";
  wf_join : type m = "room_join" -> is_valid_room_name (room m) = true /\ content m = room m;
  wf_admin : type m = "admin_action" -> (content m = "kick" \/ content m = "mute") /\ target_user_code m <> "" /\
               string_forall (fun ch => negb (is_blank ch)) (target_user_code m) = true;
}.

Definition action_ok (a : input_action) : Prop := match a with ASend m _ _ => well_formed m | _ => True end.

Lemma plain_request_ok t : t ∈ ["users_request"; "rooms_request"; "room_leave"; "quit"] -> well_formed (plain_request t).
Proof.
  intros Ht. set_unfold in Ht. destruct Ht as [-> | [-> | [-> | [-> | []]]]]; (split; [| done..]); set_unfold; tauto.
Qed.

Lemma admin_target_ok target code : admin_target target = Some code ->
  code <> "" /\ string_forall (fun ch => negb (is_blank ch)) code = true.
Proof.
  unfold admin_target. destruct (find_first is_hash 0 target) as [sep |]; [| done].
  destruct ((sep =? 0)%nat || (String.length target <=? sep + 1)%nat) eqn:E; [done |]. cbn [orb].
  case_bool_decide as Hb; [done |]. intros [= <-]. apply orb_false_iff in E as [_ E%Nat.leb_gt]. split.
  - intros Hd. apply (f_equal String.length) in Hd. rewrite length_drop_str in Hd. cbn in Hd. lia.
  - unfold find_first in Hb. rewrite find_from_base in Hb.
    pose proof (find_from_spec is_blank (drop_str (sep + 1) target)) as Hs.
    destruct (find_from is_blank 0 _); [by destruct Hb; eexists | done].
Qed.

Lemma admin_actions_ok line : has_prefix "/kick " line = true \/ has_prefix "/mute " line = true -> Forall action_ok (admin_actions line).
Proof.
  intros Hp. unfold admin_actions. destruct (admin_target (drop_str 6 line)) as [code |] eqn:E; [| by repeat constructor].
  apply admin_target_ok in E as [Hne Hb]. constructor; [| constructor]. split; try done; [set_unfold; tauto |]. intros _.
  split; [| done]. destruct Hp as [Hp | Hp]; apply has_prefix_true in Hp; rewrite Hp; [by left | by right].
Qed.

Lemma join_actions_ok line : Forall action_ok (join_actions line).
Proof.
  unfold join_actions. destruct (parse_join_command line) as [command |] eqn:E; [| by repeat constructor].
  constructor; [| constructor]. split; try done; [set_unfold; tauto |]. intros _. split; [| done]. cbn.
  unfold parse_join_command in E. destruct (negb (is_join_command line)); [done |]. cbv zeta in E.
  destruct (_ <=? _); [done |].
  match type of E with (if ?b || negb ?v then _ else _) = _ => destruct b; [done |]; destruct v eqn:Hv; [| done] end.
  by injection E as <-.
Qed.

Lemma find_first_lt p k s i : (k <= String.length s)%nat -> find_first p k s = Some i -> (i < String.length s)%nat.
Proof.
  intros Hk. unfold find_first. rewrite find_from_base. destruct (find_from p 0 (drop_str k s)) as [j |] eqn:E; [| done].
  intros [= <-]. assert (j < String.length (drop_str k s))%nat as Hj; [| rewrite length_drop_str in Hj; lia].
  clear Hk. revert j E. induction (drop_str k s) as [| c t IH]; intros j; cbn [find_from String.length]; [done |].
  destruct (p c); [intros [= <-]; lia |]. rewrite find_from_base. destruct (find_from p 0 t) as [j' |]; [| done].
  intros [= <-]. specialize (IH j' eq_refl). lia.
Qed.

Lemma skip_spaces_le s k : (k <= String.length s)%nat -> (skip_spaces s k <= String.length s)%nat.
Proof.
  intros Hk. unfold skip_spaces. destruct (spaces_split (drop_str k s)) as (w & t & E & Hl & _).
  apply (f_equal String.length) in E. rewrite length_drop_str, str_length_app in E. lia.
Qed.

Lemma private_actions_ok line : Forall action_ok (private_actions line).
Proof.
  unfold private_actions. destruct (parse_private_message line) as [command |] eqn:E; [| by repeat constructor].
  constructor; [done |]. constructor; [| constructor]. split; try done; [set_unfold; tauto |]. intros _. cbn.
  unfold parse_private_message in E. destruct (negb (is_private_message_command line)); [done |]. cbv zeta in E.
  destruct (_ <=? _) eqn:Hlen; [done |]. destruct (is_empty _); [done |]. destruct (find_first is_hash 0 _) as [sep |]; [| done].
  destruct (_ || _)%bool; [done |].
  match type of E with (if negb ?v then _ else _) = _ => destruct v eqn:Hv; [| done] end. cbn [negb] in E.
  destruct (find_first is_blank _ line) as [stop |] eqn:Hstop; [| done].
  apply Z.leb_gt in Hlen. unfold size in Hlen. apply find_first_lt in Hstop; [| lia].
  match type of E with (if (?k =? ?n)%nat then _ else _) = _ => destruct (Nat.eqb_spec k n) as [| Hne]; [done |] end.
  injection E as <-. cbn. split; [exact Hv |]. intros Hd. apply Hne.
  apply (f_equal String.length) in Hd. rewrite length_drop_str in Hd. cbn in Hd.
  pose proof (skip_spaces_le line stop ltac:(lia)). lia.
Qed.

Lemma line_actions_ok line : line <> "" -> Forall action_ok (line_actions line).
Proof.
  intros Hne. unfold line_actions.
  destruct (String.eqb line "/help"); [by repeat constructor |].
  destruct (_ || _)%bool eqn:Ep; [apply admin_actions_ok; by apply orb_true_iff |].
  destruct (has_prefix "/" line) eqn:Es.
  - destruct (String.eqb line "/users"); [constructor; [apply plain_request_ok; set_unfold; tauto | constructor] |].
    destruct (String.eqb line "/rooms"); [constructor; [apply plain_request_ok; set_unfold; tauto | constructor] |].
    destruct (String.eqb line "/leave"); [constructor; [apply plain_request_ok; set_unfold; tauto | constructor] |].
    destruct (is_join_command line); [apply join_actions_ok |].
    destruct (String.eqb line "/quit"); [constructor; [apply plain_request_ok; set_unfold; tauto | by repeat constructor] |].
    destruct (is_private_message_command line); [apply private_actions_ok | by repeat constructor].
  - constructor; [| constructor]. split; try done. set_unfold. tauto.
Qed.

Record sends_ok (c : console) : Prop := {
  so_sent : Forall well_formed (c_sent c);
  so_todo : Forall action_ok (todo c);
}.

Lemma receiver_sends received login c : c_sent (receiver_step local_user_code received login c) = c_sent c /\
  todo (receiver_step local_user_code received login c) = todo c.
Proof.
  unfold receiver_step. destruct (phase c); [done | | | | | done].
  - destruct received as [m |]; [by destruct (display _ _ m) |]. cbv zeta. by destruct (_ || _)%bool.
  - by destruct (_ && _)%bool.
  - by destruct (wait_over c).
  - by destruct login.
Qed.

Lemma step_sends_ok e c : sends_ok c -> sends_ok (console_step local_user_code e c).
Proof.
  intros [Hs Ht]. destruct e as [r line | sent | received login]; cbn [console_step].
  - destruct (todo c) eqn:Et, (place c); try (split; rewrite ?Et; done). split; [done |]. cbn. unfold input_actions.
    destruct r; [| by repeat constructor..]. destruct (is_empty (input_text line)) eqn:Ee; [constructor |].
    apply line_actions_ok. by apply is_empty_false.
  - destruct (todo c) as [| a rest] eqn:Et.
    { assert (sends_ok c) by (split; [done | by rewrite Et]).
      destruct (place c); [destruct (running c) | done | done]; split; try done; cbn; [by rewrite Et | repeat (constructor; [done |]); constructor]. }
    apply Forall_cons in Ht as [Ha Hrest]. destruct a; cbn [perform]; try (split; [exact Hs | exact Hrest]).
    + destruct sent; [split; [apply Forall_app; split; [done | by constructor] | done] |].
      split; [done |]. cbn. constructor; [done |]. destruct disconnect; [by constructor | done].
    + split; [done |]. cbn. repeat (constructor; [done |]). constructor.
    + case_decide; split; try done. rewrite Et. by constructor.
  - destruct (receiver_sends received login c) as [E1 E2]. by split; rewrite ?E1, ?E2.
Qed.

(** C37: everything the client ever sends is one of its commands, well formed:
    no line that begins with a slash leaves as a chat message, a private
    message has a valid code and a text, a room name is valid, and an
    administrator command is a kick or a mute of a code without blanks. *)
Theorem sends_well_formed input_ready es :
  Forall well_formed (c_sent (run_console local_user_code es (console_start input_ready))).
Proof.
  apply so_sent. assert (sends_ok (console_start input_ready)) as H0.
  { destruct input_ready; split; by repeat constructor. }
  revert H0. generalize (console_start input_ready). induction es as [| e es IH]; intros c Hc; [done |].
  apply IH. by apply step_sends_ok.
Qed.

End Sent.

(** ** Witness *)

Definition ex_quit_line : wide := [47; 113; 117; 105; 116].

Lemma quit_terminates_witness :
  phase (@run_console ascii_win "a1"
    (repeat (EReceiver None LoginRetry) 3 ++ repeat (EAction true) 2)
    (@run_console ascii_win "a1" (EInput kLineReady ex_quit_line :: repeat (EAction false) 9)
       (@run_console ascii_win "a1" [EAction true; EReceiver None LoginOk; EReceiver None LoginOk] (console_start true)))) = Ended.
Proof.
  destruct (@quit_terminates ascii_win "a1" ex_quit_line (repeat (EAction false) 9) (repeat (EReceiver None LoginRetry) 3)
              (repeat (EAction true) 2) (@run_console ascii_win "a1" [EAction true; EReceiver None LoginOk; EReceiver None LoginOk] (console_start true)))
    as (_ & _ & _ & X & _).
  - vm_compute. reflexivity.
  - reflexivity.
  - reflexivity.
  - vm_compute. lia.
  - vm_compute. lia.
  - vm_compute. lia.
  - exact X.
Defined.
