(* ===== verification/ConsoleProgram.v ===== *)
(** * ConsoleProgram: the console client as a process

    Puts [Console] and [ConsoleInput] together as wmain of
    client-cpp/src/main.cpp does, with what the client takes from Windows and
    has to give back: the mode of the terminal, the process of the local server
    with its handle, and Winsock.  Where a line comes from is one of three: the
    keys of a console, a pipe, or std::getline on anything else.  The text that
    std::wcin delivers, the answers of Windows and of the first login are
    arguments. *)

From Stdlib Require Import Ascii.
From S2P Require Import Prelude Text Command Auth Json Message Connection ConsoleInput Console.

(** ** Handles *)

Inductive handle := InvalidHandle | NullHandle | ConsoleHandle (mode : Z) | PipeHandle | FileHandle.

Definition GetConsoleMode (h : handle) : option Z := match h with ConsoleHandle mode => Some mode | _ => None end.

Definition is_console_input (input_handle : handle) : bool :=
  match input_handle with
  | InvalidHandle | NullHandle => false
  | _ => bool_decide (is_Some (GetConsoleMode input_handle))
  end.

(** What the client holds of the system. *)
Record Os := mk_os {
  stdin : handle;
  stdout : handle;
  code_pages : Z * Z;                 (* output and input *)
  servers : nat;                      (* server processes of this client *)
  handles : nat;                      (* open process and thread handles *)
  winsock : nat;                      (* WSAStartup without WSACleanup *)
  command_lines : list wide;          (* of the processes that were created *)
  screen : wide;                      (* the echo of the keys *)
  written : list (stream * string);   (* before the threads start *)
}.

#[export] Instance eta_Os : EtaRecord Os := fun o =>
  {| stdin := stdin o; stdout := stdout o; code_pages := code_pages o; servers := servers o; handles := handles o; winsock := winsock o;
     command_lines := command_lines o; screen := screen o; written := written o |}.

Definition write_text (where_ : stream) (text : string) (o : Os) : Os := o <| written ::= fun l => l ++ [(where_, text)] |>.

Definition write_console_locked (text : wide) (o : Os) : Os :=
  match stdout o, text with
  | InvalidHandle, _ | NullHandle, _ | _, [] => o
  | h, _ => match GetConsoleMode h with Some _ => o <| screen ::= fun s => s ++ text |> | None => o end
  end.

(** ** The mode of the terminal *)

Definition ENABLE_LINE_INPUT : Z := 2.
Definition ENABLE_ECHO_INPUT : Z := 4.

Record ModeGuard := mk_guard { original_mode_ : Z; active_ : bool }.

Definition event_mode (original_mode : Z) : Z := Z.land original_mode (Z.lxor 0xFFFFFFFF (Z.lor ENABLE_LINE_INPUT ENABLE_ECHO_INPUT)).

(** [accepted] is the answer of SetConsoleMode. *)
Definition activate (accepted : bool) (g : ModeGuard) (o : Os) : ModeGuard * Os * bool :=
  if active_ g then (g, o, true)
  else match GetConsoleMode (stdin o) with
       | None => (g, o, false)
       | Some original_mode =>
           if negb accepted then (g, o, false)
           else (mk_guard original_mode true, o <| stdin := ConsoleHandle (event_mode original_mode) |>, true)
       end.

Definition restore (accepted : bool) (g : ModeGuard) (o : Os) : ModeGuard * Os :=
  if negb (active_ g) then (g, o)
  else (mk_guard (original_mode_ g) false, if accepted then o <| stdin := ConsoleHandle (original_mode_ g) |> else o).

(** ** The local server *)

(** MultiByteToWideChar without flags: what is no UTF-8 is replaced. *)
Class WinLossy := { mb_lossy : string -> wide }.

Definition literal (s : string) : wide := map code (String.list_ascii_of_string s).

Definition quote (value : wide) : wide := [34] ++ value ++ [34].

Section Server.
  Context `{WinLossy}.

Definition to_wide (value : string) : wide := if is_empty value then [] else mb_lossy value.

Definition host_command (o : ClientOptions) : wide :=
  quote (to_wide (server_exe o)) ++ literal " -cert " ++ quote (to_wide (cert_file o)) ++ literal " -key " ++ quote (to_wide (key_file o)) ++
  literal " -admin-code " ++ quote (to_wide (opt_user_code o)).

(** [process_handle_]: whether it is set; [created] answers CreateProcessW. *)
Definition host_start (created : bool) (options : ClientOptions) (process_handle_ : bool) (o : Os) : bool * Os * outcome unit :=
  if negb created then (process_handle_, o, Fail "Failed to start Go server process. Check --server-exe, --cert and --key.")
  else
    let o := o <| servers ::= S |> <| handles ::= Nat.add 2 |> <| command_lines ::= fun l => l ++ [host_command options] |> in
    let o := o <| handles ::= pred |> in        (* the thread's *)
    (true, o, Ok tt).

(** [terminated] answers TerminateProcess, which the code does not look at: the
    handle is closed in any case, the process ends when it succeeded. *)
Definition host_stop (terminated process_handle_ : bool) (o : Os) : bool * Os :=
  if negb process_handle_ then (process_handle_, o)
  else (false, (if terminated then o <| servers ::= pred |> else o) <| handles ::= pred |>).

End Server.

(** ** Lines *)

(** std::getline(std::wcin, line), on the text that is left. *)
Fixpoint wide_line (text : wide) : wide * wide :=
  match text with
  | [] => ([], [])
  | u :: rest => if u =? 10 then ([], rest) else let '(line, rest) := wide_line rest in (u :: line, rest)
  end.

Definition getline (text : wide) : option (wide * wide) := match text with [] => None | _ => Some (wide_line text) end.

(** What the input delivers, and the two buffers of wmain. *)
Record Reader := mk_reader {
  polls : list poll;
  console_input : wide;
  pipe : list pipe_event;
  redirected_input : string;
  wcin : wide;
}.

#[export] Instance eta_Reader : EtaRecord Reader := fun r =>
  {| polls := polls r; console_input := console_input r; pipe := pipe r; redirected_input := redirected_input r; wcin := wcin r |}.

(** The result, the line, the echo and the input that is left; [None] while it waits. *)
Definition read_next_input_line `{WinText} (input_handle : handle) (use_console_input : bool) (r : Reader)
    : option (InputReadResult * wide * wide * Reader) :=
  if use_console_input then
    match read_console_line (polls r) (console_input r) [] with
    | Some (result, line, current, echo, rest) => Some (result, line, echo, r <| polls := rest |> <| console_input := current |>)
    | None => None
    end
  else match input_handle with
       | PipeHandle =>
           match read_redirected_pipe_line (pipe r) (redirected_input r) with
           | Some (result, line, pending, rest) => Some (result, line, [], r <| pipe := rest |> <| redirected_input := pending |>)
           | None => None
           end
       | _ =>
           match getline (wcin r) with
           | Some (line, rest) => Some (kLineReady, line, [], r <| wcin := rest |>)
           | None => Some (kEndOfInput, [], [], r)
           end
       end.

(** ** wmain *)

Definition usage : string :=
  "Usage: chat-client.exe [server-ip] [port] [username] [user-code] [--ca-file path]" +:+ nl +:+
  "       chat-client.exe --guest [server-ip] [port] [username] [--ca-file path]" +:+ nl +:+
  "       chat-client.exe --host [username] [--server-exe path] [--cert path] [--key path]".

(** What the start of the client meets. *)
Record boot_env := mk_boot {
  be_process : bool;                  (* CreateProcessW *)
  be_wsa : Z;                         (* WSAStartup *)
  be_login : outcome Message;         (* the first login: the response, or the last error *)
  be_rejected : option string;        (* and the reason, if it was rejected *)
  be_setMode : bool;                  (* SetConsoleMode, when it is changed *)
  be_resetMode : bool;                (* and when it is restored *)
  be_terminated : bool;               (* TerminateProcess *)
}.

(** The client once it is logged in. *)
Record Live := mk_live {
  config : Config;
  user : string;                      (* its user code *)
  server_process : bool;              (* process_handle_ *)
  use_console : bool;
  guard : ModeGuard;
  reader : Reader;
  threads : console;
  os : Os;
}.

#[export] Instance eta_Live : EtaRecord Live := fun l =>
  {| config := config l; user := user l; server_process := server_process l; use_console := use_console l; guard := guard l; reader := reader l;
     threads := threads l; os := os l |}.

Inductive client := Gone (exit_code : Z) (o : Os) | Running (l : Live).

(** A return: the guard and the server process are destroyed. *)
Definition leave (env : boot_env) (exit_code : Z) (g : ModeGuard) (process_handle_ : bool) (o : Os) : client :=
  Gone exit_code (host_stop (be_terminated env) process_handle_ (restore (be_resetMode env) g o).2).2.

Definition no_guard : ModeGuard := mk_guard 0 false.

Definition console_options (o : ClientOptions) : ClientOptions :=
  if host_mode o && is_empty (ca_file o) then o <| ca_file := cert_file o |> else o.

Definition host_notice : string := "本机聊天已启动，其他用户请连接本机局域网 IP。" +:+ nl.

Section Program.
  Context `{WinText} `{WinLossy}.

(** From the login on. *)
Definition start_session (env : boot_env) (options : ClientOptions) (process_handle_ : bool) (input : Reader) (o : Os) : client :=
  let config := mk_config (server_ip options) (server_port options) (opt_username options) (opt_user_code options) (ca_file options) "" in
  match be_login env with
  | Fail last_error =>
      let o := write_text Err (match be_rejected env with
                               | Some content => "Login failed: " +:+ content +:+ nl
                               | None => "Failed to connect or receive login response: " +:+ last_error +:+ nl
                               end) o in
      leave env 1 no_guard process_handle_ (o <| winsock ::= pred |>)
  | Ok response =>
      let o := write_text Out ("Logged in as " +:+ format_identity response +:+ (if is_admin response then " (administrator)" else "") +:+ nl) o in
      let use_console_input := is_console_input (stdin o) in
      let '(g, o, ready) := if use_console_input then activate (be_setMode env) no_guard o else (no_guard, o, true) in
      Running (mk_live config (opt_user_code options) process_handle_ use_console_input g input (console_start ready) o)
  end.

Definition wmain (draw : nat -> nat) (argv : list wide) (env : boot_env) (input : Reader) (o : Os) : client :=
  let o := o <| code_pages := (65001, 65001) |> in
  match parse_arguments draw (map utf8_from_wide (tail argv)) with
  | Fail argument_error => leave env 1 no_guard false (write_text Err (argument_error +:+ nl +:+ usage +:+ nl) o)
  | Ok options =>
      let '(process_handle_, o, hosted) := if host_mode options then host_start (be_process env) options false o else (false, o, Ok tt) in
      match hosted with
      | Fail host_error => leave env 1 no_guard process_handle_ (write_text Err (host_error +:+ nl) o)
      | Ok _ =>
          let o := if host_mode options then write_text Out host_notice o else o in
          let options := console_options options in
          if negb (be_wsa env =? 0)
          then leave env 1 no_guard process_handle_ (write_text Err ("WSAStartup failed. Error: " +:+ to_string (be_wsa env) +:+ nl) o)
          else start_session env options process_handle_ input (o <| winsock ::= S |>)
      end
  end.

Inductive client_event :=
  | CRead                                                         (* the input thread reads *)
  | CAction (sent : bool)                                         (* and acts, or returns at the end *)
  | CReceiver (received : option Message) (login : login_answer).

(** Behind the loop the mode of the terminal is restored. *)
Definition after_loop (env : boot_env) (l : Live) : Live :=
  match place (threads l) with
  | LoopLeft => let '(g, o) := restore (be_resetMode env) (guard l) (os l) in l <| guard := g |> <| os := o |>
  | _ => l
  end.

Definition client_step (env : boot_env) (e : client_event) (cl : client) : client :=
  match cl with
  | Gone _ _ => cl
  | Running l =>
      match e with
      | CRead =>
          match todo (threads l), place (threads l) with
          | [], Reading =>
              match read_next_input_line (stdin (os l)) (use_console l) (reader l) with
              | Some (result, line, echo, rest) =>
                  Running (after_loop env (l <| reader := rest |> <| os ::= write_console_locked echo |>
                                             <| threads ::= console_step (user l) (EInput result line) |>))
              | None => cl
              end
          | _, _ => cl
          end
      | CAction sent =>
          match todo (threads l), place (threads l) with
          | [], LoopLeft => leave env 0 (guard l) (server_process l) ((os l) <| winsock ::= pred |>)
          | _, _ => Running (after_loop env (l <| threads ::= console_step (user l) (EAction sent) |>))
          end
      | CReceiver received login => Running (l <| threads ::= console_step (user l) (EReceiver received login) |>)
      end
  end.

Definition run_client (env : boot_env) (es : list client_event) (cl : client) : client := foldl (fun cl e => client_step env e cl) cl es.

End Program.

(** ** What is given back *)

(** What the client shares with the rest of the system. *)
Definition borrowed (o : Os) : handle * nat * nat * nat := (stdin o, servers o, handles o, winsock o).

Section Clean.
  Context `{WinText} `{WinLossy}.

(** The client that runs with these answers of the system and is the host or
    not: it holds one Winsock, a server with its handle if it is the host, and a
    console whose mode the guard knows. *)
Record holds (env : boot_env) (host : bool) (o0 : Os) (l : Live) : Prop := {
  ho_stdin : be_resetMode env = true -> stdin o0 = if active_ (guard l) then ConsoleHandle (original_mode_ (guard l)) else stdin (os l);
  ho_host : server_process l = host;
  ho_servers : servers (os l) = ((if host then 1 else 0) + servers o0)%nat;
  ho_handles : handles (os l) = ((if host then 1 else 0) + handles o0)%nat;
  ho_winsock : winsock (os l) = S (winsock o0);
}.

Definition given_back (env : boot_env) (o0 o : Os) : Prop :=
  handles o = handles o0 /\ winsock o = winsock o0 /\
  (be_resetMode env = true -> stdin o = stdin o0) /\ (be_terminated env = true -> servers o = servers o0).

Definition clean (env : boot_env) (host : bool) (o0 : Os) (cl : client) : Prop :=
  match cl with Gone _ o => given_back env o0 o | Running l => holds env host o0 l end.

Lemma restored_stdin g o : stdin (restore true g o).2 = if active_ g then ConsoleHandle (original_mode_ g) else stdin o.
Proof. unfold restore. by destruct (active_ g). Qed.

Lemma restored_rest ok g o : servers (restore ok g o).2 = servers o /\ handles (restore ok g o).2 = handles o /\ winsock (restore ok g o).2 = winsock o.
Proof. unfold restore. destruct (active_ g), ok; done. Qed.

Lemma leave_clean env code g (host : bool) o o0 h :
  (be_resetMode env = true -> stdin o0 = if active_ g then ConsoleHandle (original_mode_ g) else stdin o) ->
  servers o = ((if host then 1 else 0) + servers o0)%nat -> handles o = ((if host then 1 else 0) + handles o0)%nat -> winsock o = winsock o0 ->
  clean env h o0 (leave env code g host o).
Proof.
  intros E1 E2 E3 E4. unfold leave, clean, given_back. destruct (restored_rest (be_resetMode env) g o) as (F1 & F2 & F3).
  assert (be_resetMode env = true -> stdin (restore (be_resetMode env) g o).2 = stdin o0) as F0.
  { intros Hm. rewrite (E1 Hm), Hm. apply restored_stdin. }
  revert F0 F1 F2 F3. generalize (restore (be_resetMode env) g o).2. intros o' F0 F1 F2 F3.
  unfold host_stop. destruct host, (be_terminated env); cbn; rewrite ?F1, ?F2, ?F3, ?E2, ?E3, ?E4; done.
Qed.

Lemma after_loop_holds env host o0 l : holds env host o0 l -> holds env host o0 (after_loop env l).
Proof.
  intros [H1 Hh H2 H3 H4]. unfold after_loop. destruct (place (threads l)); [done | done |].
  destruct (restored_rest (be_resetMode env) (guard l) (os l)) as (F1 & F2 & F3).
  assert (active_ (restore (be_resetMode env) (guard l) (os l)).1 = false) as F4 by (unfold restore; by destruct (active_ (guard l)) eqn:Ea).
  assert (be_resetMode env = true -> stdin (restore (be_resetMode env) (guard l) (os l)).2 = stdin o0) as F0.
  { intros Hm. rewrite (H1 Hm), Hm. apply restored_stdin. }
  destruct (restore (be_resetMode env) (guard l) (os l)) as [g o]. cbn [fst snd] in *.
  split; cbn; rewrite ?F4, ?F1, ?F2, ?F3; try done. intros Hm. by rewrite F0.
Qed.

Lemma write_console_borrowed text o : borrowed (write_console_locked text o) = borrowed o.
Proof. unfold write_console_locked. destruct (stdout o), text; done. Qed.

Lemma holds_frame env host o0 l l' : guard l' = guard l -> server_process l' = server_process l -> borrowed (os l') = borrowed (os l) ->
  holds env host o0 l -> holds env host o0 l'.
Proof.
  unfold borrowed. intros Eg Es Eo [H1 Hh H2 H3 H4]. pose proof (f_equal (fun v => v.1.1.1) Eo) as F1. pose proof (f_equal (fun v => v.1.1.2) Eo) as F2.
  pose proof (f_equal (fun v => v.1.2) Eo) as F3. pose proof (f_equal snd Eo) as F4. cbn [fst snd] in *.
  split; rewrite ?Eg, ?Es, ?F1, ?F2, ?F3, ?F4; done.
Qed.

Lemma step_clean env host e o0 cl : clean env host o0 cl -> clean env host o0 (client_step env e cl).
Proof.
  intros Hc. destruct cl as [code o | l]; [done |]. cbn [clean] in Hc. destruct e as [| sent | received login]; cbn [client_step].
  - destruct (todo (threads l)), (place (threads l)); try done.
    destruct (read_next_input_line _ _ _) as [[[[result line] echo] rest] |]; [| done]. cbn [clean]. apply after_loop_holds.
    apply (holds_frame env host o0 l); [done | done | apply (write_console_borrowed echo (os l)) | done].
  - destruct (todo (threads l)), (place (threads l)); try (cbn [clean]; apply after_loop_holds; by apply (holds_frame env host o0 l)).
    destruct Hc as [H1 Hh H2 H3 H4]. rewrite Hh. apply leave_clean; [exact H1 | exact H2 | exact H3 |]. cbn. by rewrite H4.
  - cbn [clean]. by apply (holds_frame env host o0 l).
Qed.

Lemma session_clean env options (host : bool) input o o0 : stdin o = stdin o0 ->
  servers o = ((if host then 1 else 0) + servers o0)%nat -> handles o = ((if host then 1 else 0) + handles o0)%nat ->
  winsock o = S (winsock o0) -> clean env host o0 (start_session env options host input o).
Proof.
  intros E1 E2 E3 E4. unfold start_session. cbv zeta. destruct (be_login env) as [response | last_error].
  - set (o1 := write_text _ _ o). assert (borrowed o1 = borrowed o) as Eb by done. clearbody o1. unfold borrowed in Eb.
    injection Eb as F1 F2 F3 F4. destruct (is_console_input (stdin o1)).
    + unfold activate. cbn [no_guard active_]. destruct (GetConsoleMode (stdin o1)) as [mode |] eqn:Em; cbn [clean].
      * assert (stdin o1 = ConsoleHandle mode) as Eh by (destruct (stdin o1); try done; by injection Em as ->).
        destruct (be_setMode env); cbn [negb clean]; split; cbn; congruence.
      * split; cbn; congruence.
    + cbn [clean]. split; cbn; congruence.
  - apply leave_clean; [by rewrite <- E1 | exact E2 | exact E3 |]. cbn. by rewrite E4.
Qed.

(** Whether the arguments ask for a server. *)
Definition asks_host (draw : nat -> nat) (argv : list wide) : bool :=
  match parse_arguments draw (map utf8_from_wide (tail argv)) with Ok options => host_mode options | Fail _ => false end.

Lemma wmain_clean draw argv env input o : clean env (asks_host draw argv) o (wmain draw argv env input o).
Proof.
  unfold wmain, asks_host. cbv zeta. destruct (parse_arguments _ _) as [options | error]; [| by apply leave_clean].
  destruct (host_mode options); cbn [host_start].
  - unfold host_start. destruct (be_process env); cbn [negb]; [| by apply leave_clean].
    destruct (be_wsa env =? 0); cbn [negb]; [by apply session_clean | by apply leave_clean].
  - destruct (be_wsa env =? 0); cbn [negb]; [by apply session_clean | by apply leave_clean].
Qed.

(** C28: whatever way the console client takes, it gives back what it took.  If
    it ends, by an error of its arguments, a server that does not start, a
    login that fails, or at the end of its input loop in any interleaving of
    its threads, then no handle of the server is left open and Winsock is closed
    as often as it was opened; the terminal has the mode it had, provided that
    Windows accepts the mode when it is set back; and the server it started is
    stopped, provided that TerminateProcess succeeds (the code looks at neither
    answer).  While it runs it holds exactly one Winsock, exactly one server
    with one handle if its arguments ask for one and none otherwise, and it
    knows the terminal's mode. *)
Theorem client_leaves_no_trace draw argv env input es o :
  match run_client env es (wmain draw argv env input o) with
  | Gone _ o' =>
      handles o' = handles o /\ winsock o' = winsock o /\
      (be_resetMode env = true -> stdin o' = stdin o) /\ (be_terminated env = true -> servers o' = servers o)
  | Running l =>
      let own := if asks_host draw argv then 1%nat else 0%nat in
      servers (os l) = (own + servers o)%nat /\ handles (os l) = (own + handles o)%nat /\ winsock (os l) = S (winsock o) /\
      (be_resetMode env = true -> stdin o = if active_ (guard l) then ConsoleHandle (original_mode_ (guard l)) else stdin (os l))
  end.
Proof.
  assert (clean env (asks_host draw argv) o (run_client env es (wmain draw argv env input o))) as Hc.
  { pose proof (wmain_clean draw argv env input o) as Hc. revert Hc. generalize (wmain draw argv env input o).
    induction es as [| e es IH]; intros cl Hc; [done |]. by apply IH, step_clean. }
  destruct (run_client _ _ _) as [code o' | l]; cbn [clean] in Hc; [exact Hc |].
  destruct Hc as [H1 _ H2 H3 H4]. by split_and!.
Qed.

End Clean.

(** ** Leaving *)

Section Quit.
  Context `{WinText} `{WinLossy} (env : boot_env).

Definition client_action (e : client_event) : bool := match e with CAction _ => true | _ => false end.
Definition client_receiver (e : client_event) : bool := match e with CReceiver _ _ => true | _ => false end.

Definition occurs (p : client_event -> bool) (es : list client_event) : nat := length (List.filter p es).

Lemma gone_stays code o es : run_client env es (Gone code o) = Gone code o.
Proof. by induction es. Qed.

Lemma after_loop_threads l : threads (after_loop env l) = threads l /\ user (after_loop env l) = user l.
Proof. unfold after_loop. destruct (place (threads l)); [done | done |]. by destruct (restore _ _ _). Qed.

(** A step of the client is a step of its threads, or it does nothing, or it is
    the return from the end of the program. *)
Lemma client_step_threads e l :
  (exists o, client_step env e (Running l) = Gone 0 o) \/
  exists l' es, client_step env e (Running l) = Running l' /\ user l' = user l /\ threads l' = run_console (user l) es (threads l) /\
    count is_action es = occurs client_action [e] /\ count is_receiver es = occurs client_receiver [e].
Proof.
  destruct e as [| sent | received login]; cbn [client_step].
  - right. destruct (todo (threads l)) eqn:Et, (place (threads l)) eqn:Ep; try (exists l, []; done).
    destruct (read_next_input_line _ _ _) as [[[[result line] echo] rest] |]; [| exists l, []; done].
    eexists _, [EInput result line]. split; [reflexivity |]. match goal with |- context [after_loop env ?x] => destruct (after_loop_threads x) as [-> ->] end.
    done.
  - destruct (todo (threads l)) eqn:Et, (place (threads l)) eqn:Ep; try by left; eexists.
    all: right; eexists _, [EAction sent]; split; [reflexivity |];
      match goal with |- context [after_loop env ?x] => destruct (after_loop_threads x) as [-> ->] end; done.
  - right. by exists (l <| threads ::= console_step (user l) (EReceiver received login) |>), [EReceiver received login].
Qed.

Lemma run_client_threads es : forall l,
  (exists o, run_client env es (Running l) = Gone 0 o) \/
  exists l' es', run_client env es (Running l) = Running l' /\ user l' = user l /\ threads l' = run_console (user l) es' (threads l) /\
    count is_action es' = occurs client_action es /\ count is_receiver es' = occurs client_receiver es.
Proof.
  induction es as [| e es IH]; intros l; [right; by exists l, [] |].
  change (run_client env (e :: es) (Running l)) with (run_client env es (client_step env e (Running l))).
  destruct (client_step_threads e l) as [[o ->] | (l1 & es1 & -> & Eu & Et & Ea & Er)]; [left; exists o; apply gone_stays |].
  destruct (IH l1) as [[o E] | (l2 & es2 & E & Eu2 & Et2 & Ea2 & Er2)]; [left; by exists o |]. right. exists l2, (es1 ++ es2).
  assert (forall p, occurs p (e :: es) = occurs p [e] + occurs p es)%nat as Ho.
  { intros p. unfold occurs. cbn [List.filter]. by destruct (p e). }
  assert (forall p, count p (es1 ++ es2) = count p es1 + count p es2)%nat as Hc.
  { intros p. unfold count. by rewrite List.filter_app, length_app. }
  rewrite !Ho, !Hc. split_and!; [done | congruence | | lia | lia]. rewrite Et2, Et, Eu. unfold run_console. by rewrite foldl_app.
Qed.

Lemma run_client_app es es' cl : run_client env (es ++ es') cl = run_client env es' (run_client env es cl).
Proof. apply foldl_app. Qed.

(** C14: a line "/quit", typed or read from anywhere, ends the console client with
    exit code 0, in every interleaving of its threads and whatever the server
    does: after it is read, nine actions of the input thread, three steps of
    the receiver and three more actions are enough, the last of them being the
    return from wmain. *)
Theorem quit_ends_client l result line echo rest es1 es2 es3 sent :
  todo (threads l) = [] -> place (threads l) = Reading ->
  read_next_input_line (stdin (os l)) (use_console l) (reader l) = Some (result, line, echo, rest) ->
  result = kLineReady -> input_text line = "/quit" ->
  (9 <= occurs client_action es1)%nat -> (3 <= occurs client_receiver es2)%nat -> (2 <= occurs client_action es3)%nat ->
  exists o, run_client env (CRead :: es1 ++ (es2 ++ es3) ++ [CAction sent]) (Running l) = Gone 0 o.
Proof.
  intros Ht Hp Er -> Hq P1 P2 P3.
  change (run_client env (CRead :: ?es) (Running l)) with (run_client env es (client_step env CRead (Running l))).
  cbn [client_step]. rewrite Ht, Hp, Er. match goal with |- context [after_loop env ?x] => destruct (after_loop_threads x) as [Et Eu]; set (l0 := after_loop env x) in * end.
  change (threads l0 = console_step (user l) (EInput kLineReady line) (threads l)) in Et. change (user l0 = user l) in Eu. clearbody l0.
  rewrite !run_client_app. destruct (run_client_threads es1 l0) as [[o ->] | (l1 & c1 & -> & Eu1 & Et1 & Ea1 & _)]; [exists o; by rewrite !gone_stays |].
  destruct (run_client_threads es2 l1) as [[o ->] | (l2 & c2 & -> & Eu2 & Et2 & _ & Er2)]; [exists o; by rewrite !gone_stays |].
  destruct (run_client_threads es3 l2) as [[o ->] | (l3 & c3 & -> & Eu3 & Et3 & Ea3 & _)]; [exists o; by rewrite !gone_stays |].
  destruct (quit_terminates (user l) line c1 c2 c3 (threads l) Hq Ht Hp) as (_ & E1 & E2 & _); [lia .. |].
  assert (threads l3 = run_console (user l) (c2 ++ c3) (run_console (user l) (EInput kLineReady line :: c1) (threads l))) as E3.
  { rewrite Et3, Et2, Et1, Et, Eu2, Eu1, Eu. unfold run_console. by rewrite foldl_app. }
  rewrite <- E3 in E1, E2. cbn [run_client foldl client_step]. rewrite E1, E2. by eexists.
Qed.

End Quit.

(** ** Lines of a file *)

(** The lines of a text; the last one need not be ended. *)
Fixpoint text_lines (acc text : wide) : list wide :=
  match text with
  | [] => match acc with [] => [] | _ => [acc] end
  | u :: rest => if u =? 10 then acc :: text_lines [] rest else text_lines (acc ++ [u]) rest
  end.

(** Reading until the input ends. *)
Fixpoint read_lines `{WinText} (fuel : nat) (r : Reader) : list wide * bool :=
  match fuel with
  | O => ([], false)
  | S fuel =>
      match read_next_input_line FileHandle false r with
      | Some (kLineReady, line, _, r) => let '(lines, ended) := read_lines fuel r in (line :: lines, ended)
      | Some (kEndOfInput, _, _, _) => ([], true)
      | _ => ([], false)
      end
  end.

Lemma text_lines_split acc text : text <> [] -> text_lines acc text = (acc ++ (wide_line text).1) :: text_lines [] (wide_line text).2.
Proof.
  revert acc. induction text as [| u text IH]; intros acc Hn; [done |]. cbn [text_lines wide_line]. destruct (u =? 10); [by rewrite app_nil_r |].
  destruct text as [| v text].
  - cbn. destruct acc; done.
  - rewrite IH by done. destruct (wide_line (v :: text)) as [line rest]. cbn [fst snd]. by rewrite <- app_assoc.
Qed.

Lemma wide_line_shorter u text : (length (wide_line (u :: text)).2 <= length text)%nat.
Proof.
  revert u. induction text as [| v text IH]; intros u; cbn [wide_line]; destruct (u =? 10); [done | done | done |].
  specialize (IH v). cbn [wide_line] in IH. destruct (v =? 10); [cbn in *; lia |]. destruct (wide_line text). cbn in *. lia.
Qed.

(** A redirected file is read line by line to its end, and a last line that is not
    ended counts, unlike that of a pipe. *)
Theorem file_lines `{WinText} r fuel : (length (wcin r) < fuel)%nat -> read_lines fuel r = (text_lines [] (wcin r), true).
Proof.
  revert r. induction fuel as [| fuel IH]; intros r Hf; [lia |]. cbn [read_lines read_next_input_line].
  destruct (wcin r) as [| u text] eqn:E; [done |]. cbn [getline]. rewrite (text_lines_split [] (u :: text)) by done.
  pose proof (wide_line_shorter u text) as Hs. destruct (wide_line (u :: text)) as [line rest]. cbn [fst snd] in *. cbn [length] in Hf.
  rewrite (IH (r <| wcin := rest |>)); [done |]. cbn. lia.
Qed.

(** The guard switches off line input and echo, and nothing else. *)
Lemma event_mode_bits mode i : 0 <= i < 32 ->
  Z.testbit (event_mode mode) i = (Z.testbit mode i && negb (i =? 1) && negb (i =? 2))%bool.
Proof.
  intros Hi. unfold event_mode. rewrite Z.land_spec, <- andb_assoc. f_equal.
  assert (i = 0 \/ i = 1 \/ i = 2 \/ 3 <= i) as [-> | [-> | [-> | Hge]]] by lia; try done.
  rewrite Z.lxor_spec. change 4294967295 with (Z.ones 32). change (Z.lor ENABLE_LINE_INPUT ENABLE_ECHO_INPUT) with 6. rewrite Z.ones_spec_low, Z.bits_above_log2 by (cbn; lia).
  by rewrite !(proj2 (Z.eqb_neq _ _)) by lia.
Qed.

(** ** Witnesses *)

Definition ascii_lossy : WinLossy := {| mb_lossy := fun s => map code (String.list_ascii_of_string s) |}.

Section Witness.

#[local] Existing Instances ascii_win ascii_lossy.

(** A host whose commands come from a console. *)
Definition ex_os : Os := mk_os (ConsoleHandle 0x1F7) (ConsoleHandle 3) (437, 437) 0 0 0 [] [] [].

Definition ex_boot : boot_env :=
  mk_boot true 0 (Ok (empty_message <| username := "Alice" |> <| user_code := "ALICE001" |> <| is_admin := true |>)) None true true true.

Definition ex_reader : Reader :=
  mk_reader [PollTimeout; PollRecords (map (fun u => KeyEvent true 1 u) ex_quit_line ++ [KeyEvent true VK_RETURN 13])] [] [] "" [].

Definition ex_argv : list wide := map literal ["chat-client.exe"; "--host"; "Alice"].

Definition ex_rest : list client_event := repeat (CAction true) 9 ++ (repeat (CReceiver None LoginRetry) 3 ++ repeat (CAction true) 2) ++ [CAction true].

Lemma client_leaves_no_trace_witness :
  match run_client ex_boot (CAction true :: CRead :: ex_rest) (wmain (fun _ => 0%nat) ex_argv ex_boot ex_reader ex_os) with
  | Gone code o => code = 0 /\ stdin o = ConsoleHandle 0x1F7 /\ servers o = 0%nat /\ length (command_lines o) = 1%nat
  | Running _ => False
  end.
Proof.
  pose proof (client_leaves_no_trace (fun _ => 0%nat) ex_argv ex_boot ex_reader (CAction true :: CRead :: ex_rest) ex_os) as Hc.
  assert (match run_client ex_boot (CAction true :: CRead :: ex_rest) (wmain (fun _ => 0%nat) ex_argv ex_boot ex_reader ex_os) with
          | Gone code o => code = 0 /\ length (command_lines o) = 1%nat | Running _ => False end) as Hr by (vm_compute; split; reflexivity).
  destruct (run_client _ _ _) as [code o | l]; [| exact Hr]. destruct Hc as (_ & _ & E1 & E2), Hr as [E3 E4].
  split; [exact E3 |]. split; [by apply E1 |]. split; [by apply E2 | exact E4].
Defined.

Lemma quit_ends_client_witness :
  exists o, run_client ex_boot (CRead :: ex_rest) (client_step ex_boot (CAction true) (wmain (fun _ => 0%nat) ex_argv ex_boot ex_reader ex_os)) = Gone 0 o.
Proof.
  destruct (client_step ex_boot (CAction true) (wmain (fun _ => 0%nat) ex_argv ex_boot ex_reader ex_os)) as [code o | l] eqn:E.
  - exfalso. vm_compute in E. discriminate E.
  - eapply (quit_ends_client ex_boot l kLineReady ex_quit_line _ _ (repeat (CAction true) 9) (repeat (CReceiver None LoginRetry) 3) (repeat (CAction true) 2) true);
      [vm_compute in E; injection E as <-; vm_compute; reflexivity .. | | |]; vm_compute; lia.
Defined.

End Witness.
