(* ===== verification/Discovery.v ===== *)
(** * Discovery: rooms announced on the local network

    Models client-cpp/gui/src/lan_discovery_service.{hpp,cpp}: the UDP
    announcements of rooms, the table of rooms with its expiry, and the public
    certificate that is kept of a room one connects to.  Outside src/ and
    therefore parameters: OpenSSL's PEM reader, the sockets, timers and clock
    (their answers are arguments of the operations), the order of QHash's values
    and QString::compare, the hash and base64 of [CryptoLib] and Qt's JSON. *)

From Stdlib Require Import Strings.Byte Permutation Sorted.
From S2P Require Import Prelude Text Json BridgeProtocol Crypto Manifest.

Definition kDiscoveryVersion : Z := 1.
Definition kHostLifetimeMs : Z := 4500.
Definition kScanDurationMs : Z := 2500.
Definition kMaximumPacketSize : Z := 16 * 1024.

Record LanDiscoveredHost := mk_host {
  dh_id : string;
  dh_hostName : string;
  dh_serverIp : string;
  dh_serverPort : Z;
  dh_fingerprintSha256 : string;
  dh_certificatePem : bytes;
  dh_expiresAt : Z;              (* milliseconds since the epoch, UTC *)
}.

(** A QHostAddress. *)
Record HostAddress := mk_address { ha_ipv4 : bool; ha_text : string }.

Class LanLib := {
  isValidPemCertificate : bytes -> bool;                                  (* PEM_read_bio_X509 succeeds *)
  hash_values : gmap string LanDiscoveredHost -> list LanDiscoveredHost;  (* QHash::values *)
  name_compare : string -> string -> Z;                                   (* QString::compare(a, b, Qt::CaseInsensitive) *)
}.

(** What is shown of a room. *)
Definition summary (h : LanDiscoveredHost) : string * string * string * Z * string :=
  (dh_id h, dh_hostName h, dh_serverIp h, dh_serverPort h, dh_fingerprintSha256 h).

(** Documented behaviour of QHash::values, which gives every value once, and of
    QString::compare, which compares by a total order; a value of a QHash that is
    replaced keeps its place. *)
Class LanLaws `{LanLib} : Prop := {
  hash_values_permutation m : hash_values m ≡ₚ (map_to_list m).*2;
  hash_values_replaced m m' : summary <$> m = summary <$> m' -> summary <$> hash_values m = summary <$> hash_values m';
  name_compare_swap a b : name_compare a b < 0 <-> 0 < name_compare b a;
  name_compare_trans a b c : name_compare a b <= 0 -> name_compare b c <= 0 -> name_compare a c <= 0;
}.

(** ** std::sort

    The elements in the order of a comparison; those it does not tell apart,
    which the standard leaves open, stay in the order they had. *)

Section Sort.
  Context {A : Type} (less : A -> A -> bool).

Fixpoint sort_insert (x : A) (l : list A) : list A :=
  match l with
  | [] => [x]
  | y :: rest => if less y x then y :: sort_insert x rest else x :: l
  end.

Definition std_sort (l : list A) : list A := foldr sort_insert [] l.

Lemma sort_insert_permutation x l : sort_insert x l ≡ₚ x :: l.
Proof. induction l as [| y l IH]; cbn; [done |]. destruct (less y x); [rewrite IH; apply Permutation_swap | done]. Qed.

Lemma std_sort_permutation l : std_sort l ≡ₚ l.
Proof. unfold std_sort. induction l as [| x l IH]; cbn; [done |]. rewrite sort_insert_permutation. by f_equiv. Qed.

(** A comparison by a total order sorts. *)
Lemma std_sort_sorted (R : A -> A -> Prop) l : (forall x y, less y x = true -> R y x) -> (forall x y, less y x = false -> R x y) ->
  (forall x y z, R x y -> R y z -> R x z) -> StronglySorted R (std_sort l).
Proof.
  intros H1 H2 Ht. unfold std_sort. induction l as [| x l IH]; cbn; [constructor |]. revert IH. generalize (foldr sort_insert [] l). clear l.
  induction 1 as [| y l Hs IH Hf]; cbn; [repeat constructor |]. destruct (less y x) eqn:E.
  - constructor; [exact IH |]. rewrite sort_insert_permutation. constructor; auto.
  - constructor; [by constructor |]. constructor; [auto |]. eapply Forall_impl; [exact Hf |]. intros z. by apply Ht, H2.
Qed.

End Sort.

(** Sorting goes by what the comparison looks at. *)
Lemma std_sort_fmap {A B} (f : A -> B) (less : A -> A -> bool) (less' : B -> B -> bool) l :
  (forall x y, less x y = less' (f x) (f y)) -> f <$> std_sort less l = std_sort less' (f <$> l).
Proof.
  intros Hl. unfold std_sort. induction l as [| x l IH]; cbn; [done |]. rewrite <- IH. generalize (foldr (sort_insert less) [] l). clear -Hl.
  intros l. induction l as [| y l IH]; cbn; [done |]. rewrite Hl. destruct (less' _ _); cbn; [by rewrite IH | done].
Qed.

Inductive discovery_signal := HostsChanged | ScanningChanged.

Record Discovery := mk_discovery {
  hosts_ : gmap string LanDiscoveredHost;
  scanning_ : bool;
  socket_ : bool;                        (* bound *)
  expiryTimer_ : bool;                   (* running *)
  scanTimer_ : option Z;                 (* when it fires *)
  d_signals : list discovery_signal;
}.

#[export] Instance eta_Discovery : EtaRecord Discovery := fun d =>
  {| hosts_ := hosts_ d; scanning_ := scanning_ d; socket_ := socket_ d; expiryTimer_ := expiryTimer_ d;
     scanTimer_ := scanTimer_ d; d_signals := d_signals d |}.

Definition initial_discovery : Discovery := mk_discovery ∅ false false false None [].

Definition announce_change (g : discovery_signal) (d : Discovery) : Discovery := d <| d_signals ::= fun l => l ++ [g] |>.

Definition setScanning (scanning : bool) (d : Discovery) : Discovery :=
  if Bool.eqb (scanning_ d) scanning then d else announce_change ScanningChanged (d <| scanning_ := scanning |>).

(** [prepared] is the answer of OpenSslRuntime::prepare, [bound] that of bind. *)
Definition refresh (prepared bound : outcome unit) (now : Z) (d : Discovery) : Discovery * outcome unit :=
  match prepared with
  | Fail error => (d, Fail error)
  | Ok _ =>
      let d := d <| expiryTimer_ := true |> in
      let ready :=
        if socket_ d then (d, Ok tt)
        else match bound with
             | Ok _ => (d <| socket_ := true |>, Ok tt)
             | Fail error => (d, Fail ("Unable to listen for LAN discovery: " +:+ error))
             end in
      match ready with
      | (d, Fail error) => (d, Fail error)
      | (d, Ok _) =>
          let d := if decide (hosts_ d = ∅) then d else announce_change HostsChanged (d <| hosts_ := ∅ |>) in
          ((setScanning true d) <| scanTimer_ := Some (now + kScanDurationMs) |>, Ok tt)
      end
  end.

(** [secsTo], which drops the fraction of a second. *)
Definition secsTo (from to : Z) : Z := Z.quot (to - from) 1000.

Section Discovery.
  Context `{QtText} `{CryptoLib} `{QtJson} `{LanLib}.

Definition fingerprintFor (certificatePem : bytes) : string := toHex (qt_sha256 certificatePem).

Definition pem_header : string := "-----BEGIN CERTIFICATE-----".

Definition decodeAnnouncement (payload : bytes) (sender : HostAddress) (receivedAt : Z) : outcome LanDiscoveredHost :=
  if bool_decide (payload = []) || (kMaximumPacketSize <? Z.of_nat (length payload)) || negb (ha_ipv4 sender)
  then Fail "Invalid LAN discovery payload."
  else match qt_fromJson (text_of payload) with
       | Some (JObj object) =>
           let value k := obj_get k object in
           if negb (String.eqb (toString (value "service")) "lan-chat") || negb (toInt (value "version") =? kDiscoveryVersion)
           then Fail "This is not a LAN Chat room announcement."
           else
             let hostName := trimmed (toString (value "hostName")) in
             let port := toInt (value "port") in
             let advertisedFingerprint := toLower (trimmed (toString (value "fingerprintSha256"))) in
             let certificatePem := from_base64 (toString (value "certificateBase64")) in
             if is_empty hostName || (port <? 1) || (65535 <? port) || bool_decide (certificatePem = []) ||
                (kMaximumPacketSize <? Z.of_nat (length certificatePem)) ||
                negb (has_prefix pem_header (text_of certificatePem)) || negb (isValidPemCertificate certificatePem)
             then Fail "The room announcement contains an invalid certificate."
             else
               let fingerprint := fingerprintFor certificatePem in
               if negb (size advertisedFingerprint =? 64) || negb (String.eqb advertisedFingerprint fingerprint)
               then Fail "The room certificate fingerprint does not match the announcement."
               else Ok (mk_host fingerprint hostName (ha_text sender) port fingerprint certificatePem (receivedAt + kHostLifetimeMs))
       | _ => Fail "This is not a LAN Chat room announcement."
       end.

(** One datagram, with the time at which it is read. *)
Record datagram := mk_datagram { dg_payload : bytes; dg_sender : HostAddress; dg_now : Z }.

Definition is_news (host : LanDiscoveredHost) (hosts : gmap string LanDiscoveredHost) : bool :=
  match hosts !! dh_id host with
  | None => true
  | Some existing => negb (String.eqb (dh_serverIp existing) (dh_serverIp host)) ||
                     negb (secsTo (dh_expiresAt existing) (dh_expiresAt host) =? 0)
  end.

Definition read_datagram (acc : gmap string LanDiscoveredHost * bool) (g : datagram) : gmap string LanDiscoveredHost * bool :=
  match decodeAnnouncement (dg_payload g) (dg_sender g) (dg_now g) with
  | Fail _ => acc
  | Ok host => (<[dh_id host := host]> acc.1, acc.2 || is_news host acc.1)
  end.

Definition readPendingDatagrams (pending : list datagram) (d : Discovery) : Discovery :=
  if negb (socket_ d) then d
  else
    let '(hosts, changed) := foldl read_datagram (hosts_ d, false) pending in
    let d := d <| hosts_ := hosts |> in
    if changed then announce_change HostsChanged d else d.

Definition expireStaleHosts (now : Z) (d : Discovery) : Discovery :=
  let stale := filter (fun entry => dh_expiresAt entry.2 <= now) (hosts_ d) in
  if decide (stale = ∅) then d
  else announce_change HostsChanged (d <| hosts_ ::= filter (fun entry => ~ dh_expiresAt entry.2 <= now) |>).

Definition finishScan (d : Discovery) : Discovery := (setScanning false d) <| scanTimer_ := None |>.

Definition unavailable : string := "This LAN chat room is no longer available. Please scan again.".

Definition connectData (hostId : string) (now : Z) (d : Discovery) : outcome LanDiscoveredHost :=
  match hosts_ d !! toLower (trimmed hostId) with
  | Some host => if dh_expiresAt host <=? now then Fail unavailable else Ok host
  | None => Fail unavailable
  end.

Definition certificatePath (root : string) (host : LanDiscoveredHost) : string :=
  root +:+ "/known-hosts/" +:+ dh_id host +:+ ".crt".

(** [exists_] is QFileInfo::exists. *)
Definition host_json (root : string) (exists_ : string -> bool) (host : LanDiscoveredHost) : json :=
  JObj (obj_build [("id", Some (JStr (dh_id host))); ("hostName", Some (JStr (dh_hostName host)));
                   ("serverIp", Some (JStr (dh_serverIp host))); ("serverPort", Some (JInt (dh_serverPort host)));
                   ("fingerprintSha256", Some (JStr (dh_fingerprintSha256 host)));
                   ("known", Some (JBool (exists_ (certificatePath root host))))]).

(** The comparison that [hostsJson] sorts by. *)
Definition listed_before (left right : LanDiscoveredHost) : bool := name_compare (dh_hostName left) (dh_hostName right) <? 0.

Definition sorted_hosts (hosts : gmap string LanDiscoveredHost) : list LanDiscoveredHost := std_sort listed_before (hash_values hosts).

Definition hostsJson (root : string) (exists_ : string -> bool) (d : Discovery) : list json :=
  map (host_json root exists_) (sorted_hosts (hosts_ d)).

(** [made] answers mkpath, [saved] the write and commit of QSaveFile; the path
    and, when it was saved, the file's new content. *)
Definition persistCertificate (root : string) (made saved : bool) (host : LanDiscoveredHost) : outcome (string * bytes) :=
  if is_empty (dh_id host) || bool_decide (dh_certificatePem host = [])
  then Fail "The discovery announcement does not include a host certificate."
  else if negb made then Fail "Unable to create the host certificate directory."
  else if negb saved then Fail "Unable to save the host public certificate."
  else Ok (certificatePath root host, dh_certificatePem host).

(** ** Everything that happens to the service *)

Inductive discovery_call :=
  | DRefresh (prepared bound : outcome unit) (now : Z)
  | DDatagrams (pending : list datagram)
  | DExpire (now : Z)
  | DScanTimeout.

Definition discovery_step (c : discovery_call) (d : Discovery) : Discovery :=
  match c with
  | DRefresh prepared bound now => (refresh prepared bound now d).1
  | DDatagrams pending => readPendingDatagrams pending d
  | DExpire now => expireStaleHosts now d
  | DScanTimeout => finishScan d
  end.

Definition run_discovery (cs : list discovery_call) (d : Discovery) : Discovery := foldl (fun d c => discovery_step c d) d cs.

(** ** The table *)

(** An entry of the table is what its certificate says. *)
Record host_ok (id : string) (h : LanDiscoveredHost) : Prop := {
  ho_id : dh_id h = id;
  ho_fingerprint : dh_fingerprintSha256 h = id /\ id = fingerprintFor (dh_certificatePem h);
  ho_port : 1 <= dh_serverPort h <= 65535;
  ho_name : dh_hostName h <> "" /\ exists raw, dh_hostName h = trimmed raw;
  ho_certificate : isValidPemCertificate (dh_certificatePem h) = true /\
    has_prefix pem_header (text_of (dh_certificatePem h)) = true /\ Z.of_nat (length (dh_certificatePem h)) <= kMaximumPacketSize;
}.

Lemma decoded_ok payload sender now h : decodeAnnouncement payload sender now = Ok h ->
  host_ok (dh_id h) h /\ dh_expiresAt h = now + kHostLifetimeMs /\ dh_serverIp h = ha_text sender /\ ha_ipv4 sender = true.
Proof.
  unfold decodeAnnouncement. match goal with |- (if ?b then _ else _) = _ -> _ => destruct b eqn:E0; [done |] end.
  destruct (qt_fromJson _) as [[] |]; try done. cbv zeta.
  repeat match goal with |- (if ?b then _ else _) = _ -> _ => let E := fresh "E" in destruct b eqn:E; [done |] end.
  intros [= <-].
  bool_hyps. split; [| by split_and!]. split; cbn; try done; try lia.
  split; [by apply is_empty_false | by eexists].
Qed.

(** What holds of every announced room holds of the table. *)
Lemma read_datagrams_all (P : string -> LanDiscoveredHost -> Prop) pending : forall hosts changed,
  (forall g h, g ∈ pending -> decodeAnnouncement (dg_payload g) (dg_sender g) (dg_now g) = Ok h -> P (dh_id h) h) ->
  map_Forall P hosts -> map_Forall P (foldl read_datagram (hosts, changed) pending).1.
Proof.
  induction pending as [| g pending IH]; intros hosts changed Hg Hh; [done |]. cbn [foldl]. unfold read_datagram at 2.
  assert (forall g' h, g' ∈ pending -> decodeAnnouncement (dg_payload g') (dg_sender g') (dg_now g') = Ok h -> P (dh_id h) h) as Hg'.
  { intros g' h Hin. apply Hg. by right. }
  destruct (decodeAnnouncement _ _ _) as [h | e] eqn:E; [| by apply IH]. apply IH; [done |]. apply map_Forall_insert_2; [| done].
  apply (Hg g h); [by left | exact E].
Qed.

(** The rooms that the datagrams of a call announce. *)
Definition announces (c : discovery_call) (h : LanDiscoveredHost) : Prop :=
  match c with
  | DDatagrams pending => exists g, g ∈ pending /\ decodeAnnouncement (dg_payload g) (dg_sender g) (dg_now g) = Ok h
  | _ => False
  end.

Lemma step_table_all (P : string -> LanDiscoveredHost -> Prop) c d : (forall h, announces c h -> P (dh_id h) h) ->
  map_Forall P (hosts_ d) -> map_Forall P (hosts_ (discovery_step c d)).
Proof.
  intros Hc Hd. destruct c as [prepared bound now | pending | now |]; cbn [discovery_step].
  - unfold refresh, setScanning. destruct prepared; [| done].
    destruct (socket_ _); [| destruct bound; [| done]]; cbn [fst]; case_decide; cbn; destruct (scanning_ d); try done; apply map_Forall_empty.
  - unfold readPendingDatagrams. destruct (negb (socket_ d)); [done |].
    assert (map_Forall P (foldl read_datagram (hosts_ d, false) pending).1) as Hr.
    { apply read_datagrams_all; [| done]. intros g h Hin Hdec. apply Hc. by exists g. }
    destruct (foldl _ _ _) as [hosts []]; done.
  - unfold expireStaleHosts. case_decide; [done |]. cbn. intros id h [Hl _]%map_lookup_filter_Some. by apply Hd.
  - unfold finishScan, setScanning. by destruct (Bool.eqb _ _).
Qed.

Lemma run_table_all (P : string -> LanDiscoveredHost -> Prop) cs d : (forall c h, c ∈ cs -> announces c h -> P (dh_id h) h) ->
  map_Forall P (hosts_ d) -> map_Forall P (hosts_ (run_discovery cs d)).
Proof.
  revert d. induction cs as [| c cs IH]; intros d Hc Hd; [done |]. apply IH; [intros c' h Hin; apply Hc; by right |].
  apply step_table_all; [| done]. intros h. apply Hc. by left.
Qed.

End Discovery.

Section Table.
  Context `{QtTextLaws} `{CryptoLaws} `{QtJsonLaws} `{LanLaws}.

Lemma sorted_hosts_permutation m : sorted_hosts m ≡ₚ (map_to_list m).*2.
Proof. unfold sorted_hosts. by rewrite std_sort_permutation, hash_values_permutation. Qed.

(** [a] comes before [b] in the order of the names, or has the same name up to case. *)
Definition name_le (a b : LanDiscoveredHost) : Prop := name_compare (dh_hostName a) (dh_hostName b) <= 0.

Lemma sorted_hosts_sorted m : StronglySorted name_le (sorted_hosts m).
Proof.
  apply std_sort_sorted; unfold listed_before, name_le.
  - intros x y Hl. apply Z.ltb_lt in Hl. lia.
  - intros x y Hl. apply Z.ltb_ge in Hl. destruct (Z.lt_ge_cases 0 (name_compare (dh_hostName x) (dh_hostName y))) as [Hx | Hx]; [| lia].
    apply name_compare_swap in Hx. lia.
  - intros x y z. apply name_compare_trans.
Qed.


(** ** A room stays available while it announces itself *)

Definition keeps_table (from until : Z) (c : discovery_call) : Prop :=
  match c with
  | DRefresh _ _ _ => False
  | DDatagrams pending => Forall (fun g => from <= dg_now g) pending
  | DExpire now => now <= until
  | DScanTimeout => True
  end.

Definition available (id : string) (until : Z) (hosts : gmap string LanDiscoveredHost) : Prop :=
  exists h, hosts !! id = Some h /\ dh_id h = id /\ until < dh_expiresAt h.

Lemma read_available id from pending : forall hosts changed,
  Forall (fun g => from <= dg_now g) pending -> available id (from + kHostLifetimeMs - 1) hosts ->
  available id (from + kHostLifetimeMs - 1) (foldl read_datagram (hosts, changed) pending).1.
Proof.
  induction pending as [| g pending IH]; intros hosts changed Hp Ha; [done |]. apply Forall_cons in Hp as [Hg Hp].
  cbn [foldl]. unfold read_datagram at 2. destruct (decodeAnnouncement _ _ _) as [h | e] eqn:E; [| by apply IH].
  apply IH; [done |]. destruct Ha as (h0 & Hl & Hid & Ht). destruct (decide (dh_id h = id)) as [<- | Hne]; cbn [fst].
  - exists h. rewrite lookup_insert_eq. apply decoded_ok in E as (_ & Ee & _). split_and!; [done | done | lia].
  - exists h0. by rewrite lookup_insert_ne.
Qed.

Lemma step_available id from c d : keeps_table from (from + kHostLifetimeMs - 1) c ->
  available id (from + kHostLifetimeMs - 1) (hosts_ d) -> available id (from + kHostLifetimeMs - 1) (hosts_ (discovery_step c d)).
Proof.
  destruct c as [| pending | now |]; cbn [keeps_table discovery_step]; intros Hk Ha; [done | | |].
  - unfold readPendingDatagrams. destruct (negb (socket_ d)); [done |].
    pose proof (read_available id from pending (hosts_ d) false Hk Ha) as Hr. by destruct (foldl _ _ _) as [hosts []].
  - unfold expireStaleHosts. case_decide; [done |]. destruct Ha as (h & Hl & Hid & Ht). exists h. split; [| done]. cbn.
    apply map_lookup_filter_Some. split; [done |]. cbn. lia.
  - unfold finishScan, setScanning. by destruct (Bool.eqb _ _).
Qed.

(** C39: a room that announces itself can be connected to for the next four and
    a half seconds, under its fingerprint in any case and with surrounding
    blanks, whatever else arrives and however often the table is swept, until
    the next scan starts. *)
Theorem announced_host_available g host d cs now spelled :
  socket_ d = true -> decodeAnnouncement (dg_payload g) (dg_sender g) (dg_now g) = Ok host ->
  dg_now g <= now < dg_now g + kHostLifetimeMs ->
  Forall (keeps_table (dg_now g) now) cs -> toLower (trimmed spelled) = dh_id host ->
  exists h, connectData spelled now (run_discovery (DDatagrams [g] :: cs) d) = Ok h /\ dh_id h = dh_id host.
Proof.
  intros Hs Hdec Hnow Hcs Hsp.
  assert (available (dh_id host) (dg_now g + kHostLifetimeMs - 1) (hosts_ (discovery_step (DDatagrams [g]) d))) as Ha.
  { cbn [discovery_step]. unfold readPendingDatagrams. rewrite Hs. cbn [negb foldl]. unfold read_datagram. rewrite Hdec. cbn [fst snd].
    exists host. apply decoded_ok in Hdec as (_ & Ee & _).
    destruct (_ || _)%bool; cbn; rewrite lookup_insert_eq; (split_and!; [done | done | lia]). }
  assert (forall d0, available (dh_id host) (dg_now g + kHostLifetimeMs - 1) (hosts_ d0) ->
            available (dh_id host) (dg_now g + kHostLifetimeMs - 1) (hosts_ (run_discovery cs d0))) as Hrun.
  { induction Hcs as [| c cs Hc _ IH]; intros d0 Hd0; [done |]. apply IH. apply step_available; [| done].
    destruct c; try done. cbn in *. lia. }
  destruct (Hrun _ Ha) as (h & Hl & Hid & Ht). exists h. split; [| done].
  change (run_discovery (DDatagrams [g] :: cs) d) with (run_discovery cs (discovery_step (DDatagrams [g]) d)).
  unfold connectData. rewrite Hsp, Hl. by rewrite (proj2 (Z.leb_gt _ _)) by lia.
Qed.

(** ** Announcements *)

(** The announcement a room sends. *)
Definition announcement_fields (hostName : string) (port : Z) (certificate : bytes) : list (string * option json) :=
            [("service", Some (JStr "lan-chat")); ("version", Some (JInt kDiscoveryVersion)); ("hostName", Some (JStr hostName));
             ("port", Some (JInt port)); ("fingerprintSha256", Some (JStr (fingerprintFor certificate)));
             ("certificateBase64", Some (JStr (to_base64 certificate)))].

Definition announcement (hostName : string) (port : Z) (certificate : bytes) : list (string * json) :=
  obj_build (announcement_fields hostName port certificate).

Lemma toInt_int z : - INT32_MAX - 1 <= z <= INT32_MAX -> toInt (Some (JInt z)) = z.
Proof.
  intros Hz. unfold toInt. cbn [number num_whole num_floor]. change (0 <=? 0) with true. cbn [orb andb].
  rewrite Z.mul_1_r. by rewrite !(proj2 (Z.leb_le _ _)) by lia.
Qed.

Lemma toHex_plain l : string_forall (fun c => is_digit c || is_lower c) (toHex l) = true.
Proof.
  induction l as [| x l IH]; [done |]. change (toHex (x :: l)) with (hex_byte x (toHex l)).
  generalize dependent (toHex l). intros t IH. unfold hex_byte. cbn [string_forall]. rewrite IH. by destruct x.
Qed.

(** the announcement of a room with a valid certificate is understood: the
    table gets the room's name, address, port and certificate. *)
Theorem announcement_roundtrip hostName port certificate sender now :
  let payload := bytes_of (qt_toJson (announcement hostName port certificate)) in
  trimmed hostName = hostName -> hostName <> "" -> 1 <= port <= 65535 ->
  isValidPemCertificate certificate = true -> has_prefix pem_header (text_of certificate) = true ->
  Z.of_nat (length certificate) <= kMaximumPacketSize -> payload <> [] -> Z.of_nat (length payload) <= kMaximumPacketSize ->
  ha_ipv4 sender = true ->
  decodeAnnouncement payload sender now =
    Ok (mk_host (fingerprintFor certificate) hostName (ha_text sender) port (fingerprintFor certificate) certificate
          (now + kHostLifetimeMs)).
Proof.
  intros payload Hn Hn0 Hp Hv Hh Hc Hpl0 Hpl Hs. unfold decodeAnnouncement. rewrite bool_decide_false by done.
  rewrite (proj2 (Z.ltb_ge _ _) Hpl), Hs. cbn [negb orb]. unfold payload. rewrite text_of_bytes_of, qt_json_roundtrip.
  - assert (forall k, obj_get k (announcement hostName port certificate) = field_of k (announcement_fields hostName port certificate)) as Hg.
    { intros k. apply obj_get_build. apply (bool_decide_unpack _). vm_compute. exact I. }
    rewrite !Hg. cbn [announcement_fields field_of String.eqb Ascii.eqb Bool.eqb toString]. rewrite !toInt_int by (unfold INT32_MAX, kDiscoveryVersion; lia).
    rewrite Hn, base64_roundtrip, (trimmed_plain (fingerprintFor certificate)), (toLower_plain (fingerprintFor certificate)).
    2: { apply toHex_plain. }
    2: { eapply string_forall_impl; [| apply toHex_plain]. intros c Hx. unfold isalnum.
         apply orb_true_iff in Hx as [-> | ->]; cbn; by rewrite ?Bool.orb_true_r. }
    rewrite Hh, Hv, (proj2 (is_empty_false _) Hn0), (proj2 (Z.ltb_ge port 1)), (proj2 (Z.ltb_ge 65535 port)), (proj2 (Z.ltb_ge _ _) Hc) by lia.
    rewrite bool_decide_false by (intros E; rewrite E in Hh; discriminate Hh).
    rewrite String.eqb_refl. change (size (fingerprintFor certificate)) with (size (cipher_hash certificate)).
    by rewrite cipher_hash_size.
  - apply obj_build_sorted.
  - apply obj_build_values. repeat constructor; cbn; intros v [= <-]; cbn; try done; unfold in_int64, INT64_MAX, kDiscoveryVersion; lia.
Qed.

(** ** Changes are signalled *)

(** Every announcement under a fingerprint gives the same name and port. *)
Definition consistent (names : string -> string * Z) (c : discovery_call) : Prop :=
  match c with
  | DDatagrams pending => Forall (fun g => forall h, decodeAnnouncement (dg_payload g) (dg_sender g) (dg_now g) = Ok h ->
                                     (dh_hostName h, dh_serverPort h) = names (dh_id h)) pending
  | _ => True
  end.

Definition named (names : string -> string * Z) (id : string) (h : LanDiscoveredHost) : Prop :=
  dh_id h = id /\ dh_fingerprintSha256 h = id /\ (dh_hostName h, dh_serverPort h) = names id.

Lemma read_consistent names pending : consistent names (DDatagrams pending) -> forall hosts changed,
  map_Forall (named names) hosts ->
  let '(hosts', changed') := foldl read_datagram (hosts, changed) pending in
  map_Forall (named names) hosts' /\ (changed' = false -> changed = false /\ summary <$> hosts' = summary <$> hosts).
Proof.
  cbn [consistent]. induction 1 as [| g pending Hg _ IH]; intros hosts changed Hh; cbn [foldl]; [done |]. unfold read_datagram at 2.
  destruct (decodeAnnouncement _ _ _) as [h | e] eqn:Ed; [| by apply IH]. specialize (Hg h eq_refl). cbn [fst snd].
  assert (named names (dh_id h) h) as Hn by (apply decoded_ok in Ed as [[_ [? _] _ _ _] _]; by split_and!).
  specialize (IH (<[dh_id h := h]> hosts) (changed || is_news h hosts)). destruct (foldl _ _ _) as [hosts' changed'].
  destruct IH as [Hh' Hc']; [by apply map_Forall_insert_2 |]. split; [done |]. intros E. destruct (Hc' E) as [Ec Es].
  apply orb_false_iff in Ec as [-> Hnews]. split; [done |]. rewrite Es, fmap_insert. apply insert_id. rewrite lookup_fmap.
  unfold is_news in Hnews. destruct (hosts !! dh_id h) as [old |] eqn:Eo; [| done]. apply orb_false_iff in Hnews as [Hip _].
  apply negb_false_iff, String.eqb_eq in Hip. destruct (Hh _ _ Eo) as (I1 & I2 & I3), Hn as (N1 & N2 & N3).
  cbn. unfold summary. rewrite <- N3 in I3. injection I3 as -> ->. congruence.
Qed.

Lemma host_json_summary root exists_ h h' : summary h = summary h' -> host_json root exists_ h = host_json root exists_ h'.
Proof. unfold summary. intros [= E1 E2 E3 E4 E5]. unfold host_json, certificatePath. by rewrite E1, E2, E3, E4, E5. Qed.

Lemma sorted_hosts_replaced m m' : summary <$> m = summary <$> m' -> summary <$> sorted_hosts m = summary <$> sorted_hosts m'.
Proof.
  intros E%hash_values_replaced. unfold sorted_hosts.
  rewrite !(std_sort_fmap summary listed_before (fun x y => name_compare x.1.1.1.2 y.1.1.1.2 <? 0)) by done. by rewrite E.
Qed.

Lemma summaries_json root exists_ d d' : summary <$> hosts_ d = summary <$> hosts_ d' ->
  hostsJson root exists_ d = hostsJson root exists_ d'.
Proof.
  intros E%sorted_hosts_replaced. unfold hostsJson. revert E. generalize (sorted_hosts (hosts_ d)), (sorted_hosts (hosts_ d')).
  intros l. induction l as [| h l IH]; intros [| h' l'] E; cbn; try done. injection E as E1 E2 E3 E4 E5 E.
  f_equal; [apply host_json_summary; unfold summary; congruence | by apply IH].
Qed.

(** A call that signals nothing changes nothing that is shown. *)
Lemma step_quiet names root exists_ c d : consistent names c -> map_Forall (named names) (hosts_ d) ->
  let d' := discovery_step c d in
  map_Forall (named names) (hosts_ d') /\
  ((length (d_signals d') <= length (d_signals d))%nat -> scanning_ d' = scanning_ d /\ hostsJson root exists_ d' = hostsJson root exists_ d).
Proof.
  intros Hc Hd. destruct c as [prepared bound now | pending | now |]; cbn [discovery_step]; cbv zeta.
  - unfold refresh, setScanning. destruct prepared; [| done].
    destruct (socket_ _); [| destruct bound; [| done]]; cbn [fst]; case_decide; cbn; destruct (scanning_ d) eqn:Es; cbn;
      (split; [first [done | apply map_Forall_empty] |]); rewrite ?length_app; cbn; intros; first [lia | done].
  - unfold readPendingDatagrams. destruct (negb (socket_ d)); [done |].
    pose proof (read_consistent names pending Hc (hosts_ d) false Hd) as Hr.
    destruct (foldl _ _ _) as [hosts []], Hr as [Hh Hs]; (split; [done |]); cbn; [rewrite length_app; cbn; lia |].
    intros _. split; [done |]. apply summaries_json. by apply Hs.
  - unfold expireStaleHosts. case_decide; [done |]. cbn. split; [| rewrite length_app; cbn; lia].
    intros id h [Hl _]%map_lookup_filter_Some. by apply Hd.
  - unfold finishScan, setScanning. destruct (Bool.eqb _ _); [done |]. cbn. split; [done |]. rewrite length_app. cbn. lia.
Qed.

(** ** A change that is not signalled *)

(** a room that announces a new name or a new port from the same address
    less than a second after its last announcement replaces its entry of the
    table, and no signal says so. *)
Theorem quick_change_unsignalled d g host old :
  socket_ d = true -> decodeAnnouncement (dg_payload g) (dg_sender g) (dg_now g) = Ok host ->
  hosts_ d !! dh_id host = Some old -> dh_serverIp old = dh_serverIp host ->
  dh_expiresAt old - 1000 < dh_expiresAt host < dh_expiresAt old + 1000 ->
  let d' := readPendingDatagrams [g] d in
  hosts_ d' !! dh_id host = Some host /\ d_signals d' = d_signals d.
Proof.
  intros Hs Hdec Hold Hip Hexp. cbv zeta. unfold readPendingDatagrams. rewrite Hs. cbn [negb foldl].
  unfold read_datagram, is_news. rewrite Hdec. cbn [fst snd orb]. rewrite Hold, Hip, String.eqb_refl. unfold secsTo.
  assert (Z.quot (dh_expiresAt host - dh_expiresAt old) 1000 = 0) as -> by (Z.to_euclidean_division_equations; lia).
  cbn. by rewrite lookup_insert_eq.
Qed.

End Table.

(** ** Witnesses *)

(** Lexicographic comparison. *)
Fixpoint lex (a b : list Z) : Z :=
  match a, b with
  | [], [] => 0
  | [], _ => -1
  | _, [] => 1
  | x :: a, y :: b => if x <? y then -1 else if y <? x then 1 else lex a b
  end.

Lemma lex_swap a b : lex a b < 0 <-> 0 < lex b a.
Proof.
  revert b. induction a as [| x a IH]; intros [| y b]; cbn [lex]; try lia. specialize (IH b).
  destruct (x <? y) eqn:E1, (y <? x) eqn:E2; bool_hyps; lia.
Qed.

Lemma lex_trans a b c : lex a b <= 0 -> lex b c <= 0 -> lex a c <= 0.
Proof.
  revert b c. induction a as [| x a IH]; intros [| y b] [| z c]; cbn [lex]; try lia. specialize (IH b c).
  destruct (x <? y) eqn:E1, (y <? x) eqn:E2, (y <? z) eqn:E3, (z <? y) eqn:E4, (x <? z) eqn:E5, (z <? x) eqn:E6; bool_hyps; lia.
Qed.

(** Certificates that are no more than their header; ASCII names. *)
Definition toy_lan : LanLib := {|
  isValidPemCertificate := fun _ => true;
  hash_values := fun m => (map_to_list m).*2;
  name_compare := fun a b => lex (map code (String.list_ascii_of_string (ascii_lower a))) (map code (String.list_ascii_of_string (ascii_lower b)));
|}.

Lemma toy_lan_laws : @LanLaws toy_lan.
Proof.
  split; [done | | intros; apply lex_swap | intros a b c; apply lex_trans]. intros m m' E. cbn.
  assert (forall m : gmap string LanDiscoveredHost, summary <$> (map_to_list m).*2 = (map_to_list (summary <$> m)).*2) as Hm.
  { intros m0. rewrite map_to_list_fmap, <- !list_fmap_compose. done. }
  by rewrite !Hm, E.
Qed.

Section Witnesses.

#[local] Existing Instances toy_crypto toy_laws tree_json tree_json_laws toy_lan toy_lan_laws.

Definition ex_certificate : bytes := bytes_of pem_header.
Definition ex_address : HostAddress := mk_address true "192.168.1.20".
Definition ex_payload (name : string) (port : Z) : bytes := bytes_of (qt_toJson (announcement name port ex_certificate)).
Definition ex_datagram (name : string) (port now : Z) : datagram := mk_datagram (ex_payload name port) ex_address now.
Definition ex_room (name : string) (port now : Z) : LanDiscoveredHost :=
  mk_host (fingerprintFor ex_certificate) name "192.168.1.20" port (fingerprintFor ex_certificate) ex_certificate (now + kHostLifetimeMs).

Lemma announcement_roundtrip_witness : decodeAnnouncement (ex_payload "den" 8888) ex_address 1000 = Ok (ex_room "den" 8888 1000).
Proof.
  apply (announcement_roundtrip "den" 8888 ex_certificate ex_address 1000);
    first [reflexivity | discriminate | lia | vm_compute; discriminate | vm_compute; reflexivity].
Defined.

Definition ex_listening : Discovery := (refresh (Ok tt) (Ok tt) 0 initial_discovery).1.

(** Two rooms announce themselves, and one of them expires. *)
Definition ex_other_certificate : bytes := bytes_of (pem_header +:+ "2").
Definition ex_other_datagram (now : Z) : datagram :=
  mk_datagram (bytes_of (qt_toJson (announcement "Attic" 9000 ex_other_certificate))) ex_address now.

Definition ex_scan : list discovery_call :=
  [DRefresh (Ok tt) (Ok tt) 0; DDatagrams [ex_datagram "den" 8888 1000; ex_other_datagram 1100]; DDatagrams [ex_datagram "Den" 8888 1200]; DExpire 2000].

Definition ex_scanned : Discovery := run_discovery ex_scan initial_discovery.


Lemma announced_host_available_witness :
  exists h, connectData (" " +:+ fingerprintFor ex_certificate) 5499
      (run_discovery [DDatagrams [ex_datagram "den" 8888 1000]; DScanTimeout; DExpire 5000; DDatagrams [ex_datagram "den2" 8889 1400]] ex_listening) = Ok h /\
    dh_id h = fingerprintFor ex_certificate.
Proof.
  apply (announced_host_available (ex_datagram "den" 8888 1000) (ex_room "den" 8888 1000) ex_listening
           [DScanTimeout; DExpire 5000; DDatagrams [ex_datagram "den2" 8889 1400]] 5499 (" " +:+ fingerprintFor ex_certificate)).
  - reflexivity.
  - vm_compute. reflexivity.
  - cbn. unfold kHostLifetimeMs. lia.
  - repeat constructor; cbn; lia.
  - vm_compute. reflexivity.
Defined.

Lemma quick_change_unsignalled_witness :
  d_signals (readPendingDatagrams [ex_datagram "den2" 8889 1400] (readPendingDatagrams [ex_datagram "den" 8888 1000] ex_listening)) =
  d_signals (readPendingDatagrams [ex_datagram "den" 8888 1000] ex_listening).
Proof.
  refine (proj2 (quick_change_unsignalled (readPendingDatagrams [ex_datagram "den" 8888 1000] ex_listening) (ex_datagram "den2" 8889 1400)
            (ex_room "den2" 8889 1400) (ex_room "den" 8888 1000) _ _ _ _ _)).
  - vm_compute. reflexivity.
  - vm_compute. reflexivity.
  - vm_compute. reflexivity.
  - reflexivity.
  - cbn. unfold kHostLifetimeMs. lia.
Defined.

End Witnesses.
