(* ===== verification/Performance.v ===== *)
(** * Performance: how the client adapts to the machine

    Models client-cpp/gui/src/performance_profile.{hpp,cpp} and
    performance_benchmark_gate.{hpp,cpp}.  A double is an IEEE 754 binary64
    number of the Standard Library's [SpecFloat], so that every comparison and
    rounding is that of the code.  The stored setting is part of the state. *)

From Stdlib Require Import Floats.SpecFloat Sorting.Permutation Sorting.Sorted.
From S2P Require Import Prelude Text.

(** ** Doubles *)

Abbreviation double := spec_float.

Definition of_int (z : Z) : double := binary_normalize 53 1024 z 0 false.
Definition dmul : double -> double -> double := SFmul 53 1024.
Definition ddiv : double -> double -> double := SFdiv 53 1024.
Definition dadd : double -> double -> double := SFadd 53 1024.

(** A decimal literal [n / d], correctly rounded. *)
Definition decimal (n d : Z) : double := ddiv (of_int n) (of_int d).

Definition isfinite (x : double) : bool := match x with S754_zero _ | S754_finite _ _ _ => true | _ => false end.

(** [static_cast<int>(std::ceil(x))] of a finite [x]. *)
Definition ceil_int (x : double) : Z :=
  match x with
  | S754_finite s m e =>
      let z := if s then Z.neg m else Z.pos m in
      if 0 <=? e then z * 2 ^ e else - ((- z) / 2 ^ (- e))
  | _ => 0
  end.

Definition kFrameWindowSize : nat := 24.
Definition kAutomaticModeConfirmations : Z := 3.
Definition kBalancedFrameThresholdMs : double := decimal 167 10.
Definition kPowerSavingFrameThresholdMs : double := of_int 40.

(** std::sort of doubles that are numbers. *)
Fixpoint insert_frame (x : double) (l : list double) : list double :=
  match l with
  | [] => [x]
  | y :: rest => if SFltb y x then y :: insert_frame x rest else x :: l
  end.

Definition sort_frames (l : list double) : list double := foldr insert_frame [] l.

Definition p95_index (n : nat) : nat :=
  let lastIndex := Z.of_nat n - 1 in
  Z.to_nat (Z.max 0 (Z.min lastIndex (ceil_int (dmul (decimal 95 100) (of_int lastIndex))))).

Definition p95 (samples : list double) : double :=
  match samples with
  | [] => of_int 0
  | _ => nth (p95_index (length samples)) (sort_frames samples) (of_int 0)
  end.

(** ** The profile *)

Inductive profile_signal :=
  | ModeChanged | EffectiveModeChanged | CapabilitiesChanged | ObservedFrameCountChanged | MetricsChanged | AutomaticReasonChanged.

#[export] Instance profile_signal_eq_dec : EqDecision profile_signal.
Proof. solve_decision. Defined.

(** The observed rates. *)
Record metrics := mk_metrics { observedFps_ : double; observedP95FrameMs_ : double; observedMaxFrameMs_ : double }.

(** What the views may do. *)
Record capabilities := mk_capabilities {
  effectsEnabled_ : bool;
  animationsEnabled_ : bool;
  gradientsEnabled_ : bool;
  animationDurationScale_ : double;
}.

Record PerformanceProfile := mk_profile {
  pf_mode_ : string;
  effectiveMode_ : string;
  pf_capabilities : capabilities;
  hardwareAcceleration_ : bool;
  softwareRendering_ : bool;
  refreshRate_ : double;
  frameTimesMs_ : list double;
  pf_metrics : metrics;
  automaticReason_ : string;
  pendingAutomaticMode_ : string;
  pendingAutomaticModeStreak_ : Z;
  stored_mode : option string;            (* QSettings performance/mode *)
  pf_signals : list profile_signal;
}.

#[export] Instance eta_PerformanceProfile : EtaRecord PerformanceProfile := fun p =>
  {| pf_mode_ := pf_mode_ p; effectiveMode_ := effectiveMode_ p; pf_capabilities := pf_capabilities p;
     hardwareAcceleration_ := hardwareAcceleration_ p; softwareRendering_ := softwareRendering_ p; refreshRate_ := refreshRate_ p;
     frameTimesMs_ := frameTimesMs_ p; pf_metrics := pf_metrics p; automaticReason_ := automaticReason_ p;
     pendingAutomaticMode_ := pendingAutomaticMode_ p; pendingAutomaticModeStreak_ := pendingAutomaticModeStreak_ p;
     stored_mode := stored_mode p; pf_signals := pf_signals p |}.

Definition no_metrics : metrics := mk_metrics (of_int 0) (of_int 0) (of_int 0).

Definition dmax (x y : double) : double := if SFltb x y then y else x.

(** The values that [recomputeMetrics] stores. *)
Definition metrics_of (frames : list double) : metrics :=
  match frames with
  | [] => no_metrics
  | _ =>
      let totalMs := foldl dadd (of_int 0) frames in
      mk_metrics
        (if SFltb (of_int 0) totalMs then ddiv (dmul (of_int 1000) (of_int (Z.of_nat (length frames)))) totalMs else of_int 0)
        (p95 frames) (foldl dmax (of_int 0) frames)
  end.

Definition recomputeMetrics (p : PerformanceProfile) : PerformanceProfile := p <| pf_metrics := metrics_of (frameTimesMs_ p) |>.

Definition is_automatic (p : PerformanceProfile) : bool := String.eqb (pf_mode_ p) "Automatic".

Definition window_full (p : PerformanceProfile) : bool := negb (length (frameTimesMs_ p) <? kFrameWindowSize)%nat.

Definition hardLimit (p : PerformanceProfile) : bool :=
  softwareRendering_ p || negb (hardwareAcceleration_ p) || SFleb (refreshRate_ p) (of_int 60).

Definition automaticMode (p : PerformanceProfile) : string :=
  if softwareRendering_ p || negb (hardwareAcceleration_ p) then "Power Saving"
  else if SFleb (refreshRate_ p) (of_int 60) then "Balanced"
  else if negb (window_full p) then "High"
  else
    let observedP95 := observedP95FrameMs_ (pf_metrics p) in
    if SFleb kPowerSavingFrameThresholdMs observedP95 then "Power Saving"
    else if SFleb kBalancedFrameThresholdMs observedP95 then "Balanced"
    else "High".

Definition automaticReasonForContext (p : PerformanceProfile) : string :=
  if softwareRendering_ p then "software-rendering"
  else if negb (hardwareAcceleration_ p) then "no-hardware-acceleration"
  else if SFleb (refreshRate_ p) (of_int 60) then "refresh-rate-limit"
  else if negb (window_full p) then "waiting-for-samples"
  else if SFleb kPowerSavingFrameThresholdMs (observedP95FrameMs_ (pf_metrics p)) then "p95-over-40ms"
  else if SFleb kBalancedFrameThresholdMs (observedP95FrameMs_ (pf_metrics p)) then "p95-over-16.7ms"
  else "stable".

(** The next effective mode, the pending mode and its streak. *)
Definition next_mode (p : PerformanceProfile) : string * string * Z :=
  if negb (is_automatic p) then (pf_mode_ p, pendingAutomaticMode_ p, pendingAutomaticModeStreak_ p)
  else
    let candidate := automaticMode p in
    if hardLimit p || negb (window_full p) || String.eqb candidate (effectiveMode_ p) then (candidate, "", 0)
    else
      let streak := if String.eqb (pendingAutomaticMode_ p) candidate then pendingAutomaticModeStreak_ p + 1 else 1 in
      let nextEffective := if kAutomaticModeConfirmations <=? streak then candidate else effectiveMode_ p in
      if String.eqb nextEffective candidate then (nextEffective, "", 0) else (nextEffective, candidate, streak).

Definition capabilities_of (effective : string) : capabilities :=
  let rich := negb (String.eqb effective "Power Saving") in
  mk_capabilities rich rich rich
    (if String.eqb effective "High" then of_int 1 else if String.eqb effective "Balanced" then decimal 75 100 else of_int 0).

Definition same_capabilities (a b : capabilities) : bool :=
  Bool.eqb (effectsEnabled_ a) (effectsEnabled_ b) && Bool.eqb (animationsEnabled_ a) (animationsEnabled_ b) &&
  Bool.eqb (gradientsEnabled_ a) (gradientsEnabled_ b) && SFeqb (animationDurationScale_ a) (animationDurationScale_ b).

Definition recompute (p : PerformanceProfile) : PerformanceProfile :=
  let '(nextEffective, pending, streak) := next_mode p in
  let nextReason := if is_automatic p then automaticReasonForContext p else "manual-selection" in
  let nextCapabilities := capabilities_of nextEffective in
  let emitted :=
    (if String.eqb (effectiveMode_ p) nextEffective then [] else [EffectiveModeChanged]) ++
    (if same_capabilities (pf_capabilities p) nextCapabilities then [] else [CapabilitiesChanged]) ++
    (if String.eqb (automaticReason_ p) nextReason then [] else [AutomaticReasonChanged]) in
  mk_profile (pf_mode_ p) nextEffective nextCapabilities (hardwareAcceleration_ p) (softwareRendering_ p) (refreshRate_ p)
    (frameTimesMs_ p) (pf_metrics p) nextReason pending streak (stored_mode p) (pf_signals p ++ emitted).

Section Profile.
  Context `{QtText}.

Definition normalizeMode (mode : string) : string :=
  let value := trimmed mode in
  if String.eqb value "High" || String.eqb value "Balanced" || String.eqb value "Power Saving" then value else "Automatic".

(** The constructor; [stored] is what QSettings holds. *)
Definition initial_profile (stored : option string) : PerformanceProfile :=
  recompute (mk_profile (normalizeMode (default "Automatic" stored)) "Balanced" (mk_capabilities true true true (decimal 75 100))
               false false (of_int 60) [] no_metrics "waiting-for-samples" "" 0 stored []).

Definition setMode (mode : string) (p : PerformanceProfile) : PerformanceProfile :=
  let normalized := normalizeMode mode in
  if String.eqb (pf_mode_ p) normalized then p
  else
    let p := p <| pf_mode_ := normalized |> <| stored_mode := Some normalized |> <| frameTimesMs_ := [] |>
               <| pendingAutomaticMode_ := "" |> <| pendingAutomaticModeStreak_ := 0 |> in
    let p := recomputeMetrics p in
    recompute (p <| pf_signals ::= fun l => l ++ [ObservedFrameCountChanged; MetricsChanged; ModeChanged] |>).

Definition updateGraphicsContext (hardwareAcceleration softwareRendering : bool) (refreshRate : double) (p : PerformanceProfile)
    : PerformanceProfile :=
  recompute (p <| hardwareAcceleration_ := hardwareAcceleration |> <| softwareRendering_ := softwareRendering |>
               <| refreshRate_ := if SFltb (of_int 0) refreshRate then refreshRate else of_int 60 |>).

(** [while (frames.size() > kFrameWindowSize) frames.removeFirst()] *)
Definition keep_window (frames : list double) : list double := drop (length frames - kFrameWindowSize) frames.

Definition ignored_frame (frameMs : double) (p : PerformanceProfile) : bool :=
  negb (is_automatic p) || negb (isfinite frameMs) || SFleb frameMs (of_int 0).

Definition observeFrameTime (frameMs : double) (p : PerformanceProfile) : PerformanceProfile :=
  if ignored_frame frameMs p then p
  else
    let p := recomputeMetrics (p <| frameTimesMs_ ::= fun l => keep_window (l ++ [frameMs]) |>) in
    recompute (p <| pf_signals ::= fun l => l ++ [ObservedFrameCountChanged; MetricsChanged] |>).

Inductive profile_call :=
  | PSetMode (mode : string)
  | PGraphics (hardwareAcceleration softwareRendering : bool) (refreshRate : double)
  | PFrame (frameMs : double).

Definition profile_step (c : profile_call) (p : PerformanceProfile) : PerformanceProfile :=
  match c with
  | PSetMode mode => setMode mode p
  | PGraphics hw sw rate => updateGraphicsContext hw sw rate p
  | PFrame frameMs => observeFrameTime frameMs p
  end.

Definition run_profile (cs : list profile_call) (p : PerformanceProfile) : PerformanceProfile := foldl (fun p c => profile_step c p) p cs.

End Profile.

(** ** The 95th percentile *)

(** A frame time that is kept: a positive number. *)
Definition positive (x : double) : Prop := exists m e, x = S754_finite false m e.

Lemma kept_positive x : negb (isfinite x) || SFleb x (of_int 0) = false -> positive x.
Proof. destruct x as [s | s | | [] m e]; cbn; intros Hx; try done. by exists m, e. Qed.

Lemma positive_le m e m' e' :
  SFleb (S754_finite false m e) (S754_finite false m' e') = true <-> e < e' \/ (e = e' /\ (m <= m')%positive).
Proof.
  unfold SFleb. cbn [SFcompare]. change (PosDef.Pos.compare_cont Eq m m') with (Pos.compare m m').
  destruct (Z.compare_spec e e') as [-> | Hlt | Hgt]; [| split; [by left | done] | split; [done | intros [? | [? _]]; lia]].
  destruct (Pos.compare_spec m m') as [-> | Hlt | Hgt]; (split; [| intros [? | [_ ?]]; try done; lia]); try done; right; split; lia.
Qed.

Lemma positive_lt m e m' e' :
  SFltb (S754_finite false m e) (S754_finite false m' e') = true <-> e < e' \/ (e = e' /\ (m < m')%positive).
Proof.
  unfold SFltb. cbn [SFcompare]. change (PosDef.Pos.compare_cont Eq m m') with (Pos.compare m m').
  destruct (Z.compare_spec e e') as [-> | Hlt | Hgt]; [| split; [by left | done] | split; [done | intros [? | [? _]]; lia]].
  destruct (Pos.compare_spec m m') as [-> | Hlt | Hgt]; (split; [| intros [? | [_ ?]]; try done; lia]); try done; right; split; lia.
Qed.

Lemma not_below x y : positive x -> positive y -> SFltb y x = false -> SFleb x y = true.
Proof.
  intros (m & e & ->) (m' & e' & ->) Hn. apply positive_le. apply not_true_iff_false in Hn. rewrite positive_lt in Hn. lia.
Qed.

Lemma below_le x y : positive x -> positive y -> SFltb x y = true -> SFleb x y = true.
Proof. intros (m & e & ->) (m' & e' & ->) Hl%positive_lt. apply positive_le. lia. Qed.

Lemma le_up t x y : positive x -> positive y -> SFleb t x = true -> SFleb x y = true -> SFleb t y = true.
Proof.
  intros (m & e & ->) (m' & e' & ->) Ht Hxy. destruct t as [s | [] | | [] mt et]; try done.
  apply positive_le in Ht, Hxy. apply positive_le. lia.
Qed.

Definition ordered (x y : double) : Prop := SFleb x y = true.

Lemma insert_permutation x l : insert_frame x l ≡ₚ x :: l.
Proof.
  induction l as [| y l IH]; cbn [insert_frame]; [done |]. destruct (SFltb y x); [| done]. rewrite IH. by apply Permutation_swap.
Qed.

Lemma sort_permutation l : sort_frames l ≡ₚ l.
Proof. induction l as [| x l IH]; [done |]. cbn [sort_frames foldr]. rewrite insert_permutation. by constructor. Qed.

Lemma insert_sorted x l : positive x -> Forall positive l -> StronglySorted ordered l -> StronglySorted ordered (insert_frame x l).
Proof.
  intros Hx Hl Hs. induction Hs as [| y l Hs IH Hy]; cbn [insert_frame]; [by repeat constructor |].
  apply Forall_cons in Hl as [Hpy Hl]. destruct (SFltb y x) eqn:E.
  - constructor; [by apply IH |]. rewrite insert_permutation. constructor; [by apply below_le | done].
  - assert (ordered x y) as Hxy by by apply not_below. constructor; [by constructor |]. constructor; [done |].
    rewrite Forall_forall in Hl, Hy |- *. intros z Hz. apply (le_up x y z); [done | by apply Hl | done | by apply Hy].
Qed.

Lemma sort_sorted l : Forall positive l -> StronglySorted ordered (sort_frames l).
Proof.
  induction 1 as [| x l Hx Hl IH]; [constructor |]. cbn [sort_frames foldr]. apply insert_sorted; [done | | done].
  fold (sort_frames l). by rewrite sort_permutation.
Qed.

(** How many frames took at least [t]. *)
Definition slow (t : double) (l : list double) : nat := length (List.filter (SFleb t) l).

Lemma slow_permutation t l l' : l ≡ₚ l' -> slow t l = slow t l'.
Proof.
  unfold slow. induction 1 as [| x l l' _ IH | x y l | l1 l2 l3 _ IH1 _ IH2]; cbn [List.filter]; try done.
  - destruct (SFleb t x); cbn [length]; lia.
  - by destruct (SFleb t x), (SFleb t y).
  - congruence.
Qed.

Lemma slow_le t l : (slow t l <= length l)%nat.
Proof. unfold slow. induction l as [| x l IH]; cbn; [done |]. destruct (SFleb t x); cbn; lia. Qed.

Lemma slow_all t l : Forall (fun x => SFleb t x = true) l -> slow t l = length l.
Proof. unfold slow. induction 1 as [| x l Hx _ IH]; cbn; [done |]. rewrite Hx. cbn. by rewrite IH. Qed.

Lemma nth_sorted t d l i : Forall positive l -> StronglySorted ordered l -> (i < length l)%nat ->
  SFleb t (nth i l d) = true <-> (length l - i <= slow t l)%nat.
Proof.
  intros Hp Hs. revert i Hp. induction Hs as [| x l Hs IH Hx]; intros i Hp Hi; [cbn in Hi; lia |].
  apply Forall_cons in Hp as [Hpx Hp]. destruct (SFleb t x) eqn:Et.
  - assert (Forall (fun x => SFleb t x = true) (x :: l)) as Hall.
    { constructor; [done |]. rewrite Forall_forall in Hp, Hx |- *. intros z Hz. apply (le_up t x z); [done | by apply Hp | done | by apply Hx]. }
    rewrite (slow_all t _ Hall). split; [lia |]. intros _. rewrite Forall_forall in Hall.
    apply Hall. apply list_elem_of_In. by apply nth_In.
  - assert (slow t (x :: l) = slow t l) as -> by (unfold slow; cbn; by rewrite Et).
    destruct i as [| i]; cbn [nth length].
    + rewrite Et. pose proof (slow_le t l). split; [done | lia].
    + rewrite IH; [cbn; done | done | cbn in Hi; lia].
Qed.

(** The index is the rounded-up 95 percent of the last index, for every size
    that a window can have. *)
Lemma p95_index_exact n : (1 <= n <= kFrameWindowSize)%nat ->
  Z.of_nat (p95_index n) = ceil_div (19 * (Z.of_nat n - 1)) 20.
Proof.
  intros Hn. unfold kFrameWindowSize in Hn.
  assert (forallb (fun n => Z.of_nat (p95_index n) =? ceil_div (19 * (Z.of_nat n - 1)) 20) (List.seq 1 24) = true) as Hall
    by (vm_compute; reflexivity).
  rewrite forallb_forall in Hall. apply Z.eqb_eq, Hall, in_seq. lia.
Qed.

Lemma p95_slow t frames : Forall positive frames -> length frames = kFrameWindowSize ->
  SFleb t (p95 frames) = true <-> (2 <= slow t frames)%nat.
Proof.
  intros Hp Hn. unfold p95. destruct frames as [| x l] eqn:E; [done |]. rewrite <- E in *. clear E x l.
  rewrite Hn. change (p95_index kFrameWindowSize) with 22%nat.
  assert (length (sort_frames frames) = 24%nat) as Hl by by rewrite sort_permutation.
  rewrite nth_sorted; [| by rewrite sort_permutation | by apply sort_sorted | rewrite Hl; lia].
  by rewrite Hl, (slow_permutation t _ _ (sort_permutation frames)).
Qed.

(** ** The state of the profile *)

Definition all_modes : list string := ["Automatic"; "High"; "Balanced"; "Power Saving"].
Definition real_modes : list string := ["High"; "Balanced"; "Power Saving"].

(** What every recomputation starts from. *)
Record ready (p : PerformanceProfile) : Prop := mk_ready {
  rd_mode : pf_mode_ p ∈ all_modes;
  rd_effective : effectiveMode_ p ∈ real_modes;
  rd_window : (length (frameTimesMs_ p) <= kFrameWindowSize)%nat /\ Forall positive (frameTimesMs_ p);
  rd_metrics : pf_metrics p = metrics_of (frameTimesMs_ p);
  rd_manual : is_automatic p = false -> frameTimesMs_ p = [] /\ pendingAutomaticModeStreak_ p = 0;
  rd_streak : 0 <= pendingAutomaticModeStreak_ p < kAutomaticModeConfirmations /\
              (pendingAutomaticModeStreak_ p = 0 <-> pendingAutomaticMode_ p = "");
}.

(** What it leaves. *)
Record settled (p : PerformanceProfile) : Prop := mk_settled {
  st_ready : ready p;
  st_manual : is_automatic p = false -> effectiveMode_ p = pf_mode_ p;
  st_limited : is_automatic p = true -> hardLimit p || negb (window_full p) = true -> effectiveMode_ p = automaticMode p;
  st_pending : pendingAutomaticMode_ p <> effectiveMode_ p;
  st_capabilities : pf_capabilities p = capabilities_of (effectiveMode_ p);
  st_reason : automaticReason_ p = if is_automatic p then automaticReasonForContext p else "manual-selection";
}.

Lemma automaticMode_real p : automaticMode p ∈ real_modes.
Proof.
  unfold automaticMode, real_modes. cbv zeta. repeat match goal with |- context [if ?b then _ else _] => destruct b end; set_solver.
Qed.

Lemma real_nonempty m : m ∈ real_modes -> m <> "".
Proof. intros Hm ->. unfold real_modes in Hm. set_solver. Qed.

Lemma manual_real p : pf_mode_ p ∈ all_modes -> is_automatic p = false -> pf_mode_ p ∈ real_modes.
Proof.
  intros Hm Ha%String.eqb_neq. unfold all_modes in Hm. apply elem_of_cons in Hm as [E | Hm]; [congruence | exact Hm].
Qed.

(** The three outcomes of [next_mode]. *)
Lemma next_mode_spec p : ready p ->
  let '(effective, pending, streak) := next_mode p in
  effective ∈ real_modes /\ pending <> effective /\
  (0 <= streak < kAutomaticModeConfirmations /\ (streak = 0 <-> pending = "")) /\
  (is_automatic p = false -> effective = pf_mode_ p /\ streak = 0) /\
  (is_automatic p = true ->
     (effective = automaticMode p /\ pending = "" /\ streak = 0) \/
     (hardLimit p || negb (window_full p) = false /\ effective = effectiveMode_ p /\ pending = automaticMode p /\
      streak = (if String.eqb (pendingAutomaticMode_ p) (automaticMode p) then pendingAutomaticModeStreak_ p + 1 else 1))).
Proof.
  intros [Hm He Hw Hme Hma [Hs Hp]]. unfold next_mode. destruct (is_automatic p) eqn:Ea; cbn [negb].
  - cbv zeta. pose proof (automaticMode_real p) as Hr. pose proof (real_nonempty _ Hr) as Hne.
    set (candidate := automaticMode p) in *. clearbody candidate. unfold kAutomaticModeConfirmations in *.
    destruct (hardLimit p || negb (window_full p)) eqn:El; cbn [orb].
    { split_and!; first [done | lia | by apply not_eq_sym | by left]. }
    destruct (String.eqb_spec candidate (effectiveMode_ p)) as [-> | Hce].
    { split_and!; first [done | lia | by apply not_eq_sym | by left]. }
    set (streak := if String.eqb _ candidate then _ else 1).
    assert (1 <= streak <= 3) as Hst by (unfold streak; destruct (String.eqb _ _); lia).
    destruct (3 <=? streak) eqn:E3.
    + rewrite String.eqb_refl. split_and!; first [done | lia | by apply not_eq_sym | by left].
    + destruct (String.eqb_spec (effectiveMode_ p) candidate) as [E | Hn]; [by symmetry in E |].
      split_and!; first [done | lia | (split; [lia | done]) | by right].
  - destruct (Hma eq_refl) as [_ E0]. assert (pendingAutomaticMode_ p = "") as Ep by by apply Hp.
    pose proof (manual_real p Hm Ea) as Hr. split_and!; first [done | lia | rewrite Ep; by apply not_eq_sym, real_nonempty].
Qed.

Lemma recompute_settled p : ready p ->
  settled (recompute p) /\ is_automatic (recompute p) = is_automatic p /\ hardLimit (recompute p) = hardLimit p /\
  window_full (recompute p) = window_full p /\ automaticMode (recompute p) = automaticMode p.
Proof.
  intros Hr. pose proof (next_mode_spec p Hr) as Hn. unfold recompute.
  destruct (next_mode p) as [[effective pending] streak]. destruct Hn as (He & Hp & Hs & Hm & Ha). split; [| by split_and!].
  destruct Hr as [R1 R2 R3 R4 R5 R6]. split.
  - split; try done. intros Hf. split; [by apply R5 | by apply Hm].
  - intros Hf. by apply Hm.
  - intros Hau Hl. destruct (Ha Hau) as [[E _] | [E _]]; [exact E |]. change (hardLimit p || negb (window_full p) = true) in Hl. congruence.
  - done.
  - done.
  - done.
Qed.

Section ProfileProofs.
  Context `{QtText}.

Lemma normalizeMode_known mode : normalizeMode mode ∈ all_modes.
Proof.
  unfold normalizeMode, all_modes. cbv zeta. generalize (trimmed mode) as value. intros value.
  destruct (String.eqb value "High" || String.eqb value "Balanced" || String.eqb value "Power Saving") eqn:E; [| set_solver].
  rewrite !orb_true_iff, !String.eqb_eq in E. set_solver.
Qed.

Lemma keep_window_short frames : (length (keep_window frames) <= kFrameWindowSize)%nat.
Proof. unfold keep_window. rewrite length_drop. lia. Qed.

(** A call either leaves the profile alone or recomputes it. *)
Definition recomputes (c : profile_call) (p : PerformanceProfile) : bool :=
  match c with
  | PSetMode mode => negb (String.eqb (pf_mode_ p) (normalizeMode mode))
  | PGraphics _ _ _ => true
  | PFrame frameMs => negb (ignored_frame frameMs p)
  end.

Lemma step_recomputes c p : settled p ->
  if recomputes c p
  then exists p1, profile_step c p = recompute p1 /\ ready p1 /\ effectiveMode_ p1 = effectiveMode_ p /\
         ((pendingAutomaticMode_ p1 = pendingAutomaticMode_ p /\ pendingAutomaticModeStreak_ p1 = pendingAutomaticModeStreak_ p) \/
          pendingAutomaticModeStreak_ p1 = 0)
  else profile_step c p = p.
Proof.
  intros [[R1 R2 R3 R4 R5 R6] _ _ _ _ _].
  destruct c as [mode | hw sw rate | frameMs]; cbn [recomputes profile_step].
  - unfold setMode. destruct (String.eqb _ _); cbn [negb]; [done |]. eexists. split; [reflexivity |].
    split; [| split; [done | by right]]. split; try done; [apply normalizeMode_known | split; [cbn; lia | constructor]].
  - eexists. split; [reflexivity |]. split; [| split; [done | by left]]. by split.
  - unfold observeFrameTime. destruct (ignored_frame frameMs p) eqn:Ei; cbn [negb]; [done |].
    eexists. split; [reflexivity |]. split; [| split; [done | by left]].
    unfold ignored_frame in Ei. apply orb_false_iff in Ei as [Ei Ez]. apply orb_false_iff in Ei as [Ea Ef]. apply negb_false_iff in Ea.
    split; try done; cbn [frameTimesMs_ field_update].
    + split; [apply keep_window_short |]. unfold keep_window. apply Forall_drop, Forall_app. split; [apply R3 |].
      constructor; [| constructor]. apply kept_positive. by rewrite Ef, Ez.
    + intros Hm. change (is_automatic p = false) in Hm. congruence.
Qed.

Lemma step_settled c p : settled p -> settled (profile_step c p).
Proof.
  intros Hp. pose proof (step_recomputes c p Hp) as Hs. destruct (recomputes c p); [| by rewrite Hs].
  destruct Hs as (p1 & -> & Hr & _). by apply recompute_settled.
Qed.

Lemma initial_settled stored : settled (initial_profile stored).
Proof.
  apply recompute_settled. split; cbn; try done; [apply normalizeMode_known | unfold real_modes; set_solver |].
  split; [lia | constructor].
Qed.

Lemma run_settled cs p : settled p -> settled (run_profile cs p).
Proof. revert p. induction cs as [| c cs IH]; intros p Hp; [done |]. apply IH. by apply step_settled. Qed.

(** whatever is set, measured and reported, the profile is consistent: the
    window holds at most 24 positive frame times and the published rates are
    theirs, a mode that the user chose is in effect and stops the measuring, a
    limited machine is in the mode its limit asks for, the capabilities are
    those of the mode in effect, the reason is the current one, and fewer than
    three confirmations are pending, never for the mode in effect. *)
Theorem profile_consistent stored cs : settled (run_profile cs (initial_profile stored)).
Proof. apply run_settled, initial_settled. Qed.

(** ** Changing the mode *)

(** The mode that the measurements asked for, at each recomputation. *)
Fixpoint candidates (cs : list profile_call) (p : PerformanceProfile) : list string :=
  match cs with
  | [] => []
  | c :: cs =>
      let p' := profile_step c p in
      (if recomputes c p then [automaticMode p'] else []) ++ candidates cs p'
  end.

Lemma candidates_snoc cs c p :
  candidates (cs ++ [c]) p =
  candidates cs p ++ (if recomputes c (run_profile cs p) then [automaticMode (profile_step c (run_profile cs p))] else []).
Proof.
  revert p. induction cs as [| c' cs IH]; intros p; cbn [candidates app]; [by rewrite app_nil_r |].
  by rewrite IH, <- app_assoc.
Qed.

(** The pending mode was asked for by the last recomputations. *)
Definition confirmed (trace : list string) (p : PerformanceProfile) : Prop :=
  exists older, trace = older ++ repeat (pendingAutomaticMode_ p) (Z.to_nat (pendingAutomaticModeStreak_ p)).

Lemma repeat_snoc {A} (x : A) n : repeat x n ++ [x] = repeat x (S n).
Proof. induction n as [| n IH]; cbn; [done |]. f_equal. exact IH. Qed.

Lemma recompute_confirmed trace p p1 :
  ready p1 -> is_automatic p1 = true -> confirmed trace p ->
  ((pendingAutomaticMode_ p1 = pendingAutomaticMode_ p /\ pendingAutomaticModeStreak_ p1 = pendingAutomaticModeStreak_ p) \/
   pendingAutomaticModeStreak_ p1 = 0) ->
  confirmed (trace ++ [automaticMode p1]) (recompute p1) /\
  (hardLimit p1 || negb (window_full p1) = false -> effectiveMode_ (recompute p1) <> effectiveMode_ p1 ->
   exists older, trace ++ [automaticMode p1] = older ++ repeat (effectiveMode_ (recompute p1)) 3).
Proof.
  intros Hr Ha [older Ht] Hp. destruct Hr as [_ _ _ _ _ [Hs Hz]]. unfold recompute, next_mode. rewrite Ha. cbn [negb]. cbv zeta.
  pose proof (real_nonempty _ (automaticMode_real p1)) as Hne. set (candidate := automaticMode p1) in *. clearbody candidate.
  assert (forall x, confirmed (trace ++ [candidate]) x \/ pendingAutomaticModeStreak_ x <> 0) as Hzero.
  { intros x. destruct (decide (pendingAutomaticModeStreak_ x = 0)) as [E |]; [left | by right].
    exists (trace ++ [candidate]). rewrite E. cbn. by rewrite app_nil_r. }
  destruct (hardLimit p1 || negb (window_full p1)) eqn:El; cbn [orb].
  { split; [| done]. match goal with |- confirmed _ ?x => by destruct (Hzero x) end. }
  destruct (String.eqb_spec candidate (effectiveMode_ p1)) as [-> | Hce].
  { split; [| done]. match goal with |- confirmed _ ?x => by destruct (Hzero x) end. }
  assert (String.eqb (pendingAutomaticMode_ p1) candidate = true ->
          trace = older ++ repeat candidate (Z.to_nat (pendingAutomaticModeStreak_ p1))) as Hpend.
  { intros Ep%String.eqb_eq. destruct Hp as [[E1 E2] | E0]; [by rewrite <- Ep, E1, E2 |]. rewrite (proj1 Hz E0) in Ep. by subst. }
  unfold kAutomaticModeConfirmations in *. destruct (String.eqb (pendingAutomaticMode_ p1) candidate) eqn:Ep.
  - specialize (Hpend eq_refl). destruct (3 <=? _) eqn:E3.
    + rewrite String.eqb_refl. split; [match goal with |- confirmed _ ?x => by destruct (Hzero x) end |]. intros _ _.
      exists older. cbn [effectiveMode_]. rewrite Hpend, <- app_assoc, repeat_snoc. by replace (pendingAutomaticModeStreak_ p1) with 2 by lia.
    + destruct (String.eqb_spec (effectiveMode_ p1) candidate) as [E | _]; [by symmetry in E |]. split; [| done].
      exists older. cbn [pendingAutomaticMode_ pendingAutomaticModeStreak_]. rewrite Hpend, <- app_assoc, repeat_snoc. do 3 f_equal. lia.
  - cbn [Z.leb Z.compare]. change (3 <=? 1) with false. cbn iota.
    destruct (String.eqb_spec (effectiveMode_ p1) candidate) as [E | _]; [by symmetry in E |]. split; [| done]. by exists trace.
Qed.

Lemma step_confirmed c trace p : settled p -> confirmed trace p ->
  confirmed (trace ++ (if recomputes c p then [automaticMode (profile_step c p)] else [])) (profile_step c p).
Proof.
  intros Hp Ht. pose proof (step_recomputes c p Hp) as Hs.
  destruct (recomputes c p); [| by rewrite Hs, app_nil_r]. destruct Hs as (p1 & -> & Hr & _ & Hpend).
  destruct (recompute_settled p1 Hr) as ([Hset _ _ _ _ _] & Ea & _ & _ & ->). destruct (is_automatic p1) eqn:Eau.
  - by eapply recompute_confirmed.
  - destruct (rd_manual _ Hset Ea) as [_ E0]. eexists. rewrite E0. cbn. by rewrite app_nil_r.
Qed.

Lemma run_snoc cs c p : run_profile (cs ++ [c]) p = profile_step c (run_profile cs p).
Proof. unfold run_profile. by rewrite foldl_app. Qed.

Lemma run_confirmed cs p : settled p -> confirmed [] p -> confirmed (candidates cs p) (run_profile cs p).
Proof.
  intros Hp H0. induction cs as [| c cs IH] using rev_ind; [done |]. rewrite candidates_snoc, run_snoc.
  apply step_confirmed; [by apply run_settled | done].
Qed.

(** a measured change of mode is confirmed: on a machine without a hard
    limit and with a full window, the automatic mode in effect changes only
    when the last three recomputations all asked for the new one. *)
Theorem mode_change_confirmed stored cs c :
  let p := run_profile cs (initial_profile stored) in
  let p' := profile_step c p in
  is_automatic p' = true -> hardLimit p' = false -> window_full p' = true -> effectiveMode_ p' <> effectiveMode_ p ->
  exists older, candidates (cs ++ [c]) (initial_profile stored) = older ++ repeat (effectiveMode_ p') 3.
Proof.
  intros p p' Ha Hh Hw Hc. assert (settled p) as Hp by apply run_settled, initial_settled.
  assert (confirmed (candidates cs (initial_profile stored)) p) as Ht.
  { apply run_confirmed; [apply initial_settled |]. exists []. unfold initial_profile, recompute, next_mode.
    by destruct (negb (is_automatic _)). }
  rewrite candidates_snoc. fold p. subst p'. pose proof (step_recomputes c p Hp) as Hs.
  destruct (recomputes c p); [| by rewrite Hs in Hc]. destruct Hs as (p1 & E & Hr & Ee & Hpend). rewrite E in *.
  destruct (recompute_settled p1 Hr) as (_ & Ea & Eh & Ew & Em). rewrite Em. rewrite Ea in Ha. rewrite Eh in Hh. rewrite Ew in Hw.
  eapply recompute_confirmed; try done; [by rewrite Hh, Hw | by rewrite Ee].
Qed.

(** what the measurements ask for: with a full window on a machine without
    a hard limit, power saving exactly when at least two of the last 24 frames
    took 40 ms or more, balanced exactly when at least two took 16.7 ms or more
    and not two 40 ms, high otherwise: one slow frame changes nothing. *)
Theorem measured_mode stored cs :
  let p := run_profile cs (initial_profile stored) in
  hardLimit p = false -> window_full p = true ->
  automaticMode p =
    if (2 <=? slow kPowerSavingFrameThresholdMs (frameTimesMs_ p))%nat then "Power Saving"
    else if (2 <=? slow kBalancedFrameThresholdMs (frameTimesMs_ p))%nat then "Balanced" else "High".
Proof.
  intros p Hh Hw. destruct (run_settled cs (initial_profile stored) (initial_settled stored)) as [[_ _ [Hl Hpos] Hm _ _] _ _ _ _ _].
  fold p in Hl, Hpos, Hm. unfold window_full in Hw. apply negb_true_iff, Nat.ltb_ge in Hw.
  assert (length (frameTimesMs_ p) = kFrameWindowSize) as Hn by lia.
  assert (forall t, SFleb t (observedP95FrameMs_ (pf_metrics p)) = (2 <=? slow t (frameTimesMs_ p))%nat) as Hp95.
  { intros t. apply eq_true_iff_eq. rewrite Nat.leb_le, <- p95_slow by done. rewrite Hm. unfold metrics_of.
    by destruct (frameTimesMs_ p). }
  unfold automaticMode, hardLimit in *. apply orb_false_iff in Hh as [-> ->].
  assert (window_full p = true) as -> by (unfold window_full; apply negb_true_iff, Nat.ltb_ge; lia).
  cbv zeta. cbn [negb]. by rewrite !Hp95.
Qed.

End ProfileProofs.

(** ** The benchmark gate *)

Record BenchmarkEnvironment := mk_benchmark_environment {
  env_hardwareAcceleration : bool;
  env_softwareRendering : bool;
  env_refreshRateHz : double;
  env_batterySaverEnabled : bool;
}.

Record BenchmarkMeasurements := mk_measurements {
  bm_warmUpWorkingSetBytes : Z;
  bm_peakWorkingSetBytes : Z;
  bm_p95FrameMs : double;
  bm_p99FrameMs : double;
  bm_animationBurstsOver33Ms : Z;
}.

Record BenchmarkVerdict := mk_verdict {
  supported : bool;
  passed : bool;
  workingSetGrowthPercent : double;
  unsupportedReasons : list string;
  failures : list string;
}.

Definition kMinimumRefreshRateHz : double := of_int 60.
Definition kMaximumWorkingSetGrowthPercent : double := of_int 15.
Definition kMaximumP95FrameMs : double := decimal 167 10.
Definition kMaximumAnimationBurstsOver33Ms : Z := 1.

Definition unsupported_reasons (environment : BenchmarkEnvironment) : list string :=
  (if env_softwareRendering environment then ["software-rendering"] else []) ++
  (if env_hardwareAcceleration environment then [] else ["no-hardware-acceleration"]) ++
  (if SFltb (env_refreshRateHz environment) kMinimumRefreshRateHz then ["refresh-rate-below-60hz"] else []) ++
  (if env_batterySaverEnabled environment then ["battery-saver-enabled"] else []).

Definition bad_working_set (m : BenchmarkMeasurements) : bool :=
  (bm_warmUpWorkingSetBytes m <=? 0) || (bm_peakWorkingSetBytes m <? bm_warmUpWorkingSetBytes m).

Definition working_set_growth (m : BenchmarkMeasurements) : double :=
  if bad_working_set m then of_int 0
  else ddiv (dmul (of_int 100) (of_int (bm_peakWorkingSetBytes m - bm_warmUpWorkingSetBytes m))) (of_int (bm_warmUpWorkingSetBytes m)).

Definition evaluate (environment : BenchmarkEnvironment) (m : BenchmarkMeasurements) : BenchmarkVerdict :=
  match unsupported_reasons environment with
  | [] =>
      let growth := working_set_growth m in
      let failed :=
        (if bad_working_set m then ["invalid-working-set-sample"]
         else if SFltb kMaximumWorkingSetGrowthPercent growth then ["working-set-growth-over-15-percent"] else []) ++
        (if SFltb kMaximumP95FrameMs (bm_p95FrameMs m) then ["p95-over-16.7ms"] else []) ++
        (if kMaximumAnimationBurstsOver33Ms <? bm_animationBurstsOver33Ms m then ["too-many-animation-bursts-over-33.3ms"] else []) in
      mk_verdict true (bool_decide (failed = [])) growth [] failed
  | reasons => mk_verdict false false (of_int 0) reasons []
  end.

(** A benchmark passes exactly on a supported machine with a valid sample, a
    growth of at most 15 percent, a 95th percentile that is not over 16.7 ms and
    at most one long burst; every verdict that does not pass names a reason. *)
Lemma evaluate_passes environment m :
  (passed (evaluate environment m) = true <->
   unsupported_reasons environment = [] /\ bad_working_set m = false /\
   SFltb kMaximumWorkingSetGrowthPercent (working_set_growth m) = false /\ SFltb kMaximumP95FrameMs (bm_p95FrameMs m) = false /\
   bm_animationBurstsOver33Ms m <= kMaximumAnimationBurstsOver33Ms) /\
  (passed (evaluate environment m) = false ->
   unsupportedReasons (evaluate environment m) <> [] \/ failures (evaluate environment m) <> []).
Proof.
  unfold evaluate. destruct (unsupported_reasons environment) as [| r l]; [| split; [split; [done | by intros [? _]] | by left]].
  cbv zeta. cbn [passed unsupportedReasons failures]. rewrite bool_decide_eq_true, bool_decide_eq_false. split; [| by right].
  destruct (bad_working_set m); [by split; [| intros (_ & ? & _)] |].
  destruct (SFltb kMaximumWorkingSetGrowthPercent _); [by split; [| intros (_ & _ & ? & _)] |].
  destruct (SFltb kMaximumP95FrameMs _); [by split; [| intros (_ & _ & _ & ? & _)] |].
  destruct (Z.ltb_spec kMaximumAnimationBurstsOver33Ms (bm_animationBurstsOver33Ms m)) as [Hb | Hb]; split; try done.
  - intros (_ & _ & _ & _ & Hle). lia.
Qed.

(** ** Witnesses *)

(** A fast screen, a full window of quick frames and then slow ones. *)
Definition ex_measured : list profile_call :=
  PGraphics true false (of_int 144) :: repeat (PFrame (of_int 10)) 24 ++ repeat (PFrame (of_int 50)) 3.

Lemma mode_change_confirmed_witness :
  effectiveMode_ (profile_step (PFrame (of_int 50)) (run_profile ex_measured (initial_profile None))) = "Power Saving" /\
  exists older, candidates (ex_measured ++ [PFrame (of_int 50)]) (initial_profile None) =
    older ++ repeat (effectiveMode_ (profile_step (PFrame (of_int 50)) (run_profile ex_measured (initial_profile None)))) 3.
Proof.
  split; [vm_compute; reflexivity |].
  apply (mode_change_confirmed None ex_measured (PFrame (of_int 50))); vm_compute; (reflexivity || discriminate).
Defined.

Lemma measured_mode_witness :
  automaticMode (run_profile ex_measured (initial_profile None)) =
    (if (2 <=? slow kPowerSavingFrameThresholdMs (frameTimesMs_ (run_profile ex_measured (initial_profile None))))%nat then "Power Saving"
     else if (2 <=? slow kBalancedFrameThresholdMs (frameTimesMs_ (run_profile ex_measured (initial_profile None))))%nat
     then "Balanced" else "High").
Proof. apply (measured_mode None ex_measured); vm_compute; reflexivity. Defined.
