(* ===== verification/Diagnostics.v ===== *)
(** * Diagnostics: the connection log

    Models client-cpp/gui/src/network_diagnostics.{hpp,cpp}: whether logging is
    on, where the logs are, and the record that a connection event leaves.  The
    environment, the directories, the session id and the clock are arguments;
    Qt's [QString::left] is a parameter.  The log is a map from file paths to
    contents, with the line ends as they are written to the stream. *)

From Stdlib Require Import Ascii.
From S2P Require Import Prelude Text.

Definition carriage_return : ascii := "013".
Definition newline : ascii := "010".

Class LogText := { qt_left : Z -> string -> string  (* QString::left *) }.

Class LogTextLaws `{QtText} `{LogText} : Prop := {
  left_prefix n s : exists rest, s = qt_left n s +:+ rest;
  left_size n s : 0 <= n -> qsize (qt_left n s) <= n;
  trimmed_part s : exists before after, s = before +:+ trimmed s +:+ after;
}.

(** What the program finds in its environment. *)
Record log_env := mk_log_env {
  le_directoryOverride : string;      (* LAN_CHAT_DIAGNOSTICS_DIR *)
  le_override : string;               (* LAN_CHAT_DIAGNOSTICS *)
  le_dataLocation : string;           (* AppLocalDataLocation *)
  le_cleanPath : string -> string;    (* QDir::cleanPath *)
  le_filePath : string -> string -> string;  (* QDir(directory).filePath(name) *)
  le_sessionId : string;              (* the start time and the process id *)
}.

Section Diagnostics.
  Context `{QtText} `{LogText}.

Definition diagnosticDirectory (env : log_env) : string :=
  if negb (is_empty (le_directoryOverride env)) then le_cleanPath env (le_directoryOverride env)
  else le_cleanPath env (le_dataLocation env +:+ "/logs").

(** [None] without an override; the variable's bytes are trimmed and lowered. *)
Definition environmentOverride (value : string) : option bool :=
  let value := ascii_lower (ascii_trimmed value) in
  if is_empty value then None else Some (String.eqb value "1" || String.eqb value "true" || String.eqb value "yes").

Definition enabled (env : log_env) (setting : bool) : bool := default setting (environmentOverride (le_override env)).

Definition logPath (env : log_env) (setting : bool) (prefix : string) : string :=
  if negb (enabled env setting) then ""
  else le_filePath env (diagnosticDirectory env) (prefix +:+ "-" +:+ le_sessionId env +:+ ".log").

Definition sessionLogFilePath (env : log_env) (setting : bool) : string := logPath env setting "network".
Definition hostServerLogFilePath (env : log_env) (setting : bool) : string := logPath env setting "host-server".

Definition blank_break (c : ascii) : ascii := if Ascii.eqb c carriage_return || Ascii.eqb c newline then " " else c.

Definition oneLine (value : string) : string := qt_left 512 (trimmed (string_map blank_break value)).

Record connection_event := mk_connection_event {
  ce_time : string; ce_event : string; ce_endpoint : string; ce_port : Z; ce_attempt : Z; ce_reason : string;
}.

Definition record_of (e : connection_event) : string :=
  ce_time e +:+ " event=" +:+ oneLine (ce_event e) +:+ " endpoint=" +:+ oneLine (ce_endpoint e) +:+ ":" +:+ to_string (ce_port e) +:+
  " attempt=" +:+ to_string (ce_attempt e) +:+
  (if is_empty (trimmed (ce_reason e)) then "" else " reason=" +:+ oneLine (ce_reason e)).

Record log_state := mk_log_state { ls_setting : bool; ls_files : gmap string string }.

#[export] Instance eta_log_state : EtaRecord log_state := fun s => {| ls_setting := ls_setting s; ls_files := ls_files s |}.

Definition setEnabled (on : bool) (s : log_state) : log_state := s <| ls_setting := on |>.

(** [opened] is the answer of QFile::open. *)
Definition writeConnectionEvent (env : log_env) (opened : bool) (e : connection_event) (s : log_state) : log_state :=
  let path := sessionLogFilePath env (ls_setting s) in
  if is_empty path then s
  else if negb opened then s
  else s <| ls_files ::= fun files => <[path := default "" (files !! path) +:+ record_of e +:+ String newline ""]> files |>.

Inductive log_call := LSetEnabled (on : bool) | LWrite (opened : bool) (e : connection_event).

Definition log_step (env : log_env) (c : log_call) (s : log_state) : log_state :=
  match c with LSetEnabled on => setEnabled on s | LWrite opened e => writeConnectionEvent env opened e s end.

Definition run_log (env : log_env) (cs : list log_call) (s : log_state) : log_state := foldl (fun s c => log_step env c s) s cs.

(** ** The records of a log *)

(** The complete lines of a file. *)
Fixpoint lines (acc s : string) : list string :=
  match s with
  | "" => []
  | String c s => if Ascii.eqb c newline then acc :: lines "" s else lines (acc +:+ String c "") s
  end.

(** The events that are recorded: those written while logging is on. *)
Fixpoint recorded (env : log_env) (setting : bool) (cs : list log_call) : list connection_event :=
  match cs with
  | [] => []
  | LSetEnabled on :: cs => recorded env on cs
  | LWrite opened e :: cs => (if enabled env setting && opened then [e] else []) ++ recorded env setting cs
  end.

Definition unbroken (c : ascii) : bool := negb (Ascii.eqb c carriage_return || Ascii.eqb c newline).

Lemma lines_app acc s t : string_forall unbroken s = true -> lines acc (s +:+ String newline t) = (acc +:+ s) :: lines "" t.
Proof.
  revert acc. induction s as [| c s IH]; intros acc Hs; cbn [lines string_forall] in *; [by rewrite str_app_nil_r |].
  apply andb_true_iff in Hs as [Hc Hs]. unfold unbroken in Hc. destruct (Ascii.eqb c newline) eqn:E; [by rewrite orb_true_r in Hc |].
  cbn [String.app]. cbn [lines]. rewrite E, IH by done. by rewrite str_app_assoc.
Qed.

Lemma blank_break_unbroken s : string_forall unbroken (string_map blank_break s) = true.
Proof.
  induction s as [| c s IH]; cbn [string_map string_forall]; [done |]. rewrite IH, andb_true_r. unfold blank_break, unbroken.
  by destruct (Ascii.eqb c carriage_return || Ascii.eqb c newline) eqn:E; [| rewrite E].
Qed.

End Diagnostics.

Section Records.
  Context `{LogTextLaws}.

Lemma oneLine_unbroken value : string_forall unbroken (oneLine value) = true.
Proof.
  unfold oneLine. pose proof (blank_break_unbroken value) as Hb. destruct (trimmed_part (string_map blank_break value)) as (a & c & E).
  rewrite E in Hb. rewrite !string_forall_app in Hb. apply andb_true_iff in Hb as [_ Hb]. apply andb_true_iff in Hb as [Hb _].
  destruct (left_prefix 512 (trimmed (string_map blank_break value))) as [rest Er].
  rewrite Er, string_forall_app in Hb. by apply andb_true_iff in Hb as [Hb _].
Qed.

Lemma digit_unbroken c : is_digit c = true -> unbroken c = true.
Proof.
  unfold is_digit, unbroken. intros Hd. destruct (Ascii.eqb_spec c carriage_return) as [-> | _]; [done |].
  by destruct (Ascii.eqb_spec c newline) as [-> | _].
Qed.

Lemma number_unbroken z : string_forall unbroken (to_string z) = true.
Proof.
  unfold to_string. destruct (z <? 0) eqn:E; cbn [string_forall]; apply (string_forall_impl is_digit _ _ digit_unbroken), digits_fuel_digits; try done; lia.
Qed.

Lemma record_unbroken e : string_forall unbroken (ce_time e) = true -> string_forall unbroken (record_of e) = true.
Proof.
  intros Ht. unfold record_of. rewrite !string_forall_app, Ht, !oneLine_unbroken, !number_unbroken. destruct (is_empty _); [done |].
  by rewrite string_forall_app, oneLine_unbroken.
Qed.

(** A log as a sequence of records. *)
Definition render (es : list connection_event) : string := foldr (fun e acc => record_of e +:+ String newline acc) "" es.

Lemma render_app es e : render (es ++ [e]) = render es +:+ record_of e +:+ String newline "".
Proof. induction es as [| e' es IH]; cbn [app render foldr]; [done |]. fold (render (es ++ [e])). by rewrite IH, !str_app_assoc. Qed.

Lemma lines_render es : Forall (fun e => string_forall unbroken (ce_time e) = true) es -> lines "" (render es) = map record_of es.
Proof.
  induction 1 as [| e es He _ IH]; [done |]. cbn [render foldr map]. fold (render es). rewrite lines_app by by apply record_unbroken. by rewrite IH.
Qed.

(** The file of this run. *)
Definition network_log (env : log_env) : string :=
  le_filePath env (diagnosticDirectory env) ("network" +:+ "-" +:+ le_sessionId env +:+ ".log").

Lemma run_log_files env cs : network_log env <> "" -> forall setting files es,
  default "" (files !! network_log env) = render es -> dom files ⊆ {[ network_log env ]} ->
  let s := run_log env cs (mk_log_state setting files) in
  default "" (ls_files s !! network_log env) = render (es ++ recorded env setting cs) /\ dom (ls_files s) ⊆ {[ network_log env ]}.
Proof.
  intros Hp. induction cs as [| c cs IH]; intros setting files es Hf Hd; cbn [run_log foldl recorded]; [by rewrite app_nil_r |].
  fold (run_log env cs (log_step env c (mk_log_state setting files))). destruct c as [on | opened e]; cbn [log_step].
  - by apply IH.
  - unfold writeConnectionEvent, sessionLogFilePath, logPath. cbn [ls_setting]. destruct (enabled env setting) eqn:Ee; cbn [negb andb]; [| by apply IH].
    fold (network_log env). rewrite (proj2 (is_empty_false _) Hp). destruct opened; cbn [negb]; [| by apply IH].
    cbv zeta. rewrite app_assoc. apply IH; [| set_solver]. rewrite lookup_insert_eq, render_app, <- Hf. done.
Qed.

(** whatever texts the server, the system and the user put into them, the
    connection log holds exactly one line for every event that was written while
    logging was on, in their order, and nothing of a text spills into a line of
    its own; no text takes more than 512 characters of a line, and no other file
    is written.  The time stamp is taken to have no line break in it. *)
Theorem log_one_line_per_event env setting cs :
  network_log env <> "" -> Forall (fun e => string_forall unbroken (ce_time e) = true) (recorded env setting cs) ->
  let s := run_log env cs (mk_log_state setting ∅) in
  lines "" (default "" (ls_files s !! network_log env)) = map record_of (recorded env setting cs) /\
  dom (ls_files s) ⊆ {[ network_log env ]} /\ forall value, qsize (oneLine value) <= 512.
Proof.
  intros Hp Ht. destruct (run_log_files env cs Hp setting ∅ []) as [Ef Hd]; [done | set_solver |]. cbv zeta. rewrite Ef.
  split_and!; [by apply lines_render | done |]. intros value. by apply left_size.
Qed.

End Records.

(** ** Witness *)

Definition ascii_left : LogText := {| qt_left := fun n s => take_str (Z.to_nat n) s |}.

Lemma ascii_left_laws : @LogTextLaws AsciiText ascii_left.
Proof.
  split; cbn [qt_left ascii_left trimmed qsize AsciiText].
  - intros n s. exists (drop_str (Z.to_nat n) s). by rewrite take_drop_str.
  - intros n s Hn. unfold size. rewrite length_take_str_min. lia.
  - assert (forall s, exists a, s = a +:+ trim_left s) as Hl.
    { induction s as [| c s [a IH]]; [by exists "" |]. cbn [trim_left]. destruct (isspace c); [| by exists ""].
      exists (String c a). cbn. by rewrite <- IH. }
    assert (forall s, exists b, s = trim_right s +:+ b) as Hr.
    { induction s as [| c s [b IH]]; [by exists "" |]. cbn [trim_right]. destruct (trim_right s) as [| c' r] eqn:E.
      - cbn in IH. subst b. destruct (isspace c); by eexists.
      - exists b. cbn. by rewrite IH at 1. }
    intros s. destruct (Hl s) as [a Ea], (Hr (trim_left s)) as [b Eb]. exists a, b. unfold ascii_trimmed. by rewrite <- Eb.
Qed.

Section Witness.

#[local] Existing Instances ascii_left ascii_left_laws.

Definition ex_log_env : log_env := mk_log_env "" " YES " "/data" (fun p => p) (fun d n => d +:+ "/" +:+ n) "20240101-7".

Definition ex_bad_event : connection_event :=
  mk_connection_event "T1" "login_failed" "10.0.0.1" 8888 2 (" bad" +:+ String newline ("T2 event=connected" +:+ String carriage_return "")).

Lemma log_one_line_per_event_witness :
  let s := run_log ex_log_env [LWrite true ex_bad_event; LSetEnabled false; LWrite true ex_bad_event; LWrite false ex_bad_event] (mk_log_state true ∅) in
  lines "" (default "" (ls_files s !! "/data/logs/network-20240101-7.log")) =
    ["T1 event=login_failed endpoint=10.0.0.1:8888 attempt=2 reason=bad T2 event=connected";
     "T1 event=login_failed endpoint=10.0.0.1:8888 attempt=2 reason=bad T2 event=connected"].
Proof.
  refine (eq_trans (proj1 (log_one_line_per_event ex_log_env true
    [LWrite true ex_bad_event; LSetEnabled false; LWrite true ex_bad_event; LWrite false ex_bad_event] _ _)) _).
  - discriminate.
  - vm_compute. repeat constructor.
  - vm_compute. reflexivity.
Defined.

End Witness.
