(* ===== verification/HostSetup.v ===== *)
(** * HostSetup: what a local room needs on disk

    Models client-cpp/gui/src/host_path_resolver.{hpp,cpp},
    local_host_bootstrap.{hpp,cpp} and openssl_runtime.cpp: which server
    executable, certificate, key and database a local room uses, their creation
    before the window is shown, and the directory from which OpenSSL is loaded.
    Qt's path operations are the parameter [QtPaths]; the files that exist and
    the course of the child process are arguments. *)

From Stdlib Require Import Ascii.
From S2P Require Import Prelude Text.

Class QtPaths := {
  cleanPath : string -> string;                       (* QDir::cleanPath *)
  filePath : string -> string -> string;              (* QDir(directory).filePath(name) *)
  absolutePath : string -> string;                    (* QDir::absolutePath *)
  cdUp : string -> option string;                     (* QDir::cdUp *)
  absoluteFile : string -> string;                    (* QFileInfo::absoluteFilePath *)
  completeBaseName : string -> string;
  dirOf : string -> string;                           (* QFileInfo::dir *)
}.

(** The absolute path of a file that exists is not empty. *)
Class QtPathsLaws `{QtPaths} : Prop := { absoluteFile_nonempty path : absoluteFile path <> "" }.

Record HostPaths := mk_paths { serverExe : string; certFile : string; keyFile : string; dbFile : string }.

(** What the resolver finds: the regular files, all that exists, the variable
    LAN_CHAT_TEST_HOST_DATA_ROOT and the directory of generic data. *)
Record host_env := mk_host_env {
  he_isFile : string -> bool;
  he_exists : string -> bool;
  he_testDataRoot : string;
  he_genericData : string;
}.

Section Paths.
  Context `{QtText} `{QtPaths}.

Definition existingFile (env : host_env) (path : string) : string := if he_isFile env path then absoluteFile path else "".

Definition legacyPathsForRoot (root : string) : HostPaths :=
  mk_paths (cleanPath (filePath root "server-go/chat-server.exe")) (cleanPath (filePath root "server-go/certs/server-lan.crt"))
    (cleanPath (filePath root "server-go/certs/server-lan.key")) (cleanPath (filePath root "server-go/chat.db")).

Definition protectedHostDataRoot (env : host_env) : string :=
  let testDataRoot := trimmed (he_testDataRoot env) in
  if negb (is_empty testDataRoot) then cleanPath testDataRoot
  else cleanPath (filePath (he_genericData env) "DUSK1NG/LAN Chat/host").

(** The server at [exe] with its identity in [dataDirectory]. *)
Definition paths_in (exe dataDirectory : string) : HostPaths :=
  mk_paths exe (cleanPath (filePath dataDirectory "certs/server-lan.crt")) (cleanPath (filePath dataDirectory "certs/server-lan.key"))
    (cleanPath (filePath dataDirectory "chat.db")).

Definition pathsForRoot (env : host_env) (root : string) : HostPaths :=
  let legacy := legacyPathsForRoot root in
  let testDataRoot := trimmed (he_testDataRoot env) in
  if negb (is_empty testDataRoot) then paths_in (serverExe legacy) (cleanPath testDataRoot)
  else if he_exists env (certFile legacy) || he_exists env (keyFile legacy) || he_exists env (dbFile legacy) then legacy
  else paths_in (serverExe legacy) (protectedHostDataRoot env).

Definition host_available (env : host_env) (paths : HostPaths) : bool := negb (is_empty (existingFile env (serverExe paths))).

(** The loop: [depth] directories are left to look at. *)
Fixpoint resolve_up (env : host_env) (depth : nat) (candidateRoot : string) : option HostPaths :=
  match depth with
  | O => None
  | S depth =>
      let candidatePaths := pathsForRoot env (absolutePath candidateRoot) in
      if negb (is_empty (existingFile env (serverExe candidatePaths))) then Some candidatePaths
      else match cdUp candidateRoot with Some up => resolve_up env depth up | None => None end
  end.

Definition resolveHostPaths (env : host_env) (applicationDirectory : string) : HostPaths :=
  match resolve_up env 8 (cleanPath applicationDirectory) with
  | Some paths => paths
  | None => pathsForRoot env (cleanPath applicationDirectory)
  end.

Definition key_candidates (serverExe certFile : string) : list string :=
  (let certFile := trimmed certFile in
   if is_empty certFile then []
   else (if is_empty (completeBaseName certFile) then [] else [filePath (dirOf certFile) (completeBaseName certFile +:+ ".key")]) ++
        [filePath (dirOf certFile) "server-lan.key"]) ++
  (let serverExe := trimmed serverExe in
   if is_empty serverExe then [] else [filePath (dirOf serverExe) "certs/server-lan.key"; filePath (dirOf serverExe) "server-lan.key"]).

Fixpoint first_existing (env : host_env) (candidates : list string) : string :=
  match candidates with
  | [] => ""
  | candidate :: rest => let resolved := existingFile env candidate in if is_empty resolved then first_existing env rest else resolved
  end.

Definition findPrivateKeyPath (env : host_env) (serverExe certFile : string) : string := first_existing env (key_candidates serverExe certFile).

(** ** The first start *)

(** The course of the child process; the files that exist once it is over. *)
Inductive bootstrap_run :=
  | NotStarted (error : string)
  | TimedOut
  | Finished (normalExit : bool) (exitCode : Z) (standardError standardOutput : string).

Definition processDetail (standardError standardOutput : string) : string :=
  let detail := trimmed standardError in
  let output := trimmed standardOutput in
  if is_empty output then detail
  else (if is_empty detail then detail else detail +:+ String "010"%char "") +:+ output.

Definition has_identity (isFile : string -> bool) (paths : HostPaths) : bool :=
  isFile (certFile paths) && isFile (keyFile paths) && isFile (dbFile paths).

(** The arguments of the child process. *)
Definition bootstrap_arguments (paths : HostPaths) : list string :=
  ["-initialize-local-host"; "-cert"; certFile paths; "-key"; keyFile paths; "-db"; dbFile paths].

(** [isFile] before and [isFile'] after the child process, if there is one; the
    result is the error, and whether a process was started. *)
Definition ensureInitialized (isFile isFile' : string -> bool) (run : bootstrap_run) (paths : HostPaths) : outcome unit * bool :=
  if negb (isFile (serverExe paths)) then (Fail "Local Go Server executable is missing.", false)
  else if has_identity isFile paths then (Ok tt, false)
  else match run with
       | NotStarted error => (Fail ("Unable to start local host initialization: " +:+ error), true)
       | TimedOut => (Fail "Local host initialization timed out.", true)
       | Finished normalExit exitCode standardError standardOutput =>
           let detail := processDetail standardError standardOutput in
           if negb normalExit || negb (exitCode =? 0)
           then (Fail ("Local host initialization failed" +:+ (if is_empty detail then "" else ": " +:+ detail)), true)
           else if negb (has_identity isFile' paths)
           then (Fail "Local host initialization completed without creating all required files.", true)
           else (Ok tt, true)
       end.

(** The part of main that decides whether a local room is offered: the paths,
    whether it is, and the message if it is not. *)
Definition local_host (env : host_env) (isFile' : string -> bool) (run : bootstrap_run) (applicationDirectory : string) : HostPaths * bool * string :=
  let hostPaths := resolveHostPaths env applicationDirectory in
  let bundledHostAvailable := host_available env hostPaths in
  let bootstrap := if bundledHostAvailable then (ensureInitialized (he_isFile env) isFile' run hostPaths).1 else Fail "" in
  let ready := match bootstrap with Ok _ => true | Fail _ => false end in
  (hostPaths, bundledHostAvailable && ready,
   if negb bundledHostAvailable then "此安装包不包含本地服务端；请使用主机端创建聊天室，或选择加入局域网聊天室。"
   else "Local host initialization failed: " +:+ match bootstrap with Fail error => error | Ok _ => "" end).

End Paths.

(** ** OpenSSL *)

(** What the first call finds; [None] for an answer of SetDllDirectoryW without error. *)
Record openssl_env := mk_openssl_env {
  oe_variable : string;               (* LAN_CHAT_OPENSSL_RUNTIME_DIR *)
  oe_packagedDirectory : string;      (* openssl beside the executable *)
  oe_isDir : string -> bool;
  oe_exists : string -> bool;
  oe_filePath : string -> string -> string;
  oe_setDirectory : option Z;         (* the Windows error *)
}.

Section OpenSsl.
  Context `{QtText}.

Definition configure_openssl (env : openssl_env) : outcome unit :=
  let variable := trimmed (oe_variable env) in
  let runtimeDirectory := if is_empty variable then if oe_isDir env (oe_packagedDirectory env) then oe_packagedDirectory env else "" else variable in
  if is_empty runtimeDirectory then Ok tt
  else if negb (oe_exists env (oe_filePath env runtimeDirectory "libssl-3-x64.dll")) ||
          negb (oe_exists env (oe_filePath env runtimeDirectory "libcrypto-3-x64.dll"))
  then Fail ("OpenSSL runtime is missing: " +:+ runtimeDirectory)
  else match oe_setDirectory env with
       | Some error => Fail ("Unable to prepare OpenSSL runtime directory: " +:+ runtimeDirectory +:+ " (Windows error " +:+ to_string error +:+ ")")
       | None => Ok tt
       end.

(** [call_once]: the answer of the first call is kept. *)
Definition prepare (env : openssl_env) (configured : option (outcome unit)) : option (outcome unit) * outcome unit :=
  let answer := default (configure_openssl env) configured in (Some answer, answer).

End OpenSsl.

(** ** Which files a local room uses *)

Section Resolution.
  Context `{QtText} `{QtPathsLaws}.

(** The directories that are looked at: the program's own and those above it. *)
Fixpoint visited (depth : nat) (root : string) : list string :=
  match depth with
  | O => []
  | S depth => root :: match cdUp root with Some up => visited depth up | None => [] end
  end.

Definition has_server (env : host_env) (root : string) : Prop := he_isFile env (serverExe (legacyPathsForRoot (absolutePath root))) = true.

Lemma existing_iff env path : negb (is_empty (existingFile env path)) = true <-> he_isFile env path = true.
Proof.
  unfold existingFile. destruct (he_isFile env path); [| done]. split; [done |]. intros _.
  apply negb_true_iff, is_empty_false, absoluteFile_nonempty.
Qed.

Lemma exe_of_root env root : serverExe (pathsForRoot env root) = serverExe (legacyPathsForRoot root).
Proof. unfold pathsForRoot. cbv zeta. destruct (negb _); [done |]. by destruct (_ || _ || _)%bool. Qed.

Lemma resolve_up_spec env depth root :
  match resolve_up env depth root with
  | Some paths => exists i r, visited depth root !! i = Some r /\ has_server env r /\ paths = pathsForRoot env (absolutePath r) /\
      forall j r', (j < i)%nat -> visited depth root !! j = Some r' -> ~ has_server env r'
  | None => forall r, r ∈ visited depth root -> ~ has_server env r
  end.
Proof.
  revert root. induction depth as [| depth IH]; intros root; cbn [resolve_up visited]; [set_solver |]. cbv zeta. rewrite exe_of_root.
  destruct (negb _) eqn:E.
  - apply existing_iff in E. exists 0%nat, root. split_and!; try done. lia.
  - assert (~ has_server env root) as Hn by (unfold has_server; intros Hs%existing_iff; congruence).
    destruct (cdUp root) as [up |]; [| intros r ->%list_elem_of_singleton; done].
    specialize (IH up). destruct (resolve_up env depth up) as [paths |].
    + destruct IH as (i & r & Hi & Hs & -> & Hj). exists (S i), r. split_and!; try done.
      intros [| j] r' Hlt Hr'; cbn in Hr'; [by injection Hr' as <- | apply (Hj j r'); [lia | done]].
    + intros r [-> | Hr]%elem_of_cons; [done | by apply IH].
Qed.

(** Where the certificate, the key and the database are: always together. *)
Definition identity_in (directory : string) (paths : HostPaths) : Prop := paths = paths_in (serverExe paths) directory.

Lemma identity_of_root env root :
  let paths := pathsForRoot env root in
  let legacy := legacyPathsForRoot root in
  let legacyIdentity := he_exists env (certFile legacy) || he_exists env (keyFile legacy) || he_exists env (dbFile legacy) in
  (trimmed (he_testDataRoot env) <> "" -> identity_in (cleanPath (trimmed (he_testDataRoot env))) paths) /\
  (trimmed (he_testDataRoot env) = "" ->
   if legacyIdentity then paths = legacy else identity_in (cleanPath (filePath (he_genericData env) "DUSK1NG/LAN Chat/host")) paths).
Proof.
  cbv zeta. unfold pathsForRoot, protectedHostDataRoot. cbv zeta. split.
  - intros Hn%is_empty_false. by rewrite Hn.
  - intros Ht. rewrite Ht. cbn [is_empty negb]. by destruct (_ || _ || _)%bool.
Qed.

(** the local room is that of the nearest directory, the program's own or
    one of the seven above it, that holds a server executable, or of the
    program's directory if none does.  Its certificate, key and database are
    always taken together from one place: the test directory if one is set,
    whatever files exist elsewhere; otherwise beside the server if a room was
    ever kept there, and else the user's own data directory. *)
Theorem resolved_paths env applicationDirectory :
  let paths := resolveHostPaths env applicationDirectory in
  let dirs := visited 8 (cleanPath applicationDirectory) in
  exists root, paths = pathsForRoot env root /\
    ((exists i r, dirs !! i = Some r /\ root = absolutePath r /\ has_server env r /\
        forall j r', (j < i)%nat -> dirs !! j = Some r' -> ~ has_server env r') \/
     (root = cleanPath applicationDirectory /\ forall r, r ∈ dirs -> ~ has_server env r)) /\
    let legacy := legacyPathsForRoot root in
    let legacyIdentity := he_exists env (certFile legacy) || he_exists env (keyFile legacy) || he_exists env (dbFile legacy) in
    (trimmed (he_testDataRoot env) <> "" -> identity_in (cleanPath (trimmed (he_testDataRoot env))) paths) /\
    (trimmed (he_testDataRoot env) = "" ->
     if legacyIdentity then paths = legacy else identity_in (cleanPath (filePath (he_genericData env) "DUSK1NG/LAN Chat/host")) paths).
Proof.
  cbv zeta. unfold resolveHostPaths. pose proof (resolve_up_spec env 8 (cleanPath applicationDirectory)) as Hr.
  destruct (resolve_up _ _ _) as [paths |].
  - destruct Hr as (i & r & Hi & Hs & -> & Hj). exists (absolutePath r). split; [done |].
    split; [left; by exists i, r | apply identity_of_root].
  - exists (cleanPath applicationDirectory). split; [done |]. split; [by right | apply identity_of_root].
Qed.

(** a local room is offered exactly when its server is there and its
    certificate, key and database are there too, either from the beginning, and
    then no process is started, or after an initialization that ended normally
    with exit code zero. *)
Theorem local_host_offered env isFile' run applicationDirectory :
  let '(paths, offered, _) := local_host env isFile' run applicationDirectory in
  offered = true <->
  he_isFile env (serverExe paths) = true /\
  (has_identity (he_isFile env) paths = true \/
   (has_identity isFile' paths = true /\ exists errors output, run = Finished true 0 errors output)).
Proof.
  unfold local_host. cbv zeta. generalize (resolveHostPaths env applicationDirectory). intros paths. unfold host_available.
  rewrite andb_true_iff, existing_iff.
  destruct (negb (is_empty (existingFile env (serverExe paths)))) eqn:E; [| split; [intros [_ ?]; done |]; intros [Hs%existing_iff _]; congruence].
  apply existing_iff in E. unfold ensureInitialized. rewrite E. cbn [negb]. destruct (has_identity (he_isFile env) paths); cbn [fst].
  { split; [intros _; by split; [| left] | done]. }
  destruct run as [error | | normal exitCode errors output]; cbn [fst].
  - split; [by intros [_ ?] | intros (_ & [? | (_ & ? & ? & ?)]); done].
  - split; [by intros [_ ?] | intros (_ & [? | (_ & ? & ? & ?)]); done].
  - destruct normal; cbn [negb orb]; [| split; [by intros [_ ?] | intros (_ & [? | (_ & ? & ? & ?)]); congruence]].
    destruct (Z.eqb_spec exitCode 0) as [-> | Hc]; cbn [negb]; [| split; [by intros [_ ?] | intros (_ & [? | (_ & ? & ? & ?)]); congruence]].
    destruct (has_identity isFile' paths); cbn [negb fst]; [| split; [by intros [_ ?] | intros (_ & [? | (? & _)]); congruence]].
    split; [intros _; split; [done | right; eauto] | done].
Qed.

(** The key that is found is that of the first candidate that exists. *)
Lemma private_key_found env exe cert :
  let found := findPrivateKeyPath env exe cert in
  (found = "" <-> forall c, c ∈ key_candidates exe cert -> he_isFile env c = false) /\
  (found <> "" -> exists i c, key_candidates exe cert !! i = Some c /\ found = absoluteFile c /\ he_isFile env c = true /\
     forall j c', (j < i)%nat -> key_candidates exe cert !! j = Some c' -> he_isFile env c' = false).
Proof.
  cbv zeta. unfold findPrivateKeyPath. induction (key_candidates exe cert) as [| c l [IH1 IH2]]; cbn [first_existing]; [split; [set_solver | done] |].
  cbv zeta. assert (existingFile env c = if he_isFile env c then absoluteFile c else "") as -> by done. destruct (he_isFile env c) eqn:E.
  - pose proof (absoluteFile_nonempty c) as Hn. rewrite (proj2 (is_empty_false _) Hn). split.
    + split; [done |]. intros Hall. rewrite Hall in E by left. done.
    + intros _. exists 0%nat, c. split_and!; try done. intros; lia.
  - cbn [is_empty]. split.
    + rewrite IH1. set_solver.
    + intros Hf. destruct (IH2 Hf) as (i & c' & Hi & Ef & Ei & Hj). exists (S i), c'. split_and!; try done.
      intros [| j] c'' Hlt Hc; cbn in Hc; [by injection Hc as <- | apply (Hj j c''); [lia | done]].
Qed.

(** The first answer of [prepare] is the answer of every later call. *)
Lemma prepare_once env env' : let '(configured, answer) := prepare env None in prepare env' configured = (configured, answer).
Proof. done. Qed.

End Resolution.

(** ** Witnesses *)

(** Three directories, one in the other. *)
Definition toy_paths : QtPaths := {|
  cleanPath := fun p => p;
  filePath := fun d n => d +:+ "/" +:+ n;
  absolutePath := fun p => p;
  cdUp := fun p => if String.eqb p "/r/out/bin" then Some "/r/out" else if String.eqb p "/r/out" then Some "/r" else None;
  absoluteFile := fun p => "C:" +:+ p;
  completeBaseName := fun p => p;
  dirOf := fun p => p;
|}.

Lemma toy_paths_laws : @QtPathsLaws toy_paths.
Proof. by split. Qed.

Section Witnesses.

#[local] Existing Instances toy_paths toy_paths_laws.

Definition ex_installation (files : list string) : host_env :=
  mk_host_env (fun p => bool_decide (p ∈ files)) (fun p => bool_decide (p ∈ files)) "" "/users/ann".

Definition ex_identity : list string :=
  ["/users/ann/DUSK1NG/LAN Chat/host/certs/server-lan.crt"; "/users/ann/DUSK1NG/LAN Chat/host/certs/server-lan.key";
   "/users/ann/DUSK1NG/LAN Chat/host/chat.db"].

Definition ex_server : string := "/r/server-go/chat-server.exe".

Lemma resolved_paths_witness :
  exists root, resolveHostPaths (ex_installation [ex_server]) "/r/out/bin" = pathsForRoot (ex_installation [ex_server]) root /\
    serverExe (resolveHostPaths (ex_installation [ex_server]) "/r/out/bin") = ex_server.
Proof.
  destruct (resolved_paths (ex_installation [ex_server]) "/r/out/bin") as (root & E & _). exists root. split; [exact E | vm_compute; reflexivity].
Defined.

Lemma local_host_offered_witness :
  (local_host (ex_installation [ex_server]) (fun p => bool_decide (p ∈ ex_identity)) (Finished true 0 "" "") "/r/out/bin").1.2 = true.
Proof.
  apply (local_host_offered (ex_installation [ex_server]) (fun p => bool_decide (p ∈ ex_identity)) (Finished true 0 "" "") "/r/out/bin").
  split; [vm_compute; reflexivity |]. right. split; [vm_compute; reflexivity | by exists "", ""].
Defined.

End Witnesses.
