(* ===== verification/Bridge.v ===== *)
(** * Bridge: the web view's side of the desktop client

    Models client-cpp/gui/src/chat_bridge.{hpp,cpp} and graphics_info.{hpp,cpp}:
    the dispatch of a command to the controller, to discovery and to the
    performance profile, the state that is published to the web view, and the
    cache of serialized list models that makes publishing cheap.

    The controller is [Controller]; a call on it is an event of
    [ControllerInvariant].  Qt delivers the signals of a call while it runs;
    here they are handled when it returns, in order, which is the same because
    no handler changes what a signal's receiver reads after it has emitted it.
    The announcements of a list model are its log: a model that announced
    something is marked dirty.  Environment answers are arguments. *)

From Stdlib Require Import Floats.SpecFloat.
From S2P Require Import Prelude Text Protocol Json ChatModel Conversations Controller ControllerInvariant BridgeProtocol Crypto Manifest.
From S2P Require Import Diagnostics HostSetup Discovery Performance.

(** ** Graphics *)

Record GraphicsInfo := mk_graphics {
  graphicsApi_ : string;
  renderer_ : string;
  vendor_ : string;
  gi_hardwareAcceleration_ : bool;
  gi_softwareRendering_ : bool;
  gi_refreshRate_ : double;
  dpi_ : double;
  resolution_ : string;
}.

#[export] Instance eta_GraphicsInfo : EtaRecord GraphicsInfo := fun g =>
  {| graphicsApi_ := graphicsApi_ g; renderer_ := renderer_ g; vendor_ := vendor_ g;
     gi_hardwareAcceleration_ := gi_hardwareAcceleration_ g; gi_softwareRendering_ := gi_softwareRendering_ g;
     gi_refreshRate_ := gi_refreshRate_ g; dpi_ := dpi_ g; resolution_ := resolution_ g |}.

Definition initial_graphics : GraphicsInfo :=
  mk_graphics "Unknown" "Unknown" "Unknown" false false (of_int 0) (of_int 0) "Unknown".

(** The primary screen, if there is one. *)
Record screen := mk_screen { sc_refreshRate : double; sc_dpi : double; sc_width : Z; sc_height : Z }.

Definition refresh_graphics (s : option screen) (g : GraphicsInfo) : GraphicsInfo :=
  match s with
  | Some s => g <| gi_refreshRate_ := sc_refreshRate s |> <| dpi_ := sc_dpi s |>
                <| resolution_ := to_string (sc_width s) +:+ " × " +:+ to_string (sc_height s) |>
  | None => g <| gi_refreshRate_ := of_int 0 |> <| dpi_ := of_int 0 |> <| resolution_ := "Unknown" |>
  end.

(** ** Models *)

(** A list model by what points to it. *)
Inductive model_ref := RoomRef | DirectRef | MemberRef | ConversationRef (id : nat).

#[export] Instance model_ref_eq_dec : EqDecision model_ref.
Proof. solve_decision. Defined.

#[export] Instance model_ref_countable : Countable model_ref.
Proof.
  refine (inj_countable' (fun r => match r with RoomRef => inl 0%nat | DirectRef => inl 1%nat | MemberRef => inl 2%nat
                                           | ConversationRef id => inr id end)
            (fun x => match x with inl 0%nat => RoomRef | inl 1%nat => DirectRef | inl _ => MemberRef
                                 | inr id => ConversationRef id end) _).
  by intros [].
Defined.

Definition model_at (r : model_ref) (s : State) : option ListModel :=
  match r with
  | RoomRef => Some (roomModel_ s)
  | DirectRef => Some (directMessageModel_ s)
  | MemberRef => Some (memberModel_ s)
  | ConversationRef id => heap (cache s) !! id
  end.

Definition active_ref (s : State) : model_ref := ConversationRef (messageModel_ (cache s)).

Definition kMaxSerializedRows : nat := 500.

Definition serialize_row (roles : list string) (r : row) : json := JObj (obj_build (map (fun k => (k, Some (value k r))) roles)).

Definition serializeModel (m : ListModel) : list json :=
  map (serialize_row (lm_roles m)) (drop (length (lm_rows m) - kMaxSerializedRows) (lm_rows m)).

Definition roomFromConversationKey (key : string) : string := if has_prefix "room:" key then mid 5 key else "".

(** ** State *)

Inductive bridge_signal :=
  | StateChanged (stateJson : string)
  | CommandResult (result : row)       (* the object whose compact text is emitted *)
  | BridgeError (error : row).

Record Bridge := mk_bridge {
  controller : State;
  profile : option PerformanceProfile;
  graphics : option GraphicsInfo;
  discovery : Discovery;
  savedCertificates : gset string;        (* the certificate files that were written *)
  diagnosticsSetting : bool;              (* QSettings networkDiagnostics/enabled *)
  stateTimer_ : bool;                     (* active *)
  latestStateJson_ : string;
  hostDefaults_ : row;
  lastError_ : row;
  pendingRecallCommandIds_ : gset string; (* every id is its own value *)
  serializedModels_ : gmap model_ref (list json);
  dirtyModels_ : gset model_ref;
  connectedModels_ : gset model_ref;
  lastSerializedModelCount_ : Z;
  stateBuildCount_ : Z;
  br_signals : list bridge_signal;
}.

#[export] Instance eta_Bridge : EtaRecord Bridge := fun b =>
  {| controller := controller b; profile := profile b; graphics := graphics b; discovery := discovery b;
     savedCertificates := savedCertificates b; diagnosticsSetting := diagnosticsSetting b; stateTimer_ := stateTimer_ b;
     latestStateJson_ := latestStateJson_ b; hostDefaults_ := hostDefaults_ b; lastError_ := lastError_ b;
     pendingRecallCommandIds_ := pendingRecallCommandIds_ b; serializedModels_ := serializedModels_ b;
     dirtyModels_ := dirtyModels_ b; connectedModels_ := connectedModels_ b;
     lastSerializedModelCount_ := lastSerializedModelCount_ b; stateBuildCount_ := stateBuildCount_ b; br_signals := br_signals b |}.

(** Files, settings and environment variables. *)
Class BridgeEnv := {
  be_storageRoot : string;                 (* LanDiscoveryService::storageRoot *)
  be_fileExists : string -> bool;          (* before this run *)
  be_log : log_env;                        (* NetworkDiagnostics *)
}.

Definition signal_bridge (g : bridge_signal) (b : Bridge) : Bridge := b <| br_signals ::= fun l => l ++ [g] |>.

Definition scheduleStateUpdate (b : Bridge) : Bridge := b <| stateTimer_ := true |>.

Definition markModelDirty (r : model_ref) (scheduleUpdate : bool) (b : Bridge) : Bridge :=
  let b := b <| dirtyModels_ ::= union {[ r ]} |> in
  if scheduleUpdate then scheduleStateUpdate b else b.

Definition connectModel (r : model_ref) (scheduleUpdate : bool) (b : Bridge) : Bridge :=
  if decide (r ∈ connectedModels_ b) then b
  else markModelDirty r scheduleUpdate (b <| connectedModels_ ::= union {[ r ]} |>).

(** ** What is published *)

Section Build.
  Context `{QtText} `{GuiEnv} `{QtJson} `{LanLib} `{BridgeEnv}.

Definition obj (fields : list (string * json)) : row := obj_build (map (fun kv => (kv.1, Some kv.2)) fields).

Definition buildActiveConversation (s : State) : row :=
  let key := activeKey s in
  if has_prefix "dm:" key then
    let userCode := mid 3 key in
    obj [("kind", JStr "dm"); ("id", JStr userCode); ("title", JStr userCode); ("userCode", JStr userCode)]
  else
    let room := roomFromConversationKey key in
    obj [("kind", JStr "room"); ("id", JStr room); ("title", JStr room)].

Definition connection_phase (b : Bridge) : string :=
  let s := controller b in
  if connected_ s then "connected"
  else if reconnecting_ s then "reconnecting"
  else if negb (bool_decide (lastError_ b = [])) then "error"
  else if negb (String.eqb (statusText_ s) "未连接") then "connecting"
  else "idle".

Definition connection_object (b : Bridge) : row :=
  let failed := negb (bool_decide (lastError_ b = [])) in
  let connection := obj [("phase", JStr (connection_phase b)); ("statusText", JStr (statusText_ (controller b)));
                         ("retryable", JBool (failed && match obj_get "retryable" (lastError_ b) with Some (JBool v) => v | _ => false end))] in
  if failed then obj_set "lastError" (JObj (lastError_ b)) connection else connection.

Definition performance_object (p : option PerformanceProfile) : row :=
  match p with
  | None => []
  | Some p =>
      obj [("mode", JStr (pf_mode_ p)); ("effectiveMode", JStr (effectiveMode_ p));
           ("effectsEnabled", JBool (effectsEnabled_ (pf_capabilities p))); ("animationsEnabled", JBool (animationsEnabled_ (pf_capabilities p)));
           ("gradientsEnabled", JBool (gradientsEnabled_ (pf_capabilities p)));
           ("animationDurationScale", JFloat (animationDurationScale_ (pf_capabilities p)));
           ("observedFrameCount", JInt (Z.of_nat (length (frameTimesMs_ p))));
           ("observedFps", JFloat (observedFps_ (pf_metrics p))); ("observedP95FrameMs", JFloat (observedP95FrameMs_ (pf_metrics p)));
           ("observedMaxFrameMs", JFloat (observedMaxFrameMs_ (pf_metrics p))); ("automaticReason", JStr (automaticReason_ p))]
  end.

Definition graphics_object (g : option GraphicsInfo) : row :=
  match g with
  | None => []
  | Some g =>
      obj [("graphicsApi", JStr (graphicsApi_ g)); ("renderer", JStr (renderer_ g)); ("vendor", JStr (vendor_ g));
           ("hardwareAcceleration", JBool (gi_hardwareAcceleration_ g)); ("softwareRendering", JBool (gi_softwareRendering_ g));
           ("refreshRate", JFloat (gi_refreshRate_ g)); ("dpi", JFloat (dpi_ g)); ("resolution", JStr (resolution_ g))]
  end.

Definition certificate_exists (b : Bridge) (path : string) : bool := be_fileExists path || bool_decide (path ∈ savedCertificates b).

Definition diagnostics_enabled (b : Bridge) : bool := enabled be_log (diagnosticsSetting b).

(** [buildState] with the models given by [snapshotFor]. *)
Definition state_object (snapshotFor : model_ref -> list json) (b : Bridge) : row :=
  let s := controller b in
  obj [("connection", JObj (connection_object b));
       ("identity", JObj (obj [("displayName", JStr (localUserName_ s)); ("userCode", JStr (localUserCode_ s)); ("admin", JBool (admin_ s))]));
       ("navigation", JObj (obj [("page", JStr (if connected_ s then "workspace" else "mode"));
                                 ("activeConversation", JObj (buildActiveConversation s))]));
       ("rooms", JArr (snapshotFor RoomRef));
       ("directMessages", JArr (snapshotFor DirectRef));
       ("activeMessages", JArr (snapshotFor (active_ref s)));
       ("members", JArr (snapshotFor MemberRef));
       ("permissions", JObj (obj [("activeRoomCanManage", JBool (activeRoomCanManage_ s))]));
       ("connectionApprovals", JArr (map JObj (pendingConnectionApprovals_ s)));
       ("diagnostics", JObj (obj [("enabled", JBool (diagnostics_enabled b)); ("directory", JStr (diagnosticDirectory be_log))]));
       ("performance", JObj (performance_object (profile b)));
       ("graphics", JObj (graphics_object (graphics b)));
       ("savedConnection", JObj (obj [("serverIp", JStr (savedServerIp s)); ("serverPort", JInt (savedServerPort s));
                                      ("username", JStr (savedUsername s)); ("userCode", JStr (savedUserCode s)); ("caFile", JStr (savedCaFile s))]));
       ("lanDiscovery", JObj (obj [("scanning", JBool (scanning_ (discovery b)));
                                   ("hosts", JArr (hostsJson be_storageRoot (certificate_exists b) (discovery b)))]));
       ("hostDefaults", JObj (hostDefaults_ b))].

Definition live_snapshot (s : State) (r : model_ref) : list json := default [] (serializeModel <$> model_at r s).

(** The loop of [buildState]: the dirty models are serialized again. *)
Definition serialize_dirty (b : Bridge) : Bridge :=
  b <| serializedModels_ ::= fun cached => set_fold (fun r acc => <[r := live_snapshot (controller b) r]> acc) cached (dirtyModels_ b) |>
    <| lastSerializedModelCount_ := Z.of_nat (base.size (dirtyModels_ b)) |> <| dirtyModels_ := ∅ |>.

Definition buildState (b : Bridge) : Bridge * row :=
  let b := serialize_dirty b in (b, state_object (fun r => default [] (serializedModels_ b !! r)) b).

Definition rebuildStateSnapshot (b : Bridge) : Bridge :=
  let '(b, state) := buildState b in
  b <| latestStateJson_ := serializeState qt_toJson state |> <| stateBuildCount_ ::= fun n => wrap32 (n + 1) |>.

(** The state timer fires. *)
Definition publishState (b : Bridge) : Bridge :=
  let b := rebuildStateSnapshot (b <| stateTimer_ := false |>) in signal_bridge (StateChanged (latestStateJson_ b)) b.

Definition setHostDefaults (serverExe certFile keyFile dbFile : string) (available : bool) (unavailableReason : string) (b : Bridge) : Bridge :=
  rebuildStateSnapshot (b <| hostDefaults_ := obj [("serverExe", JStr serverExe); ("certFile", JStr certFile); ("keyFile", JStr keyFile);
    ("dbFile", JStr dbFile); ("available", JBool available); ("unavailableReason", JStr unavailableReason)] |>).

End Build.

(** ** Signals of the controller *)

Section React.
  Context `{QtText} `{GuiEnv}.

Definition handleConnectionError (code reason : string) (retryable : bool) (b : Bridge) : Bridge :=
  let error := makeError code (if is_empty reason then statusText_ (controller b) else reason) retryable "controller" "" in
  scheduleStateUpdate (signal_bridge (BridgeError error) (b <| lastError_ := error |>)).

Definition completeRecallCommand (commandId : string) (ok : bool) (reason : string) (b : Bridge) : Bridge :=
  if decide (commandId ∈ pendingRecallCommandIds_ b) then
    let b := b <| pendingRecallCommandIds_ ::= fun ids => ids ∖ {[ commandId ]} |> in
    let error := if ok then []
                 else makeError "recall_rejected" (if is_empty reason then "Recall rejected" else reason) false "server" commandId in
    signal_bridge (CommandResult (makeCommandResult commandId ok error)) b
  else b.

(** The signals that only ask for a new state. *)
Definition kStateSignals : list string :=
  ["reconnectingChanged"; "adminChanged"; "localIdentityChanged"; "onlineMemberCountChanged"; "statusTextChanged";
   "activeRoomCanManageChanged"; "savedConnectionChanged"; "pendingConnectionApprovalsChanged"].

Definition react (o : output) (b : Bridge) : Bridge :=
  match o with
  | Invoke _ _ => b
  | Emit signal args =>
      let s := controller b in
      if bool_decide (signal ∈ kStateSignals) then scheduleStateUpdate b
      else if String.eqb signal "connectedChanged"
      then scheduleStateUpdate (if connected_ s then b <| lastError_ := [] |> else b)
      else if String.eqb signal "activeMessageModelChanged" then scheduleStateUpdate (connectModel (active_ref s) true b)
      else if String.eqb signal "connectionFailed"
      then match args with JStr reason :: _ => handleConnectionError "connection_failed" reason true b | _ => b end
      else if String.eqb signal "connectionLost" then
        if reconnecting_ s then scheduleStateUpdate (b <| lastError_ := [] |>)
        else match args with JStr reason :: _ => handleConnectionError "connection_lost" reason true b | _ => b end
      else if String.eqb signal "recallSucceeded"
      then match args with JStr commandId :: _ => completeRecallCommand commandId true "" b | _ => b end
      else if String.eqb signal "recallFailed"
      then match args with JStr commandId :: JStr reason :: _ => completeRecallCommand commandId false reason b | _ => b end
      else b
  end.

(** The announcements of a model: its log, when it is alive. *)
Definition announced (r : model_ref) (s : State) : nat := default 0%nat (length ∘ lm_log <$> model_at r s).

(** A model that announced something since [before] is dirty. *)
Definition mark_changed (before : State) (b : Bridge) : Bridge :=
  set_fold (fun r b => if (announced r before <? announced r (controller b))%nat then markModelDirty r true b else b)
    b (connectedModels_ b).

Definition is_live (s : State) (r : model_ref) : Prop := is_Some (model_at r s).

#[export] Instance is_live_dec s r : Decision (is_live s r).
Proof. unfold is_live. apply _. Defined.

(** The [destroyed] handlers of the models that are gone. *)
Definition forget_destroyed (b : Bridge) : Bridge :=
  let alive := is_live (controller b) in
  b <| serializedModels_ ::= filter (fun entry => alive entry.1) |> <| dirtyModels_ ::= filter alive |>
    <| connectedModels_ ::= filter alive |>.

(** A call on the controller, with everything it triggers here. *)
Definition control (e : event) (b : Bridge) : Bridge :=
  let before := controller b in
  let after := handle e before in
  let b := mark_changed before (b <| controller := after |>) in
  let b := foldl (fun b o => react o b) b (drop (length (outs before)) (outs after)) in
  forget_destroyed b.

(** A call on discovery. *)
Definition discover `{CryptoLib} `{QtJson} `{LanLib} (c : discovery_call) (b : Bridge) : Bridge :=
  let before := length (d_signals (discovery b)) in
  let b := b <| discovery ::= discovery_step c |> in
  if (before <? length (d_signals (discovery b)))%nat then scheduleStateUpdate b else b.

(** The signals of the profile that the bridge listens to. *)
Definition profile_watched (g : profile_signal) : bool := match g with ObservedFrameCountChanged => false | _ => true end.

Definition adapt (c : profile_call) (b : Bridge) : Bridge :=
  match profile b with
  | None => b
  | Some p =>
      let p' := profile_step c p in
      let b := b <| profile := Some p' |> in
      if existsb profile_watched (drop (length (pf_signals p)) (pf_signals p')) then scheduleStateUpdate b else b
  end.

(** [GraphicsInfo::changed], which the profile receives first. *)
Definition refresh_screen (s : option screen) (b : Bridge) : Bridge :=
  match graphics b with
  | None => b
  | Some g =>
      let g := refresh_graphics s g in
      scheduleStateUpdate (adapt (PGraphics (gi_hardwareAcceleration_ g) (gi_softwareRendering_ g) (gi_refreshRate_ g))
                             (b <| graphics := Some g |>))
  end.

(** The signal [mlsCommandResult]. *)
Definition on_mls_result (commandId : string) (ok : bool) (code message : string) (b : Bridge) : Bridge :=
  if is_empty commandId then b
  else
    let error := if ok then []
                 else makeError (if is_empty code then "mls_operation_failed" else code)
                        (if is_empty message then "MLS operation failed" else message) false "mls" commandId in
    signal_bridge (CommandResult (makeCommandResult commandId ok error)) b.

(** The signal [attachmentEvent]; the ciphertext comes in base64. *)
Definition on_attachment_event (type attachmentId uploadId commandId : string) (chunkSize chunkIndex : Z)
    (ciphertext cipherSha256 expiresAt : string) (receivedIndexes : list Z) (content : string) (logicalSize : Z) (b : Bridge) : Bridge :=
  let payload := obj [("type", JStr type); ("attachmentId", JStr attachmentId); ("uploadId", JStr uploadId); ("chunkSize", JInt chunkSize);
                      ("chunkIndex", JInt chunkIndex); ("ciphertext", JStr ciphertext); ("cipherSha256", JStr cipherSha256);
                      ("expiresAt", JStr expiresAt); ("receivedIndexes", JArr (map JInt receivedIndexes)); ("content", JStr content)] in
  let payload := if String.eqb type "attachment.init" && (0 <? logicalSize) then obj_set "logicalSize" (JInt logicalSize) payload else payload in
  let payload := if String.eqb type "error"
                 then obj_set "message" (JStr content) (obj_set "code" (JStr "attachment_failed") payload) else payload in
  signal_bridge (CommandResult (obj [("type", JStr "attachment.event"); ("id", JStr commandId); ("payload", JObj payload)])) b.

End React.

(** ** Commands *)

(** [QJsonValue::toInteger], [toBool] and [toDouble]. *)
Definition toInteger (j : option json) : Z :=
  match number j with
  | Some x => if num_whole x && bool_decide (in_int64 (num_floor x)) then num_floor x else 0
  | None => 0
  end.

Definition toBool (j : option json) : bool := match j with Some (JBool v) => v | _ => false end.

Definition toDouble (j : json) : double :=
  match j with JInt z | JUInt z => of_int z | JFloat f => f | _ => of_int 0 end.

(** What the calls of a command meet: a fresh id, the time, the file that a
    dialog returned, and the answers of discovery. *)
Record dispatch_env := mk_dispatch_env {
  de_uuid : string;
  de_time : string;
  de_filePath : string;
  de_prepared : outcome unit;
  de_bound : outcome unit;
  de_clock : Z;
  de_made : bool;
  de_saved : bool;
}.

Section Dispatch.
  Context `{QtText} `{GuiEnv} `{CryptoLib} `{QtJson} `{LanLib} `{BridgeEnv}.

Definition answer (commandId : string) (ok : bool) (error : row) : Bridge -> Bridge :=
  signal_bridge (CommandResult (makeCommandResult commandId ok error)).

Definition refuse (commandId code message : string) (retryable : bool) (source : string) : Bridge -> Bridge :=
  answer commandId false (makeError code message retryable source commandId).

Definition emitInvalidCommand (commandId code : string) : Bridge -> Bridge := refuse commandId code "命令格式无效" false "bridge".

(** The end of [dispatch]. *)
Definition done_with (commandId : string) (b : Bridge) : Bridge := scheduleStateUpdate (answer commandId true [] b).

Definition discoverLanHosts (env : dispatch_env) (commandId : string) (b : Bridge) : Bridge :=
  let r := (refresh (de_prepared env) (de_bound env) (de_clock env) (discovery b)).2 in
  let b := discover (DRefresh (de_prepared env) (de_bound env) (de_clock env)) b in
  match r with
  | Fail discoveryError => scheduleStateUpdate (refuse commandId "discovery_unavailable" discoveryError true "bridge" b)
  | Ok _ => done_with commandId b
  end.

Definition connectDiscoveredHost (env : dispatch_env) (commandId : string) (payload : row) (b : Bridge) : Bridge :=
  let text k := toString (obj_get k payload) in
  match connectData (text "hostId") (de_clock env) (discovery b) with
  | Fail discoveryError => scheduleStateUpdate (refuse commandId "discovery_host_unavailable" discoveryError true "bridge" b)
  | Ok host =>
      match persistCertificate be_storageRoot (de_made env) (de_saved env) host with
      | Fail discoveryError => scheduleStateUpdate (refuse commandId "discovery_certificate_failed" discoveryError false "bridge" b)
      | Ok (certificatePath, _) =>
          let b := b <| savedCertificates ::= union {[ certificatePath ]} |> in
          done_with commandId
            (control (EvConnect (dh_serverIp host) (dh_serverPort host) (text "username") (text "userCode") certificatePath "localhost") b)
      end
  end.

Definition recall (commandId messageId : string) (b : Bridge) : Bridge :=
  if (recallMessage messageId commandId (controller b)).2
  then scheduleStateUpdate (control (EvRecall messageId commandId) (b <| pendingRecallCommandIds_ ::= union {[ commandId ]} |>))
  else refuse commandId "permission_denied" "Recall is only available to the message author or an administrator" false "controller"
         (b <| pendingRecallCommandIds_ ::= fun ids => ids ∖ {[ commandId ]} |>).

(** What an accepted command does: nothing more to say, the answer follows
    later, or it is answered here. *)
Definition execute (env : dispatch_env) (commandId type : string) (payload : row) (b : Bridge) : Bridge :=
  let on := String.eqb type in
  let text k := toString (obj_get k payload) in
  let finish e := done_with commandId (control e b) in
  let later e := scheduleStateUpdate (control e b) in
  if on "session.connectRemote" then
    let tlsServerName := text "tlsServerName" in
    finish (EvConnect (text "serverIp") (toInt (obj_get "serverPort" payload)) (text "username") (text "userCode") (text "caFile")
              (if String.eqb tlsServerName "localhost" then tlsServerName else ""))
  else if on "session.discoverLanHosts" then discoverLanHosts env commandId b
  else if on "session.connectDiscoveredHost" then connectDiscoveredHost env commandId payload b
  else if on "session.connectLocalHost" then
    finish (EvConnectLocal (text "serverExe") (text "certFile") (text "keyFile") (text "dbFile") (text "username") (text "userCode"))
  else if on "mls.keyPackage.fetch" then later (EvForward (FetchMlsKeyPackage (text "room") (text "targetUserCode") commandId))
  else if on "mls.group.add" then later (EvForward (AddMlsMember (text "room") (text "groupId") (text "targetUserCode") commandId))
  else if on "mls.group.remove" then later (EvForward (RemoveMlsMember (text "room") (text "groupId") (text "targetUserCode") commandId))
  else if on "attachment.init" then
    control (EvForward (SendAttachmentInit (text "room") (toInteger (obj_get "logicalSize" payload)) commandId)) b
  else if on "attachment.chooseUpload" then control (EvChooseUpload (de_filePath env) (text "room") commandId) b
  else if on "attachment.chunk" then
    control (EvForward (SendAttachmentChunk (text "uploadId") (toInteger (obj_get "chunkIndex" payload))
                          (text_of (from_base64 (text "ciphertext"))) (text "cipherSha256") commandId)) b
  else if on "attachment.resume" then control (EvForward (ResumeAttachment (text "uploadId") commandId)) b
  else if on "attachment.commit" then control (EvForward (SendAttachmentCommit (text "uploadId") commandId)) b
  else if on "attachment.download" then control (EvDownload (de_filePath env) (text "attachmentId") commandId) b
  else if on "session.disconnect" then finish EvDisconnect
  else if on "chat.sendRoom" then finish (EvSendRoom (de_uuid env) (de_time env) (text "content") (text "room"))
  else if on "chat.sendPrivate" then finish (EvSendPrivate (de_uuid env) (de_time env) (text "content") (text "targetUserCode"))
  else if on "history.search" then finish (EvSearch (text "query"))
  else if on "conversation.selectRoom" then finish (EvSelectRoom (text "room"))
  else if on "conversation.selectDirect" then finish (EvSelectDirect (text "userCode"))
  else if on "conversation.openPrivate" then finish (EvOpenPrivate (text "displayName") (text "userCode"))
  else if on "directory.refreshUsers" then finish EvRequestUsers
  else if on "directory.refreshRooms" then finish EvRequestRooms
  else if on "room.create" then finish (EvCreateRoom (text "room") (toBool (obj_get "isPrivate" payload)))
  else if on "room.action" then finish (EvRoomAction (text "action") (text "room") (text "targetUserCode"))
  else if on "admin.action" then finish (EvAdminAction (text "action") (text "targetUserCode") (text "messageId"))
  else if on "message.copy" then done_with commandId b
  else if on "message.removeLocal" then finish (EvRemoveLocal (text "messageId"))
  else if on "message.retry" then finish (EvRetry (text "messageId"))
  else if on "message.recall" then recall commandId (text "messageId") b
  else if on "settings.setPerformanceMode" then
    match profile b with
    | None => refuse commandId "capability_unavailable" "性能设置当前不可用" false "bridge" b
    | Some _ => done_with commandId (adapt (PSetMode (text "mode")) b)
    end
  else if on "settings.setConnectionLogging" then
    done_with commandId (scheduleStateUpdate (b <| diagnosticsSetting := toBool (obj_get "enabled" payload) |>))
  else if on "diagnostics.frontendError" then answer commandId true [] b
  else if on "performance.reportFrameTimes" then
    match profile b with
    | None => b
    | Some _ =>
        scheduleStateUpdate
          (foldl (fun b v => adapt (PFrame (toDouble v)) b) b
             (match obj_get "frameTimesMs" payload with Some (JArr values) => values | _ => [] end))
    end
  else done_with commandId b.

Definition dispatch (env : dispatch_env) (commandJson : string) (b : Bridge) : Bridge :=
  match qt_fromJson commandJson with
  | Some (JObj command) =>
      let commandId := toString (obj_get "id" command) in
      let '(valid, errorCode) := validateCommand command in
      if negb valid then emitInvalidCommand commandId errorCode b
      else execute env commandId (toString (obj_get "type" command)) (toObject (obj_get "payload" command)) b
  | _ => emitInvalidCommand "" "invalid_command" b
  end.

End Dispatch.

(** ** Everything that happens to the bridge *)

Inductive bridge_event :=
  | BControl (e : event)                     (* a signal of the worker or of a timer *)
  | BDispatch (env : dispatch_env) (commandJson : string)
  | BStateTimer
  | BDiscovery (c : discovery_call)
  | BScreen (s : option screen)
  | BMlsResult (commandId : string) (ok : bool) (code message : string)
  | BAttachment (type attachmentId uploadId commandId : string) (chunkSize chunkIndex : Z)
      (ciphertext cipherSha256 expiresAt : string) (receivedIndexes : list Z) (content : string) (logicalSize : Z)
  | BHostDefaults (serverExe certFile keyFile dbFile : string) (available : bool) (unavailableReason : string).

Section Runs.
  Context `{QtText} `{GuiEnv} `{CryptoLib} `{QtJson} `{LanLib} `{BridgeEnv}.

(** The constructor, on a controller in state [s]. *)
Definition new_bridge (s : State) (p : option PerformanceProfile) (g : option GraphicsInfo) (logging : bool) : Bridge :=
  let b := mk_bridge s p g initial_discovery ∅ logging false "" [] [] ∅ ∅ ∅ ∅ 0 0 [] in
  let b := connectModel (active_ref s) false (connectModel DirectRef false (connectModel RoomRef false b)) in
  rebuildStateSnapshot (connectModel (active_ref s) false (connectModel MemberRef false b)).

(** The part of main that puts the objects together.  [saved] is QSettings,
    [stored] the performance mode in it; the paths come from the resolver. *)
Definition start_bridge (saved : row) (stored : option string) (s : option screen) (logging : bool)
    (serverExe certFile keyFile dbFile : string) (hostAvailable : bool) (hostUnavailableMessage : string) : Bridge :=
  let chatController := setBundledCaFile (if hostAvailable then certFile else "") (initial_state saved) in
  let graphicsInfo := refresh_graphics s initial_graphics in
  let update := updateGraphicsContext (gi_hardwareAcceleration_ graphicsInfo) (gi_softwareRendering_ graphicsInfo) (gi_refreshRate_ graphicsInfo) in
  (* once by the signal of refresh, once by main *)
  let performanceProfile := update (update (initial_profile stored)) in
  setHostDefaults serverExe certFile keyFile dbFile hostAvailable (if hostAvailable then "" else hostUnavailableMessage)
    (new_bridge chatController (Some performanceProfile) (Some graphicsInfo) logging).

(** With the host files found and, if need be, created. *)
Definition start_program `{QtPaths} (env : host_env) (isFile' : string -> bool) (run : bootstrap_run) (applicationDirectory : string)
    (saved : row) (stored : option string) (s : option screen) (logging : bool) : Bridge :=
  let '(hostPaths, hostAvailable, message) := local_host env isFile' run applicationDirectory in
  start_bridge saved stored s logging (serverExe hostPaths) (certFile hostPaths) (keyFile hostPaths) (dbFile hostPaths) hostAvailable message.

Definition bridge_step (e : bridge_event) (b : Bridge) : Bridge :=
  match e with
  | BControl e => control e b
  | BDispatch env commandJson => dispatch env commandJson b
  | BStateTimer => if stateTimer_ b then publishState b else b
  | BDiscovery c => discover c b
  | BScreen s => refresh_screen s b
  | BMlsResult a ok c m => on_mls_result a ok c m b
  | BAttachment a b' c d e f g h i j k l => on_attachment_event a b' c d e f g h i j k l b
  | BHostDefaults a b' c d e f => setHostDefaults a b' c d e f b
  end.

Definition run_bridge (es : list bridge_event) (b : Bridge) : Bridge := foldl (fun b e => bridge_step e b) b es.

End Runs.
