(* ===== verification/BridgeState.v ===== *)
(** * BridgeState: the state shown by the web view

    The published state is never stale: whenever no publication is pending, the
    text the web view was given is that of the current state, although it is
    put together from cached pieces.  The proof follows every handler of the
    controller: what a handler changes that the state shows is announced by a
    signal or by the list model it is in. *)

From S2P Require Import Prelude Text Protocol Json ChatModel Conversations Controller ControllerInvariant BridgeProtocol Crypto Manifest.
From S2P Require Import Diagnostics Discovery Performance Bridge.

(** ** Models grow *)

(** A later state of the same model. *)
Definition grown (m m' : ListModel) : Prop := lm_roles m' = lm_roles m /\ exists l, lm_log m' = lm_log m ++ l.

Lemma grown_refl m : grown m m.
Proof. split; [done |]. exists []. by rewrite app_nil_r. Qed.

Lemma grown_trans m1 m2 m3 : grown m1 m2 -> grown m2 m3 -> grown m1 m3.
Proof. intros [E1 [l1 H1]] [E2 [l2 H2]]. split; [congruence |]. exists (l1 ++ l2). by rewrite H2, H1, app_assoc. Qed.

Lemma announce_grown n rows m : grown m (announce n rows m).
Proof. split; [done |]. by eexists. Qed.

Lemma updateRow_grown i v m : grown m (updateRow i v m).
Proof. unfold updateRow. destruct (_ || _)%bool; [apply grown_refl | apply announce_grown]. Qed.

Lemma dedup_grown rows m u seen : grown m (dedup rows m u seen).1.
Proof.
  revert m u seen. induction rows as [| r rows IH]; intros m u seen; cbn [dedup]; [apply grown_refl |]. cbv zeta.
  destruct (is_empty _); [apply IH |]. destruct (0 <=? _); [eapply grown_trans; [apply updateRow_grown | apply IH] |].
  destruct (seen !! _); apply IH.
Qed.

Create HintDb grown.
#[export] Hint Resolve grown_refl announce_grown updateRow_grown : grown.

Lemma appendRows_grown rows m : grown m (appendRows rows m).
Proof.
  unfold appendRows. case_bool_decide; [apply grown_refl |]. cbv zeta.
  assert (grown m (if bool_decide ("messageId" ∈ lm_roles m) then dedup rows m [] ∅ else (m, rows)).1) as Hd
    by (case_bool_decide; [apply dedup_grown | apply grown_refl]).
  destruct (if bool_decide _ then _ else _) as [m1 incoming]. cbn [fst] in Hd. apply (grown_trans _ m1); [done |]. clear Hd.
  case_bool_decide; [apply grown_refl |]. destruct (_ && _)%bool; [apply announce_grown |].
  eapply grown_trans; [| apply announce_grown]. destruct (0 <? _); auto with grown.
Qed.

Lemma append_grown r m : grown m (append r m).
Proof. apply appendRows_grown. Qed.

Lemma prependRows_grown rows m : grown m (prependRows rows m).
Proof.
  unfold prependRows. case_bool_decide; [apply grown_refl |]. cbv zeta. destruct (_ && _)%bool; [apply announce_grown |].
  eapply grown_trans; [| apply announce_grown]. destruct (0 <? _); auto with grown.
Qed.

Lemma replaceRows_grown rows m : grown m (replaceRows rows m).
Proof. unfold replaceRows. cbv zeta. case_bool_decide; auto with grown. Qed.

Lemma updateRows_grown vs m : grown m (updateRows vs m).
Proof.
  unfold updateRows. cbv zeta. destruct (_ <? 0); [apply grown_refl |]. destruct (update_each _ _) as [rows []]; [apply announce_grown |].
  split; [done |]. exists []. by rewrite app_nil_r.
Qed.

Lemma removeRow_grown i m : grown m (removeRow i m).
Proof. unfold removeRow. destruct (_ || _)%bool; auto with grown. Qed.

Lemma removeRowsByValue_grown k v m : grown m (removeRowsByValue k v m).
Proof.
  unfold removeRowsByValue. generalize (length (lm_rows m)) as n. intros n. revert m.
  induction n as [| n IH]; intros m; cbn [remove_down]; [apply grown_refl |]. eapply grown_trans; [| apply IH].
  case_bool_decide; [apply removeRow_grown | apply grown_refl].
Qed.

Lemma bump_grown i m : grown m (bump_unread i m).
Proof. apply updateRow_grown. Qed.

Lemma update_message_grown i v m : grown m (update_message i v m).
Proof. unfold update_message. cbv zeta. destruct (0 <=? _); auto with grown. Qed.

#[export] Hint Resolve append_grown prependRows_grown replaceRows_grown updateRows_grown removeRowsByValue_grown bump_grown
  update_message_grown : grown.
#[export] Hint Extern 1 (grown _ (clear _)) => apply replaceRows_grown : grown.

(** ** The cache grows *)

(** A model that is there before and after is the same one, and a model that is
    gone does not come back. *)
Definition cache_grown (c c' : Cache) : Prop :=
  (next_id c <= next_id c')%nat /\
  forall id, (id < next_id c)%nat -> forall m', heap c' !! id = Some m' -> exists m, heap c !! id = Some m /\ grown m m'.

Lemma cache_grown_refl c : cache_grown c c.
Proof. split; [done |]. intros id _ m' Hm. exists m'. by split; [| apply grown_refl]. Qed.

Lemma cache_grown_trans c1 c2 c3 : cache_grown c1 c2 -> cache_grown c2 c3 -> cache_grown c1 c3.
Proof.
  intros [Hn1 H1] [Hn2 H2]. split; [lia |]. intros id Hid m3 E3. destruct (H2 id ltac:(lia) m3 E3) as (m2 & E2 & G2).
  destruct (H1 id Hid m2 E2) as (m1 & E1 & G1). exists m1. split; [done | by eapply grown_trans].
Qed.

Lemma cache_grown_heap c c' : heap c' = heap c -> next_id c' = next_id c -> cache_grown c c'.
Proof. intros Eh En. split; [by rewrite En |]. intros id _ m' Hm. rewrite Eh in Hm. exists m'. by split; [| apply grown_refl]. Qed.

Lemma alter_grown f id (h : gmap nat ListModel) : (forall m, grown m (f m)) -> forall i m', alter f id h !! i = Some m' -> exists m, h !! i = Some m /\ grown m m'.
Proof.
  intros Hf i m' E. destruct (decide (id = i)) as [-> | Hne].
  - rewrite lookup_alter_eq in E. apply fmap_Some in E as (m & Em & ->). by exists m.
  - rewrite lookup_alter_ne in E by done. exists m'. by split; [| apply grown_refl].
Qed.

Lemma on_model_grown id f c : (forall m, grown m (f m)) -> cache_grown c (on_model id f c).
Proof. intros Hf. split; [done |]. intros i _ m' E. by apply (alter_grown f id). Qed.

Lemma for_each_grown f c : (forall m, grown m (f m)) -> cache_grown c (for_each_model f c).
Proof.
  intros Hf. split; [done |]. intros i _. unfold for_each_model. cbn [heap field_update].
  generalize (map snd (map_to_list (conversationModels_ c))) as l. intros l. generalize (heap c) as h.
  induction l as [| id l IH]; intros h m' E; cbn [foldl] in E; [exists m'; by split; [| apply grown_refl] |].
  destruct (IH _ m' E) as (m2 & E2 & G2). destruct (alter_grown f id h Hf i m2 E2) as (m1 & E1 & G1).
  exists m1. split; [done | by eapply grown_trans].
Qed.

Lemma drop_model_grown key c : cache_grown c (drop_model key c).
Proof.
  unfold drop_model. destruct (conversationModels_ c !! key) as [id |]; [| by apply cache_grown_heap]. split; [done |].
  intros i _ m' E. cbn in E. apply lookup_delete_Some in E as [_ E]. exists m'. by split; [| apply grown_refl].
Qed.

Lemma trim_grown key c : cache_grown c (trimConversationModelCache key c).
Proof.
  unfold trimConversationModelCache. generalize (base.size (conversationModels_ c)) as n. intros n. revert c.
  induction n as [| n IH]; intros c; cbn [trim_loop]; [apply cache_grown_refl |]. destruct (_ <=? _)%nat; [apply cache_grown_refl |].
  cbv zeta. destruct (is_empty _); [apply cache_grown_refl |]. eapply cache_grown_trans; [apply drop_model_grown | apply IH].
Qed.

Lemma ensure_grown key c : cache_grown c (ensureConversationModel key c).1.
Proof.
  unfold ensureConversationModel. destruct (conversationModels_ c !! key) as [id |]; [by apply cache_grown_heap |]. cbv zeta. cbn [fst].
  eapply cache_grown_trans; [| apply trim_grown]. split; [cbn; lia |]. intros i Hi m' E. cbn in E.
  rewrite lookup_insert_ne in E by lia. exists m'. by split; [| apply grown_refl].
Qed.

Lemma activate_grown key c : cache_grown c (activate key c).
Proof.
  unfold activate. pose proof (ensure_grown key c) as He. destruct (ensureConversationModel key c) as [c1 id].
  eapply cache_grown_trans; [exact He | by apply cache_grown_heap].
Qed.

Lemma reset_grown c : cache_grown c (reset_cache c).
Proof.
  unfold reset_cache. cbv zeta. set (c1 := (for_each_model clear c) <| activeConversationKey_ := _ |>).
  assert (cache_grown c c1) as H1.
  { eapply cache_grown_trans; [apply (for_each_grown clear); auto with grown | by apply cache_grown_heap]. }
  pose proof (ensure_grown "room:lobby" c1) as He. destruct (ensureConversationModel _ c1) as [c2 id].
  eapply cache_grown_trans; [exact H1 |]. eapply cache_grown_trans; [exact He | by apply cache_grown_heap].
Qed.

(** ** Handlers announce what they change *)

Record state_grown (s s' : State) : Prop := mk_state_grown {
  sg_room : grown (roomModel_ s) (roomModel_ s');
  sg_direct : grown (directMessageModel_ s) (directMessageModel_ s');
  sg_member : grown (memberModel_ s) (memberModel_ s');
  sg_cache : cache_grown (cache s) (cache s');
}.

Lemma state_grown_core s s' : core s = core s' -> state_grown s s'.
Proof.
  intros [= E1 E2 E3 E4]. split; rewrite <- ?E1, <- ?E2, <- ?E3, <- ?E4; first [apply grown_refl | apply cache_grown_refl].
Qed.

Lemma state_grown_trans s1 s2 s3 : state_grown s1 s2 -> state_grown s2 s3 -> state_grown s1 s3.
Proof.
  intros [A1 A2 A3 A4] [B1 B2 B3 B4]. split; first [by eapply grown_trans | by eapply cache_grown_trans].
Qed.

Lemma room_grown f s : (forall m, grown m (f m)) -> state_grown s (s <| roomModel_ ::= f |>).
Proof. intros Hf. split; first [apply Hf | apply grown_refl | apply cache_grown_refl]. Qed.

Lemma direct_grown f s : (forall m, grown m (f m)) -> state_grown s (s <| directMessageModel_ ::= f |>).
Proof. intros Hf. split; first [apply Hf | apply grown_refl | apply cache_grown_refl]. Qed.

Lemma member_grown f s : (forall m, grown m (f m)) -> state_grown s (s <| memberModel_ ::= f |>).
Proof. intros Hf. split; first [apply Hf | apply grown_refl | apply cache_grown_refl]. Qed.

Lemma cache_state_grown f s : cache_grown (cache s) (f (cache s)) -> state_grown s (s <| cache ::= f |>).
Proof. intros Hf. split; first [apply Hf | apply grown_refl]. Qed.

(** What the published state reads of the controller, apart from the models. *)
Definition visible (s : State) :=
  (connected_ s, reconnecting_ s, statusText_ s, localUserName_ s, localUserCode_ s, admin_ s, activeKey s,
   messageModel_ (cache s), activeRoomCanManage_ s, pendingConnectionApprovals_ s, settings_ s, bundledCaFile_ s).

(** The signals after which a publication is pending. *)
Definition loud_signal (signal : string) : bool :=
  bool_decide (signal ∈ "connectedChanged" :: "activeMessageModelChanged" :: kStateSignals).

Definition loud (o : output) : bool := match o with Emit signal _ => loud_signal signal | Invoke _ _ => false end.

Definition switches (o : output) : bool :=
  match o with Emit signal _ => String.eqb signal "activeMessageModelChanged" | Invoke _ _ => false end.

(** From [s0] to [s]: the models grew and the outputs were added to; with [v],
    a visible change was announced; with [a], so was a new active model. *)
Definition since (v a : bool) (s0 s : State) : Prop :=
  state_grown s0 s /\
  exists new, outs s = outs s0 ++ new /\
    (v = true -> existsb loud new = true \/ visible s = visible s0) /\
    (a = true -> existsb switches new = true \/ messageModel_ (cache s) = messageModel_ (cache s0)).

Lemma since_refl v a s : since v a s s.
Proof. split; [by apply state_grown_core |]. exists []. rewrite app_nil_r. split_and!; [done | by right | by right]. Qed.

Lemma since_weaken v a s0 s : since true true s0 s -> since v a s0 s.
Proof. intros [Hg (new & E & Hv & Ha)]. split; [done |]. exists new. split_and!; auto. Qed.

Lemma since_weaken_active v s0 s : since false true s0 s -> since false v s0 s.
Proof. intros [Hg (new & E & Hv & Ha)]. split; [done |]. exists new. split_and!; auto. Qed.

(** A step without outputs. *)
Lemma since_step v a s0 s s' :
  outs s' = outs s -> state_grown s s' -> (v = true -> visible s' = visible s) ->
  (a = true -> messageModel_ (cache s') = messageModel_ (cache s)) -> since v a s0 s -> since v a s0 s'.
Proof.
  intros Eo Hg Ev Ea [Hg0 (new & E & Hv & Ha)]. split; [by eapply state_grown_trans |]. exists new. split; [congruence |].
  split; [intros ->; rewrite Ev by done; by apply Hv | intros ->; rewrite Ea by done; by apply Ha].
Qed.

(** An output. *)
Lemma since_output v a v' a' s0 s s' o :
  outs s' = outs s ++ [o] -> core s = core s' -> visible s' = visible s ->
  (v = true -> loud o = true \/ v' = true) -> (a = true -> switches o = true \/ a' = true) ->
  since v' a' s0 s -> since v a s0 s'.
Proof.
  intros Eo Ec Ev Hlv Hla [Hg0 (new & E & Hv & Ha)]. split; [eapply state_grown_trans; [done | by apply state_grown_core] |].
  exists (new ++ [o]). rewrite !existsb_app. cbn [existsb]. rewrite !orb_true_iff. split; [by rewrite Eo, E, app_assoc |]. split.
  - intros Hv1. destruct (Hlv Hv1) as [-> | ->]; [left; auto |]. rewrite Ev. destruct (Hv eq_refl) as [-> | ->]; auto.
  - intros Ha1. assert (cache s' = cache s) as -> by (injection Ec; done).
    destruct (Hla Ha1) as [-> | ->]; [left; auto |]. destruct (Ha eq_refl) as [-> | ->]; auto.
Qed.

Lemma since_emit v a s0 s signal args : since v a s0 s -> since v a s0 (emit signal args s).
Proof. apply (since_output v a v a s0 s _ (Emit signal args)); auto. Qed.

Lemma since_invoke v a s0 s slot args : since v a s0 s -> since v a s0 (invoke slot args s).
Proof. apply (since_output v a v a s0 s _ (Invoke slot args)); auto. Qed.

Lemma since_loud v a s0 s signal args : loud_signal signal = true -> since false a s0 s -> since v a s0 (emit signal args s).
Proof. intros Hl. apply (since_output v a false a s0 s _ (Emit signal args)); auto. Qed.

Lemma since_active v a s0 s args : since false false s0 s -> since v a s0 (emit "activeMessageModelChanged" args s).
Proof. apply (since_output v a false false s0 s _ (Emit "activeMessageModelChanged" args)); auto. Qed.

(** A field that the state does not show, and one that it does. *)
Ltac frame s := apply (since_step _ _ _ s);
  [reflexivity | by apply state_grown_core | intros _; reflexivity | intros _; reflexivity |].
Ltac hidden s := apply (since_step false _ _ s);
  [reflexivity | by apply state_grown_core | discriminate | first [intros _; reflexivity | discriminate] |].
Ltac on_list s lemma := apply (since_step _ _ _ s); [reflexivity | apply lemma; auto with grown | intros _; reflexivity | intros _; reflexivity |].

Lemma setStatus_since v a s0 t s : since v a s0 s -> since v a s0 (setStatus t s).
Proof.
  intros Hs. unfold setStatus. destruct (String.eqb _ _); [done |]. apply since_loud; [done |]. hidden s.
  destruct Hs as [Hg (new & E & _ & Ha)]. split; [done |]. by exists new.
Qed.

Lemma setAdmin_since v a s0 b s : since v a s0 s -> since v a s0 (setAdmin b s).
Proof.
  intros Hs. unfold setAdmin. destruct (Bool.eqb _ _); [done |]. apply since_loud; [done |]. hidden s.
  destruct Hs as [Hg (new & E & _ & Ha)]. split; [done |]. by exists new.
Qed.

Lemma canManage_since v a s0 b s : since v a s0 s -> since v a s0 (refreshCanManage b s).
Proof.
  intros Hs. unfold refreshCanManage. destruct (Bool.eqb _ _); [done |]. apply since_loud; [done |]. hidden s.
  destruct Hs as [Hg (new & E & _ & Ha)]. split; [done |]. by exists new.
Qed.

Lemma request_since v a s0 x y s : since v a s0 s -> since v a s0 (requestActiveHistory x y s).
Proof. intros Hs. unfold requestActiveHistory. destruct (_ || _)%bool; [done |]. cbv zeta. apply since_invoke. by frame s. Qed.

Lemma cache_since v a s0 f s :
  cache_grown (cache s) (f (cache s)) -> messageModel_ (f (cache s)) = messageModel_ (cache s) ->
  activeConversationKey_ (f (cache s)) = activeConversationKey_ (cache s) -> since v a s0 s -> since v a s0 (s <| cache ::= f |>).
Proof.
  intros Hg Hm Hk Hs. apply (since_step v a s0 s); [done | by apply cache_state_grown | | | done]; intros _.
  - unfold visible, activeKey. cbn [cache field_update]. by rewrite Hm, Hk.
  - exact Hm.
Qed.

Lemma on_models_since v a s0 f s : (forall m, grown m (f m)) -> since v a s0 s -> since v a s0 (on_models f s).
Proof. intros Hf. unfold on_models. apply cache_since; [by apply for_each_grown | done | done]. Qed.

Lemma on_model_since v a s0 id f s : (forall m, grown m (f m)) -> since v a s0 s -> since v a s0 (s <| cache ::= on_model id f |>).
Proof. intros Hf. apply cache_since; [by apply on_model_grown | done | done]. Qed.

Lemma on_current_since v a s0 f s : (forall m, grown m (f m)) -> since v a s0 s ->
  since v a s0 (s <| cache ::= fun c => on_model (messageModel_ c) f c |>).
Proof. intros Hf. apply cache_since; [by apply on_model_grown | done | done]. Qed.

Lemma system_since v a s0 now content s : since v a s0 s -> since v a s0 (appendSystemMessage now content s).
Proof. intros Hs. unfold appendSystemMessage. apply on_current_since; [auto with grown | done]. Qed.

Lemma trim_keeps n key c :
  messageModel_ (trim_loop n key c) = messageModel_ c /\ activeConversationKey_ (trim_loop n key c) = activeConversationKey_ c.
Proof.
  revert c. induction n as [| n IH]; intros c; cbn [trim_loop]; [done |]. destruct (_ <=? _)%nat; [done |]. cbv zeta.
  destruct (is_empty _); [done |]. destruct (IH (drop_model (leastRecentlyUsed c key) c)) as [-> ->].
  unfold drop_model. by destruct (conversationModels_ c !! _).
Qed.

Lemma ensure_keeps key c : messageModel_ (ensureConversationModel key c).1 = messageModel_ c /\
  activeConversationKey_ (ensureConversationModel key c).1 = activeConversationKey_ c.
Proof.
  unfold ensureConversationModel. destruct (conversationModels_ c !! key); [done |]. cbv zeta. cbn [fst].
  unfold trimConversationModelCache.
  match goal with |- context [trim_loop ?n ?k ?x] => destruct (trim_keeps n k x) as [-> ->]; done end.
Qed.

Lemma append_to_since v a s0 key r s : since v a s0 s -> since v a s0 (append_to key r s).
Proof.
  intros Hs. unfold append_to. pose proof (ensure_grown key (cache s)) as Hg. destruct (ensure_keeps key (cache s)) as [Hm Hk].
  destruct (ensureConversationModel key (cache s)) as [c id]. cbn [fst] in *.
  apply (cache_since v a s0 (fun _ => on_model id (append r) c) s); [| done | done | done].
  eapply cache_grown_trans; [exact Hg |]. apply on_model_grown. auto with grown.
Qed.

(** Walk through a handler: an intermediate state is kept with the most that is
    known of it. *)
Ltac since_known := first [ assumption | apply since_weaken; assumption | apply since_weaken_active; assumption ].

(** The handlers that others call; extended below. *)
Ltac since_call := fail.

Ltac since_walk :=
  lazymatch goal with
  | |- since _ _ ?s ?s => apply since_refl
  | |- since ?v ?a ?s0 (let x := ?t in @?b x) =>
      let u := fresh "u" in let Hu := fresh "Hu" in
      lazymatch type of t with
      | State =>
          first [ assert (since true true s0 t) as Hu by since_walk
                | assert (since false true s0 t) as Hu by since_walk
                | assert (since false false s0 t) as Hu by since_walk ];
          change (since v a s0 (b t)); revert Hu; generalize t; intros u Hu; cbv beta; since_walk
      | _ => change (since v a s0 (b t)); generalize t; intros u; cbv beta; since_walk
      end
  | |- since _ _ _ (if ?b then _ else _) => destruct b; since_walk
  | |- since _ _ _ (match ?b with _ => _ end) => destruct b; since_walk
  | |- since _ _ _ (emit "activeMessageModelChanged" _ _) => apply since_active; since_walk
  | |- since _ _ _ (emit ?signal _ _) => first [ apply since_loud; [reflexivity | since_walk] | apply since_emit; since_walk ]
  | |- since _ _ _ (invoke _ _ _) => apply since_invoke; since_walk
  | |- since _ _ _ (requestUsers _) => apply since_invoke; since_walk
  | |- since _ _ _ (requestRooms _) => apply since_invoke; since_walk
  | |- since _ _ _ (setStatus _ _) => apply setStatus_since; since_walk
  | |- since _ _ _ (setAdmin _ _) => apply setAdmin_since; since_walk
  | |- since _ _ _ (refreshCanManage _ _) => apply canManage_since; since_walk
  | |- since _ _ _ (requestActiveHistory _ _ _) => apply request_since; since_walk
  | |- since _ _ _ (append_to _ _ _) => apply append_to_since; since_walk
  | |- since _ _ _ (appendSystemMessage _ _ _) => apply system_since; since_walk
  | |- since _ _ _ (on_models _ _) => apply on_models_since; [auto with grown | since_walk]
  | |- since _ _ _ (field_update roomModel_ _ ?s) => on_list s room_grown; since_walk
  | |- since _ _ _ (field_update directMessageModel_ _ ?s) => on_list s direct_grown; since_walk
  | |- since _ _ _ (field_update memberModel_ _ ?s) => on_list s member_grown; since_walk
  | |- since _ _ _ (field_update cache (on_model _ _) ?s) => apply on_model_since; [auto with grown | since_walk]
  | |- since _ _ _ (field_update cache (fun c => on_model (messageModel_ c) _ c) ?s) => apply on_current_since; [auto with grown | since_walk]
  | |- since false false _ (field_update cache (activate _) ?s) =>
      apply (since_step false false _ s); [reflexivity | apply cache_state_grown, activate_grown | discriminate | discriminate | since_walk]
  | |- since false false _ (field_update cache reset_cache ?s) =>
      apply (since_step false false _ s); [reflexivity | apply cache_state_grown, reset_grown | discriminate | discriminate | since_walk]
  | |- since _ _ _ (field_update _ _ ?s) => first [ frame s; since_walk | hidden s; since_walk ]
  | |- _ => first [ since_known | since_call; since_walk ]
  end.

Section Announced.
  Context `{QtText} `{GuiEnv}.

Lemma lost_since reason s : since true true s (handleConnectionLost reason s).
Proof. open_handler handleConnectionLost. since_walk. Qed.

Lemma reset_since v a s0 s : since false false s0 s -> since v a s0 (resetSessionData s).
Proof. intros Hs. open_handler resetSessionData. since_walk. Qed.

Lemma identity_since v a s0 x y s : since v a s0 s -> since v a s0 (setIdentity x y s).
Proof.
  intros Hs. unfold setIdentity. cbv zeta. destruct (String.eqb_spec (localUserName_ s) x) as [<- |], (String.eqb_spec (localUserCode_ s) y) as [<- |];
    cbn [negb orb];
    try (apply since_loud; [reflexivity |]; do 2 (apply (since_step false a s0 s); [reflexivity | by apply state_grown_core | discriminate | done |]);
         destruct Hs as [Hg (new & E & _ & Ha)]; split; [done |]; by exists new).
  apply (since_step v a s0 s); [done | by apply state_grown_core | done | done | done].
Qed.

Lemma preferences_since v a s0 b c d e f s : since false a s0 s -> since v a s0 (saveConnectionPreferences b c d e f s).
Proof. intros Hs. open_handler saveConnectionPreferences. since_walk. Qed.

Lemma increment_since v a s0 k x y s : since v a s0 s -> since v a s0 (incrementUnreadForConversation k x y s).
Proof. intros Hs. open_handler incrementUnreadForConversation. since_walk. Qed.

Lemma select_direct_since v a s0 x s : since false false s0 s -> since v a s0 (selectDirectMessage x s).
Proof. intros Hs. open_handler selectDirectMessage. since_walk. Qed.

Ltac since_call ::=
  lazymatch goal with
  | |- since _ _ _ (resetSessionData _) => apply reset_since
  | |- since _ _ _ (setIdentity _ _ _) => apply identity_since
  | |- since _ _ _ (saveConnectionPreferences _ _ _ _ _ _) => apply preferences_since
  | |- since _ _ _ (incrementUnreadForConversation _ _ _ _) => apply increment_since
  | |- since _ _ _ (selectDirectMessage _ _) => apply select_direct_since
  end.

Lemma connected_since b s : since true true s (handleConnected b s).
Proof. open_handler handleConnected. since_walk. Qed.

Lemma failed_since now reason s : since true true s (handleConnectionFailed now reason s).
Proof. open_handler handleConnectionFailed. since_walk. Qed.

Lemma connect_since a b c d e f s : since true true s (connectToServerWithTlsName a b c d e f s).
Proof. open_handler connectToServerWithTlsName. since_walk. Qed.

Lemma connect_local_since a b c d e f s : since true true s (connectToLocalHost a b c d e f s).
Proof. open_handler connectToLocalHost. since_walk. Qed.

Lemma disconnect_since s : since true true s (disconnectFromServer s).
Proof. open_handler disconnectFromServer. since_walk. Qed.

Lemma select_room_since room s : since true true s (selectRoom room s).
Proof. open_handler selectRoom. since_walk. Qed.

Lemma history_since a b c d e f s : since true true s (handleHistory a b c d e f s).
Proof. open_handler handleHistory. since_walk. Qed.

Lemma filter_same {A} (p : A -> bool) l : length (List.filter p l) = length l -> List.filter p l = l.
Proof.
  induction l as [| x l IH]; cbn [List.filter length]; [done |]. destruct (p x); cbn [length]; intros E; [f_equal; apply IH; lia |].
  pose proof (List.filter_length_le p l). lia.
Qed.

Lemma approval_result_since now msg s : since true true s (handle_approval_result now msg s).
Proof.
  unfold handle_approval_result. cbv zeta. set (pending := List.filter _ _).
  set (s1 := s <| pendingConnectionApprovals_ := pending |>).
  assert (since true true s (if negb (length pending =? length (pendingConnectionApprovals_ s))%nat
            then emit "pendingConnectionApprovalsChanged" [] s1 else s1)) as H1.
  { destruct (Nat.eqb_spec (length pending) (length (pendingConnectionApprovals_ s))) as [E | _]; cbn [negb].
    - apply (since_step true true s s); [done | by apply state_grown_core | | done | apply since_refl]. intros _.
      assert (pending = pendingConnectionApprovals_ s) as Hp by by apply filter_same. unfold visible. cbn. by rewrite Hp.
    - subst s1. since_walk. }
  match type of H1 with since _ _ _ ?x => revert H1; generalize x end. intros s2 H2. since_walk.
Qed.

Lemma approval_request_since msg s : since true true s (handle_approval_request msg s).
Proof.
  unfold handle_approval_request. destruct (_ || _ || _)%bool; [apply since_refl |]. cbv zeta.
  destruct (replace_request _ _ _) as [pending replaced]. since_walk.
Qed.

Lemma message_since now msg s : since true true s (handleMessage now msg s).
Proof.
  unfold handleMessage. cbv zeta.
  repeat match goal with |- since _ _ _ (if ?b then _ else _) => destruct b end; try since_walk.
  - open_handler handle_delivery_receipt. since_walk.
  - apply approval_request_since.
  - apply approval_result_since.
  - open_handler handle_users_response. since_walk.
  - open_handler handle_rooms_response. since_walk.
  - open_handler handle_chat. since_walk.
  - open_handler handle_error. since_walk.
Qed.

(** Every handler announces what it changes. *)
Lemma handle_since e s : since true true s (handle e s).
Proof.
  destruct e as [ | | | | | | | | | | | | | | | | | | | | | | | | | | | | | | | []]; cbn [handle];
    try (unfold refresh_timeout, createRoom, sendRoomAction, sendAdminAction, handleReconnectScheduled,
      handleReconnectAttempt, handleReconnectFailed, messageDeliveryFailed, removeLocalMessage, setBundledCaFile,
      forward, startAttachmentDownload; since_walk; done).
  - apply connect_since.
  - apply connect_local_since.
  - apply disconnect_since.
  - open_handler sendRoomMessage. since_walk.
  - open_handler sendPrivateMessage. since_walk.
  - open_handler searchActiveHistory. since_walk.
  - apply select_room_since.
  - open_handler openPrivateChat. since_walk.
  - unfold recallMessage. destruct (canRecallMessage _ _); cbn [fst]; since_walk.
  - unfold retryMessage. destruct (is_empty _); [apply since_refl |]. destruct (List.find _ _) as [[key m] |]; [| apply since_refl].
    cbn [fst]. since_walk.
  - apply connected_since.
  - apply failed_since.
  - apply lost_since.
  - apply history_since.
  - apply message_since.
  - unfold handleAttachmentEvent. destruct (_ || _ || _)%bool; [apply since_refl |].
    destruct (fromJson _) as [[] |]; try apply since_refl. destruct (List.find _ _) as [[key m] |]; since_walk.
  - unfold chooseAndUploadAttachment, startAttachmentUpload. cbv zeta. since_walk.
  - unfold sendAttachmentDownload, startAttachmentDownload. since_walk.
Qed.

End Announced.

(** ** Models and their snapshots *)

Lemma serialize_equiv roles r r' : row_equiv r r' -> serialize_row roles r = serialize_row roles r'.
Proof. intros Hr. unfold serialize_row. do 2 f_equal. apply map_ext. intros k. by rewrite Hr. Qed.

Lemma serializeModel_log m m' : lm_roles m = lm_roles m' -> lm_log m = lm_log m' -> in_sync m -> in_sync m' ->
  serializeModel m = serializeModel m'.
Proof.
  intros Er El Hs Hs'. assert (Forall2 row_equiv (lm_rows m) (lm_rows m')) as Hr.
  { unfold in_sync, shown in *. rewrite <- El in Hs'. etrans; [symmetry; exact Hs | exact Hs']. }
  unfold serializeModel. rewrite Er, (Forall2_length _ _ _ Hr). generalize (length (lm_rows m') - kMaxSerializedRows)%nat as k. intros k.
  apply (Forall2_drop _ _ _ k) in Hr. induction Hr as [| r r' l l' Hrr _ IH]; cbn [map]; [done |].
  f_equal; [by apply serialize_equiv | exact IH].
Qed.

(** A model that announced nothing still has its snapshot. *)
Lemma unannounced_snapshot n n' s s' r :
  sinv n s -> sinv n' s' -> state_grown s s' -> is_live s r -> is_live s' r -> (announced r s' <= announced r s)%nat ->
  live_snapshot s r = live_snapshot s' r.
Proof.
  intros Hs Hs' Hg [m Em] [m' Em'] Ha. unfold live_snapshot, announced in *. rewrite Em, Em' in *. cbn in *.
  assert (grown m m' /\ in_sync m /\ in_sync m') as ([Er [l El]] & Hm & Hm').
  { destruct Hs as [[Hi Hb Hgood] [_ H1] [_ H2] [_ H3]], Hs' as [[Hi' Hb' Hgood'] [_ H1'] [_ H2'] [_ H3']], Hg as [G1 G2 G3 [_ G4]].
    destruct r as [| | | id]; cbn in Em, Em'; [injection Em as <-; injection Em' as <- .. |]; try done.
    destruct (cw_owned _ (ci_wf _ Hi) id (ex_intro _ m Em)) as [Hid _]. destruct (G4 id Hid m' Em') as (m0 & E0 & G0).
    rewrite Em in E0. injection E0 as ->. split; [done |].
    pose proof (Hgood id _ Em) as (_ & [_ ?] & _). pose proof (Hgood' id _ Em') as (_ & [_ ?] & _). done. }
  rewrite El, length_app in Ha. assert (l = []) as -> by (apply nil_length_inv; lia). rewrite app_nil_r in El.
  by apply serializeModel_log.
Qed.

Lemma active_live n s : sinv n s -> is_live s (active_ref s).
Proof. intros [[Hi _ _] _ _ _]. apply (cw_live _ (ci_wf _ Hi) _ _ (ci_current _ Hi)). Qed.

(** ** Reactions *)

(** Everything of the bridge that neither a reaction nor a mark changes. *)
Definition frame_of (b : Bridge) :=
  (controller b, profile b, graphics b, discovery b, savedCertificates b, diagnosticsSetting b, hostDefaults_ b, serializedModels_ b,
   latestStateJson_ b).

(** From [b] to [b'] by reactions to the controller in its present state. *)
Record reacted (b b' : Bridge) : Prop := mk_reacted {
  rc_frame : frame_of b' = frame_of b;
  rc_dirty : dirtyModels_ b ⊆ dirtyModels_ b';
  rc_connected : connectedModels_ b ⊆ connectedModels_ b';
  rc_new : forall r, r ∈ connectedModels_ b' -> r ∈ connectedModels_ b \/ (r = active_ref (controller b) /\ r ∈ dirtyModels_ b');
  rc_quiet : stateTimer_ b' = false ->
    stateTimer_ b = false /\ lastError_ b' = lastError_ b /\ dirtyModels_ b' = dirtyModels_ b;
}.

Lemma reacted_refl b : reacted b b.
Proof. split; auto. Qed.

Lemma reacted_trans b1 b2 b3 : reacted b1 b2 -> reacted b2 b3 -> reacted b1 b3.
Proof.
  intros [F1 D1 C1 N1 Q1] [F2 D2 C2 N2 Q2]. split.
  - congruence.
  - set_solver.
  - set_solver.
  - intros r Hr. assert (controller b2 = controller b1) as Ec by (injection F1; done).
    destruct (N2 r Hr) as [Hr2 | [Er Hd]]; [| right; by rewrite <- Ec]. destruct (N1 r Hr2) as [? | [? ?]]; [by left | right]. set_solver.
  - intros Ht. destruct (Q2 Ht) as (T2 & E2 & X2). destruct (Q1 T2) as (T1 & E1 & X1). split_and!; congruence.
Qed.

Lemma scheduled b b' : frame_of b' = frame_of b -> dirtyModels_ b' = dirtyModels_ b -> connectedModels_ b' = connectedModels_ b ->
  reacted b (scheduleStateUpdate b').
Proof. intros Ef Ed Ec. split; [exact Ef | cbn; by rewrite Ed | cbn; by rewrite Ec | cbn; rewrite Ec; auto | done]. Qed.

Lemma connect_reacted b : reacted b (scheduleStateUpdate (connectModel (active_ref (controller b)) true b)).
Proof.
  unfold connectModel. case_decide; [by apply scheduled |]. split; [done | cbn; set_solver | cbn; set_solver | cbn | done].
  intros r [Hr%elem_of_singleton | Hr]%elem_of_union; [right | by left]. subst r. split; [done |]. set_solver.
Qed.

Lemma complete_reacted c ok reason b : reacted b (completeRecallCommand c ok reason b).
Proof. unfold completeRecallCommand. case_decide; [| apply reacted_refl]. by split; auto. Qed.

Lemma react_reacted o b : reacted b (react o b).
Proof.
  destruct o as [slot args | signal args]; cbn [react]; [apply reacted_refl |]. cbv zeta.
  repeat match goal with |- reacted b (if ?c then _ else _) => destruct c end;
    try (by apply scheduled); try apply reacted_refl; try apply connect_reacted.
  - by destruct (connected_ (controller b)); apply scheduled.
  - destruct args as [| [] ]; try apply reacted_refl. by apply scheduled.
  - destruct args as [| [] ]; try apply reacted_refl. by apply scheduled.
  - destruct args as [| [] ]; try apply reacted_refl. apply complete_reacted.
  - destruct args as [| [] [| [] ] ]; try apply reacted_refl. apply complete_reacted.
Qed.

Lemma react_loud o b : loud o = true -> stateTimer_ (react o b) = true.
Proof.
  destruct o as [slot args | signal args]; [done |]. cbn [loud react]. unfold loud_signal. intros Hl%bool_decide_eq_true. cbv zeta.
  destruct (bool_decide (signal ∈ kStateSignals)) eqn:Es; [done |]. apply bool_decide_eq_false in Es.
  apply elem_of_cons in Hl as [-> | Hl]; [done |]. apply elem_of_cons in Hl as [-> | Hl]; [done | contradiction].
Qed.

Lemma react_switches o b : switches o = true -> active_ref (controller b) ∈ connectedModels_ (react o b).
Proof.
  destruct o as [slot args | signal args]; [done |]. cbn [switches]. intros ->%String.eqb_eq. cbn.
  unfold connectModel. case_decide; [done |]. cbn. set_solver.
Qed.

Lemma timer_stays b b' : reacted b b' -> stateTimer_ b = true -> stateTimer_ b' = true.
Proof. intros Hr Ht. destruct (stateTimer_ b') eqn:E; [done |]. destruct (rc_quiet _ _ Hr E) as (? & _). congruence. Qed.

Lemma reactions new b :
  let b' := foldl (fun b o => react o b) b new in
  reacted b b' /\ (existsb loud new = true -> stateTimer_ b' = true) /\
  (existsb switches new = true -> active_ref (controller b) ∈ connectedModels_ b').
Proof.
  revert b. induction new as [| o new IH]; intros b; cbn [foldl existsb]; [split; [apply reacted_refl | done] |].
  cbv zeta in *. destruct (IH (react o b)) as (H1 & H2 & H3). pose proof (react_reacted o b) as H0.
  assert (controller (react o b) = controller b) as Ec by (pose proof (rc_frame _ _ H0) as Ef; injection Ef; done).
  split; [by eapply reacted_trans |]. split.
  - intros [Ho | Hn]%orb_true_iff; [| by apply H2]. eapply timer_stays; [exact H1 | by apply react_loud].
  - intros [Ho | Hn]%orb_true_iff; [| rewrite <- Ec; by apply H3]. apply (rc_connected _ _ H1). by apply react_switches.
Qed.

(** The marks. *)
Definition marks (before : State) (b : Bridge) (X : gset model_ref) (b' : Bridge) : Prop :=
  reacted b b' /\ connectedModels_ b' = connectedModels_ b /\
  forall r, r ∈ X -> (announced r before < announced r (controller b))%nat -> r ∈ dirtyModels_ b' /\ stateTimer_ b' = true.

Lemma mark_changed_marks before b : marks before b (connectedModels_ b) (mark_changed before b).
Proof.
  unfold mark_changed. apply (set_fold_ind_L (fun b' X => marks before b X b')).
  - split; [apply reacted_refl |]. split; [done |]. set_solver.
  - intros r X b' Hr (H1 & H2 & H3). assert (controller b' = controller b) as Ec by (pose proof (rc_frame _ _ H1) as Ef; injection Ef; done).
    destruct (Nat.ltb_spec (announced r before) (announced r (controller b'))) as [Hl | Hge].
    + assert (reacted b' (markModelDirty r true b')) as Hm by (split; [done | cbn; set_solver | done | by left | done]).
      split; [by eapply reacted_trans |]. split; [done |]. intros r' [->%elem_of_singleton | Hr']%elem_of_union Hl'.
      * cbn. split; [set_solver | done].
      * split; [| done]. cbn. apply elem_of_union_r. by apply H3.
    + split; [done |]. split; [done |]. intros r' [->%elem_of_singleton | Hr']%elem_of_union Hl'; [rewrite Ec in Hge; lia | by apply H3].
Qed.

(** ** The cache of snapshots *)

Section Fresh.
  Context `{QtText} `{GuiEnv} `{CryptoLib} `{QtJson} `{LanLaws} `{BridgeEnv}.
  Context (names : string -> string * Z).

(** What the published state reads besides the models. *)
Definition parts (b : Bridge) :=
  (visible (controller b), performance_object (profile b), graphics b, scanning_ (discovery b),
   hostsJson be_storageRoot (certificate_exists b) (discovery b), diagnosticsSetting b, hostDefaults_ b, lastError_ b).

Definition shown_refs (s : State) : list model_ref := [RoomRef; DirectRef; MemberRef; active_ref s].

Lemma state_object_parts f g b b' : parts b = parts b' -> (forall r, r ∈ shown_refs (controller b) -> f r = g r) ->
  state_object f b = state_object g b'.
Proof.
  intros E Hfg. unfold parts, visible in E. injection E as E1 E2 E3 E4 E5 E6 E7 E8 E9 E10 E11 E12 E13 E14 E15 E16 E17 E18 E19.
  assert (f RoomRef = g RoomRef) as F1 by (apply Hfg; left).
  assert (f DirectRef = g DirectRef) as F2 by (apply Hfg; right; left).
  assert (f MemberRef = g MemberRef) as F3 by (apply Hfg; do 2 right; left).
  assert (f (active_ref (controller b)) = g (active_ref (controller b'))) as F4.
  { replace (active_ref (controller b')) with (active_ref (controller b)) by (unfold active_ref; congruence). apply Hfg. do 3 right. left. }
  unfold state_object, connection_object, connection_phase, buildActiveConversation, diagnostics_enabled,
    savedServerIp, savedServerPort, savedUsername, savedUserCode, savedCaFile, setting. cbv zeta.
  rewrite E1, E2, E3, E4, E5, E6, E7, E9, E10, E11, E12, E13, E14, E15, E16, E17, E18, E19, F1, F2, F3, F4. reflexivity.
Qed.

(** Every model that is shown is connected, and the snapshot of a connected model
    that is not dirty is that of the model. *)
Record cached (n : Z) (b : Bridge) : Prop := mk_cached {
  ca_controller : sinv n (controller b);
  ca_shown : forall r, r ∈ shown_refs (controller b) -> r ∈ connectedModels_ b;
  ca_live : forall r, r ∈ connectedModels_ b -> is_live (controller b) r;
  ca_snapshot : forall r, r ∈ connectedModels_ b -> r ∈ dirtyModels_ b \/ serializedModels_ b !! r = Some (live_snapshot (controller b) r);
  ca_profile : forall p, profile b = Some p -> settled p;
  ca_table : map_Forall (named names) (hosts_ (discovery b));
}.

(** Unless a publication is pending, the text is that of the present state. *)
Definition current (b : Bridge) : Prop :=
  dirtyModels_ b = ∅ /\ latestStateJson_ b = serializeState qt_toJson (state_object (live_snapshot (controller b)) b).

Definition fresh (n : Z) (b : Bridge) : Prop := cached n b /\ (stateTimer_ b = false -> current b).

Definition cache_fields (b : Bridge) :=
  (controller b, profile b, hosts_ (discovery b), serializedModels_ b, dirtyModels_ b, connectedModels_ b).

Lemma cached_fields n b b' : cache_fields b = cache_fields b' -> cached n b -> cached n b'.
Proof.
  intros E. unfold cache_fields in E. injection E as E1 E2 E3 E4 E5 E6. intros [P1 P2 P3 P4 P5 P6].
  split; rewrite <- ?E1, <- ?E2, <- ?E3, <- ?E4, <- ?E5, <- ?E6; done.
Qed.

Lemma cached_fresh n b : cached n b -> stateTimer_ b = true -> fresh n b.
Proof. intros Hc Ht. split; [done |]. congruence. Qed.

Lemma scheduled_fresh n b : cached n b -> fresh n (scheduleStateUpdate b).
Proof. intros Hc. apply cached_fresh; [| done]. by apply (cached_fields n b). Qed.

(** A step that the state does not show. *)
Lemma fresh_frame n b b' : cache_fields b = cache_fields b' -> parts b = parts b' -> latestStateJson_ b' = latestStateJson_ b ->
  (stateTimer_ b' = false -> stateTimer_ b = false) -> fresh n b -> fresh n b'.
Proof.
  intros Ef Ep El Et [Hc Hf]. split; [by apply (cached_fields n b) |]. intros Ht. destruct (Hf (Et Ht)) as [Hd Hl].
  unfold cache_fields in Ef. injection Ef as E1 E2 E3 E4 E5 E6. split; [by rewrite <- E5 |]. rewrite El, Hl, E1. f_equal.
  by apply state_object_parts.
Qed.

Lemma serialized_lookup f (X : gset model_ref) (c : gmap model_ref (list json)) r :
  let c' := set_fold (fun r acc => <[r := f r]> acc) c X in
  (r ∈ X -> c' !! r = Some (f r)) /\ (r ∉ X -> c' !! r = c !! r).
Proof.
  apply (set_fold_ind_L (fun c' X => (r ∈ X -> c' !! r = Some (f r)) /\ (r ∉ X -> c' !! r = c !! r))); [set_solver |].
  intros r' Y acc Hr' [I1 I2]. destruct (decide (r' = r)) as [-> | Hne].
  - rewrite lookup_insert_eq. set_solver.
  - rewrite lookup_insert_ne by done. set_solver.
Qed.

Lemma serialize_dirty_cached n b : cached n b -> cached n (serialize_dirty b).
Proof.
  intros [P1 P2 P3 P4 P5 P6]. split; try done. intros r Hr. right. cbn [serialize_dirty serializedModels_ controller field_update].
  change (controller (serialize_dirty b)) with (controller b). cbn. destruct (serialized_lookup (live_snapshot (controller b)) (dirtyModels_ b) (serializedModels_ b) r) as [L1 L2].
  destruct (decide (r ∈ dirtyModels_ b)) as [Hd | Hd]; [by apply L1 |]. rewrite L2 by done. by destruct (P4 r Hr).
Qed.

Lemma serialized_text n b : cached n b ->
  (buildState b).2 = state_object (live_snapshot (controller b)) (serialize_dirty b).
Proof.
  intros Hc%serialize_dirty_cached. cbn [buildState snd]. apply state_object_parts; [done |]. intros r Hr.
  destruct Hc as [_ Hs _ Hl _ _]. destruct (Hl r (Hs r Hr)) as [Hx | E]; [by apply elem_of_empty in Hx |]. by rewrite E.
Qed.

Lemma rebuild_fresh n b : cached n b -> fresh n (rebuildStateSnapshot b).
Proof.
  intros Hc. pose proof (serialized_text n b Hc) as Et. apply serialize_dirty_cached in Hc. unfold rebuildStateSnapshot.
  change (buildState b) with (serialize_dirty b, (buildState b).2). rewrite Et. clear Et. change (controller b) with (controller (serialize_dirty b)).
  assert (dirtyModels_ (serialize_dirty b) = ∅) as Hd by done.
  generalize dependent (serialize_dirty b). clear b. intros b Hc Hd. split; [by apply (cached_fields n b) |].
  intros _. split; [done |]. apply (f_equal (serializeState qt_toJson)). by apply state_object_parts.
Qed.

Lemma publish_text n b : cached n b ->
  latestStateJson_ (publishState b) = serializeState qt_toJson (state_object (live_snapshot (controller b)) b).
Proof.
  intros Hc. assert (cached n (b <| stateTimer_ := false |>)) as Hc' by by apply (cached_fields n b).
  pose proof (serialized_text n _ Hc') as Et. unfold publishState, rebuildStateSnapshot. cbv zeta.
  set (b' := b <| stateTimer_ := false |>) in *. change (buildState b') with (serialize_dirty b', (buildState b').2). rewrite Et.
  apply (f_equal (serializeState qt_toJson)). by apply state_object_parts.
Qed.

(** ** Calls on the controller *)

(** From [b] to [b'] by a handler that took the controller to [s]. *)
Record controlled (s : State) (b b' : Bridge) : Prop := mk_controlled {
  cd_reacted : reacted (b <| controller := s |>) b';
  cd_grown : state_grown (controller b) s;
  cd_marks : forall r, r ∈ connectedModels_ b -> (announced r (controller b) < announced r s)%nat -> r ∈ dirtyModels_ b' /\ stateTimer_ b' = true;
  cd_visible : stateTimer_ b' = true \/ visible s = visible (controller b);
  cd_active : active_ref s ∈ connectedModels_ b' \/ active_ref s = active_ref (controller b);
}.

Lemma control_controlled e b : exists b', controlled (handle e (controller b)) b b' /\ control e b = forget_destroyed b'.
Proof.
  unfold control. cbv zeta. destruct (handle_since e (controller b)) as [Hg (new & Eo & Hv & Ha)].
  rewrite Eo, drop_app_length. set (b1 := b <| controller := handle e (controller b) |>).
  destruct (mark_changed_marks (controller b) b1) as (M1 & M2 & M3). set (b2 := mark_changed (controller b) b1) in *.
  destruct (reactions new b2) as (R1 & R2 & R3). set (b3 := foldl _ b2 new) in *. exists b3. split; [| done].
  assert (controller b2 = handle e (controller b)) as Ec2 by (pose proof (rc_frame _ _ M1) as Ef; injection Ef; done).
  rewrite Ec2 in R3. clearbody b2 b3. split.
  - by eapply reacted_trans.
  - done.
  - intros r Hr Hl. destruct (M3 r Hr Hl) as [Hd Ht]. split; [by apply (rc_dirty _ _ R1) | by eapply timer_stays].
  - destruct (Hv eq_refl) as [Hn | Hn]; [left; by apply R2 | by right].
  - destruct (Ha eq_refl) as [Hn | Hn]; [left; by apply R3 | right]. unfold active_ref. by f_equal.
Qed.

Lemma reacted_fields s b b' : reacted (b <| controller := s |>) b' ->
  controller b' = s /\ profile b' = profile b /\ serializedModels_ b' = serializedModels_ b /\ latestStateJson_ b' = latestStateJson_ b /\
  discovery b' = discovery b.
Proof. intros Hr. pose proof (rc_frame _ _ Hr) as Ef. unfold frame_of in Ef. injection Ef. by intros. Qed.

Lemma shown_live n s r : sinv n s -> r ∈ shown_refs s -> is_live s r.
Proof.
  intros Hs Hr. unfold shown_refs in Hr. rewrite !elem_of_cons, elem_of_nil in Hr. destruct Hr as [-> | [-> | [-> | [-> | []]]]];
    [by eexists .. | by eapply active_live].
Qed.

(** A model that was shown right and is not marked is shown right. *)
Lemma unmarked_snapshot n n' s b b' r : cached n b -> sinv n' s -> controlled s b b' -> r ∈ connectedModels_ b -> is_live s r ->
  r ∉ dirtyModels_ b' -> live_snapshot (controller b) r = live_snapshot s r.
Proof.
  intros Hc Hs Hcd Hr Hl Hd. apply (unannounced_snapshot n n'); [apply Hc | done | apply Hcd | by apply Hc | done |].
  destruct (Nat.leb_spec (announced r s) (announced r (controller b))) as [? | Hlt]; [done |].
  destruct Hd. by apply (cd_marks _ _ _ Hcd).
Qed.

Lemma forget_fields b : let b' := forget_destroyed b in
  controller b' = controller b /\ profile b' = profile b /\ discovery b' = discovery b /\
  serializedModels_ b' = filter (fun entry => is_live (controller b) entry.1) (serializedModels_ b) /\
  dirtyModels_ b' = filter (is_live (controller b)) (dirtyModels_ b) /\
  connectedModels_ b' = filter (is_live (controller b)) (connectedModels_ b).
Proof. by split_and!. Qed.

Lemma controlled_cached n n' s b b' : cached n b -> sinv n' s -> controlled s b b' -> cached n' (forget_destroyed b').
Proof.
  intros Hc Hs Hcd. pose proof (cd_reacted _ _ _ Hcd) as Hr. destruct (reacted_fields _ _ _ Hr) as (Ec & Ep & Es & _ & Edi).
  assert (forall r, r ∈ shown_refs s -> r ∈ connectedModels_ b') as Hshown.
  { intros r Hr0. pose proof (rc_connected _ _ Hr) as Hsub. cbn in Hsub. destruct Hc as [_ Hc _ _ _ _]. unfold shown_refs in Hr0, Hc.
    rewrite !elem_of_cons, elem_of_nil in Hr0. destruct Hr0 as [-> | [-> | [-> | [-> | []]]]];
      [apply Hsub, Hc; set_solver .. |]. destruct (cd_active _ _ _ Hcd) as [? | ->]; [done |]. apply Hsub, Hc. set_solver. }
  destruct (forget_fields b') as (Fc & Fp & Fh & Fs & Fd & Fn). split; rewrite ?Fc, ?Fp, ?Fh, ?Fs, ?Fd, ?Fn, ?Ec.
  - done.
  - intros r Hr0. apply elem_of_filter. split; [by eapply shown_live | by apply Hshown].
  - intros r [Hl _]%elem_of_filter. done.
  - intros r [Hl Hin]%elem_of_filter. destruct (decide (r ∈ dirtyModels_ b')) as [Hd | Hd]; [left; by apply elem_of_filter |]. right.
    apply map_lookup_filter_Some. split; [| done]. rewrite Es.
    destruct (rc_new _ _ Hr r Hin) as [Hb | [_ ?]]; [cbn in Hb | done].
    destruct (ca_snapshot _ _ Hc r Hb) as [Hbd | ->]; [destruct Hd; by apply (rc_dirty _ _ Hr) |]. f_equal.
    by eapply unmarked_snapshot.
  - rewrite Ep. apply Hc.
  - rewrite Edi. apply Hc.
Qed.

Lemma controlled_fresh n n' s b b' : fresh n b -> sinv n' s -> controlled s b b' -> fresh n' (forget_destroyed b').
Proof.
  intros [Hc Hf] Hs Hcd. split; [by eapply controlled_cached |]. change (stateTimer_ (forget_destroyed b')) with (stateTimer_ b'). intros Ht.
  pose proof (cd_reacted _ _ _ Hcd) as Hr. destruct (rc_quiet _ _ Hr Ht) as (Ht0 & He & Hd). destruct (Hf Ht0) as [Hd0 Hl0]. cbn in He, Hd.
  assert (visible s = visible (controller b)) as Hv by (destruct (cd_visible _ _ _ Hcd) as [? | ?]; [congruence | done]).
  assert (dirtyModels_ b' = ∅) as Hd' by congruence. split; [rewrite (proj1 (proj2 (proj2 (proj2 (proj2 (forget_fields b')))))), Hd'; set_solver |].
  pose proof (rc_frame _ _ Hr) as Ef. unfold frame_of in Ef. cbn in Ef. injection Ef as F1 F2 F3 F4 F5 F6 F7 F8 F9.
  change (latestStateJson_ (forget_destroyed b')) with (latestStateJson_ b'). rewrite F9, Hl0. apply (f_equal (serializeState qt_toJson)).
  change (controller (forget_destroyed b')) with (controller b'). rewrite F1. apply state_object_parts.
  - unfold parts, certificate_exists. cbn. by rewrite F1, F2, F3, F4, F5, F6, F7, He, Hv.
  - intros r Hr0. eapply unmarked_snapshot; [done | done | done | by apply Hc | | set_solver].
    apply (shown_live n'); [done |]. assert (messageModel_ (cache s) = messageModel_ (cache (controller b))) as Em by (unfold visible in Hv; injection Hv; done).
    unfold shown_refs, active_ref in *. by rewrite Em.
Qed.

Lemma control_fresh n e b : n < UINT64_MAX - 1 -> page_ok e -> fresh n b -> fresh (n + 1) (control e b).
Proof.
  intros Hn He Hf. destruct (control_controlled e b) as (b' & Hc & ->). eapply controlled_fresh; [done | | done].
  apply handle_sinv; [done | done | apply Hf].
Qed.

(** ** The other parts *)

Lemma recompute_signals p : exists emitted, pf_signals (recompute p) = pf_signals p ++ emitted /\
  (existsb profile_watched emitted = false ->
   effectiveMode_ (recompute p) = effectiveMode_ p /\ automaticReason_ (recompute p) = automaticReason_ p).
Proof.
  unfold recompute. destruct (next_mode p) as [[effective pending] streak]. eexists. split; [reflexivity |].
  rewrite !existsb_app. cbn [effectiveMode_ automaticReason_].
  destruct (String.eqb_spec (effectiveMode_ p) effective) as [<- | _]; [| done].
  destruct (String.eqb_spec (automaticReason_ p) (if is_automatic p then automaticReasonForContext p else "manual-selection")) as [<- | _]; [done |].
  by rewrite !orb_true_r.
Qed.

Lemma recompute_loud p q extra : pf_signals q = pf_signals p ++ extra -> existsb profile_watched extra = true ->
  existsb profile_watched (drop (length (pf_signals p)) (pf_signals (recompute q))) = true.
Proof.
  intros Eq He. destruct (recompute_signals q) as (emitted & -> & _). by rewrite Eq, <- app_assoc, drop_app_length, existsb_app, He.
Qed.

(** A call after which the profile is silent leaves what is shown of it. *)
Lemma profile_quiet c p : settled p ->
  existsb profile_watched (drop (length (pf_signals p)) (pf_signals (profile_step c p))) = false ->
  performance_object (Some (profile_step c p)) = performance_object (Some p).
Proof.
  intros Hp. pose proof (st_capabilities _ Hp) as Ecap. destruct c as [mode | hw sw rate | frameMs]; cbn [profile_step].
  - unfold setMode. cbv zeta. destruct (String.eqb _ _); [done |].
    by rewrite (recompute_loud p _ [ObservedFrameCountChanged; MetricsChanged; ModeChanged]).
  - unfold updateGraphicsContext. set (q := p <| hardwareAcceleration_ := _ |> <| softwareRendering_ := _ |> <| refreshRate_ := _ |>).
    destruct (recompute_signals q) as (emitted & -> & Hq). change (pf_signals q) with (pf_signals p). rewrite drop_app_length. intros He.
    destruct (Hq He) as [E1 E2]. assert (pf_capabilities (recompute q) = pf_capabilities p) as E3.
    { rewrite Ecap. change (effectiveMode_ p) with (effectiveMode_ q). rewrite <- E1. unfold recompute. by destruct (next_mode q) as [[? ?] ?]. }
    assert (pf_mode_ (recompute q) = pf_mode_ p /\ frameTimesMs_ (recompute q) = frameTimesMs_ p /\ pf_metrics (recompute q) = pf_metrics p) as (E4 & E5 & E6)
      by (unfold recompute; by destruct (next_mode q) as [[? ?] ?]).
    cbn [performance_object]. by rewrite E1, E2, E3, E4, E5, E6.
  - unfold observeFrameTime. destruct (ignored_frame _ _); [done |]. cbv zeta.
    by rewrite (recompute_loud p _ [ObservedFrameCountChanged; MetricsChanged]).
Qed.

Lemma adapt_cached n c b : cached n b -> cached n (adapt c b).
Proof.
  intros Hc. unfold adapt. destruct (profile b) as [p |] eqn:Ep; [| done]. cbv zeta.
  assert (cached n (b <| profile := Some (profile_step c p) |>)) as Hc'.
  { destruct Hc as [P1 P2 P3 P4 P5 P6]. split; try done. intros ? [= <-]. by apply step_settled, P5. }
  destruct (existsb _ _); [by apply scheduled_fresh | done].
Qed.

Lemma adapt_fresh n c b : fresh n b -> fresh n (adapt c b).
Proof.
  intros [Hc Hf]. split; [by apply adapt_cached |]. unfold adapt. destruct (profile b) as [p |] eqn:Ep; [| done]. cbv zeta.
  pose proof (profile_quiet c p (ca_profile _ _ Hc p Ep)) as Hq. destruct (existsb _ _); [done |]. intros Ht. destruct (Hf Ht) as [Hd Hl].
  split; [done |]. etrans; [exact Hl |]. apply (f_equal (serializeState qt_toJson)). apply state_object_parts; [| done].
  unfold parts. change (profile (field_update _ _ b)) with (Some (profile_step c p)). by rewrite (Hq eq_refl), Ep.
Qed.

Lemma discover_fresh n c b : consistent names c -> fresh n b -> fresh n (discover c b).
Proof.
  intros Hc Hf. unfold discover. cbv zeta. change (discovery (field_update _ _ b)) with (discovery_step c (discovery b)).
  destruct (step_quiet names be_storageRoot (certificate_exists b) c (discovery b) Hc (ca_table _ _ (proj1 Hf))) as [Ht Hq].
  assert (cached n (b <| discovery ::= discovery_step c |>)) as Hc'.
  { destruct Hf as [[P1 P2 P3 P4 P5 P6] _]. by split. }
  destruct (Nat.ltb_spec (length (d_signals (discovery b))) (length (d_signals (discovery_step c (discovery b))))) as [_ | Hle];
    [by apply scheduled_fresh |]. destruct (Hq Hle) as [Es Eh].
  split; [done |]. intros Htm. destruct Hf as [_ Hf]. destruct (Hf Htm) as [Hd Hl].
  split; [done |]. etrans; [exact Hl |]. apply (f_equal (serializeState qt_toJson)). apply state_object_parts; [| done].
  unfold parts. change (discovery (field_update _ _ b)) with (discovery_step c (discovery b)). rewrite Es.
  change (certificate_exists (field_update _ _ b)) with (certificate_exists b). by rewrite Eh.
Qed.

Lemma screen_fresh n s b : fresh n b -> fresh n (refresh_screen s b).
Proof.
  intros Hf. unfold refresh_screen. destruct (graphics b) as [g |] eqn:Eg; [| done]. cbv zeta. apply scheduled_fresh.
  apply adapt_cached. apply (cached_fields n b); [done | apply Hf].
Qed.

(** ** Commands *)

Lemma fresh_succ n b : fresh n b -> fresh (n + 1) b.
Proof. intros [[P1 P2 P3 P4 P5 P6] Hf]. split; [| done]. split; try done. by apply sinv_succ. Qed.

Lemma signal_fresh n g b : fresh n b -> fresh n (signal_bridge g b).
Proof. by apply fresh_frame. Qed.

Lemma answer_fresh n commandId ok error b : fresh n b -> fresh n (answer commandId ok error b).
Proof. apply signal_fresh. Qed.

Lemma answer_cached n commandId ok error b : cached n b -> cached n (answer commandId ok error b).
Proof. by apply cached_fields. Qed.

Lemma schedule_fresh n b : fresh n b -> fresh n (scheduleStateUpdate b).
Proof. intros Hf. apply scheduled_fresh, Hf. Qed.

Lemma done_fresh n commandId b : fresh n b -> fresh n (done_with commandId b).
Proof. intros Hf. by apply schedule_fresh, answer_fresh. Qed.

Lemma recall_ids_fresh n f b : fresh n b -> fresh n (b <| pendingRecallCommandIds_ ::= f |>).
Proof. by apply fresh_frame. Qed.

Lemma certificates_cached n f b : cached n b -> cached n (b <| savedCertificates ::= f |>).
Proof. by apply cached_fields. Qed.

Lemma frames_fresh n l b : fresh n b -> fresh n (foldl (fun b v => adapt (PFrame (toDouble v)) b) b l).
Proof. revert b. induction l as [| v l IH]; intros b Hf; [done |]. cbn [foldl]. by apply IH, adapt_fresh. Qed.

Lemma control_cached n e b : n < UINT64_MAX - 1 -> page_ok e -> cached n b -> cached (n + 1) (control e b).
Proof.
  intros Hn He Hc. destruct (control_controlled e b) as (b' & Hcd & ->). eapply controlled_cached; [done | | done].
  apply handle_sinv; [done | done | apply Hc].
Qed.

Lemma execute_fresh n env commandId type payload b : n < UINT64_MAX - 1 -> fresh n b -> fresh (n + 1) (execute env commandId type payload b).
Proof.
  intros Hn Hf. unfold execute. cbv zeta.
  repeat match goal with |- fresh _ (if ?c then _ else _) => destruct c end;
    first [ by apply done_fresh, control_fresh
          | by apply schedule_fresh, control_fresh
          | by apply control_fresh
          | by apply done_fresh, fresh_succ
          | by apply answer_fresh, fresh_succ
          | idtac ].
  - unfold discoverLanHosts. cbv zeta. apply fresh_succ.
    destruct (refresh _ _ _ _) as [? []]; cbn [snd]; [apply done_fresh | apply schedule_fresh, answer_fresh]; by apply discover_fresh.
  - unfold connectDiscoveredHost. cbv zeta. destruct (connectData _ _ _) as [host | error]; [| by apply schedule_fresh, answer_fresh, fresh_succ].
    destruct (persistCertificate _ _ _ _) as [[path pem] | error]; [| by apply schedule_fresh, answer_fresh, fresh_succ].
    apply scheduled_fresh, answer_cached, control_cached; [done | done | apply certificates_cached, Hf].
  - unfold recall. destruct (recallMessage _ _ _).2;
      [by apply schedule_fresh, control_fresh, recall_ids_fresh | by apply answer_fresh, recall_ids_fresh, fresh_succ].
  - by apply done_fresh, adapt_fresh, fresh_succ.
  - apply scheduled_fresh. eapply cached_fields; [| apply (fresh_succ n b Hf)]. done.
  - by apply schedule_fresh, frames_fresh, fresh_succ.
  - by apply fresh_succ.
Qed.

Lemma dispatch_fresh n env json b : n < UINT64_MAX - 1 -> fresh n b -> fresh (n + 1) (dispatch env json b).
Proof.
  intros Hn Hf. unfold dispatch. destruct (qt_fromJson json) as [[] |]; try (by apply answer_fresh, fresh_succ). cbv zeta.
  destruct (validateCommand _) as [[] code]; cbn [negb]; [by apply execute_fresh | by apply answer_fresh, fresh_succ].
Qed.

Lemma defaults_fresh n a b' c d e f b : cached n b -> fresh n (setHostDefaults a b' c d e f b).
Proof. intros Hc. by apply rebuild_fresh, (cached_fields n b). Qed.

(** What may happen: history pages are sane, and a room keeps its name and port. *)
Definition event_ok (e : bridge_event) : Prop :=
  match e with BControl e => page_ok e | BDiscovery c => consistent names c | _ => True end.

Lemma step_fresh n e b : n < UINT64_MAX - 1 -> event_ok e -> fresh n b -> fresh (n + 1) (bridge_step e b).
Proof.
  intros Hn He Hf. destruct e; cbn [bridge_step event_ok] in *.
  - by apply control_fresh.
  - by apply dispatch_fresh.
  - destruct (stateTimer_ b); [| by apply fresh_succ]. apply fresh_succ. unfold publishState. cbv zeta.
    apply signal_fresh, rebuild_fresh, (cached_fields n b); [done | apply Hf].
  - by apply fresh_succ, discover_fresh.
  - by apply fresh_succ, screen_fresh.
  - unfold on_mls_result. destruct (is_empty _); [by apply fresh_succ | by apply signal_fresh, fresh_succ].
  - apply signal_fresh, fresh_succ, Hf.
  - apply fresh_succ, defaults_fresh, Hf.
Qed.

Lemma run_fresh es n b : n + len es < UINT64_MAX -> Forall event_ok es -> fresh n b -> fresh (n + len es) (run_bridge es b).
Proof.
  intros Hn Hp. revert n b Hn. induction Hp as [| e es He _ IH]; intros n b Hn Hb.
  { unfold len. cbn [length]. by rewrite Z.add_0_r. }
  assert (len (e :: es) = 1 + len es) as El by (unfold len; cbn [length]; lia).
  pose proof (len_nonneg es). rewrite El in *. rewrite Z.add_assoc. cbn [run_bridge foldl]. apply IH; [lia |].
  apply step_fresh; [lia | done | done].
Qed.

(** ** From the start *)

(** While the bridge is put together every connected model is dirty. *)
Definition prepared (s : State) (p : option PerformanceProfile) (X : gset model_ref) (b : Bridge) : Prop :=
  cache_fields b = (s, p, ∅, ∅, X, X).

Lemma connect_prepared s p X r b : prepared s p X b -> prepared s p ({[ r ]} ∪ X) (connectModel r false b).
Proof.
  intros Hb. unfold connectModel. pose proof Hb as E. unfold prepared, cache_fields in E. injection E as E1 E2 E3 E4 E5 E6. case_decide as Hr.
  - replace ({[ r ]} ∪ X) with X; [done |]. set_solver.
  - unfold prepared, cache_fields. cbn. by rewrite E1, E2, E3, E4, E5, E6.
Qed.

Lemma new_bridge_fresh n s p g logging : sinv n s -> (forall q, p = Some q -> settled q) -> fresh n (new_bridge s p g logging).
Proof.
  intros Hs Hp. unfold new_bridge. cbv zeta. apply rebuild_fresh.
  set (b0 := mk_bridge s p g initial_discovery ∅ logging false "" [] [] ∅ ∅ ∅ ∅ 0 0 []).
  assert (prepared s p ∅ b0) as Hb by done.
  do 5 (match type of Hb with prepared _ _ _ ?b => match goal with |- context [connectModel ?r false b] =>
    apply (connect_prepared _ _ _ r) in Hb; revert Hb; generalize (connectModel r false b); clear b0; intros b0 Hb end end).
  unfold prepared, cache_fields in Hb. injection Hb as E1 E2 E3 E4 E5 E6. split; rewrite ?E1, ?E2, ?E3, ?E4, ?E5, ?E6.
  - done.
  - intros r. unfold shown_refs. rewrite !elem_of_cons, elem_of_nil. set_solver.
  - intros r. rewrite !elem_of_union, !elem_of_singleton, elem_of_empty. intros Hr. eapply shown_live; [done |]. unfold shown_refs.
    rewrite !elem_of_cons, elem_of_nil. tauto.
  - intros r Hr. by left.
  - done.
  - apply map_Forall_empty.
Qed.

Lemma graphics_settled hw sw rate p : settled p -> settled (updateGraphicsContext hw sw rate p).
Proof. apply (step_settled (PGraphics hw sw rate)). Qed.

Lemma bundled_sinv path saved : sinv 2 (setBundledCaFile path (initial_state saved)).
Proof.
  apply (handle_sinv 1 (EvBundledCa path) (initial_state saved)); [done | done |]. split; [apply initial_cinv | apply new_model_ok ..].
Qed.

Lemma some_settled p : settled p -> forall q, Some p = Some q -> settled q.
Proof. by intros Hp q [= <-]. Qed.

Lemma start_fresh saved stored s logging a b c d available reason :
  fresh 2 (start_bridge saved stored s logging a b c d available reason).
Proof.
  exact (defaults_fresh 2 a b c d available (if available then "" else reason) _
    (proj1 (new_bridge_fresh 2 _ (Some _) (Some _) logging (bundled_sinv _ saved)
       (some_settled _ (graphics_settled _ _ _ _ (graphics_settled _ _ _ _ (initial_settled stored))))))).
Qed.

End Fresh.

Section Published.
  Context `{QtText} `{GuiEnv} `{CryptoLib} `{QtJson} `{LanLaws} `{BridgeEnv}.

(** C3: the web view is never left with a stale state.  After any sequence of
    commands, worker signals, announcements, screen changes and timer ticks,
    either a publication is pending and publishes the present state, or the text
    the view was given is that of the present state, with every list taken from
    the live models and not from the cache.  History pages are taken to list no
    message twice, a room to keep its name and port, and the events to fit the
    64-bit access counter. *)
Theorem published_state_fresh saved stored s logging a b c d available reason names es :
  len es < UINT64_MAX - 2 -> Forall (event_ok names) es ->
  let bridge := run_bridge es (start_bridge saved stored s logging a b c d available reason) in
  let text := serializeState qt_toJson (state_object (live_snapshot (controller bridge)) bridge) in
  if stateTimer_ bridge
  then latestStateJson_ (publishState bridge) = text /\ br_signals (publishState bridge) = br_signals bridge ++ [StateChanged text]
  else latestStateJson_ bridge = text.
Proof.
  intros Hn He. cbv zeta. pose proof (run_fresh names es 2 _ ltac:(lia) He (start_fresh names saved stored s logging a b c d available reason)) as Hf.
  revert Hf. generalize (run_bridge es (start_bridge saved stored s logging a b c d available reason)). intros bridge Hf.
  destruct (stateTimer_ bridge) eqn:Et; [| by apply Hf].
  pose proof (publish_text names _ bridge (proj1 Hf)) as E. split; [exact E |]. by rewrite <- E.
Qed.

End Published.

(** ** Witness *)

Definition toy_bridge_env : BridgeEnv := {|
  be_storageRoot := "/home"; be_fileExists := fun _ => false; be_log := ex_log_env;
|}.

Section Witness.

#[local] Existing Instances toy_crypto toy_laws tree_json toy_lan toy_lan_laws toy_bridge_env.

Definition ex_dispatch_env : dispatch_env := mk_dispatch_env "u1" "10:00" "" (Ok tt) (Ok tt) 0 true true.

Definition ex_command (id type : string) (payload : list (string * json)) : string :=
  qt_toJson (obj [("id", JStr id); ("type", JStr type); ("payload", JObj (obj payload))]).

Definition ex_started : Bridge := start_bridge [] None None false "server.exe" "ca.pem" "key.pem" "chat.db" true "".

(** Rooms are searched and found, a session begins, a room is opened and a
    message arrives, and the timer fires. *)
Definition ex_session : list bridge_event :=
  [BDispatch ex_dispatch_env (ex_command "c1" "session.discoverLanHosts" []);
   BDiscovery (DDatagrams [ex_datagram "den" 8888 1000]);
   BControl (EvConnected false);
   BDispatch ex_dispatch_env (ex_command "c2" "conversation.selectRoom" [("room", JStr "den")]);
   BStateTimer;
   BControl (EvMessage "10:00" (ex_chat "den" "m1" "B002" "hi"));
   BStateTimer].

Lemma ex_session_ok : Forall (event_ok (fun _ => ("den", 8888))) ex_session.
Proof.
  assert (consistent (fun _ => ("den", 8888)) (DDatagrams [ex_datagram "den" 8888 1000])) as Hc.
  { constructor; [| constructor]. intros h Hd. vm_compute in Hd. injection Hd as <-. reflexivity. }
  unfold ex_session. rewrite !Forall_cons, Forall_nil. cbn [event_ok page_ok]. by split_and!.
Qed.

Lemma published_state_fresh_witness :
  let bridge := run_bridge ex_session ex_started in
  stateTimer_ bridge = false /\ map (value "messageId") (lm_rows (current_model (controller bridge))) = [JStr "m1"] /\
  latestStateJson_ bridge = serializeState qt_toJson (state_object (live_snapshot (controller bridge)) bridge).
Proof.
  assert (stateTimer_ (run_bridge ex_session ex_started) = false) as Et by (vm_compute; reflexivity). cbv zeta.
  split; [exact Et |]. split; [vm_compute; reflexivity |].
  pose proof (published_state_fresh [] None None false "server.exe" "ca.pem" "key.pem" "chat.db" true "" (fun _ => ("den", 8888)) ex_session
                ltac:(vm_compute; reflexivity) ex_session_ok) as Hp.
  cbv zeta in Hp. fold ex_started in Hp. rewrite Et in Hp. exact Hp.
Defined.

End Witness.
