(* ===== verification/BridgeCommands.v ===== *)
(** * BridgeCommands: what becomes of a command

    Every command of the web view is answered exactly once: at once, or, for a
    recall, when the server has decided.  Then what the composition of the
    bridge with the controller and the profile does in situations that no part
    shows alone: a session that is interrupted while it reconnects, a message
    whose content is withheld, and the automatic performance mode. *)

From S2P Require Import Prelude Text Protocol Json ChatModel Conversations Controller ControllerInvariant BridgeProtocol Crypto Manifest.
From S2P Require Import ControllerBehaviour Discovery Performance Bridge BridgeState.

(** ** The balance of answers *)

(** The result is for command [c]. *)
Definition answers (c : string) (g : bridge_signal) : bool :=
  match g with CommandResult r => bool_decide (obj_get "id" r = Some (JStr c)) | _ => false end.

Definition results (c : string) (b : Bridge) : nat := length (List.filter (answers c) (br_signals b)).

Definition waiting (c : string) (b : Bridge) : nat := if decide (c ∈ pendingRecallCommandIds_ b) then 1 else 0.

(** The answers given, and the one that is still to come. *)
Definition owed (c : string) (b : Bridge) : nat := results c b + waiting c b.

Definition is_for (c id : string) : nat := if String.eqb c id then 1 else 0.

Lemma owed_same c b b' : br_signals b' = br_signals b -> pendingRecallCommandIds_ b' = pendingRecallCommandIds_ b -> owed c b' = owed c b.
Proof. intros Es Ep. unfold owed, results, waiting. by rewrite Es, Ep. Qed.

Lemma owed_schedule c b : owed c (scheduleStateUpdate b) = owed c b.
Proof. done. Qed.

Lemma results_signal c g b : results c (signal_bridge g b) = (results c b + if answers c g then 1 else 0)%nat.
Proof.
  unfold results, signal_bridge. cbn [br_signals field_update]. cbn. rewrite List.filter_app, length_app. cbn.
  by destruct (answers c g).
Qed.

Lemma owed_signal c g b : owed c (signal_bridge g b) = (owed c b + if answers c g then 1 else 0)%nat.
Proof. unfold owed. rewrite results_signal. change (waiting c (signal_bridge g b)) with (waiting c b). lia. Qed.

Lemma result_id commandId ok error : obj_get "id" (makeCommandResult commandId ok error) = Some (JStr commandId).
Proof. unfold makeCommandResult. cbv zeta. by destruct (negb ok && _)%bool. Qed.

Lemma answers_result c commandId ok error : (if answers c (CommandResult (makeCommandResult commandId ok error)) then 1 else 0)%nat = is_for c commandId.
Proof.
  cbn [answers]. rewrite result_id. unfold is_for. destruct (String.eqb_spec c commandId) as [<- | Hn].
  - by rewrite bool_decide_true.
  - rewrite bool_decide_false; [done |]. intros [= E]. by symmetry in E.
Qed.

Lemma owed_answer c commandId ok error b : owed c (answer commandId ok error b) = (owed c b + is_for c commandId)%nat.
Proof. unfold answer. by rewrite owed_signal, answers_result. Qed.

Lemma owed_complete c commandId ok reason b : owed c (completeRecallCommand commandId ok reason b) = owed c b.
Proof.
  unfold completeRecallCommand. case_decide as Hin; [| done]. cbv zeta. rewrite owed_signal, answers_result.
  unfold owed, waiting, is_for. change (results c (field_update _ _ b)) with (results c b). cbn [pendingRecallCommandIds_ field_update]. cbn.
  destruct (String.eqb_spec c commandId) as [-> | Hn].
  - rewrite (decide_True _ _ Hin), decide_False by set_solver. lia.
  - destruct (decide (c ∈ pendingRecallCommandIds_ b)); [rewrite decide_True by set_solver | rewrite decide_False by set_solver]; lia.
Qed.

Lemma owed_connect c r b : owed c (connectModel r true b) = owed c b.
Proof. unfold connectModel. by case_decide. Qed.

Lemma owed_forget c b : owed c (forget_destroyed b) = owed c b.
Proof. done. Qed.

Section Balance.
  Context `{QtText} `{GuiEnv}.

Lemma owed_error c code reason retryable b : owed c (handleConnectionError code reason retryable b) = owed c b.
Proof.
  unfold handleConnectionError. cbv zeta. rewrite owed_schedule, owed_signal. cbn [answers].
  rewrite Nat.add_0_r. by apply owed_same.
Qed.

Lemma owed_react c o b : owed c (react o b) = owed c b.
Proof.
  destruct o as [slot args | signal args]; cbn [react]; [done |]. cbv zeta.
  repeat match goal with |- owed _ (if ?x then _ else _) = _ => destruct x end; try done.
  - by destruct (connected_ (controller b)).
  - apply (owed_connect c (active_ref (controller b)) b).
  - destruct args as [| [] ]; try done. apply owed_error.
  - destruct args as [| [] ]; try done. apply owed_error.
  - destruct args as [| [] ]; try done. apply owed_complete.
  - destruct args as [| [] [| [] ] ]; try done. apply owed_complete.
Qed.

Lemma owed_control c e b : owed c (control e b) = owed c b.
Proof.
  unfold control. cbv zeta. rewrite owed_forget.
  set (b1 := mark_changed _ _). assert (owed c b1 = owed c b) as <-.
  { unfold b1, mark_changed. set (b0 := b <| controller := _ |>). assert (owed c b0 = owed c b) as <- by by apply owed_same.
    apply (set_fold_ind_L (fun b' _ => owed c b' = owed c b0)); [done |]. intros r X b' _ <-. by destruct (_ <? _)%nat. }
  generalize (drop (length (outs (controller b))) (outs (handle e (controller b)))) as new. clearbody b1. intros new. revert b1.
  induction new as [| o new IH]; intros b1; [done |]. cbn [foldl]. by rewrite IH, owed_react.
Qed.

End Balance.

Section Answers.
  Context `{QtText} `{GuiEnv} `{CryptoLib} `{QtJson} `{LanLib} `{BridgeEnv}.

(** The commands that the bridge hands to the worker and leaves to its reports. *)
Definition worker_types : list string :=
  ["mls.keyPackage.fetch"; "mls.group.add"; "mls.group.remove"; "attachment.init"; "attachment.chooseUpload"; "attachment.chunk";
   "attachment.resume"; "attachment.commit"; "attachment.download"].

(** The command that nobody answers: [dispatch] returns after it has passed the
    frame times on. *)
Definition unanswered_types : list string := ["performance.reportFrameTimes"].

Definition left_to_worker (type : string) : bool := existsb (String.eqb type) worker_types.
Definition never_answered (type : string) : bool := existsb (String.eqb type) unanswered_types.

Lemma owed_adapt c call b : owed c (adapt call b) = owed c b.
Proof. unfold adapt. destruct (profile b) as [p |]; [| done]. cbv zeta. by destruct (existsb _ _). Qed.

Lemma owed_frames c l b : owed c (foldl (fun b v => adapt (PFrame (toDouble v)) b) b l) = owed c b.
Proof. revert b. induction l as [| v l IH]; intros b; [done |]. cbn [foldl]. by rewrite IH, owed_adapt. Qed.

Lemma owed_discover c call b : owed c (discover call b) = owed c b.
Proof. unfold discover. cbv zeta. by destruct (_ <? _)%nat. Qed.

Lemma owed_done c id b : owed c (done_with id b) = (owed c b + is_for c id)%nat.
Proof. unfold done_with. by rewrite owed_schedule, owed_answer. Qed.

Lemma owed_refuse c id code message retryable source b : owed c (refuse id code message retryable source b) = (owed c b + is_for c id)%nat.
Proof. apply owed_answer. Qed.

Create Rewrite HintDb owed.
Hint Rewrite owed_schedule owed_done owed_refuse owed_answer @owed_control owed_adapt owed_frames owed_discover : owed.

Lemma owed_discoverLanHosts c env id b : owed c (discoverLanHosts env id b) = (owed c b + is_for c id)%nat.
Proof. unfold discoverLanHosts. cbv zeta. destruct (refresh _ _ _ _) as [d []]; cbn [snd]; by autorewrite with owed. Qed.

Lemma owed_connectDiscovered c env id payload b : owed c (connectDiscoveredHost env id payload b) = (owed c b + is_for c id)%nat.
Proof.
  unfold connectDiscoveredHost. cbv zeta. destruct (connectData _ _ _) as [host | error]; [| by autorewrite with owed].
  destruct (persistCertificate _ _ _ _) as [[path pem] | error]; autorewrite with owed; [| done]. done.
Qed.

Lemma owed_recall c id messageId b : id ∉ pendingRecallCommandIds_ b -> owed c (recall id messageId b) = (owed c b + is_for c id)%nat.
Proof.
  intros Hid. unfold recall. destruct (recallMessage _ _ _).2; autorewrite with owed;
    unfold owed, waiting, is_for; change (results c (field_update _ _ b)) with (results c b); cbn [pendingRecallCommandIds_ field_update]; cbn.
  - destruct (String.eqb_spec c id) as [-> | Hn].
    + rewrite decide_True, decide_False by set_solver. lia.
    + destruct (decide (c ∈ pendingRecallCommandIds_ b)); [rewrite decide_True by set_solver | rewrite decide_False by set_solver]; lia.
  - destruct (decide (c ∈ pendingRecallCommandIds_ b)); [rewrite decide_True by set_solver | rewrite decide_False by set_solver]; lia.
Qed.

Lemma owed_execute c env id type payload b : (type = "message.recall" -> id ∉ pendingRecallCommandIds_ b) ->
  owed c (execute env id type payload b) = (owed c b + if left_to_worker type || never_answered type then 0 else is_for c id)%nat.
Proof.
  intros Hid. unfold execute. cbv zeta.
  repeat match goal with |- owed _ (if String.eqb type ?t then _ else _) = _ =>
    let E := fresh "E" in destruct (String.eqb type t) eqn:E;
      [apply String.eqb_eq in E; subst type; cbn [left_to_worker never_answered worker_types unanswered_types existsb String.eqb Ascii.eqb Bool.eqb orb] |] end.
  all: try (autorewrite with owed; lia).
  - apply owed_discoverLanHosts.
  - apply owed_connectDiscovered.
  - by apply owed_recall, Hid.
  - destruct (profile b); by autorewrite with owed.
  - autorewrite with owed. done.
  - destruct (profile b); autorewrite with owed; lia.
  - assert (left_to_worker type || never_answered type = false)%bool as ->; [| by autorewrite with owed].
    unfold left_to_worker, never_answered, worker_types, unanswered_types. cbn [existsb].
    repeat match goal with E : String.eqb type _ = false |- _ => rewrite E; clear E end. reflexivity.
Qed.

(** ** Which recalls wait *)

Abbreviation waits := pendingRecallCommandIds_.

Lemma waits_react o b : waits (react o b) ⊆ waits b.
Proof.
  assert (forall id ok reason b, waits (completeRecallCommand id ok reason b) ⊆ waits b) as Hc.
  { intros. unfold completeRecallCommand. case_decide; [cbn; set_solver | done]. }
  destruct o as [slot args | signal args]; cbn [react]; [done |]. cbv zeta.
  repeat match goal with |- waits (if ?x then _ else _) ⊆ _ => destruct x end; try done.
  - by destruct (connected_ (controller b)).
  - unfold connectModel. by case_decide.
  - by destruct args as [| [] ].
  - by destruct args as [| [] ].
  - by destruct args as [| [] ].
  - by destruct args as [| [] [| [] ] ].
Qed.

Lemma waits_control e b : waits (control e b) ⊆ waits b.
Proof.
  unfold control. cbv zeta. change (waits (forget_destroyed ?x)) with (waits x).
  set (b1 := mark_changed _ _). assert (waits b1 = waits b) as <-.
  { unfold b1, mark_changed. set (b0 := b <| controller := _ |>). change (waits b) with (waits b0).
    apply (set_fold_ind_L (fun b' _ => waits b' = waits b0)); [done |]. intros r X b' _ <-. by destruct (_ <? _)%nat. }
  generalize (drop (length (outs (controller b))) (outs (handle e (controller b)))) as new. clearbody b1. intros new. revert b1.
  induction new as [| o new IH]; intros b1; [done |]. cbn [foldl]. etrans; [apply IH | apply waits_react].
Qed.

Lemma waits_adapt call b : waits (adapt call b) = waits b.
Proof. unfold adapt. destruct (profile b) as [p |]; [| done]. cbv zeta. by destruct (existsb _ _). Qed.

Lemma waits_frames l b : waits (foldl (fun b v => adapt (PFrame (toDouble v)) b) b l) = waits b.
Proof. revert b. induction l as [| v l IH]; intros b; [done |]. cbn [foldl]. by rewrite IH, waits_adapt. Qed.

Lemma waits_discover call b : waits (discover call b) = waits b.
Proof. unfold discover. cbv zeta. by destruct (_ <? _)%nat. Qed.

Lemma waits_execute env id type payload b :
  waits (execute env id type payload b) ⊆ waits b ∪ (if String.eqb type "message.recall" then {[ id ]} else ∅).
Proof.
  unfold execute. cbv zeta.
  repeat match goal with |- waits (if String.eqb type ?t then _ else _) ⊆ _ =>
    let E := fresh "E" in destruct (String.eqb type t) eqn:E; [apply String.eqb_eq in E; subst type; cbn [String.eqb Ascii.eqb Bool.eqb] |] end.
  all: rewrite ?union_empty_r_L.
  all: try (first [ exact (waits_control _ b) | done ]).
  - unfold discoverLanHosts. cbv zeta. destruct (refresh _ _ _ _) as [d []]; cbn [snd]; exact (reflexive_eq _ _ (waits_discover _ b)).
  - unfold connectDiscoveredHost. cbv zeta. destruct (connectData _ _ _) as [host | error]; [| done].
    destruct (persistCertificate _ _ _ _) as [[path pem] | error]; [| done]. etrans; [apply waits_control | done].
  - unfold recall. destruct (recallMessage _ _ _).2; [etrans; [apply waits_control | cbn; set_solver] | cbn; set_solver].
  - destruct (profile b); [| done]. exact (reflexive_eq _ _ (waits_adapt _ b)).
  - destruct (profile b); [| done]. exact (reflexive_eq _ _ (waits_frames _ b)).
Qed.

(** ** Over a run *)

(** How many answers for [c] the bridge gives to an event: one to a command, be
    it accepted or refused with an error, but none to an accepted command that is
    left to the worker and none to an accepted frame report; and one to a report
    of the worker. *)
Definition asked (c : string) (e : bridge_event) : nat :=
  match e with
  | BDispatch _ text =>
      match qt_fromJson text with
      | Some (JObj command) =>
          let type := toString (obj_get "type" command) in
          if (validateCommand command).1 && (left_to_worker type || never_answered type) then 0
          else is_for c (toString (obj_get "id" command))
      | _ => is_for c ""
      end
  | BMlsResult id _ _ _ => if is_empty id then 0 else is_for c id
  | BAttachment _ _ _ id _ _ _ _ _ _ _ _ => is_for c id
  | _ => 0
  end.

Definition recall_id (e : bridge_event) : option string :=
  match e with
  | BDispatch _ text =>
      match qt_fromJson text with
      | Some (JObj command) =>
          if (validateCommand command).1 && String.eqb (toString (obj_get "type" command)) "message.recall"
          then Some (toString (obj_get "id" command)) else None
      | _ => None
      end
  | _ => None
  end.

Lemma dispatch_owed c env text b : (forall id, recall_id (BDispatch env text) = Some id -> id ∉ waits b) ->
  owed c (dispatch env text b) = (owed c b + asked c (BDispatch env text))%nat /\
  waits (dispatch env text b) ⊆ waits b ∪ from_option singleton ∅ (recall_id (BDispatch env text)).
Proof.
  unfold dispatch, recall_id, asked. destruct (qt_fromJson text) as [[] |]; try (intros _; split; [apply owed_answer | cbn; set_solver]).
  cbv zeta. destruct (validateCommand _) as [[] code]; cbn [negb fst andb]; intros Hr.
  - split.
    + rewrite owed_execute; [by destruct (_ || _)%bool |]. intros E. apply Hr. by rewrite E.
    + etrans; [apply waits_execute |]. by destruct (String.eqb _ _).
  - split; [apply owed_answer | cbn; set_solver].
Qed.

Lemma waits_defaults a b' c d e f b : waits (setHostDefaults a b' c d e f b) = waits b.
Proof. done. Qed.

Lemma owed_publish c b : owed c (publishState b) = owed c b.
Proof. unfold publishState. cbv zeta. rewrite owed_signal. cbn [answers]. by rewrite Nat.add_0_r. Qed.

Lemma owed_screen c s b : owed c (refresh_screen s b) = owed c b.
Proof. unfold refresh_screen. destruct (graphics b); [| done]. cbv zeta. by rewrite owed_schedule, owed_adapt. Qed.

Lemma waits_screen s b : waits (refresh_screen s b) = waits b.
Proof.
  unfold refresh_screen. destruct (graphics b) as [g |]; [| done]. cbv zeta. change (waits (scheduleStateUpdate ?x)) with (waits x).
  by rewrite waits_adapt.
Qed.

Lemma step_owed c e b : (forall id, recall_id e = Some id -> id ∉ waits b) ->
  owed c (bridge_step e b) = (owed c b + asked c e)%nat /\
  waits (bridge_step e b) ⊆ waits b ∪ from_option singleton ∅ (recall_id e).
Proof.
  destruct e; cbn [bridge_step]; [| intros Hr; by apply dispatch_owed | ..]; intros _; cbn [asked recall_id from_option];
    rewrite ?union_empty_r_L, ?Nat.add_0_r.
  - split; [apply owed_control | apply waits_control].
  - destruct (stateTimer_ b); [| done]. split; [apply owed_publish | done].
  - split; [apply owed_discover | by rewrite waits_discover].
  - split; [apply owed_screen | by rewrite waits_screen].
  - unfold on_mls_result. destruct (is_empty commandId); [by rewrite Nat.add_0_r |]. split; [apply owed_answer | done].
  - unfold on_attachment_event. cbv zeta. split; [| done]. rewrite owed_signal. f_equal. unfold is_for.
    match goal with |- (if answers c (CommandResult ?r) then _ else _) = _ =>
      assert (obj_get "id" r = Some (JStr commandId)) as Hid by reflexivity; cbn [answers]; rewrite Hid; clear Hid end.
    destruct (String.eqb_spec c commandId) as [-> | Hn]; [by rewrite bool_decide_true | rewrite bool_decide_false; [done |]].
    intros [= E]. by symmetry in E.
  - split; [| by rewrite waits_defaults]. by apply owed_same.
Qed.

Lemma run_owed c es : forall b, NoDup (omap recall_id es) -> (forall id, id ∈ omap recall_id es -> id ∉ waits b) ->
  owed c (run_bridge es b) = (owed c b + sum_list (asked c <$> es))%nat.
Proof.
  induction es as [| e es IH]; intros b Hd Hw; [cbn; lia |]. cbn [run_bridge foldl fmap list_fmap sum_list]. fold (run_bridge es (bridge_step e b)).
  destruct (step_owed c e b) as [Ho Hs].
  { intros id E. apply Hw. apply list_elem_of_omap. exists e. split; [left | done]. }
  rewrite IH.
  - rewrite Ho. cbn. lia.
  - cbn in Hd. destruct (recall_id e); [by apply NoDup_cons in Hd as [_ ?] | done].
  - intros id Hid Hin. apply Hs in Hin. destruct (recall_id e) as [id' |] eqn:E; cbn [from_option] in Hin.
    + cbn in Hd. rewrite E in Hd. apply NoDup_cons in Hd as [Hn _]. apply elem_of_union in Hin as [Hin | ->%elem_of_singleton]; [| done].
      apply (Hw id); [| done]. cbn. rewrite E. by right.
    + rewrite union_empty_r_L in Hin. apply (Hw id); [| done]. cbn. by rewrite E.
Qed.

Lemma defaults_quiet a b' c d e f b : br_signals (setHostDefaults a b' c d e f b) = br_signals b.
Proof. done. Qed.

Lemma rebuild_quiet b : br_signals (rebuildStateSnapshot b) = br_signals b /\ waits (rebuildStateSnapshot b) = waits b.
Proof. done. Qed.

Lemma connect_quiet r b : br_signals (connectModel r false b) = br_signals b /\ waits (connectModel r false b) = waits b.
Proof. unfold connectModel. by case_decide. Qed.

Lemma new_bridge_quiet s p g logging : br_signals (new_bridge s p g logging) = [] /\ waits (new_bridge s p g logging) = ∅.
Proof.
  unfold new_bridge. cbv zeta. rewrite !(proj1 (rebuild_quiet _)), !(proj2 (rebuild_quiet _)), !(proj1 (connect_quiet _ _)),
    !(proj2 (connect_quiet _ _)). done.
Qed.

(** C9: each command that the bridge answers itself
    is answered exactly once.  Over any run the results sent for an id, plus the
    one that a recall with this id still waits for, are: one for each command
    with this id, whether it was accepted, refused or not understood (a text that
    is no object counts for the empty id), except that an accepted attachment or
    MLS command gets none from the bridge, which leaves it to the worker, and an
    accepted performance.reportFrameTimes gets none at all, from nobody; and one
    for each report of the worker with this id.  Recalls are taken to have
    different ids. *)
Theorem answered_once saved stored s logging a b c d available reason es id :
  NoDup (omap recall_id es) ->
  let bridge := run_bridge es (start_bridge saved stored s logging a b c d available reason) in
  (results id bridge + (if decide (id ∈ pendingRecallCommandIds_ bridge) then 1 else 0) = sum_list (asked id <$> es))%nat.
Proof.
  intros Hd. cbv zeta.
  assert (br_signals (start_bridge saved stored s logging a b c d available reason) = [] /\
          waits (start_bridge saved stored s logging a b c d available reason) = ∅) as [Es Ew].
  { unfold start_bridge. cbv zeta. rewrite defaults_quiet, waits_defaults. apply new_bridge_quiet. }
  revert Es Ew. generalize (start_bridge saved stored s logging a b c d available reason). intros b0 Es Ew.
  change (owed id (run_bridge es b0) = sum_list (asked id <$> es)).
  rewrite run_owed; [| done | rewrite Ew; set_solver]. unfold owed, results, waiting. rewrite Es, Ew. cbn [List.filter length].
  by rewrite decide_False by set_solver.
Qed.

End Answers.

(** ** Leaving while the connection is being restored *)

Section Interrupted.
  Context `{QtText} `{GuiEnv}.

Lemma control_controller e b : controller (control e b) = handle e (controller b).
Proof.
  destruct (control_controlled e b) as (b' & Hc & ->). change (controller (forget_destroyed b')) with (controller b').
  apply (reacted_fields _ _ _ (cd_reacted _ _ _ Hc)).
Qed.

(** What the two calls before the login leave alone. *)
Definition session_of (s : State) := (core s, reconnecting_ s).

Lemma setStatus_session t s : session_of (setStatus t s) = session_of s /\ connected_ (setStatus t s) = connected_ s /\
  localUserCode_ (setStatus t s) = localUserCode_ s /\ statusText_ (setStatus t s) = t.
Proof. unfold setStatus. destruct (String.eqb_spec (statusText_ s) t); done. Qed.

Lemma disconnect_session s : session_of (disconnectFromServer s) = session_of s /\ connected_ (disconnectFromServer s) = false.
Proof.
  unfold disconnectFromServer. cbv zeta. rewrite (proj1 (setStatus_session _ _)), (proj1 (proj2 (setStatus_session _ _))).
  cbn. by destruct (connected_ s) eqn:E.
Qed.

Lemma connect_session a b c d e f s : session_of (connectToServerWithTlsName a b c d e f s) = session_of s /\
  localUserCode_ (connectToServerWithTlsName a b c d e f s) = d.
Proof.
  unfold connectToServerWithTlsName. cbv zeta. change (session_of (invoke _ _ ?x)) with (session_of x).
  change (localUserCode_ (invoke _ _ ?x)) with (localUserCode_ x).
  rewrite (proj1 (setStatus_session _ _)), (proj1 (proj2 (proj2 (setStatus_session _ _)))).
  unfold setIdentity, saveConnectionPreferences. cbv zeta. by destruct (_ || _)%bool.
Qed.

Lemma requests_session s : let s' := requestActiveHistory "" "" (requestUsers (requestRooms s)) in
  statusText_ s' = statusText_ s /\ localUserCode_ s' = localUserCode_ s.
Proof. unfold requestActiveHistory. by destruct (_ || _)%bool. Qed.

Lemma setAdmin_user a s : localUserCode_ (setAdmin a s) = localUserCode_ s.
Proof. unfold setAdmin. by destruct (Bool.eqb _ _). Qed.

Lemma recovered_login admin s : reconnecting_ s = true ->
  core (handleConnected admin s) = core s /\ statusText_ (handleConnected admin s) = "已重新连接" /\
  localUserCode_ (handleConnected admin s) = localUserCode_ s.
Proof.
  intros Hr. split; [by rewrite handleConnected_core, Hr |]. unfold handleConnected. rewrite !Hr. cbv zeta.
  rewrite (proj1 (requests_session _)), (proj2 (requests_session _)).
  rewrite (proj1 (proj2 (proj2 (setStatus_session _ _)))), (proj2 (proj2 (proj2 (setStatus_session _ _)))). split; [done |].
  assert (forall s, localUserCode_ ((emit "connectedChanged" [] s) <| refreshTimer_ := true |>) = localUserCode_ s) as -> by done.
  rewrite setAdmin_user. done.
Qed.

(** C33: a user who disconnects while the connection is being restored is still
    shown as reconnecting, and the next login counts as a restored connection:
    whoever logs in, as whatever user and on whatever server, keeps the rooms,
    the members and every conversation of the session before, and is told that
    the connection is back. *)
Theorem interrupted_reconnect_keeps_session serverIp serverPort username userCode caFile tlsServerName admin b :
  reconnecting_ (controller b) = true ->
  let left := control EvDisconnect b in
  let back := control (EvConnected admin) (control (EvConnect serverIp serverPort username userCode caFile tlsServerName) left) in
  connection_phase left = "reconnecting" /\ core (controller back) = core (controller b) /\
  localUserCode_ (controller back) = userCode /\ statusText_ (controller back) = "已重新连接".
Proof.
  intros Hr. cbv zeta. rewrite !control_controller. unfold connection_phase. rewrite control_controller. cbn [handle].
  destruct (disconnect_session (controller b)) as [Ed Ec]. set (s1 := disconnectFromServer _) in *.
  destruct (connect_session serverIp serverPort username userCode caFile tlsServerName s1) as [En Eu]. set (s2 := connectToServerWithTlsName _ _ _ _ _ _ _) in *.
  pose proof (f_equal fst En) as En1. pose proof (f_equal snd En) as En2. pose proof (f_equal fst Ed) as Ed1.
  pose proof (f_equal snd Ed) as Ed2. cbn [session_of fst snd] in En1, En2, Ed1, Ed2. clearbody s1 s2.
  assert (reconnecting_ s2 = true) as Hr2 by congruence. destruct (recovered_login admin s2 Hr2) as (F1 & F2 & F3).
  rewrite Ec, Ed2, Hr, F1, F2, F3. split_and!; [done | congruence | done | done].
Qed.

End Interrupted.

(** ** A message without content *)

Section Withheld.
  Context `{QtText} `{GuiEnv} `{CryptoLib} `{QtJson} `{LanLib} `{BridgeEnv}.

(** a message to a room whose content is missing, as a message with only an
    encrypted part has it, is accepted when that part is an object that is not
    empty; it is answered as done although nothing is sent or shown. *)
Theorem contentless_message_lost env text command b :
  qt_fromJson text = Some (JObj command) -> obj_get "type" command = Some (JStr "chat.sendRoom") ->
  (validateCommand command).1 = true -> trimmed (toString (obj_get "content" (toObject (obj_get "payload" command)))) = "" ->
  hasOpaqueCrypto (toObject (obj_get "payload" command)) = true /\
  controller (dispatch env text b) = controller b /\
  last (br_signals (dispatch env text b)) = Some (CommandResult (makeCommandResult (toString (obj_get "id" command)) true [])).
Proof.
  intros Ep Et Hv Hc. unfold dispatch. rewrite Ep, Et. cbv zeta. destruct (validateCommand command) as [valid code] eqn:Ev. cbn [fst] in Hv. subst valid.
  cbn [negb toString]. split.
  - unfold validateCommand in Ev. destruct (_ || _ || _)%bool; [done |]. rewrite Et in Ev. cbn [toString] in Ev.
    destruct (validatePayload _ _) eqn:Evp; [| done]. clear Ev.
    change (validatePayload "chat.sendRoom" ?p) with (hasRequiredStrings p ["room"] && (nonEmptyString p "content" || hasOpaqueCrypto p)) in Evp.
    apply andb_true_iff in Evp as [_ Evp]. unfold nonEmptyString at 1 in Evp. cbv zeta in Evp. rewrite Hc in Evp. cbn in Evp.
    by rewrite andb_false_r in Evp.
  - set (payload := toObject (obj_get "payload" command)) in *. set (id := toString (obj_get "id" command)).
    change (execute env id "chat.sendRoom" payload b) with
      (done_with id (control (EvSendRoom (de_uuid env) (de_time env) (toString (obj_get "content" payload)) (toString (obj_get "room" payload))) b)).
    split; [| unfold done_with, answer, signal_bridge; cbn; by rewrite last_snoc].
    change (controller (done_with id ?x)) with (controller x). rewrite control_controller. cbn [handle]. unfold sendRoomMessage. cbv zeta. by rewrite Hc.
Qed.

End Withheld.

(** ** The automatic performance mode *)

(** Neither the profile nor what is known of the graphics has acceleration. *)
Definition unaccelerated (b : Bridge) : Prop :=
  exists p g, (profile b, graphics b) = (Some p, Some g) /\ settled p /\ hardwareAcceleration_ p = false /\ gi_hardwareAcceleration_ g = false.

Lemma unaccelerated_frame b b' : (profile b', graphics b') = (profile b, graphics b) -> unaccelerated b -> unaccelerated b'.
Proof. intros E (p & g & Ep & Hp). exists p, g. by rewrite E. Qed.

Lemma recompute_acceleration p : hardwareAcceleration_ (recompute p) = hardwareAcceleration_ p.
Proof. unfold recompute. by destruct (next_mode p) as [[? ?] ?]. Qed.

Section Automatic.
  Context `{QtText} `{GuiEnv} `{CryptoLib} `{QtJson} `{LanLib} `{BridgeEnv}.

Definition without_acceleration (c : profile_call) : Prop := match c with PGraphics hw _ _ => hw = false | _ => True end.

Lemma step_unaccelerated c p : without_acceleration c -> hardwareAcceleration_ p = false -> hardwareAcceleration_ (profile_step c p) = false.
Proof.
  intros Hc Hp. destruct c; cbn [profile_step without_acceleration] in *.
  - unfold setMode. cbv zeta. destruct (String.eqb _ _); [done | by rewrite recompute_acceleration].
  - unfold updateGraphicsContext. by rewrite recompute_acceleration.
  - unfold observeFrameTime. cbv zeta. destruct (ignored_frame _ _); [done | by rewrite recompute_acceleration].
Qed.

Lemma unaccelerated_adapt c b : without_acceleration c -> unaccelerated b -> unaccelerated (adapt c b).
Proof.
  intros Hc (p & g & Ep & Hs & Hp & Hg). pose proof (f_equal fst Ep) as Ep1. pose proof (f_equal snd Ep) as Ep2. cbn [fst snd] in Ep1, Ep2.
  unfold adapt. rewrite Ep1. cbv zeta. exists (profile_step c p), g.
  split_and!; [| by apply step_settled | by apply step_unaccelerated | done]. rewrite <- Ep2. by destruct (existsb _ _).
Qed.

Lemma unaccelerated_control e b : unaccelerated b -> unaccelerated (control e b).
Proof.
  apply unaccelerated_frame. destruct (control_controlled e b) as (b' & Hc & ->).
  pose proof (rc_frame _ _ (cd_reacted _ _ _ Hc)) as Ef. unfold frame_of in Ef. cbn in Ef. injection Ef as _ F1 F2 _ _ _ _ _ _.
  change (profile (forget_destroyed b')) with (profile b'). change (graphics (forget_destroyed b')) with (graphics b'). by rewrite F1, F2.
Qed.

Lemma unaccelerated_schedule b : unaccelerated b -> unaccelerated (scheduleStateUpdate b).
Proof. by apply unaccelerated_frame. Qed.

Lemma unaccelerated_signal g b : unaccelerated b -> unaccelerated (signal_bridge g b).
Proof. by apply unaccelerated_frame. Qed.

Lemma unaccelerated_discover c b : unaccelerated b -> unaccelerated (discover c b).
Proof. apply unaccelerated_frame. unfold discover. cbv zeta. by destruct (_ <? _)%nat. Qed.

Lemma unaccelerated_recalls f b : unaccelerated b -> unaccelerated (b <| pendingRecallCommandIds_ ::= f |>).
Proof. by apply unaccelerated_frame. Qed.

Lemma unaccelerated_certificates f b : unaccelerated b -> unaccelerated (b <| savedCertificates ::= f |>).
Proof. by apply unaccelerated_frame. Qed.

Lemma unaccelerated_logging f b : unaccelerated b -> unaccelerated (b <| diagnosticsSetting ::= f |>).
Proof. by apply unaccelerated_frame. Qed.

Lemma unaccelerated_frames l b : unaccelerated b -> unaccelerated (foldl (fun b v => adapt (PFrame (toDouble v)) b) b l).
Proof. revert b. induction l as [| v l IH]; intros b Hb; [done |]. cbn [foldl]. by apply IH, unaccelerated_adapt. Qed.

Lemma unaccelerated_rebuild b : unaccelerated b -> unaccelerated (rebuildStateSnapshot b).
Proof. by apply unaccelerated_frame. Qed.

Lemma unaccelerated_defaults f b : unaccelerated b -> unaccelerated (b <| hostDefaults_ ::= f |>).
Proof. by apply unaccelerated_frame. Qed.

Lemma unaccelerated_timer f b : unaccelerated b -> unaccelerated (b <| stateTimer_ ::= f |>).
Proof. by apply unaccelerated_frame. Qed.

Create HintDb unaccelerated.
#[local] Hint Resolve unaccelerated_control unaccelerated_schedule unaccelerated_signal unaccelerated_discover unaccelerated_recalls
  unaccelerated_certificates unaccelerated_logging unaccelerated_frames unaccelerated_rebuild unaccelerated_defaults unaccelerated_timer : unaccelerated.

Ltac walk_parts := unfold done_with, refuse, answer; auto 10 with unaccelerated nocore.

Lemma unaccelerated_execute env id type payload b : unaccelerated b -> unaccelerated (execute env id type payload b).
Proof.
  intros Hb. unfold execute. cbv zeta.
  repeat match goal with |- unaccelerated (if String.eqb type ?t then _ else _) => destruct (String.eqb type t) end.
  all: try (walk_parts; fail).
  - unfold discoverLanHosts. cbv zeta. destruct (refresh _ _ _ _) as [d []]; cbn [snd]; walk_parts.
  - unfold connectDiscoveredHost. cbv zeta. destruct (connectData _ _ _) as [host | error]; [| walk_parts].
    destruct (persistCertificate _ _ _ _) as [[path pem] | error]; walk_parts.
  - unfold recall. destruct (recallMessage _ _ _).2; walk_parts.
  - destruct (profile b); [| walk_parts]. by apply unaccelerated_schedule, unaccelerated_signal, unaccelerated_adapt.
  - destruct (profile b); walk_parts.
Qed.

Lemma unaccelerated_step e b : unaccelerated b -> unaccelerated (bridge_step e b).
Proof.
  intros Hb. destruct e; cbn [bridge_step].
  - walk_parts.
  - unfold dispatch. destruct (qt_fromJson commandJson) as [[] |]; try (walk_parts; fail). cbv zeta.
    destruct (validateCommand _) as [[] code]; cbn [negb]; [by apply unaccelerated_execute | unfold emitInvalidCommand; walk_parts].
  - destruct (stateTimer_ b); [unfold publishState; cbv zeta |]; walk_parts.
  - walk_parts.
  - unfold refresh_screen. destruct Hb as (p & g & Ep & Hs & Hp & Hg). pose proof (f_equal snd Ep) as Ep2. cbn [snd] in Ep2. rewrite Ep2. cbv zeta.
    assert (gi_hardwareAcceleration_ (refresh_graphics s g) = false) as Hg' by (by destruct s).
    apply unaccelerated_schedule, unaccelerated_adapt; [done |]. exists p, (refresh_graphics s g). split_and!; try done.
    pose proof (f_equal fst Ep) as Ep1. cbn [fst] in Ep1. by rewrite <- Ep1.
  - unfold on_mls_result. destruct (is_empty _); walk_parts.
  - unfold on_attachment_event. walk_parts.
  - unfold setHostDefaults. walk_parts.
Qed.

Lemma unaccelerated_start saved stored s logging a b c d available reason :
  unaccelerated (start_bridge saved stored s logging a b c d available reason).
Proof.
  unfold start_bridge. cbv zeta. unfold setHostDefaults, new_bridge. cbv zeta. apply unaccelerated_rebuild, unaccelerated_defaults, unaccelerated_rebuild.
  assert (gi_hardwareAcceleration_ (refresh_graphics s initial_graphics) = false) as Hg by (by destruct s). rewrite Hg.
  set (p := updateGraphicsContext false _ _ (updateGraphicsContext false _ _ _)).
  assert (settled p /\ hardwareAcceleration_ p = false) as [Hs Hp].
  { split; [apply graphics_settled, graphics_settled, initial_settled | unfold p, updateGraphicsContext; by rewrite recompute_acceleration]. }
  assert (forall r b, unaccelerated b -> unaccelerated (connectModel r false b)) as Hc
    by (intros r b0; apply unaccelerated_frame; unfold connectModel; by case_decide).
  clearbody p. do 5 apply Hc. exists p, (refresh_graphics s initial_graphics). by split_and!.
Qed.

(** in the program as it is put together the automatic mode always saves
    power.  Nothing ever tells the graphics information that the hardware
    accelerates, so in every run the profile is there, holds that there is no
    acceleration, and as long as the mode is automatic the effective mode is the
    one without effects and animations, whatever frames are measured. *)
Theorem automatic_mode_saves_power saved stored s logging a b c d available reason es :
  exists p, profile (run_bridge es (start_bridge saved stored s logging a b c d available reason)) = Some p /\
    hardwareAcceleration_ p = false /\ (is_automatic p = true -> effectiveMode_ p = "Power Saving").
Proof.
  pose proof (unaccelerated_start saved stored s logging a b c d available reason) as Hu. revert Hu.
  generalize (start_bridge saved stored s logging a b c d available reason). induction es as [| e es IH]; intros b0 Hb.
  - destruct Hb as (p & g & Ep & Hs & Hp & _). exists p. split_and!; [exact (f_equal fst Ep) | done |]. intros Ha.
    rewrite (st_limited _ Hs Ha); unfold automaticMode, hardLimit; rewrite Hp; by rewrite orb_true_r.
  - cbn [run_bridge foldl]. apply IH. by apply unaccelerated_step.
Qed.

End Automatic.

(** ** Witnesses *)

Section Witnesses.

#[local] Existing Instances toy_crypto toy_laws tree_json toy_lan toy_lan_laws toy_bridge_env.

Definition ex_recall (id : string) : bridge_event :=
  BDispatch ex_dispatch_env (ex_command id "message.recall" [("messageId", JStr "m1")]).

(** An administrator recalls a message twice; a third command is not understood. *)
Definition ex_recalls : list bridge_event :=
  [BControl (EvConnected true); BControl (EvMessage "10:00" (ex_chat "lobby" "m1" "B002" "hi")); ex_recall "r1"; ex_recall "r2";
   BDispatch ex_dispatch_env (ex_command "r3" "no.such.command" [("x", JStr "y")])].

Lemma answered_once_witness :
  results "r3" (run_bridge ex_recalls ex_started) = 1%nat /\ results "r1" (run_bridge ex_recalls ex_started) = 0%nat /\
  (results "r1" (run_bridge ex_recalls ex_started) +
   (if decide ("r1" ∈ pendingRecallCommandIds_ (run_bridge ex_recalls ex_started)) then 1 else 0) = 1)%nat.
Proof.
  split; [vm_compute; reflexivity |]. split; [vm_compute; reflexivity |].
  refine (eq_trans (answered_once [] None None false "server.exe" "ca.pem" "key.pem" "chat.db" true "" ex_recalls "r1" _) _).
  - apply (bool_decide_unpack _). vm_compute. exact I.
  - vm_compute. reflexivity.
Defined.

(** A session with a message, whose connection is lost. *)
Definition ex_lost : Bridge :=
  run_bridge [BControl (EvConnected false); BControl (EvMessage "10:00" (ex_chat "lobby" "m1" "B002" "hi")); BControl (EvConnectionLost "reset")] ex_started.

Lemma interrupted_reconnect_keeps_session_witness :
  let back := control (EvConnected false) (control (EvConnect "10.0.0.9" 9999 "Eve" "E666" "" "") (control EvDisconnect ex_lost)) in
  core (controller back) = core (controller ex_lost) /\ localUserCode_ (controller back) = "E666" /\
  map (value "content") (lm_rows (current_model (controller ex_lost))) = [JStr "hi"].
Proof.
  destruct (interrupted_reconnect_keeps_session "10.0.0.9" 9999 "Eve" "E666" "" "" false ex_lost) as (_ & Ec & Eu & _).
  - vm_compute. reflexivity.
  - split; [exact Ec |]. split; [exact Eu |]. vm_compute. reflexivity.
Defined.

Definition ex_opaque : row :=
  obj [("id", JStr "c9"); ("type", JStr "chat.sendRoom");
       ("payload", JObj (obj [("room", JStr "lobby"); ("crypto", JObj (obj [("ciphertext", JStr "AAAA")]))]))].

Lemma contentless_message_lost_witness :
  controller (dispatch ex_dispatch_env (qt_toJson ex_opaque) ex_started) = controller ex_started.
Proof.
  refine (proj1 (proj2 (contentless_message_lost ex_dispatch_env (qt_toJson ex_opaque) ex_opaque ex_started _ _ _ _))); vm_compute; reflexivity.
Defined.

End Witnesses.
