(* ===== verification/Desktop.v ===== *)
(** * Desktop: the controller and the worker together

    Puts [Controller] and [Worker] together as the constructor of
    GuiChatController (client-cpp/gui/src/gui_chat_controller.cpp) does: the
    controller lives in the thread of the user interface and the worker in one
    of its own, and each hands the other queued calls.  The calls the controller
    makes are the [Invoke] entries of its outputs, the worker's answers are its
    signals; how many of each were taken is the state of the two queues.  Every
    interleaving of the two threads and of the receive thread is a sequence of
    steps.  This is the worker of the build without LAN_CHAT_ENABLE_MLSPP; what
    the attachment slots report is an argument of the step that runs them. *)

From S2P Require Import Prelude Text Protocol Json JsonCodecInstance ChatModel Conversations Controller ControllerInvariant Message LocalHost Worker.
From S2P Require Import Discovery Performance Bridge BridgeState.

(** ** The two threads *)

Record Desktop := mk_desktop {
  gui : State;
  worker : Worker;
  calls_taken : nat;        (* of the controller's outputs *)
  signals_taken : nat;      (* of the worker's signals *)
}.

#[export] Instance eta_Desktop : EtaRecord Desktop := fun d =>
  {| gui := gui d; worker := worker d; calls_taken := calls_taken d; signals_taken := signals_taken d |}.

(** What the worker meets while it runs a slot. *)
Record slot_env := mk_slot_env {
  se_prepared : outcome unit;
  se_logins : nat -> login;
  se_host : host_world;
  se_stop : stop_answers;
  se_sent : outcome unit;
  se_side : list signal;        (* what an attachment or MLS slot reports *)
}.

(** The slot of an invocation, by its name and arguments. *)
Definition call_of (env : slot_env) (o : output) : option worker_call :=
  match o with
  | Emit _ _ => None
  | Invoke slot args =>
      let on := String.eqb slot in
      match args with
      | [] =>
          if on "disconnectFromServer" then Some (WDisconnect (se_stop env))
          else if on "scheduleReconnect" then Some WSchedule
          else if on "requestUsers" then Some (WRequestUsers (se_sent env))
          else if on "requestRooms" then Some (WRequestRooms (se_sent env))
          else None
      | [JStr room] => if on "joinRoom" then Some (WJoinRoom room (se_sent env)) else None
      | [JStr room; JBool isPrivate] => if on "createRoom" then Some (WCreateRoom room isPrivate (se_sent env)) else None
      | [JStr a; JStr b; JStr c] =>
          if on "sendChatToRoom" then Some (WSendChat a b c (se_sent env))
          else if on "sendPrivate" then Some (WSendPrivate a b c (se_sent env))
          else if on "sendRoomAction" then Some (WRoomAction a b c (se_sent env))
          else if on "sendAdminAction" then Some (WAdminAction a b c "" (se_sent env))
          else None
      | [JStr a; JStr b; JStr c; JStr d] => if on "sendAdminAction" then Some (WAdminAction a b c d (se_sent env)) else None
      | [JStr serverIp; JInt serverPort; JStr username; JStr userCode; JStr caFile; JStr tlsServerName] =>
          if on "connectToServer" then Some (WConnect (se_prepared env) (se_logins env) serverIp serverPort username userCode caFile tlsServerName)
          else None
      | [JStr serverExe; JStr certFile; JStr keyFile; JStr dbFile; JStr username; JStr userCode] =>
          if on "connectToLocalHost"
          then Some (WLocalHost (se_host env) (se_prepared env) (se_logins env) serverExe certFile keyFile dbFile username userCode)
          else None
      | [JStr room; JStr target; JBool isPrivate; JStr before; JInt limit; JStr query] =>
          if on "requestHistory" then Some (WRequestHistory room target isPrivate before limit query (se_sent env)) else None
      | _ => None
      end
  end.

(** What a slot outside the session can report. *)
Definition is_side (g : signal) : bool :=
  match g with
  | ConnectionLost _ | AttachmentEvent _ _ _ _ _ _ _ _ _ _ _ _ | MlsKeyPackageAvailable _ _ | MlsCommandResult _ _ _ _
  | MlsWelcomeEvent _ _ _ | MlsGroupStateReport _ _ _ _ _ | MlsDataResult _ _ _ _ => true
  | _ => false
  end.

Definition report_all (gs : list signal) (w : Worker) : Worker := w <| signals ::= fun l => l ++ gs |>.

(** The connections of the constructor: what a signal of the worker calls. *)
Definition event_of (now : string) (g : signal) : option event :=
  match g with
  | Connected isAdmin => Some (EvConnected isAdmin)
  | ConnectionFailed reason => Some (EvConnectionFailed now reason)
  | ConnectionLost reason => Some (EvConnectionLost reason)
  | ReconnectScheduled attempt delayMs => Some (EvReconnectScheduled attempt delayMs)
  | ReconnectAttempt attempt => Some (EvReconnectAttempt attempt)
  | ReconnectFailed reason => Some (EvReconnectFailed reason)
  | MessageDeliveryFailed messageId => Some (EvDeliveryFailed messageId)
  | MessageReceived m => Some (EvMessage now m)
  | HistoryReceived room target isPrivate messages _ query => Some (EvHistory now room target isPrivate messages query)
  | AttachmentEvent type attachmentId _ commandId _ _ _ _ _ _ content _ => Some (EvAttachment type attachmentId commandId content)
  | Disconnected | MlsKeyPackageAvailable _ _ | MlsCommandResult _ _ _ _ | MlsWelcomeEvent _ _ _
  | MlsGroupStateReport _ _ _ _ _ | MlsDataResult _ _ _ _ => None       (* not connected, or passed on to the bridge *)
  end.

(** The events that do not come from the worker. *)
Definition user_event (e : event) : bool :=
  match e with
  | EvDeliveryFailed _ | EvConnected _ | EvConnectionFailed _ _ | EvConnectionLost _ | EvReconnectScheduled _ _ | EvReconnectAttempt _
  | EvReconnectFailed _ | EvHistory _ _ _ _ _ _ | EvMessage _ _ | EvAttachment _ _ _ _ => false
  | _ => true
  end.

(** What happens to the worker by itself: its timers and the receive thread. *)
Definition own_call (c : worker_call) : bool :=
  match c with WTimer _ _ _ | WReceived _ _ _ _ | WReceiveFailed _ => true | _ => false end.

Inductive desktop_event :=
  | DUser (e : event)               (* the user, or the refresh timer *)
  | DCall (env : slot_env)          (* the worker takes a call *)
  | DOwn (c : worker_call)
  | DSignal (now : string).         (* the controller takes a signal *)

Section Steps.
  Context `{QtText} `{GuiEnv}.

Definition run_slot (env : slot_env) (o : output) (w : Worker) : Worker :=
  match call_of env o, o with
  | Some c, _ => worker_step c w
  | None, Invoke _ _ => report_all (List.filter is_side (se_side env)) w
  | None, Emit _ _ => w
  end.

Definition desktop_step (e : desktop_event) (d : Desktop) : Desktop :=
  match e with
  | DUser e => if user_event e then d <| gui ::= handle e |> else d
  | DCall env =>
      match outs (gui d) !! calls_taken d with
      | Some o => d <| worker ::= run_slot env o |> <| calls_taken ::= S |>
      | None => d
      end
  | DOwn c => if own_call c then d <| worker ::= worker_step c |> else d
  | DSignal now =>
      match signals (worker d) !! signals_taken d with
      | Some g => d <| gui ::= match event_of now g with Some e => handle e | None => id end |> <| signals_taken ::= S |>
      | None => d
      end
  end.

Definition run_desktop (es : list desktop_event) (d : Desktop) : Desktop := foldl (fun d e => desktop_step e d) d es.

Definition initial_desktop (saved : row) : Desktop := mk_desktop (initial_state saved) initial_worker 0 0.

(** The calls and the signals that are waiting. *)
Definition pending_calls (d : Desktop) : list output := drop (calls_taken d) (outs (gui d)).
Definition pending_signals (d : Desktop) : list signal := drop (signals_taken d) (signals (worker d)).

Definition quiescent (d : Desktop) : Prop := pending_calls d = [] /\ pending_signals d = [].

(** The destructor: the worker finishes its calls, disconnects and is deleted. *)
Definition close_desktop (envs : list slot_env) (stop stop' : stop_answers) (d : Desktop) : Desktop :=
  let d := run_desktop (map DCall envs) (d <| gui ::= fun s => s <| refreshTimer_ := false |> |>) in
  d <| worker ::= fun w => destroyWorker stop' (disconnectFromServer stop w) |>.

End Steps.

(** ** Messages are neither lost nor doubled *)

(** A chat message as the protocol has it: to a room, or to one user. *)
Definition typed_message (isPrivate : bool) (content to id : string) : Message :=
  if isPrivate
  then empty_message <| type := "private_chat" |> <| Message.content := content |> <| target_user_code := to |> <| message_id := id |>
  else empty_message <| type := "chat" |> <| Message.content := content |> <| Message.room := to |> <| message_id := id |>.

Definition nonempty_id (id : string) : list string := if is_empty id then [] else [id].

(** The chat messages that were handed to the connection. *)
Definition chat_of (m : Message) : list Message :=
  if String.eqb (type m) "chat" || String.eqb (type m) "private_chat" then [m] else [].

Definition sent_chats (w : Worker) : list Message := sent_ w ≫= chat_of.

(** The messages that were reported as undelivered, by their ids. *)
Definition report_id (g : signal) : list string := match g with MessageDeliveryFailed id => nonempty_id id | _ => [] end.

Definition reported_ids (w : Worker) : list string := signals w ≫= report_id.

Definition ids_of (ms : list Message) : list string := ms ≫= fun m => nonempty_id (message_id m).

(** Looks at an invocation only as far as [call_of] does. *)
Ltac open_call E :=
  repeat match type of E with
         | match ?x with _ => _ end = Some _ => let F := fresh "F" in destruct x eqn:F; try discriminate E
         end.

Section Requests.
  Context `{QtText}.

(** What the user asks for when an event is handled: a message to a room, to a
    user, or a failed one once more; an empty one is not sent. *)
Definition asked_for (e : event) (s : State) : list Message :=
  match e with
  | EvSendRoom id _ content room =>
      if is_empty (trimmed content) then []
      else [typed_message false (trimmed content) (if is_empty (trimmed room) then "lobby" else trimmed room) id]
  | EvSendPrivate id _ content target =>
      if is_empty (trimmed content) || is_empty (trimmed target) then [] else [typed_message true (trimmed content) (trimmed target) id]
  | EvRetry id =>
      if is_empty id then []
      else match List.find (fun km => retryable id km.2) (models s) with
           | Some (key, m) =>
               let content := trimmed (to_str (valueAt (findRow "messageId" (JStr id) m) "content" m)) in
               if has_prefix "dm:" key then [typed_message true content (mid 3 key) id] else [typed_message false content (mid 5 key) id]
           | None => []
           end
  | _ => []
  end.

(** The message of a call that the controller queued. *)
Definition send_of (o : output) : list Message :=
  match o with
  | Invoke slot [JStr content; JStr to; JStr id] =>
      if String.eqb slot "sendChatToRoom" then [typed_message false (trimmed content) to id]
      else if String.eqb slot "sendPrivate" then [typed_message true (trimmed content) to id]
      else []
  | _ => []
  end.

Definition call_message (c : worker_call) : list Message :=
  match c with
  | WSendChat content room id _ => [typed_message false (trimmed content) room id]
  | WSendPrivate content target id _ => [typed_message true (trimmed content) target id]
  | _ => []
  end.

Lemma call_of_none env o : call_of env o = None -> send_of o = [].
Proof.
  destruct o as [slot args | signal args]; [| done]. cbn [call_of send_of]. cbv zeta.
  destruct args as [| [] [| [] [| [] [| [] ?]]]]; try done.
  destruct (String.eqb slot "sendChatToRoom"); [done |]. destruct (String.eqb slot "sendPrivate"); done.
Qed.

Lemma call_of_same env o c : call_of env o = Some c -> call_message c = send_of o.
Proof.
  intros E. unfold call_of in E. cbv zeta in E. open_call E; injection E as <-;
    repeat match goal with F : String.eqb _ _ = true |- _ => apply String.eqb_eq in F; subst end; done.
Qed.

End Requests.

(** ** The controller queues what the user asks for *)

Section Queued.
  Context `{QtText} `{GuiEnv}.

Definition queued (l : list Message) (s : State) : Prop := outs s ≫= send_of = l.

Lemma queued_frame l s s' : outs s' = outs s -> queued l s -> queued l s'.
Proof. unfold queued. by intros ->. Qed.

Lemma queued_out l o s s' : outs s' = outs s ++ [o] -> send_of o = [] -> queued l s -> queued l s'.
Proof. unfold queued. intros -> Eo Hl. rewrite bind_app. cbn. by rewrite Eo, !app_nil_r. Qed.

Lemma queued_send l o s s' m : outs s' = outs s ++ [o] -> send_of o = m -> queued l s -> queued (l ++ m) s'.
Proof. unfold queued. intros -> <- <-. rewrite bind_app. cbn. by rewrite app_nil_r. Qed.

Lemma queued_emit l x y s : queued l s -> queued l (emit x y s).
Proof. by apply (queued_out l (Emit x y)). Qed.

Lemma queued_setStatus l x s : queued l s -> queued l (setStatus x s).
Proof. intros Hq. unfold setStatus. destruct (String.eqb _ _); [done |]. by apply queued_emit, (queued_frame _ s). Qed.

Lemma queued_setAdmin l x s : queued l s -> queued l (setAdmin x s).
Proof. intros Hq. unfold setAdmin. destruct (Bool.eqb _ _); [done |]. by apply queued_emit, (queued_frame _ s). Qed.

Lemma queued_canManage l x s : queued l s -> queued l (refreshCanManage x s).
Proof. intros Hq. unfold refreshCanManage. destruct (Bool.eqb _ _); [done |]. by apply queued_emit, (queued_frame _ s). Qed.

Lemma queued_append_to l k r s : queued l s -> queued l (append_to k r s).
Proof. intros Hq. unfold append_to. destruct (ensureConversationModel k (cache s)). by apply (queued_frame _ s). Qed.

(** Walk through a handler that sends no message. *)
Ltac queued_call := fail.
Ltac queued_walk :=
  repeat first
    [ assumption
    | lazymatch goal with
      | |- queued ?o (let x := ?t in @?b x) =>
          let u := fresh "u" in
          lazymatch type of t with
          | State => cut (queued o t); [change (queued o t -> queued o (b t)); generalize t; intros u ?; cbv beta | ]
          | _ => change (queued o (b t)); generalize t; intros u; cbv beta
          end
      | |- queued _ (if ?b then _ else _) => destruct b
      | |- queued _ (match ?b with _ => _ end) => destruct b
      | |- queued _ (emit _ _ _) => apply queued_emit
      | |- queued _ (invoke ?x ?y ?s) => apply (queued_out _ (Invoke x y) s); [reflexivity | reflexivity |]
      | |- queued _ (Controller.requestUsers ?s) => apply (queued_out _ (Invoke "requestUsers" []) s); [reflexivity | reflexivity |]
      | |- queued _ (Controller.requestRooms ?s) => apply (queued_out _ (Invoke "requestRooms" []) s); [reflexivity | reflexivity |]
      | |- queued _ (setStatus _ _) => apply queued_setStatus
      | |- queued _ (setAdmin _ _) => apply queued_setAdmin
      | |- queued _ (refreshCanManage _ _) => apply queued_canManage
      | |- queued _ (append_to _ _ _) => apply queued_append_to
      | |- queued _ (appendSystemMessage _ _ ?s) => apply (queued_frame _ s); [reflexivity |]
      | |- queued _ (on_models _ ?s) => apply (queued_frame _ s); [reflexivity |]
      | |- queued _ (field_update _ _ ?s) => apply (queued_frame _ s); [reflexivity |]
      end
    | queued_call ].

Lemma queued_request l x y s : queued l s -> queued l (requestActiveHistory x y s).
Proof. intros Hs. open_handler requestActiveHistory. queued_walk. Qed.

Lemma queued_identity l x y s : queued l s -> queued l (setIdentity x y s).
Proof. intros Hs. open_handler setIdentity. queued_walk. Qed.

Lemma queued_preferences l x y z u v s : queued l s -> queued l (saveConnectionPreferences x y z u v s).
Proof. intros Hs. open_handler saveConnectionPreferences. queued_walk. Qed.

Lemma queued_reset l s : queued l s -> queued l (resetSessionData s).
Proof. intros Hs. open_handler resetSessionData. queued_walk. Qed.

Lemma queued_increment l k x y s : queued l s -> queued l (incrementUnreadForConversation k x y s).
Proof. intros Hs. open_handler incrementUnreadForConversation. queued_walk. Qed.

Ltac queued_call ::=
  lazymatch goal with
  | |- queued _ (requestActiveHistory _ _ _) => apply queued_request
  | |- queued _ (setIdentity _ _ _) => apply queued_identity
  | |- queued _ (saveConnectionPreferences _ _ _ _ _ _) => apply queued_preferences
  | |- queued _ (resetSessionData _) => apply queued_reset
  | |- queued _ (incrementUnreadForConversation _ _ _ _) => apply queued_increment
  end.

Lemma queued_direct l x s : queued l s -> queued l (selectDirectMessage x s).
Proof. intros Hs. open_handler selectDirectMessage. queued_walk. Qed.

Lemma queued_message l now msg s : queued l s -> queued l (handleMessage now msg s).
Proof.
  intros Hs. unfold handleMessage.
  repeat match goal with |- queued _ (if ?b then _ else _) => destruct b end; queued_walk.
  - open_handler handle_delivery_receipt. queued_walk.
  - unfold handle_approval_request. destruct (_ || _ || _)%bool; [done |].
    destruct (replace_request _ _ _) as [pending replaced]. queued_walk.
  - open_handler handle_approval_result. queued_walk.
  - open_handler handle_users_response. queued_walk.
  - open_handler handle_rooms_response. queued_walk.
  - open_handler handle_chat. queued_walk.
  - open_handler handle_error. queued_walk.
Qed.

(** The events by which the user sends a message. *)
Definition sends_message (e : event) : bool :=
  match e with EvSendRoom _ _ _ _ | EvSendPrivate _ _ _ _ | EvRetry _ => true | _ => false end.

Lemma queued_other l e s : sends_message e = false -> queued l s -> queued l (handle e s).
Proof.
  intros He Hs. destruct e as [ | | | | | | | | | | | | | | | | | | | | | | | | | | | | | | | []]; try discriminate He; clear He; cbn [handle];
    try (unfold refresh_timeout, Controller.createRoom, Controller.sendRoomAction, Controller.sendAdminAction, handleReconnectScheduled,
      handleReconnectAttempt, handleReconnectFailed, messageDeliveryFailed, removeLocalMessage, setBundledCaFile,
      forward, startAttachmentDownload; queued_walk; done).
  - open_handler connectToServerWithTlsName. queued_walk.
  - open_handler Controller.connectToLocalHost. queued_walk.
  - open_handler Controller.disconnectFromServer. queued_walk.
  - open_handler searchActiveHistory. queued_walk.
  - open_handler selectRoom. queued_walk.
  - by apply queued_direct.
  - unfold openPrivateChat. destruct (_ || _)%bool; [done |]. apply queued_direct. queued_walk.
  - unfold recallMessage. destruct (canRecallMessage _ _); cbn [fst]; queued_walk.
  - open_handler handleConnected. queued_walk.
  - open_handler handleConnectionFailed. queued_walk.
  - open_handler handleConnectionLost. queued_walk.
  - open_handler handleHistory. queued_walk.
  - by apply queued_message.
  - unfold handleAttachmentEvent. destruct (_ || _ || _)%bool; [done |].
    destruct (fromJson _) as [[] |]; try done. destruct (List.find _ _) as [[key m] |]; queued_walk.
  - unfold chooseAndUploadAttachment, Controller.startAttachmentUpload. queued_walk.
  - unfold sendAttachmentDownload, startAttachmentDownload. queued_walk.
Qed.

Context `{!QtTextLaws}.

(** The controller queues, with its content, its addressee and its id, exactly
    the message that the user asked for. *)
Lemma handle_queues l e s : queued l s -> queued (l ++ asked_for e s) (handle e s).
Proof.
  intros Hs. destruct (sends_message e) eqn:He.
  2: { assert (asked_for e s = []) as -> by by destruct e. rewrite app_nil_r. by apply queued_other. }
  destruct e as [ | | | | id now content room | id now content target | | | | | | | | | | | | | id | | | | | | | | | | | | | ]; try discriminate He; cbn [handle asked_for].
  - unfold sendRoomMessage. cbv zeta. destruct (is_empty (trimmed content)); [by rewrite app_nil_r |].
    eapply queued_send; [reflexivity | cbn; by rewrite trimmed_idem | by apply queued_append_to].
  - unfold sendPrivateMessage. cbv zeta. destruct (_ || _)%bool; [by rewrite app_nil_r |].
    eapply queued_send; [reflexivity | cbn; by rewrite trimmed_idem | by apply queued_append_to].
  - unfold retryMessage. destruct (is_empty id); [by rewrite app_nil_r |].
    destruct (List.find _ _) as [[key m] |]; cbn [fst]; [| by rewrite app_nil_r]. cbv zeta.
    set (s1 := match conversationModels_ (cache s) !! key with Some _ => _ | None => _ end).
    assert (queued l s1) as Hs1 by (unfold s1; queued_walk). clearbody s1.
    destruct (has_prefix "dm:" key); (eapply queued_send; [reflexivity | reflexivity | exact Hs1]).
Qed.

End Queued.

(** ** The worker sends or reports what it is given *)

Section Messages.
  Context `{QtText}.

(** What a step adds to the messages sent and to those reported. *)
Definition adds (sent : list Message) (reported : list string) (w w' : Worker) : Prop :=
  sent_chats w' = sent_chats w ++ sent /\ reported_ids w' = reported_ids w ++ reported.

Lemma adds_same w w' : sent_ w' = sent_ w -> signals w' = signals w -> adds [] [] w w'.
Proof. intros E1 E2. unfold adds, sent_chats, reported_ids. by rewrite E1, E2, !app_nil_r. Qed.

Lemma adds_trans a b a' b' w1 w2 w3 : adds a b w1 w2 -> adds a' b' w2 w3 -> adds (a ++ a') (b ++ b') w1 w3.
Proof. intros [E1 E2] [F1 F2]. split; [by rewrite F1, E1, app_assoc | by rewrite F2, E2, app_assoc]. Qed.

Lemma adds_none w1 w2 w3 : adds [] [] w1 w2 -> adds [] [] w2 w3 -> adds [] [] w1 w3.
Proof. apply adds_trans. Qed.

Lemma adds_signal g w : adds [] (report_id g) w (signalled g w).
Proof. split; [by rewrite app_nil_r |]. unfold reported_ids. cbn. rewrite bind_app. cbn. by rewrite app_nil_r. Qed.

Lemma adds_quiet g w w' : report_id g = [] -> adds [] [] w w' -> adds [] [] w (signalled g w').
Proof. intros Eg Hw. eapply adds_none; [exact Hw |]. rewrite <- Eg. apply adds_signal. Qed.

Lemma adds_report id w : adds [] (nonempty_id id) w (report_undelivered id w).
Proof.
  unfold report_undelivered, nonempty_id. destruct (is_empty id) eqn:E; [by apply adds_same |].
  pose proof (adds_signal (MessageDeliveryFailed id) w) as Ha. cbn [report_id] in Ha. unfold nonempty_id in Ha. by rewrite E in Ha.
Qed.

Lemma adds_sent m w : adds (chat_of m) [] w (w <| sent_ ::= fun l => l ++ [m] |>).
Proof. split; [| by rewrite app_nil_r]. unfold sent_chats. cbn. rewrite bind_app. cbn. by rewrite app_nil_r. Qed.

(** A slot that sends something else. *)
Lemma adds_hand_over m sent w : chat_of m = [] -> adds [] [] w (hand_over m sent id w).
Proof.
  intros Em. destruct sent as [u | reason]; cbn [hand_over]; [rewrite <- Em at 1; apply adds_sent | by apply adds_quiet, adds_same].
Qed.

(** The message of a call was handed over, or else reported. *)
Definition settles (ms : list Message) (w w' : Worker) : Prop :=
  exists handed : bool, adds (if handed then ms else []) (if handed then [] else ids_of ms) w w'.

Lemma settles_none w w' : adds [] [] w w' -> settles [] w w'.
Proof. by exists true. Qed.

Lemma settles_report b content to id w :
  settles [typed_message b content to id] w (report_undelivered id w).
Proof. exists false. replace (ids_of _) with (nonempty_id id); [apply adds_report | by destruct b; cbn; rewrite app_nil_r]. Qed.

(** A slot that sends a chat message. *)
Lemma settles_chat b content to id sent w :
  settles [typed_message b content to id] w (hand_over (typed_message b content to id) sent (report_undelivered id) w).
Proof.
  destruct sent as [u | reason]; cbn [hand_over].
  - exists true. pose proof (adds_sent (typed_message b content to id) w) as Ha.
    assert (chat_of (typed_message b content to id) = [typed_message b content to id]) as E by by destruct b.
    rewrite E in Ha. exact Ha.
  - exists false. replace (ids_of _) with (nonempty_id id ++ [] : list string); [| by destruct b; cbn; rewrite !app_nil_r].
    apply (adds_trans [] (nonempty_id id) [] []  w (report_undelivered id w)); [apply adds_report | by apply adds_quiet, adds_same].
Qed.

Lemma adds_retry k attempt logins target report reason w :
  adds [] [] w (retry_loop k attempt logins target report reason w).1.
Proof.
  revert attempt reason w. induction k as [| k IH]; intros attempt reason w; cbn [retry_loop].
  - destruct report; cbn [fst]; [apply adds_quiet; [done |] |]; by apply adds_same.
  - destruct (logins attempt) as [b | r []]; cbn [fst].
    + by apply adds_quiet, adds_same.
    + destruct report; cbn [fst]; [apply adds_quiet; [done |] |]; by apply adds_same.
    + eapply adds_none; [| apply IH]. by apply adds_same.
Qed.

Lemma adds_retries prepared logins target n report w : adds [] [] w (connectToServerWithRetries prepared logins target n report w).1.
Proof.
  unfold connectToServerWithRetries. destruct prepared; [apply adds_retry |].
  destruct report; cbn [fst]; [apply adds_quiet; [done |] |]; by apply adds_same.
Qed.

Lemma adds_stop w : adds [] [] w (stopReceiveLoop w).
Proof. apply adds_same; unfold stopReceiveLoop; by destruct (running_ w). Qed.

Lemma adds_schedule w : adds [] [] w (scheduleReconnect w).
Proof.
  unfold scheduleReconnect. destruct (_ || _ || _)%bool; [by apply adds_same |]. cbv zeta.
  eapply adds_none; [apply adds_stop |]. generalize (stopReceiveLoop w). intros w1.
  destruct (scheduleNextAttempt _) as [p delayMs]. destruct (delayMs <? 0); [by apply adds_same |].
  eapply adds_none; [| by apply adds_same]. by apply adds_quiet, adds_same.
Qed.

Lemma adds_saved prepared logins w : adds [] [] w (retrySavedConnection prepared logins w).
Proof.
  unfold retrySavedConnection. destruct (_ || _)%bool; [by apply adds_same |]. cbv zeta.
  set (w1 := signalled _ w). assert (adds [] [] w w1) as H1 by by apply adds_quiet, adds_same.
  pose proof (adds_retries prepared logins (savedConnection_ w1) 1 false w1) as H2.
  destruct (connectToServerWithRetries _ _ _ _ _ _) as [w2 []]; cbn [fst] in H2; eapply adds_none; [exact H1 | | exact H1 |].
  - eapply adds_none; [exact H2 | by apply adds_same].
  - eapply adds_none; [| apply adds_schedule]. by apply adds_quiet.
Qed.

(** Every call of the worker sends or reports the message it is given. *)
Lemma step_settles c w : settles (call_message c) w (worker_step c w).
Proof.
  destruct c; cbn [worker_step call_message]; try apply settles_none.
  - unfold connectToServer. cbv zeta. eapply adds_none; [| apply adds_retries]. eapply adds_none; [apply adds_stop | by apply adds_same].
  - unfold connectToLocalHost, prepareLocalHost. cbv zeta. set (w1 := new_session _ w). assert (adds [] [] w w1) as H1.
    { eapply adds_none; [apply adds_stop | by apply adds_same]. }
    destruct (hostLocally _ _ _ _ _ _ _ _) as [h [attempts | reason]]; (eapply adds_none; [exact H1 |]).
    + eapply adds_none; [| apply adds_retries]. by apply adds_same.
    + by apply adds_quiet, adds_same.
  - unfold disconnectFromServer. cbv zeta. apply adds_quiet; [done |]. set (w0 := w <| explicitDisconnect_ := true |> <| reconnectPolicy_ ::= _ |> <| reconnectTimerActive_ := _ |>).
    eapply adds_none; [by apply (adds_same w w0) |]. eapply adds_none; [apply adds_stop | by apply adds_same].
  - apply adds_schedule.
  - unfold timer_fires. destruct (timers w !! i) as [g |]; [| by apply adds_same]. cbv zeta. destruct (negb _); [by apply adds_same |].
    eapply adds_none; [| apply adds_saved]. by apply adds_same.
  - unfold sendChatToRoom. destruct (_ || _)%bool; [apply settles_report | apply (settles_chat false)].
  - unfold sendPrivate. destruct (_ || _ || _)%bool; [apply settles_report | apply (settles_chat true)].
  - unfold joinRoom. destruct (_ || _)%bool; [by apply adds_same | by apply adds_hand_over].
  - unfold createRoom. destruct (_ || _)%bool; [by apply adds_same | by apply adds_hand_over].
  - unfold sendRoomAction. destruct (_ || _ || _)%bool; [by apply adds_same | by apply adds_hand_over].
  - unfold requestUsers. destruct (link_ready w); [by apply adds_hand_over | by apply adds_same].
  - unfold requestRooms. destruct (link_ready w); [by apply adds_hand_over | by apply adds_same].
  - unfold requestHistory. destruct (link_ready w); [by apply adds_hand_over | by apply adds_same].
  - unfold sendAdminAction. destruct (_ || _ || _)%bool; [by apply adds_same | by apply adds_hand_over].
  - unfold on_received. cbv zeta. set (w1 := if is_attachment_event _ then _ else w).
    assert (adds [] [] w w1) as H1 by (unfold w1; destruct (is_attachment_event _); [by apply adds_quiet, adds_same | by apply adds_same]).
    clearbody w1. destruct (String.eqb (type m) "history_response"); by apply adds_quiet.
  - unfold on_receive_failed. destruct (running_ w); [| by apply adds_same]. by apply adds_quiet, adds_same.
Qed.

Lemma adds_side gs w : adds [] [] w (report_all (List.filter is_side gs) w).
Proof.
  split; [by rewrite app_nil_r |]. unfold reported_ids, report_all. cbn. rewrite bind_app, app_nil_r.
  assert ((List.filter is_side gs ≫= report_id) = []) as ->; [| by rewrite app_nil_r].
  induction gs as [| g gs IH]; [done |]. cbn [List.filter]. destruct (is_side g) eqn:E; [| exact IH]. cbn. rewrite IH. by destruct g.
Qed.

Lemma run_slot_settles env o w : settles (send_of o) w (run_slot env o w).
Proof.
  unfold run_slot. destruct (call_of env o) as [c |] eqn:E; [rewrite <- (call_of_same _ _ _ E); apply step_settles |].
  rewrite (call_of_none _ _ E). apply settles_none. destruct o; [apply adds_side | by apply adds_same].
Qed.

End Messages.

Section Conservation.
  Context `{QtText} `{!QtTextLaws} `{GuiEnv}.

(** The messages of the calls that the worker has taken, and of those waiting. *)
Definition taken_messages (d : Desktop) : list Message := take (calls_taken d) (outs (gui d)) ≫= send_of.
Definition waiting_messages (d : Desktop) : list Message := pending_calls d ≫= send_of.

(** The messages the user asks for in the course of a run, in their order. *)
Fixpoint requested (es : list desktop_event) (d : Desktop) : list Message :=
  match es with
  | [] => []
  | e :: es =>
      match e with DUser u => if user_event u then asked_for u (gui d) else [] | _ => [] end ++
      requested es (desktop_step e d)
  end.

(** What became of each message that was taken: handed to the connection or not. *)
Definition fates (d : Desktop) (fate : list (Message * bool)) : Prop :=
  fate.*1 = taken_messages d /\
  sent_chats (worker d) = (List.filter snd fate).*1 /\
  reported_ids (worker d) = ids_of (List.filter (fun mb => negb mb.2) fate).*1.

Definition conserved (asked : list Message) (d : Desktop) : Prop :=
  (exists fate, fates d fate) /\ (calls_taken d <= length (outs (gui d)))%nat /\ queued asked (gui d).

Lemma conserved_gui asked new d s : (exists l, outs s = outs (gui d) ++ l) -> queued (asked ++ new) s ->
  conserved asked d -> conserved (asked ++ new) (d <| gui := s |>).
Proof.
  intros [l E] Hq ([fate Hf] & Hl & _). split_and!; [exists fate | cbn; rewrite E, length_app; lia | exact Hq].
  unfold fates, taken_messages in *. cbn. by rewrite E, take_app_le.
Qed.

Lemma conserved_worker asked d w : adds [] [] (worker d) w -> conserved asked d -> conserved asked (d <| worker := w |>).
Proof.
  intros [E1 E2] ([fate Hf] & Hl & Hq). split_and!; [exists fate | done | done].
  unfold fates, taken_messages in *. cbn. by rewrite E1, E2, !app_nil_r.
Qed.

Lemma handle_outs e s : exists new, outs (handle e s) = outs s ++ new.
Proof. destruct (handle_since e s) as [_ (new & E & _)]. by exists new. Qed.

Lemma own_adds c w : own_call c = true -> adds [] [] w (worker_step c w).
Proof. intros Hc. destruct (step_settles c w) as [[] Ha]; by destruct c. Qed.

(** The messages of one call have one fate. *)
Definition with_fate (b : bool) (ms : list Message) : list (Message * bool) := map (fun m => (m, b)) ms.

Lemma with_fate_fst b ms : (with_fate b ms).*1 = ms.
Proof. unfold with_fate. induction ms as [| m ms IH]; [done |]. cbn [map]. by rewrite fmap_cons, IH. Qed.

Lemma with_fate_filter (p : Message * bool -> bool) b ms : (forall m, p (m, b) = p (empty_message, b)) ->
  List.filter p (with_fate b ms) = if p (empty_message, b) then with_fate b ms else [].
Proof.
  intros Hp. unfold with_fate. induction ms as [| m ms IH]; cbn [map List.filter]; [by destruct (p _) |].
  rewrite Hp, IH. by destruct (p (empty_message, b)).
Qed.

Lemma conserved_call asked env d o : outs (gui d) !! calls_taken d = Some o -> conserved asked d ->
  conserved asked (d <| worker ::= run_slot env o |> <| calls_taken ::= S |>).
Proof.
  intros Eo ([fate (Hf & Hs & Hr)] & Hl & Hq). split_and!; [| apply lookup_lt_Some in Eo; cbn; lia | exact Hq].
  destruct (run_slot_settles env o (worker d)) as [handed [E1 E2]]. exists (fate ++ with_fate handed (send_of o)).
  unfold fates, taken_messages in *. cbn. rewrite E1, E2, Hs, Hr, (take_S_r _ _ _ Eo), bind_app.
  rewrite !List.filter_app, !fmap_app, Hf, with_fate_fst, !with_fate_filter by done. cbn. unfold ids_of.
  rewrite bind_app, app_nil_r. destruct handed; cbn; rewrite ?with_fate_fst; done.
Qed.

Lemma conserved_step asked e d : conserved asked d ->
  conserved (asked ++ match e with DUser u => if user_event u then asked_for u (gui d) else [] | _ => [] end) (desktop_step e d).
Proof.
  intros Hd. destruct e as [e | env | c | now]; cbn [desktop_step].
  - destruct (user_event e); [| by rewrite app_nil_r].
    apply (conserved_gui asked _ d (handle e (gui d)) (handle_outs e (gui d))); [by apply handle_queues, Hd | done].
  - rewrite app_nil_r. destruct (outs (gui d) !! calls_taken d) as [o |] eqn:Eo; [by apply conserved_call | done].
  - rewrite app_nil_r. destruct (own_call c) eqn:Ec; [by apply (conserved_worker asked d), Hd; apply own_adds | done].
  - destruct (signals (worker d) !! signals_taken d) as [g |]; [| by rewrite app_nil_r].
    refine (conserved_gui asked [] d (match event_of now g with Some e => handle e | None => id end (gui d)) _ _ Hd).
    + destruct (event_of now g); [apply handle_outs | exists []; by rewrite app_nil_r].
    + rewrite app_nil_r. destruct (event_of now g) as [e |] eqn:Ee; [| apply Hd].
      apply queued_other; [by destruct g; try discriminate Ee; injection Ee as <- | apply Hd].
Qed.

Lemma conserved_run asked es d : conserved asked d -> conserved (asked ++ requested es d) (run_desktop es d).
Proof.
  revert asked d. induction es as [| e es IH]; intros asked d Hd; [by rewrite app_nil_r |].
  cbn [requested]. rewrite app_assoc. change (run_desktop (e :: es) d) with (run_desktop es (desktop_step e d)).
  by apply IH, conserved_step.
Qed.

(** C5: between the user and the network no message is lost, doubled or changed.
    Take the messages that the user asked to have sent in a run, in their order
    (to a room or to a user, with the text trimmed and the lobby for no room, or
    once more a message of the user's that failed): however the threads
    interleave, the last of them still wait for the worker, and each of the
    others was either handed to the connection, with its text, its addressee
    and its id as they were asked for, or reported as undelivered by its id,
    once and in this order.  When no call is waiting that is all of them. *)
Theorem messages_conserved saved es :
  let d := run_desktop es (initial_desktop saved) in
  exists fate : list (Message * bool),
    fate.*1 ++ waiting_messages d = requested es (initial_desktop saved) /\
    sent_chats (worker d) = (List.filter snd fate).*1 /\
    reported_ids (worker d) = ids_of (List.filter (fun mb => negb mb.2) fate).*1 /\
    (pending_calls d = [] -> fate.*1 = requested es (initial_desktop saved)).
Proof.
  cbv zeta. assert (conserved [] (initial_desktop saved)) as Hi by (split_and!; [exists []; done | cbn; lia | done]).
  apply (conserved_run [] es) in Hi as ([fate (Hf & Hs & Hr)] & Hl & Hq). cbn [app] in Hq.
  assert (fate.*1 ++ waiting_messages (run_desktop es (initial_desktop saved)) = requested es (initial_desktop saved)) as Ea.
  { rewrite Hf, <- Hq. unfold taken_messages, waiting_messages, pending_calls. by rewrite <- bind_app, take_drop. }
  exists fate. split_and!; [exact Ea | exact Hs | exact Hr |]. intros Hp. rewrite <- Ea.
  unfold waiting_messages. by rewrite Hp, app_nil_r.
Qed.

End Conservation.

(** ** Witness *)

(** A machine on which everything the session needs succeeds. *)
Definition ex_host : host_world :=
  mk_world (fun _ => true) id id id (fun _ => true) (true, true) None (mk_stop true true) (Ok tt) [] ("", "") (mk_stop true true) true ""
    (fun _ => true).

Definition ex_slot : slot_env := mk_slot_env (Ok tt) (always (LoggedIn false)) ex_host (mk_stop true true) (Ok tt) [].

(** The user connects and the worker takes every call. *)
Definition ex_login : list desktop_event := DUser (EvConnect "10.0.0.2" 8888 "Ann" "A1" "" "") :: repeat (DCall ex_slot) 12.

Definition ex_chat_session : list desktop_event :=
  ex_login ++ [DSignal "09:30"; DUser (EvSendRoom "m1" "09:31" "hi" "lobby")] ++ repeat (DCall ex_slot) 30.

(** A message is sent, and another one after the user has disconnected. *)
Definition ex_talk : list desktop_event :=
  ex_chat_session ++ [DUser EvDisconnect; DUser (EvSendPrivate "m2" "09:40" " bye " "B2"); DUser (EvSendRoom "m3" "09:41" "  " "lobby")] ++
  repeat (DCall ex_slot) 40.

Lemma messages_conserved_witness :
  let d := run_desktop ex_talk (initial_desktop []) in
  requested ex_talk (initial_desktop []) = [typed_message false "hi" "lobby" "m1"; typed_message true "bye" "B2" "m2"] /\
  (exists fate : list (Message * bool), fate.*1 = requested ex_talk (initial_desktop []) /\ sent_chats (worker d) = (List.filter snd fate).*1) /\
  sent_chats (worker d) = [typed_message false "hi" "lobby" "m1"] /\ reported_ids (worker d) = ["m2"].
Proof.
  cbv zeta. split; [vm_compute; reflexivity |]. split; [| split; vm_compute; reflexivity].
  destruct (messages_conserved [] ex_talk) as (fate & _ & E1 & _ & E2).
  exists fate. split; [apply E2; vm_compute; reflexivity | exact E1].
Defined.
