(* ===== verification/DesktopSession.v ===== *)
(** * DesktopSession: whether the user is told the truth about the connection

    Over every interleaving of [Desktop]: a session that is up is shown as
    connected once nothing is waiting.  The converse fails: a login that is
    reported after the user has disconnected leaves the window connected to
    nothing. *)

From S2P Require Import Prelude Text Protocol Json JsonCodecInstance ChatModel Conversations Controller ControllerInvariant ControllerBehaviour.
From S2P Require Import Message LocalHost Worker Discovery Performance Bridge BridgeState Desktop.

(** ** What decides about the window's status *)

Definition con (b : bool) (s : State) : Prop := connected_ s = b.

Lemma con_frame b s s' : connected_ s' = connected_ s -> con b s -> con b s'.
Proof. unfold con. congruence. Qed.

Lemma con_setStatus b t s : con b s -> con b (setStatus t s).
Proof. unfold setStatus. by destruct (String.eqb _ _). Qed.

Lemma con_setAdmin b a s : con b s -> con b (setAdmin a s).
Proof. unfold setAdmin. by destruct (Bool.eqb _ _). Qed.

Lemma con_canManage b a s : con b s -> con b (refreshCanManage a s).
Proof. unfold refreshCanManage. by destruct (Bool.eqb _ _). Qed.

Lemma con_request b x y s : con b s -> con b (requestActiveHistory x y s).
Proof. unfold requestActiveHistory. by destruct (_ || _)%bool. Qed.

Lemma con_append_to b k r s : con b s -> con b (append_to k r s).
Proof. unfold append_to. by destruct (ensureConversationModel k (cache s)). Qed.

(** Walk through a handler. *)
Ltac con_call := fail.
Ltac con_walk :=
  repeat first
    [ assumption
    | lazymatch goal with
      | |- con ?o (let x := ?t in @?b x) =>
          let u := fresh "u" in
          lazymatch type of t with
          | State => cut (con o t); [change (con o t -> con o (b t)); generalize t; intros u ?; cbv beta | ]
          | _ => change (con o (b t)); generalize t; intros u; cbv beta
          end
      | |- con _ (if ?b then _ else _) => destruct b
      | |- con _ (match ?b with _ => _ end) => destruct b
      | |- con _ (emit _ _ ?s) => apply (con_frame _ s); [reflexivity |]
      | |- con _ (invoke _ _ ?s) => apply (con_frame _ s); [reflexivity |]
      | |- con _ (Controller.requestUsers ?s) => apply (con_frame _ s); [reflexivity |]
      | |- con _ (Controller.requestRooms ?s) => apply (con_frame _ s); [reflexivity |]
      | |- con _ (requestActiveHistory _ _ _) => apply con_request
      | |- con _ (setStatus _ _) => apply con_setStatus
      | |- con _ (setAdmin _ _) => apply con_setAdmin
      | |- con _ (refreshCanManage _ _) => apply con_canManage
      | |- con _ (append_to _ _ _) => apply con_append_to
      | |- con _ (appendSystemMessage _ _ ?s) => apply (con_frame _ s); [reflexivity |]
      | |- con _ (on_models _ ?s) => apply (con_frame _ s); [reflexivity |]
      | |- con _ (field_update connected_ _ _) => reflexivity
      | |- con _ (field_update _ _ ?s) => apply (con_frame _ s); [reflexivity |]
      end
    | con_call ].

(** Goes past a step of which nothing needs to be known. *)
Ltac con_forget :=
  lazymatch goal with |- con ?o (let x := ?t in @?b x) => change (con o (b t)); generalize t; let u := fresh "u" in intros u; cbv beta end.

Section Status.
  Context `{QtText} `{GuiEnv}.

Lemma con_identity b x y s : con b s -> con b (setIdentity x y s).
Proof. intros Hs. open_handler setIdentity. con_walk. Qed.

Lemma con_preferences b x y z u v s : con b s -> con b (saveConnectionPreferences x y z u v s).
Proof. intros Hs. open_handler saveConnectionPreferences. con_walk. Qed.

Lemma con_reset b s : con b s -> con b (resetSessionData s).
Proof. intros Hs. open_handler resetSessionData. con_walk. Qed.

Lemma con_increment b k x y s : con b s -> con b (incrementUnreadForConversation k x y s).
Proof. intros Hs. open_handler incrementUnreadForConversation. con_walk. Qed.

Lemma con_direct b x s : con b s -> con b (selectDirectMessage x s).
Proof. intros Hs. open_handler selectDirectMessage. con_walk. Qed.

Ltac con_call ::=
  lazymatch goal with
  | |- con _ (setIdentity _ _ _) => apply con_identity
  | |- con _ (saveConnectionPreferences _ _ _ _ _ _) => apply con_preferences
  | |- con _ (resetSessionData _) => apply con_reset
  | |- con _ (incrementUnreadForConversation _ _ _ _) => apply con_increment
  | |- con _ (selectDirectMessage _ _) => apply con_direct
  end.

Lemma con_message b now msg s : con b s -> con b (handleMessage now msg s).
Proof.
  intros Hs. unfold handleMessage.
  repeat match goal with |- con _ (if ?b then _ else _) => destruct b end; con_walk.
  - open_handler handle_delivery_receipt. con_walk.
  - unfold handle_approval_request. destruct (_ || _ || _)%bool; [done |].
    destruct (replace_request _ _ _) as [pending replaced]. con_walk.
  - open_handler handle_approval_result. con_walk.
  - open_handler handle_users_response. con_walk.
  - open_handler handle_rooms_response. con_walk.
  - open_handler handle_chat. con_walk.
  - open_handler handle_error. con_walk.
Qed.

(** What an event says about the connection. *)
Definition event_status (e : event) : option bool :=
  match e with
  | EvConnected _ => Some true
  | EvConnectionFailed _ _ | EvConnectionLost _ | EvDisconnect => Some false
  | _ => None
  end.

Lemma handle_connected e s : connected_ (handle e s) = default (connected_ s) (event_status e).
Proof.
  change (con (default (connected_ s) (event_status e)) (handle e s)).
  assert (con (connected_ s) s) as Hs by done.
  destruct e as [ | | | | | | | | | | | | | | | | | | | | | | | | | | | | | | | []]; cbn [handle event_status default from_option];
    try (unfold refresh_timeout, Controller.createRoom, Controller.sendRoomAction, Controller.sendAdminAction, handleReconnectScheduled,
      handleReconnectAttempt, handleReconnectFailed, messageDeliveryFailed, removeLocalMessage, setBundledCaFile,
      forward, startAttachmentDownload; con_walk; done).
  - open_handler connectToServerWithTlsName. con_walk.
  - open_handler Controller.connectToLocalHost. con_walk.
  - open_handler Controller.disconnectFromServer. cbv zeta. apply con_setStatus. set (s1 := invoke _ _ _).
    destruct (connected_ s1) eqn:E; [reflexivity | exact E].
  - open_handler sendRoomMessage. con_walk.
  - open_handler sendPrivateMessage. con_walk.
  - open_handler searchActiveHistory. con_walk.
  - open_handler selectRoom. con_walk.
  - open_handler openPrivateChat. con_walk.
  - unfold recallMessage. destruct (canRecallMessage _ _); cbn [fst]; con_walk.
  - unfold retryMessage. destruct (is_empty _); [done |]. destruct (List.find _ _) as [[key m] |]; [| done]. cbn [fst]. con_walk.
  - open_handler handleConnected. do 3 con_forget. con_walk.
  - open_handler handleConnectionFailed. cbv zeta. con_walk.
  - open_handler handleConnectionLost. cbv zeta. con_walk.
  - open_handler handleHistory. con_walk.
  - by apply con_message.
  - unfold handleAttachmentEvent. destruct (_ || _ || _)%bool; [done |].
    destruct (fromJson _) as [[] |]; try done. destruct (List.find _ _) as [[key m] |]; con_walk.
  - unfold chooseAndUploadAttachment, Controller.startAttachmentUpload. cbv zeta. con_walk.
  - unfold sendAttachmentDownload, startAttachmentDownload. con_walk.
Qed.

End Status.

(** ** The worker's session *)

(** What a signal says about the connection. *)
Definition status_of (g : signal) : option bool :=
  match g with Connected _ => Some true | ConnectionFailed _ | ConnectionLost _ => Some false | _ => None end.

Definition is_loss (g : signal) : bool := match g with ConnectionLost _ => true | _ => false end.

(** A connected worker can reconnect when its connection is lost. *)
Definition can_reconnect (w : Worker) : Prop :=
  explicitDisconnect_ w = false /\ sc_valid (savedConnection_ w) = true /\ reconnectTimerActive_ w = false.

Definition is_reset (c : worker_call) : bool := match c with WDisconnect _ | WSchedule => true | _ => false end.

(** From [w] to [w'] with the signals [new]: the session is down afterwards; or
    it is a new one, reported last; or it is the old one, with a loss reported,
    or with nothing said about it, or not running any more when the call began. *)
Definition session_effect (c : worker_call) (w w' : Worker) (new : list signal) : Prop :=
  link_ready w' = false \/
  (can_reconnect w' /\ is_reset c = false /\
   ((exists pre a, new = pre ++ [Connected a] /\ running_ w' = true) \/
    (link_ready w = true /\ existsb is_loss new = true) \/
    (link_ready w = true /\ running_ w' = running_ w /\ Forall (fun g => status_of g = None) new) \/
    (link_ready w = true /\ running_ w = false /\ running_ w' = false))).

Lemma retry_effect k attempt logins target report reason w :
  let '(w', ok) := retry_loop (S k) attempt logins target report reason w in
  exists new, signals w' = signals w ++ new /\ policy_view w' = policy_view w /\
    if ok then link_ready w' = true /\ running_ w' = true /\ exists pre a, new = pre ++ [Connected a] else connection_ w' = None.
Proof.
  revert attempt reason w. induction k as [| k IH]; intros attempt reason w.
  - cbn [retry_loop]. destruct (logins attempt) as [a | r rejected].
    + exists [Connected a]. split_and!; try done. by exists [], a.
    + destruct rejected, report; cbn; eexists; (split_and!; [first [reflexivity | by rewrite app_nil_r] | done | done]).
  - set (j := S k) in *. cbn [retry_loop]. destruct (logins attempt) as [a | r rejected].
    + exists [Connected a]. split_and!; try done. by exists [], a.
    + destruct rejected.
      * destruct report; cbn; eexists; (split_and!; [first [reflexivity | by rewrite app_nil_r] | done | done]).
      * match goal with |- context [retry_loop j _ _ _ _ _ ?w'] => exact (IH (S attempt) r w') end.
Qed.

Lemma retries_effect prepared logins target n report w :
  let '(w', ok) := connectToServerWithRetries prepared logins target n report w in
  exists new, signals w' = signals w ++ new /\ policy_view w' = policy_view w /\
    if ok then link_ready w' = true /\ running_ w' = true /\ exists pre a, new = pre ++ [Connected a]
    else connection_ w' = None \/ (connection_ w' = connection_ w /\ running_ w' = running_ w).
Proof.
  unfold connectToServerWithRetries. destruct prepared as [u | reason].
  - destruct (Z.to_nat (Z.max 1 n)) as [| k] eqn:E; [lia |]. pose proof (retry_effect k 0 logins target report "" w) as Hr.
    destruct (retry_loop _ _ _ _ _ _ _) as [w' ok]. destruct Hr as (new & Es & Ev & Hr). exists new. split; [done |]. split; [done |].
    destruct ok; [done | by left].
  - destruct report; cbn; eexists; (split_and!; [first [reflexivity | by rewrite app_nil_r] | done | by right]).
Qed.

Lemma can_reconnect_view w w' : policy_view w' = policy_view w -> can_reconnect w -> can_reconnect w'.
Proof. unfold policy_view, can_reconnect. intros [= E1 E2 E3 E4 E5]. by rewrite E3, E4, E5. Qed.

Lemma link_down w : connection_ w = None -> link_ready w = false.
Proof. unfold link_ready. by intros ->. Qed.

Lemma stopped_link w : link_ready (stopReceiveLoop w) = true -> link_ready w = true /\ running_ w = false /\ stopReceiveLoop w = w.
Proof.
  unfold stopReceiveLoop. destruct (running_ w) eqn:Er; [| done]. unfold link_ready. cbn. by destruct (connection_ w).
Qed.

Lemma connect_effect prepared logins a b c d e f w :
  let w' := connectToServer prepared logins a b c d e f w in
  exists new, signals w' = signals w ++ new /\ session_effect (WConnect prepared logins a b c d e f) w w' new.
Proof.
  cbv zeta. unfold connectToServer. cbv zeta. set (target := mk_saved a b c d e f true).
  set (w1 := (stopReceiveLoop w) <| explicitDisconnect_ := _ |> <| reconnectPolicy_ ::= _ |> <| reconnectTimerActive_ := _ |> <| savedConnection_ := _ |>).
  assert (signals w1 = signals w) as Es1 by (unfold w1, stopReceiveLoop; by destruct (running_ w)).
  assert (can_reconnect w1) as Hc1 by done.
  assert (link_ready w1 = true -> link_ready w = true /\ running_ w = false /\ running_ w1 = false) as Hl1.
  { change (link_ready w1) with (link_ready (stopReceiveLoop w)). change (running_ w1) with (running_ (stopReceiveLoop w)).
    intros Hl%stopped_link. destruct Hl as (? & ? & ->). done. }
  clearbody w1. pose proof (retries_effect prepared logins target 1 true w1) as Hr.
  destruct (connectToServerWithRetries _ _ _ _ _ _) as [w' ok]. cbn [fst]. destruct Hr as (new & Es & Ev & Hr). exists new.
  split; [by rewrite Es, Es1 |]. pose proof (can_reconnect_view _ _ Ev Hc1) as Hc. destruct ok.
  - destruct Hr as (Hl & Hrun & pre & adm & En). right. split_and!; try done. left. by exists pre, adm.
  - destruct Hr as [Hn | [E1 E2]]; [left; by apply link_down |]. destruct (link_ready w') eqn:El; [| by left].
    right. split_and!; try done. right. right. right. unfold link_ready in El. rewrite E1 in El. rewrite E2. by apply Hl1.
Qed.

Lemma silent_effect c w w' new : is_reset c = false -> (link_ready w = true -> can_reconnect w) -> link_view w' = link_view w ->
  (existsb is_loss new = true \/ (running_ w' = running_ w /\ Forall (fun g => status_of g = None) new)) -> session_effect c w w' new.
Proof.
  intros Hc Hw Ev Hnew. pose proof (f_equal (fun v => v.1.1.1) Ev) as Ep. pose proof (f_equal (fun v => v.1.1.2) Ev) as El.
  cbn [link_view fst snd] in Ep, El. unfold session_effect. assert (link_ready w' = link_ready w) as E by (unfold link_ready; by rewrite El).
  rewrite E. destruct (link_ready w) eqn:Hl; [right | by left]. split_and!; [by apply (can_reconnect_view w), Hw | done |].
  destruct Hnew as [? | [? ?]]; [right; by left | right; right; by left].
Qed.

Lemma schedule_effect w : (link_ready w = true -> can_reconnect w) -> exists new,
  signals (scheduleReconnect w) = signals w ++ new /\ link_ready (scheduleReconnect w) = false /\ Forall (fun g => status_of g = None) new.
Proof.
  intros Hw. unfold scheduleReconnect. destruct (_ || _ || _)%bool eqn:E.
  - exists []. rewrite app_nil_r. split_and!; try done. destruct (link_ready w) eqn:Hl; [| done]. destruct (Hw eq_refl) as (E1 & E2 & E3).
    by rewrite E1, E2, E3 in E.
  - cbv zeta. assert (signals (stopReceiveLoop w) = signals w) as Es by (unfold stopReceiveLoop; by destruct (running_ w)). revert Es.
    generalize (stopReceiveLoop w). intros w1 Es. destruct (scheduleNextAttempt _) as [p delayMs]. destruct (delayMs <? 0).
    + exists []. rewrite app_nil_r. split_and!; try done. 
    + exists [ReconnectScheduled (attemptCount_ p) delayMs]. split_and!; [cbn; by rewrite Es | done | by repeat constructor].
Qed.

Lemma timer_effect i prepared logins w : (link_ready w = true -> can_reconnect w) ->
  let w' := timer_fires i prepared logins w in
  exists new, signals w' = signals w ++ new /\ session_effect (WTimer i prepared logins) w w' new.
Proof.
  intros Hw. cbv zeta.
  assert (exists new, signals w = signals w ++ new /\ session_effect (WTimer i prepared logins) w w new) as Hsame.
  { exists []. rewrite app_nil_r. split; [done |]. apply silent_effect; try done. right. by repeat constructor. }
  unfold timer_fires. destruct (timers w !! i) as [g |]; [| exact Hsame]. cbv zeta.
  destruct (negb _).
  { exists []. rewrite app_nil_r. split; [done |]. destruct (link_ready w) eqn:Hl; [right | by left].
    split_and!; [exact (Hw eq_refl) | done |]. right. right. left. by repeat constructor. }
  set (w0 := w <| timers ::= delete i |> <| reconnectTimerActive_ := false |>). unfold retrySavedConnection.
  destruct (explicitDisconnect_ w0 || negb (sc_valid (savedConnection_ w0))) eqn:E.
  { exists []. rewrite app_nil_r. split; [done |]. destruct (link_ready w) eqn:Hl; [| by left].
    destruct (Hw eq_refl) as (E1 & E2 & _). change (explicitDisconnect_ w || negb (sc_valid (savedConnection_ w)) = true) in E.
    by rewrite E1, E2 in E. }
  apply orb_false_iff in E as [E1 E2%negb_false_iff]. cbv zeta. set (w1 := signalled _ w0).
  assert (can_reconnect w1) as Hc1 by done. assert (signals w1 = signals w ++ [ReconnectAttempt (attemptCount_ (reconnectPolicy_ w0))]) as Es1 by done.
  clearbody w1. pose proof (retries_effect prepared logins (savedConnection_ w1) 1 false w1) as Hr.
  destruct (connectToServerWithRetries _ _ _ _ _ _) as [w2 ok]. destruct Hr as (new & Es & Ev & Hr).
  pose proof (can_reconnect_view _ _ Ev Hc1) as Hc2. destruct ok.
  - destruct Hr as (Hl & Hrun & pre & adm & En). exists (ReconnectAttempt (attemptCount_ (reconnectPolicy_ w0)) :: new).
    split; [cbn; by rewrite Es, Es1, <- app_assoc |]. right. split_and!; [exact Hc2 | done |]. left.
    exists (ReconnectAttempt (attemptCount_ (reconnectPolicy_ w0)) :: pre), adm. by rewrite En.
  - destruct (schedule_effect (signalled (ReconnectFailed (lastConnectionFailure_ w2)) w2)) as (new' & Es' & Hl & _); [done |].
    eexists. split; [rewrite Es'; cbn; rewrite Es, Es1, <- !app_assoc; reflexivity |]. by left.
Qed.

Section Session.
  Context `{QtText}.

(** A slot that hands a message over. *)
Lemma hand_over_signals m sent f w : (forall w, exists l, signals (f w) = signals w ++ l /\ Forall (fun g => status_of g = None) l) ->
  exists new, signals (hand_over m sent f w) = signals w ++ new /\
    (existsb is_loss new = true \/ Forall (fun g => status_of g = None) new).
Proof.
  intros Hf. destruct sent as [u | reason]; cbn [hand_over]; [exists []; rewrite app_nil_r; by split; [| right] |].
  destruct (Hf w) as (l & El & _). exists (l ++ [ConnectionLost reason]). cbn. rewrite El, app_assoc. split; [done |]. left.
  by rewrite existsb_app, orb_true_r.
Qed.

Lemma hand_over_running m sent f w : (forall w, running_ (f w) = running_ w) -> running_ (hand_over m sent f w) = running_ w.
Proof. intros Hf. destruct sent; [done |]. exact (Hf w). Qed.

Lemma report_signals id w : exists l, signals (report_undelivered id w) = signals w ++ l /\ Forall (fun g => status_of g = None) l.
Proof.
  unfold report_undelivered. destruct (is_empty id); [exists []; by rewrite app_nil_r |]. eexists. split; [reflexivity | by repeat constructor].
Qed.

Lemma report_running id w : running_ (report_undelivered id w) = running_ w.
Proof. unfold report_undelivered. by destruct (is_empty id). Qed.

(** The signals of the calls that do not decide about the connection. *)
Lemma passive_signals c w : passive c = true -> (forall reason, c <> WReceiveFailed reason) ->
  running_ (worker_step c w) = running_ w /\
  exists new, signals (worker_step c w) = signals w ++ new /\ (existsb is_loss new = true \/ Forall (fun g => status_of g = None) new).
Proof.
  assert (exists new, signals w = signals w ++ new /\ (existsb is_loss new = true \/ Forall (fun g => status_of g = None) new)) as Hsame
    by (exists []; rewrite app_nil_r; split; [done | right; constructor]).
  assert (forall w, exists l, signals (@id Worker w) = signals w ++ l /\ Forall (fun g => status_of g = None) l) as Hid
    by (intros w0; exists []; by rewrite app_nil_r).
  assert (forall i, exists new, signals (report_undelivered i w) = signals w ++ new /\ (existsb is_loss new = true \/ Forall (fun g => status_of g = None) new)) as Hrep.
  { intros i. destruct (report_signals i w) as (l & El & Hl). exists l. by split; [| right]. }
  destruct c; intros Hp Hn; try discriminate Hp; cbn [worker_step].
  1-9: unfold sendChatToRoom, sendPrivate, joinRoom, createRoom, sendRoomAction, requestUsers, requestRooms, requestHistory, sendAdminAction;
    match goal with |- context [if ?b then _ else _] => destruct b end; first
      [ done
      | split; [apply report_running | apply Hrep]
      | split; [apply hand_over_running; intros; apply report_running | apply hand_over_signals; intros; apply report_signals]
      | split; [by apply hand_over_running | by apply hand_over_signals] ].
  - unfold on_received. cbv zeta. set (w1 := if is_attachment_event _ then _ else w).
    assert (running_ w1 = running_ w /\ exists l, signals w1 = signals w ++ l /\ Forall (fun g => status_of g = None) l) as (Er & l & El & Hl).
    { unfold w1. destruct (is_attachment_event _); (split; [done |]).
      - eexists. split; [reflexivity | by repeat constructor].
      - exists []. by rewrite app_nil_r. }
    clearbody w1. destruct (String.eqb (type m) "history_response"); (split; [exact Er |]); eexists;
      (split; [cbn; rewrite El, <- app_assoc; reflexivity |]); right; (apply Forall_app; split; [done | by repeat constructor]).
  - by destruct (Hn reason).
Qed.

Lemma step_effect c w : (link_ready w = true -> can_reconnect w) ->
  exists new, signals (worker_step c w) = signals w ++ new /\ session_effect c w (worker_step c w) new.
Proof.
  intros Hw. destruct (passive c) eqn:Hp.
  - assert ((exists reason, c = WReceiveFailed reason) \/ (forall reason, c <> WReceiveFailed reason)) as [[reason ->] | Hn]
      by (destruct c; first [by right | left; by eexists]).
    + cbn [worker_step]. unfold on_receive_failed. destruct (running_ w) eqn:Er.
      * exists [ConnectionLost reason]. split; [done |]. apply silent_effect; try done. by left.
      * exists []. rewrite app_nil_r. split; [done |]. apply silent_effect; try done. right. by rewrite Er.
    + destruct (passive_signals c w Hp) as (Er & new & Es & Hnew); [done |].
      exists new. split; [exact Es |]. apply silent_effect; [by destruct c | done | by apply passive_link |]. destruct Hnew; auto.
  - destruct c; try discriminate Hp; cbn [worker_step].
    + apply connect_effect.
    + unfold connectToLocalHost, prepareLocalHost. cbv zeta. set (w1 := new_session _ w).
      assert (signals w1 = signals w /\ connection_ w1 = None /\ can_reconnect w1) as (Es1 & El1 & Hc1).
      { split_and!; [unfold w1, new_session, stopReceiveLoop; by destruct (running_ w) | done | done]. }
      clearbody w1. destruct (hostLocally _ _ _ _ _ _ _ _) as [h [attempts | reason]].
      * match goal with |- context [connectToServerWithRetries ?p ?l ?t ?n ?r ?x] => pose proof (retries_effect p l t n r x) as Hr; set (w2 := x) in * end.
        assert (signals w2 = signals w1 /\ connection_ w2 = connection_ w1 /\ can_reconnect w2) as (Es2 & El2 & Hc2) by done. clearbody w2.
        destruct (connectToServerWithRetries _ _ _ _ _ _) as [w' ok]. cbn [fst]. destruct Hr as (new & Es & Ev & Hr). exists new.
        split; [congruence |]. destruct ok; [| left; apply link_down; destruct Hr as [? | [? _]]; congruence].
        destruct Hr as (Hl & Hrun & pre & adm & En). right. split_and!; [by apply (can_reconnect_view w2) | done |]. left. by exists pre, adm.
      * exists [ConnectionFailed reason]. split; [cbn; by rewrite Es1 |]. left. by apply link_down.
    + exists [Disconnected]. split; [| by left]. unfold disconnectFromServer, stopReceiveLoop. cbv zeta. cbn. by destruct (running_ w).
    + destruct (schedule_effect w Hw) as (new & Es & El & _). exists new. split; [done | by left].
    + by apply timer_effect.
Qed.

End Session.

(** ** Both threads *)

Definition shown_after (c : bool) (gs : list signal) : bool := foldl (fun c g => default c (status_of g)) c gs.

Lemma shown_app c l l' : shown_after c (l ++ l') = shown_after (shown_after c l) l'.
Proof. apply foldl_app. Qed.

Lemma shown_silent c l : Forall (fun g => status_of g = None) l -> shown_after c l = c.
Proof. intros Hl. revert c. induction Hl as [| g l Hg _ IH]; intros c; cbn; [done |]. rewrite Hg. apply IH. Qed.

Definition is_schedule (o : output) : bool := match o with Invoke slot [] => String.eqb slot "scheduleReconnect" | _ => false end.
Definition is_disconnect (o : output) : bool := match o with Invoke slot [] => String.eqb slot "disconnectFromServer" | _ => false end.
Definition resets (o : output) : bool := is_disconnect o || is_schedule o.

Lemma call_of_resets env o c : call_of env o = Some c -> resets o = is_reset c.
Proof.
  intros E. unfold call_of in E. cbv zeta in E. open_call E; injection E as <-; try done;
    repeat match goal with F : String.eqb _ _ = true |- _ => apply String.eqb_eq in F; subst end; done.
Qed.

Lemma call_of_none_resets env o : call_of env o = None -> resets o = false.
Proof.
  destruct o as [slot [| arg args] | signal args]; try done. unfold call_of. cbv zeta. unfold resets, is_disconnect, is_schedule.
  destruct (String.eqb slot "disconnectFromServer"); [done |]. by destruct (String.eqb slot "scheduleReconnect").
Qed.

(** A session that is up can be restored; if its receive loop has ended, its loss
    is reported or its restoration asked for; and unless the session is about
    to end, the window shows it once the signals are taken. *)
Record session_inv (d : Desktop) : Prop := mk_session_inv {
  si_calls : (calls_taken d <= length (outs (gui d)))%nat;
  si_signals : (signals_taken d <= length (signals (worker d)))%nat;
  si_ready : link_ready (worker d) = true -> can_reconnect (worker d);
  si_stale : link_ready (worker d) = true -> running_ (worker d) = false ->
    existsb is_loss (pending_signals d) = true \/ existsb is_schedule (pending_calls d) = true;
  si_shown : link_ready (worker d) = true ->
    existsb resets (pending_calls d) = true \/ existsb is_loss (pending_signals d) = true \/
    shown_after (connected_ (gui d)) (pending_signals d) = true;
}.

Lemma schedule_resets l : existsb is_schedule l = true -> existsb resets l = true.
Proof.
  induction l as [| o l IH]; cbn [existsb]; [done |]. rewrite !orb_true_iff. unfold resets at 1. rewrite orb_true_iff. naive_solver.
Qed.

Lemma existsb_app_l {A} (p : A -> bool) l l' : existsb p l = true -> existsb p (l ++ l') = true.
Proof. intros Hl. by rewrite existsb_app, Hl. Qed.

(** The worker takes a step with the signals [new]; [calls] is what then waits. *)
Lemma worker_inv c d w' new d' :
  session_inv d -> signals w' = signals (worker d) ++ new -> session_effect c (worker d) w' new ->
  gui d' = gui d -> worker d' = w' -> signals_taken d' = signals_taken d -> (calls_taken d' <= length (outs (gui d)))%nat ->
  (existsb is_schedule (pending_calls d) = true -> is_reset c = true \/ existsb is_schedule (pending_calls d') = true) ->
  (existsb resets (pending_calls d) = true -> is_reset c = true \/ existsb resets (pending_calls d') = true) ->
  session_inv d'.
Proof.
  intros [I1 I2 I3 I4 I5] Es He Eg Ew Et Ec Hs Hr. assert (pending_signals d' = pending_signals d ++ new) as Ep.
  { unfold pending_signals. rewrite Ew, Et, Es, drop_app_le by done. done. }
  split; rewrite ?Ew, ?Eg, ?Ep.
  - done.
  - rewrite Et, Es, length_app. lia.
  - intros Hl. destruct He as [? | (? & _)]; [congruence | done].
  - intros Hl Hrun. destruct He as [? | (_ & Hc & [(pre & a & _ & ?) | [[_ ?] | [(Hl0 & Hrun0 & _) | (Hl0 & Hrun0 & _)]]])]; try congruence.
    + left. by rewrite existsb_app, orb_true_iff; right.
    + destruct (I4 Hl0) as [? | [? | ?]%Hs]; [congruence | left; by apply existsb_app_l | congruence | by right].
    + destruct (I4 Hl0 Hrun0) as [? | [? | ?]%Hs]; [left; by apply existsb_app_l | congruence | by right].
  - intros Hl. destruct He as [? | (_ & Hc & [(pre & a & -> & _) | [[_ ?] | [(Hl0 & Hrun0 & Hnew) | (Hl0 & Hrun0 & _)]]])]; [congruence | ..].
    + right. right. by rewrite !shown_app.
    + right. left. by rewrite existsb_app, orb_true_iff; right.
    + rewrite shown_app, (shown_silent _ new Hnew).
      destruct (I5 Hl0) as [[? | ?]%Hr | [? | ?]]; [congruence | by left | right; left; by apply existsb_app_l | by right; right].
    + destruct (I4 Hl0 Hrun0) as [? | [? | ?]%Hs]; [right; left; by apply existsb_app_l | congruence | left; by apply schedule_resets].
Qed.

(** The controller takes an event that leaves the shown status alone, or asks
    for the end of the session. *)
Lemma gui_inv d d' new : session_inv d -> outs (gui d') = outs (gui d) ++ new -> worker d' = worker d -> calls_taken d' = calls_taken d ->
  (signals_taken d' <= length (signals (worker d)))%nat ->
  (existsb is_loss (pending_signals d) = true -> existsb is_loss (pending_signals d') = true \/ existsb is_schedule new = true) ->
  (existsb resets new = true \/ shown_after (connected_ (gui d')) (pending_signals d') = shown_after (connected_ (gui d)) (pending_signals d)) ->
  session_inv d'.
Proof.
  intros [I1 I2 I3 I4 I5] Eo Ew Ec Es Hl Hsh. assert (pending_calls d' = pending_calls d ++ new) as Ep.
  { unfold pending_calls. by rewrite Ec, Eo, drop_app_le. }
  split; rewrite ?Ew, ?Ep.
  - rewrite Ec, Eo, length_app. lia.
  - done.
  - done.
  - intros Hr Hrun. rewrite existsb_app, orb_true_iff. destruct (I4 Hr Hrun) as [[? | ?]%Hl | ?]; auto.
  - intros Hr. rewrite existsb_app, orb_true_iff. destruct (I5 Hr) as [? | [[? | ?%schedule_resets]%Hl | Hs]]; auto.
    destruct Hsh as [? | ->]; auto.
Qed.

Section Shown.
  Context `{QtText} `{GuiEnv}.

Definition grows (s s' : State) : Prop := exists l, outs s' = outs s ++ l.

Lemma grows_refl s : grows s s.
Proof. exists []. by rewrite app_nil_r. Qed.

Lemma grows_emit s s' t g args : outs t = outs s' -> grows s s' -> grows s (emit g args t).
Proof. intros Et [l El]. exists (l ++ [Emit g args]). unfold emit. cbn. by rewrite Et, El, app_assoc. Qed.

Lemma grows_setStatus t s s' : grows s s' -> grows s (setStatus t s').
Proof. intros Hs. unfold setStatus. destruct (String.eqb _ _); [done |]. by apply (grows_emit _ s'). Qed.

Lemma lost_asks reason s new : outs (handleConnectionLost reason s) = outs s ++ new -> existsb is_schedule new = true.
Proof.
  unfold handleConnectionLost. cbv zeta. set (s0 := emit "connectedChanged" [] _). set (s1 := if reconnecting_ s0 then s0 else _).
  assert (grows s s1) as P1.
  { assert (grows s s0) as P0 by (apply (grows_emit _ s); [reflexivity | apply grows_refl]). unfold s1. clearbody s0.
    destruct (reconnecting_ s0); [done | by apply (grows_emit _ s0)]. }
  clearbody s1. set (t := if is_empty reason then _ else _). destruct (grows_setStatus t s s1 P1) as [l El]. generalize dependent (setStatus t s1).
  intros s2 El E. cbn in E. rewrite El in E. rewrite <- !app_assoc in E. apply app_inv_head in E. rewrite <- E.
  by rewrite existsb_app, orb_true_iff; right.
Qed.

Lemma disconnect_gui s : exists l, outs (Controller.disconnectFromServer s) = outs s ++ Invoke "disconnectFromServer" [] :: l.
Proof.
  unfold Controller.disconnectFromServer. cbv zeta. set (s0 := invoke _ _ _). set (s1 := if connected_ s0 then _ else s0).
  assert (outs s0 = outs s ++ [Invoke "disconnectFromServer" []]) as E0 by done.
  assert (grows s0 s1) as P1 by (unfold s1; destruct (connected_ s0); [apply (grows_emit _ s0); [reflexivity |] |]; apply grows_refl).
  clearbody s1 s0. destruct (grows_setStatus "未连接" s0 s1 P1) as [l El]. exists l. by rewrite El, E0, <- app_assoc.
Qed.

Lemma disconnect_asks s new : outs (Controller.disconnectFromServer s) = outs s ++ new -> existsb resets new = true.
Proof. destruct (disconnect_gui s) as [l ->]. intros E%app_inv_head. by rewrite <- E. Qed.

Lemma event_of_status now g : default None (event_status <$> event_of now g) = status_of g.
Proof. by destruct g. Qed.

Lemma session_inv_signal now d g : signals (worker d) !! signals_taken d = Some g -> session_inv d -> session_inv (desktop_step (DSignal now) d).
Proof.
  intros Eg Hd. cbn [desktop_step]. rewrite Eg. set (f := match event_of now g with Some e => handle e | None => id end).
  set (d' := d <| gui ::= f |> <| signals_taken ::= S |>). pose proof (lookup_lt_Some _ _ _ Eg) as Hlt.
  assert (pending_signals d = g :: pending_signals d') as Ep by (unfold pending_signals; by apply drop_S).
  assert (exists new, outs (f (gui d)) = outs (gui d) ++ new /\ (is_loss g = true -> existsb is_schedule new = true)) as (new & Eo & Hl).
  { destruct (event_of now g) as [e |] eqn:Ee; subst f.
    - destruct (handle_outs e (gui d)) as [new En]. exists new. split; [exact En |]. destruct g; try done. injection Ee as <-. intros _.
      by apply (lost_asks reason (gui d)).
    - exists []. rewrite app_nil_r. split; [done |]. by destruct g. }
  apply (gui_inv d d' new Hd Eo); [done | done | exact Hlt | |].
  - rewrite Ep. cbn [existsb]. rewrite orb_true_iff. intros [Hg | Hp]; [right; by apply Hl | by left].
  - right. rewrite Ep. cbn [shown_after foldl]. fold (shown_after (default (connected_ (gui d)) (status_of g)) (pending_signals d')).
    f_equal. change (connected_ (gui d')) with (connected_ (f (gui d))). rewrite <- (event_of_status now g). subst f.
    destruct (event_of now g) as [e |]; [| done]. cbn. apply handle_connected.
Qed.

Lemma session_inv_step e d : session_inv d -> session_inv (desktop_step e d).
Proof.
  intros Hd. destruct e as [e | env | c | now].
  - cbn [desktop_step]. destruct (user_event e) eqn:Eu; [| done]. destruct (handle_outs e (gui d)) as [new En].
    assert (gui (d <| gui ::= handle e |>) = handle e (gui d)) as Eg by reflexivity.
    apply (gui_inv d (d <| gui ::= handle e |>) new Hd); [by rewrite Eg | done | done | apply Hd | by left |].
    assert (event_status e = None \/ e = EvDisconnect) as [Es | ->] by (destruct e; try done; auto).
    + right. f_equal. by rewrite Eg, handle_connected, Es.
    + left. by apply (disconnect_asks (gui d)).
  - cbn [desktop_step]. destruct (outs (gui d) !! calls_taken d) as [o |] eqn:Eo; [| done].
    set (d' := d <| worker ::= run_slot env o |> <| calls_taken ::= S |>). pose proof (lookup_lt_Some _ _ _ Eo) as Hlt.
    assert (pending_calls d = o :: pending_calls d') as Ep by (unfold pending_calls; by apply drop_S).
    assert (exists c new, signals (run_slot env o (worker d)) = signals (worker d) ++ new /\
              session_effect c (worker d) (run_slot env o (worker d)) new /\ is_reset c = resets o) as (c & new & Es & He & Hc).
    { unfold run_slot. destruct (call_of env o) as [c |] eqn:Ec.
      - destruct (step_effect c (worker d) (si_ready _ Hd)) as (new & Es & He). exists c, new. split_and!; [done | done | by rewrite (call_of_resets _ _ _ Ec)].
      - rewrite (call_of_none_resets _ _ Ec). exists (WReceiveFailed ""). destruct o as [slot args | signal args].
        + exists (List.filter is_side (se_side env)). split_and!; [done | | done]. apply silent_effect; [done | apply Hd | done |].
          induction (se_side env) as [| g gs IH]; [right; by split |]. cbn [List.filter]. destruct (is_side g) eqn:Eg; [| exact IH].
          cbn [existsb]. destruct (is_loss g) eqn:El; [by left |]. destruct IH as [? | [? ?]]; [by left | right; split; [done |]].
          constructor; [by destruct g | done].
        + exists []. rewrite app_nil_r. split_and!; [done | | done]. apply silent_effect; [done | apply Hd | done | right; by split]. }
    apply (worker_inv c d _ new d' Hd Es He); [done | done | done | exact Hlt | |]; rewrite Ep, Hc; cbn [existsb]; rewrite orb_true_iff.
    + intros [Ho | ?]; [left; unfold resets; by rewrite Ho, orb_true_r | by right].
    + done.
  - cbn [desktop_step]. destruct (own_call c); [| done]. destruct (step_effect c (worker d) (si_ready _ Hd)) as (new & Es & He).
    apply (worker_inv c d _ new _ Hd Es He); try done; [apply Hd | by right | by right].
  - destruct (signals (worker d) !! signals_taken d) as [g |] eqn:Eg; [by eapply session_inv_signal |]. cbn [desktop_step]. by rewrite Eg.
Qed.

Lemma session_inv_reachable saved es : session_inv (run_desktop es (initial_desktop saved)).
Proof.
  assert (session_inv (initial_desktop saved)) as Hi by by split. revert Hi. generalize (initial_desktop saved).
  induction es as [| e es IH]; intros d Hd; [done |]. by apply IH, session_inv_step.
Qed.

Lemma session_shown saved es :
  let d := run_desktop es (initial_desktop saved) in
  quiescent d -> link_ready (worker d) = true ->
  connected_ (gui d) = true /\ running_ (worker d) = true /\ can_reconnect (worker d).
Proof.
  cbv zeta. pose proof (session_inv_reachable saved es) as Hi. revert Hi. generalize (run_desktop es (initial_desktop saved)). intros d [I1 I2 I3 I4 I5] [Ec Es] Hl. rewrite Ec, Es in *.
  split_and!; [by destruct (I5 Hl) as [? | [? | ?]] | | by apply I3].
  destruct (running_ (worker d)) eqn:Er; [done |]. by destruct (I4 Hl eq_refl).
Qed.

(** C6: once nothing is waiting between the two threads, a session that is up is
    shown as connected, and it can be restored when it is lost, whatever the
    user, the network and the timers did in whatever order. *)
Theorem live_session_shown saved es :
  let d := run_desktop es (initial_desktop saved) in
  quiescent d -> link_ready (worker d) = true ->
  connected_ (gui d) = true /\ running_ (worker d) = true /\ can_reconnect (worker d).
Proof. apply session_shown. Qed.

Lemma disconnect_worker stop w : let w' := disconnectFromServer stop w in
  signals w' = signals w ++ [Disconnected] /\ connection_ w' = None /\ explicitDisconnect_ w' = true.
Proof. unfold disconnectFromServer, stopReceiveLoop. cbv zeta. cbn. by destruct (running_ w). Qed.

Lemma late_login_step d a env now now' :
  session_inv d -> pending_calls d = [] -> pending_signals d = [Connected a] ->
  let d' := run_desktop [DUser EvDisconnect; DCall env; DSignal now; DSignal now'] d in
  connected_ (gui d') = true /\ pending_signals d' = [] /\ connection_ (worker d') = None /\ explicitDisconnect_ (worker d') = true.
Proof.
  intros [I1 I2 _ _ _] Ec Es. cbv zeta. unfold run_desktop. cbn [foldl]. apply drop_nil_inv in Ec. apply (Nat.le_antisymm _ _ I1) in Ec.
  destruct (disconnect_gui (gui d)) as [l El]. destruct (disconnect_worker (se_stop env) (worker d)) as (E1 & E2 & E3).
  set (s1 := Controller.disconnectFromServer (gui d)) in *. set (w1 := disconnectFromServer (se_stop env) (worker d)) in *.
  assert (desktop_step (DUser EvDisconnect) d = mk_desktop s1 (worker d) (calls_taken d) (signals_taken d)) as -> by reflexivity.
  assert (desktop_step (DCall env) (mk_desktop s1 (worker d) (calls_taken d) (signals_taken d)) =
    mk_desktop s1 w1 (S (calls_taken d)) (signals_taken d)) as ->.
  { cbn [desktop_step gui calls_taken]. by rewrite El, Ec, list_lookup_middle. }
  assert (signals w1 = take (signals_taken d) (signals (worker d)) ++ [Connected a; Disconnected]) as Ew.
  { rewrite E1, <- (take_drop (signals_taken d) (signals (worker d))) at 1. fold (pending_signals d). by rewrite Es, <- app_assoc. }
  assert (length (take (signals_taken d) (signals (worker d))) = signals_taken d) as Et by (rewrite length_take; lia).
  set (s2 := handle (EvConnected a) s1). clearbody w1 s1. set (n := signals_taken d) in *. set (ks := S (calls_taken d)).
  assert (desktop_step (DSignal now) (mk_desktop s1 w1 ks n) = mk_desktop s2 w1 ks (S n)) as ->.
  { cbn [desktop_step worker signals_taken]. by rewrite Ew, <- Et, list_lookup_middle at 1. }
  assert (desktop_step (DSignal now') (mk_desktop s2 w1 ks (S n)) = mk_desktop s2 w1 ks (S (S n))) as ->.
  { cbn [desktop_step worker signals_taken]. rewrite Ew, lookup_app_r, Et by lia. by replace (S n - n)%nat with 1%nat by lia. }
  split_and!; [exact (handle_connected (EvConnected a) s1) | | exact E2 | exact E3].
  unfold pending_signals. cbn [worker signals_taken]. rewrite Ew. apply drop_ge. rewrite length_app, Et. cbn. lia.
Qed.

(** C30: the user disconnects while the report of a login is still waiting.  The
    worker ends the session, but the report reaches the window after the user's
    request, and nothing takes it back, since the constructor connects no
    handler to the worker's disconnected(): every signal has been taken, the
    window shows a session, and there is none, nor will the worker restore it. *)
Theorem late_login_shown saved es a env now now' :
  let d := run_desktop es (initial_desktop saved) in
  pending_calls d = [] -> pending_signals d = [Connected a] ->
  let d' := run_desktop [DUser EvDisconnect; DCall env; DSignal now; DSignal now'] d in
  connected_ (gui d') = true /\ pending_signals d' = [] /\ connection_ (worker d') = None /\ explicitDisconnect_ (worker d') = true.
Proof. intros d. apply late_login_step, session_inv_reachable. Qed.

End Shown.

(** ** Witnesses *)

Lemma run_desktop_app `{QtText} `{GuiEnv} es es' d : run_desktop (es ++ es') d = run_desktop es' (run_desktop es d).
Proof. apply foldl_app. Qed.

Lemma live_session_shown_witness :
  let d := run_desktop ex_chat_session (initial_desktop []) in
  connected_ (gui d) = true /\ running_ (worker d) = true /\ sent_chats (worker d) = [typed_message false "hi" "lobby" "m1"].
Proof.
  cbv zeta. destruct (live_session_shown [] ex_chat_session) as (E1 & E2 & _).
  - split; vm_compute; reflexivity.
  - vm_compute. reflexivity.
  - split; [exact E1 |]. split; [exact E2 |]. vm_compute. reflexivity.
Defined.

Lemma late_login_shown_witness :
  let d := run_desktop (ex_login ++ [DUser EvDisconnect; DCall ex_slot; DSignal "09:30"; DSignal "09:30"]) (initial_desktop []) in
  connected_ (gui d) = true /\ connection_ (worker d) = None.
Proof.
  cbv zeta. rewrite run_desktop_app.
  destruct (late_login_shown [] ex_login false ex_slot "09:30" "09:30") as (E1 & _ & E2 & _).
  - vm_compute. reflexivity.
  - vm_compute. reflexivity.
  - split; [exact E1 | exact E2].
Defined.
