(* ===== verification/GuiClient.v ===== *)
(** * GuiClient: the graphical client as a whole

    The page, the bridge, the controller and the worker together: [Bridge] with
    its controller in the thread of the user interface, [Worker] in its own, and
    between them the queues of [Desktop].  The commands of the page go down to
    the worker, its signals come up to the text that the page is given.  The
    client refines [Desktop], so that what is proved of every interleaving of
    the two threads holds here; together with the freshness of the published
    state, the page shows what the worker does. *)

From S2P Require Import Prelude Text Protocol Json JsonCodecInstance ChatModel Conversations Controller ControllerInvariant Message LocalHost Worker.
From S2P Require Import Crypto Manifest Discovery Performance Diagnostics HostSetup BridgeProtocol Bridge BridgeState BridgeCommands Desktop DesktopSession.

Record GuiClient := mk_gui_client {
  bridge : Bridge;
  net : Worker;
  calls_run : nat;
  signals_run : nat;
}.

#[export] Instance eta_GuiClient : EtaRecord GuiClient := fun c =>
  {| bridge := bridge c; net := net c; calls_run := calls_run c; signals_run := signals_run c |}.

(** The controller and the worker of a client. *)
Definition desktop_of (c : GuiClient) : Desktop := mk_desktop (controller (bridge c)) (net c) (calls_run c) (signals_run c).

(** What happens to the client from outside, or by its threads. *)
Inductive gui_event :=
  | GPage (env : dispatch_env) (commandJson : string)     (* the page calls dispatch *)
  | GStateTimer
  | GRefreshTimer
  | GDiscovery (c : discovery_call)
  | GScreen (s : option screen)
  | GCall (env : slot_env)
  | GOwn (c : worker_call)
  | GSignal (now : string).

Section Steps.
  Context `{QtText} `{GuiEnv} `{CryptoLib} `{QtJson} `{LanLib} `{BridgeEnv}.

(** A signal of the worker, as it reaches the bridge: the controller passes the
    attachment and MLS reports on before it handles them itself. *)
Definition bridge_events_of (now : string) (g : signal) : list bridge_event :=
  match g with
  | AttachmentEvent t a u c cs ci ciphertext sha e r content n => [BAttachment t a u c cs ci (to_base64 (bytes_of ciphertext)) sha e r content n]
  | MlsCommandResult c ok code message => [BMlsResult c ok code message]
  | _ => []
  end ++ match event_of now g with Some e => [BControl e] | None => [] end.

(** What an event does to the bridge. *)
Definition bridge_part (e : gui_event) (c : GuiClient) : list bridge_event :=
  match e with
  | GPage env commandJson => [BDispatch env commandJson]
  | GStateTimer => [BStateTimer]
  | GRefreshTimer => [BControl EvRefresh]
  | GDiscovery d => [BDiscovery d]
  | GScreen s => [BScreen s]
  | GCall _ | GOwn _ => []
  | GSignal now => match signals (net c) !! signals_run c with Some g => bridge_events_of now g | None => [] end
  end.

Definition gui_step (e : gui_event) (c : GuiClient) : GuiClient :=
  let c' := c <| bridge ::= run_bridge (bridge_part e c) |> in
  match e with
  | GCall env =>
      match outs (controller (bridge c)) !! calls_run c with
      | Some o => c' <| net ::= run_slot env o |> <| calls_run ::= S |>
      | None => c'
      end
  | GOwn w => if own_call w then c' <| net ::= worker_step w |> else c'
  | GSignal _ => match signals (net c) !! signals_run c with Some _ => c' <| signals_run ::= S |> | None => c' end
  | _ => c'
  end.

Definition run_gui (es : list gui_event) (c : GuiClient) : GuiClient := foldl (fun c e => gui_step e c) c es.

(** Everything that reaches the bridge in a run. *)
Fixpoint bridge_trace (es : list gui_event) (c : GuiClient) : list bridge_event :=
  match es with
  | [] => []
  | e :: es => bridge_part e c ++ bridge_trace es (gui_step e c)
  end.

(** The start of the program, by [main]. *)
Definition start_gui (saved : row) (stored : option string) (s : option screen) (logging : bool)
    (serverExe certFile keyFile dbFile : string) (hostAvailable : bool) (hostUnavailableMessage : string) : GuiClient :=
  mk_gui_client (start_bridge saved stored s logging serverExe certFile keyFile dbFile hostAvailable hostUnavailableMessage) initial_worker 0 0.

End Steps.

(** ** The client refines its two threads *)

Section Refinement.
  Context `{QtText} `{GuiEnv} `{CryptoLib} `{QtJson} `{LanLib} `{BridgeEnv}.

(** *** What the commands of the page mean *)

(** The call on the controller that each command stands for, with the texts and
    numbers of its payload; [path] is what a file dialog returned. *)
Definition command_calls (env : dispatch_env) (commandId : string) (payload : row) : list (string * event) :=
  let text k := toString (obj_get k payload) in
  let path := de_filePath env in
  [("session.connectRemote",
      EvConnect (text "serverIp") (toInt (obj_get "serverPort" payload)) (text "username") (text "userCode") (text "caFile")
        (if String.eqb (text "tlsServerName") "localhost" then "localhost" else ""));
   ("session.connectLocalHost",
      EvConnectLocal (text "serverExe") (text "certFile") (text "keyFile") (text "dbFile") (text "username") (text "userCode"));
   ("session.disconnect", EvDisconnect);
   ("chat.sendRoom", EvSendRoom (de_uuid env) (de_time env) (text "content") (text "room"));
   ("chat.sendPrivate", EvSendPrivate (de_uuid env) (de_time env) (text "content") (text "targetUserCode"));
   ("history.search", EvSearch (text "query"));
   ("conversation.selectRoom", EvSelectRoom (text "room"));
   ("conversation.selectDirect", EvSelectDirect (text "userCode"));
   ("conversation.openPrivate", EvOpenPrivate (text "displayName") (text "userCode"));
   ("directory.refreshUsers", EvRequestUsers);
   ("directory.refreshRooms", EvRequestRooms);
   ("room.create", EvCreateRoom (text "room") (toBool (obj_get "isPrivate" payload)));
   ("room.action", EvRoomAction (text "action") (text "room") (text "targetUserCode"));
   ("admin.action", EvAdminAction (text "action") (text "targetUserCode") (text "messageId"));
   ("message.removeLocal", EvRemoveLocal (text "messageId"));
   ("message.retry", EvRetry (text "messageId"));
   ("mls.keyPackage.fetch", EvForward (FetchMlsKeyPackage (text "room") (text "targetUserCode") commandId));
   ("mls.group.add", EvForward (AddMlsMember (text "room") (text "groupId") (text "targetUserCode") commandId));
   ("mls.group.remove", EvForward (RemoveMlsMember (text "room") (text "groupId") (text "targetUserCode") commandId));
   ("attachment.init", EvForward (SendAttachmentInit (text "room") (toInteger (obj_get "logicalSize" payload)) commandId));
   ("attachment.chunk",
      EvForward (SendAttachmentChunk (text "uploadId") (toInteger (obj_get "chunkIndex" payload)) (text_of (from_base64 (text "ciphertext")))
                   (text "cipherSha256") commandId));
   ("attachment.resume", EvForward (ResumeAttachment (text "uploadId") commandId));
   ("attachment.commit", EvForward (SendAttachmentCommit (text "uploadId") commandId));
   ("attachment.chooseUpload", EvChooseUpload path (text "room") commandId);
   ("attachment.download", EvDownload path (text "attachmentId") commandId)].

(** A room that was announced is connected to at its address, with the
    certificate that was stored for it and the name localhost. *)
Definition discovered_call (env : dispatch_env) (payload : row) (b : Bridge) : option event :=
  match connectData (toString (obj_get "hostId" payload)) (de_clock env) (discovery b) with
  | Ok host =>
      match persistCertificate be_storageRoot (de_made env) (de_saved env) host with
      | Ok stored =>
          Some (EvConnect (dh_serverIp host) (dh_serverPort host) (toString (obj_get "username" payload)) (toString (obj_get "userCode" payload))
                  stored.1 "localhost")
      | Fail _ => None
      end
  | Fail _ => None
  end.

(** The call of a command; a recall is made when it is allowed. *)
Definition command_call (env : dispatch_env) (commandId type : string) (payload : row) (b : Bridge) : option event :=
  if String.eqb type "session.connectDiscoveredHost" then discovered_call env payload b
  else if String.eqb type "message.recall" then
    let messageId := toString (obj_get "messageId" payload) in
    if canRecallMessage messageId (controller b) then Some (EvRecall messageId commandId) else None
  else snd <$> List.find (fun entry => String.eqb type entry.1) (command_calls env commandId payload).

(** What the page asks of the controller: nothing by a text that is no valid command. *)
Definition page_call (env : dispatch_env) (commandJson : string) (b : Bridge) : option event :=
  match qt_fromJson commandJson with
  | Some (JObj command) =>
      if (validateCommand command).1
      then command_call env (toString (obj_get "id" command)) (toString (obj_get "type" command)) (toObject (obj_get "payload" command)) b
      else None
  | _ => None
  end.

(** The part of an event that concerns the two threads. *)
Definition desktop_part (e : gui_event) (c : GuiClient) : list desktop_event :=
  match e with
  | GPage env commandJson => match page_call env commandJson (bridge c) with Some u => [DUser u] | None => [] end
  | GRefreshTimer => [DUser EvRefresh]
  | GCall env => [DCall env]
  | GOwn w => [DOwn w]
  | GSignal now => [DSignal now]
  | GStateTimer | GDiscovery _ | GScreen _ => []
  end.

Fixpoint desktop_trace (es : list gui_event) (c : GuiClient) : list desktop_event :=
  match es with
  | [] => []
  | e :: es => desktop_part e c ++ desktop_trace es (gui_step e c)
  end.

(** *** The bridge makes that call *)

Definition called (u : option event) (b b' : Bridge) : Prop := controller b' = from_option handle id u (controller b).

Lemma called_none b b' : controller b' = controller b -> called None b b'.
Proof. done. Qed.

Lemma called_control e b b' : controller b' = controller b -> called (Some e) b (control e b').
Proof. intros Eb. unfold called. cbn [from_option]. by rewrite control_controller, Eb. Qed.

Lemma called_frame u b b' b'' : controller b'' = controller b' -> called u b b' -> called u b b''.
Proof. unfold called. by intros ->. Qed.

Lemma called_done u id b b' : called u b b' -> called u b (done_with id b').
Proof. by apply called_frame. Qed.

Lemma called_schedule u b b' : called u b b' -> called u b (scheduleStateUpdate b').
Proof. by apply called_frame. Qed.

Lemma adapt_controller c b : controller (adapt c b) = controller b.
Proof. unfold adapt. destruct (profile b); [| done]. cbv zeta. by destruct (existsb _ _). Qed.

Lemma frames_controller l b : controller (foldl (fun b v => adapt (PFrame (toDouble v)) b) b l) = controller b.
Proof. revert b. induction l as [| v l IH]; intros b; [done |]. cbn [foldl]. by rewrite IH, adapt_controller. Qed.

Lemma discover_controller c b : controller (discover c b) = controller b.
Proof. unfold discover. cbv zeta. by destruct (_ <? _)%nat. Qed.

(** Looks a command up in the table. *)
Ltac find_call :=
  unfold command_call; cbn [String.eqb Ascii.eqb Bool.eqb command_calls List.find fst snd fmap option_fmap option_map].

Lemma execute_called env id type payload b : called (command_call env id type payload b) b (execute env id type payload b).
Proof.
  unfold execute. cbv zeta.
  repeat match goal with |- called _ _ (if String.eqb type ?t then _ else _) =>
    let E := fresh "E" in destruct (String.eqb type t) eqn:E; [apply String.eqb_eq in E; subst type; find_call |] end.
  all: try (first [apply called_done | apply called_schedule | idtac]; first [by apply called_control | by apply called_none]; fail).
  - destruct (String.eqb (toString (obj_get "tlsServerName" payload)) "localhost") eqn:E; [apply String.eqb_eq in E; rewrite E |];
      apply called_done; by apply called_control.
  - unfold discoverLanHosts. cbv zeta. pose proof (discover_controller (DRefresh (de_prepared env) (de_bound env) (de_clock env)) b) as Ed.
    destruct (refresh _ _ _ _).2; by apply called_none.
  - unfold connectDiscoveredHost, discovered_call. cbv zeta. destruct (connectData _ _ _) as [host | error]; [| by apply called_none].
    destruct (persistCertificate _ _ _ _) as [[path pem] | error]; [| by apply called_none]. apply called_done. by apply called_control.
  - unfold recall, recallMessage. destruct (canRecallMessage _ _); cbn [snd]; [apply called_schedule; by apply called_control | by apply called_none].
  - destruct (profile b); [| by apply called_none]. apply called_none. exact (adapt_controller _ b).
  - destruct (profile b); [| by apply called_none]. apply called_none. exact (frames_controller _ b).
  - unfold command_call, command_calls. cbn [List.find fst]. repeat match goal with E : String.eqb type _ = false |- _ => rewrite E; clear E end.
    by apply called_none.
Qed.

Lemma command_calls_user env id payload : Forall (fun entry => user_event entry.2 = true) (command_calls env id payload).
Proof. repeat constructor. Qed.

Lemma command_call_user env id type payload b e : command_call env id type payload b = Some e -> user_event e = true.
Proof.
  unfold command_call, discovered_call. destruct (String.eqb _ _).
  { destruct (connectData _ _ _) as [host | error]; [| done]. destruct (persistCertificate _ _ _ _) as [[path pem] | error]; [| done]. by intros [= <-]. }
  destruct (String.eqb _ _). { destruct (canRecallMessage _ _); [by intros [= <-] | done]. }
  destruct (List.find _ _) as [entry |] eqn:E; [| done]. intros [= <-]. apply List.find_some in E as [Hin _].
  apply list_elem_of_In in Hin. exact (proj1 (Forall_forall _ _) (command_calls_user env id payload) _ Hin).
Qed.

Lemma dispatch_called env text b : called (page_call env text b) b (dispatch env text b).
Proof.
  unfold dispatch, page_call. destruct (qt_fromJson text) as [[] |]; try by apply called_none. cbv zeta.
  destruct (validateCommand _) as [[] code]; cbn [negb fst]; [apply execute_called | by apply called_none].
Qed.

Lemma page_call_user env text b e : page_call env text b = Some e -> user_event e = true.
Proof.
  unfold page_call. destruct (qt_fromJson text) as [[] |]; try done. destruct (validateCommand _).1; [apply command_call_user | done].
Qed.

Lemma publish_controller b : controller (bridge_step BStateTimer b) = controller b.
Proof. cbn [bridge_step]. by destruct (stateTimer_ b). Qed.

Lemma screen_controller s b : controller (bridge_step (BScreen s) b) = controller b.
Proof. cbn [bridge_step]. unfold refresh_screen. destruct (graphics b); [| done]. cbv zeta. exact (adapt_controller _ _). Qed.

Lemma signal_controller now g b :
  controller (run_bridge (bridge_events_of now g) b) = match event_of now g with Some e => handle e | None => id end (controller b).
Proof.
  destruct g; cbn [bridge_events_of event_of app]; unfold run_bridge; cbn [foldl bridge_step]; rewrite ?control_controller; try done.
  unfold on_mls_result. by destruct (is_empty _).
Qed.

(** A step of the client is the step of its threads that its event stands for. *)
Lemma gui_step_desktop e c : desktop_of (gui_step e c) = run_desktop (desktop_part e c) (desktop_of c).
Proof.
  assert (forall c', controller (bridge c') = controller (bridge c) -> net c' = net c -> calls_run c' = calls_run c -> signals_run c' = signals_run c ->
    desktop_of c' = desktop_of c) as Hsame.
  { intros c' E1 E2 E3 E4. unfold desktop_of. by rewrite E1, E2, E3, E4. }
  destruct e as [env text | | | d | s | env | w | now]; unfold gui_step; cbn [bridge_part desktop_part].
  - pose proof (dispatch_called env text (bridge c)) as Hc. unfold called in Hc.
    destruct (page_call env text (bridge c)) as [u |] eqn:Eu; cbn [from_option] in Hc; [| by apply Hsame].
    apply page_call_user in Eu. unfold desktop_of, run_desktop. cbn [foldl desktop_step]. rewrite Eu.
    change (controller (bridge (c <| bridge ::= run_bridge [BDispatch env text] |>))) with (controller (dispatch env text (bridge c))). by rewrite Hc.
  - apply Hsame; [exact (publish_controller (bridge c)) | done ..].
  - unfold desktop_of, run_desktop. cbn [foldl desktop_step user_event].
    change (controller (bridge (c <| bridge ::= run_bridge [BControl EvRefresh] |>))) with (controller (control EvRefresh (bridge c))).
    by rewrite control_controller.
  - apply Hsame; [exact (discover_controller d (bridge c)) | done ..].
  - apply Hsame; [exact (screen_controller s (bridge c)) | done ..].
  - unfold run_desktop. cbn [foldl desktop_step desktop_of gui calls_taken].
    destruct (outs (controller (bridge c)) !! calls_run c) as [o |] eqn:Eo; [done | by apply Hsame].
  - unfold run_desktop. cbn [foldl desktop_step]. destruct (own_call w) eqn:Ew; [done | by apply Hsame].
  - unfold run_desktop. cbn [foldl desktop_step desktop_of worker signals_taken].
    destruct (signals (net c) !! signals_run c) as [g |] eqn:Eg; [| by apply Hsame]. unfold desktop_of.
    assert (controller (bridge (c <| bridge ::= run_bridge (bridge_events_of now g) |> <| signals_run ::= S |>)) =
      controller (run_bridge (bridge_events_of now g) (bridge c))) as -> by reflexivity.
    by rewrite signal_controller.
Qed.

Lemma run_gui_desktop es c : desktop_of (run_gui es c) = run_desktop (desktop_trace es c) (desktop_of c).
Proof.
  revert c. induction es as [| e es IH]; intros c; [done |]. cbn [run_gui foldl desktop_trace]. fold (run_gui es (gui_step e c)).
  by rewrite IH, run_desktop_app, gui_step_desktop.
Qed.

Lemma connectModel_controller r d b : controller (connectModel r d b) = controller b.
Proof. unfold connectModel, markModelDirty. destruct (decide _); [done |]. by destruct d. Qed.

Lemma rebuild_controller b : controller (rebuildStateSnapshot b) = controller b.
Proof. done. Qed.

Lemma defaults_controller a b c d e f br : controller (setHostDefaults a b c d e f br) = controller br.
Proof. done. Qed.

Lemma new_bridge_controller s p g logging : controller (new_bridge s p g logging) = s.
Proof.
  unfold new_bridge. cbv zeta. set (b := mk_bridge s _ _ _ _ _ _ _ _ _ _ _ _ _ _ _ _).
  by rewrite rebuild_controller, !connectModel_controller.
Qed.

Lemma start_desktop saved stored s logging a b c d available reason :
  desktop_of (start_gui saved stored s logging a b c d available reason) =
  run_desktop [DUser (EvBundledCa (if available then b else ""))] (initial_desktop saved).
Proof.
  unfold start_gui, start_bridge, desktop_of. cbv zeta. cbn [bridge net calls_run signals_run].
  by rewrite defaults_controller, new_bridge_controller.
Qed.

(** C13: the graphical client does what the page, the network and the timers ask
    of it, and nothing else.  Over any run its controller and its worker are in
    exactly the state that the two threads of [Desktop] reach from their start
    by the run that the events spell out: a valid command of the page is the one
    call on the controller that the table [command_call] gives for its type, with
    the fields of its payload (a room that was announced is connected to with
    its stored certificate, a recall is made when it is allowed), every other
    text and every command of the settings, of the diagnostics and of the
    discovery is none, and calls, signals and timers are taken as they come. *)
Theorem client_refines_desktop saved stored s logging a b c d available reason es :
  let c0 := start_gui saved stored s logging a b c d available reason in
  desktop_of (run_gui es c0) =
  run_desktop (DUser (EvBundledCa (if available then b else "")) :: desktop_trace es c0) (initial_desktop saved).
Proof.
  cbv zeta. rewrite run_gui_desktop, start_desktop. generalize (desktop_trace es (start_gui saved stored s logging a b c d available reason)).
  intros ds. by rewrite <- run_desktop_app.
Qed.

End Refinement.

(** ** What the page is told *)

Section Told.
  Context `{QtText} `{GuiEnv} `{CryptoLib} `{QtJson} `{LanLaws} `{BridgeEnv}.

Lemma run_gui_bridge es c : bridge (run_gui es c) = run_bridge (bridge_trace es c) (bridge c).
Proof.
  revert c. induction es as [| e es IH]; intros c; [done |]. cbn [run_gui foldl bridge_trace]. fold (run_gui es (gui_step e c)).
  rewrite IH. unfold run_bridge. rewrite foldl_app. f_equal. unfold gui_step. cbv zeta. destruct e as [| | | | | env | w | now]; try done.
  - by destruct (_ !! _).
  - by destruct (own_call w).
  - by destruct (signals (net c) !! signals_run c).
Qed.

(** The connection that the published state shows. *)
Definition shown_connection (state : row) : option json := match obj_get "connection" state with Some (JObj connection) => obj_get "phase" connection | _ => None end.

Definition shown_page (state : row) : option json := match obj_get "navigation" state with Some (JObj navigation) => obj_get "page" navigation | _ => None end.

Lemma obj_field k fields : NoDup (map fst fields) -> obj_get k (obj fields) = field_of k (map (fun kv => (kv.1, Some kv.2)) fields).
Proof. intros Hn. apply obj_get_build. by rewrite map_map. Qed.

Lemma state_shows_connection f b : shown_connection (state_object f b) = Some (JStr (connection_phase b)).
Proof.
  unfold shown_connection, state_object. cbv zeta. rewrite obj_field by (cbn; apply (bool_decide_unpack _); vm_compute; exact I).
  cbn [field_of map fst snd]. cbn [String.eqb Ascii.eqb Bool.eqb]. unfold connection_object. cbv zeta.
  destruct (negb _); [rewrite obj_get_set; cbn [String.eqb Ascii.eqb Bool.eqb] |]; by rewrite obj_field by (apply (bool_decide_unpack _); vm_compute; exact I).
Qed.

Lemma state_shows_page f b : shown_page (state_object f b) = Some (JStr (if connected_ (controller b) then "workspace" else "mode")).
Proof.
  unfold shown_page, state_object. cbv zeta. rewrite obj_field by (cbn; apply (bool_decide_unpack _); vm_compute; exact I).
  cbn [field_of map fst snd]. cbn [String.eqb Ascii.eqb Bool.eqb]. by rewrite obj_field by (apply (bool_decide_unpack _); vm_compute; exact I).
Qed.

(** C4: the page is told of a session that is up.  Once the threads have nothing
    waiting and no publication is pending, a worker with a live session has a
    page that was given a state with the phase connected and the workspace
    open, whatever commands of the page, network events and timers came before,
    in whatever order.  History pages and announced rooms are taken to be as
    for the freshness of the published state. *)
Theorem page_shows_session saved stored s logging a b c d available reason names es :
  let c0 := start_gui saved stored s logging a b c d available reason in
  let c1 := run_gui es c0 in
  len (bridge_trace es c0) < UINT64_MAX - 2 -> Forall (event_ok names) (bridge_trace es c0) ->
  quiescent (desktop_of c1) -> stateTimer_ (bridge c1) = false -> link_ready (net c1) = true ->
  exists state, latestStateJson_ (bridge c1) = serializeState qt_toJson state /\
    shown_connection state = Some (JStr "connected") /\ shown_page state = Some (JStr "workspace").
Proof.
  intros c0 c1 Hn He Hq Ht Hl. assert (2 + len (bridge_trace es c0) < UINT64_MAX) as Hn' by lia.
  pose proof (run_fresh names (bridge_trace es c0) 2 (bridge c0) Hn' He (start_fresh names saved stored s logging a b c d available reason)) as [_ Hf].
  rewrite <- run_gui_bridge in Hf. fold c1 in Hf. destruct (Hf Ht) as [_ E]. exists (state_object (live_snapshot (controller (bridge c1))) (bridge c1)).
  assert (connected_ (controller (bridge c1)) = true) as Hc.
  { pose proof (run_gui_desktop es c0) as Ed. pose proof (start_desktop saved stored s logging a b c d available reason) as E0. fold c0 in E0.
    rewrite E0, <- run_desktop_app in Ed. fold c1 in Ed.
    pose proof (session_shown saved ([DUser (EvBundledCa (if available then b else ""))] ++ desktop_trace es c0)) as Hs.
    rewrite <- Ed in Hs. by apply Hs. }
  split; [exact E |]. rewrite state_shows_connection, state_shows_page. unfold connection_phase. by rewrite Hc.
Qed.

End Told.

(** ** Witness *)

Section Witness.

#[local] Existing Instances toy_crypto toy_laws tree_json toy_lan toy_lan_laws toy_bridge_env.

(** The page connects, the worker logs in, and the timer publishes the state. *)
Definition ex_page_session : list gui_event :=
  GPage ex_dispatch_env (ex_command "c1" "session.connectRemote"
    [("serverIp", JStr "10.0.0.2"); ("serverPort", JInt 8888); ("username", JStr "Ann"); ("userCode", JStr "A1"); ("caFile", JStr "")]) ::
  repeat (GCall ex_slot) 12 ++ [GSignal "09:30"] ++ repeat (GCall ex_slot) 30 ++ [GStateTimer].

Definition ex_gui : GuiClient := start_gui [] None None false "server.exe" "ca.pem" "key.pem" "chat.db" true "".

Lemma ex_page_trace : Forall (event_ok (fun _ => ("den", 8888))) (bridge_trace ex_page_session ex_gui).
Proof.
  assert (bridge_trace ex_page_session ex_gui =
    [BDispatch ex_dispatch_env (ex_command "c1" "session.connectRemote"
       [("serverIp", JStr "10.0.0.2"); ("serverPort", JInt 8888); ("username", JStr "Ann"); ("userCode", JStr "A1"); ("caFile", JStr "")]);
     BControl (EvConnected false); BStateTimer]) as -> by (vm_compute; reflexivity).
  repeat (constructor; [done |]). constructor.
Qed.

Lemma page_shows_session_witness :
  let c := run_gui ex_page_session ex_gui in
  exists state, latestStateJson_ (bridge c) = serializeState qt_toJson state /\ shown_connection state = Some (JStr "connected").
Proof.
  cbv zeta. destruct (page_shows_session [] None None false "server.exe" "ca.pem" "key.pem" "chat.db" true "" (fun _ => ("den", 8888)) ex_page_session)
    as (state & E1 & E2 & _).
  - vm_compute. reflexivity.
  - exact ex_page_trace.
  - split; vm_compute; reflexivity.
  - vm_compute. reflexivity.
  - vm_compute. reflexivity.
  - exists state. split; [exact E1 | exact E2].
Defined.

End Witness.
