(* ===== verification/Window.v ===== *)
(** * Window: the page that shows the user interface

    Models client-cpp/gui/src/web_ui_host.cpp and the part of
    client-cpp/gui/src/main.cpp that puts the window together: which address is
    loaded, which links leave the window and where they go, what ends the
    program.  QUrl and the default answer of QWebEnginePage to a navigation
    request are parameters; what the user and the web engine do to the window
    is a sequence of events. *)

From S2P Require Import Prelude Text Json ChatModel Controller Conversations ControllerInvariant Crypto Manifest Discovery Performance Diagnostics.
From S2P Require Import HostSetup BridgeProtocol Bridge BridgeState.

(** ** Addresses *)

(** QUrl, by what the program asks it. *)
Class QtUrl := {
  QUrl : Type;
  url_of : string -> QUrl;            (* QUrl(text) *)
  url_valid : QUrl -> bool;
  url_userInfo : QUrl -> string;
  url_scheme : QUrl -> string;
  url_host : QUrl -> string;
}.

Definition developmentAddress : string := "http://127.0.0.1:5173".

(** How the address of the development server is read. *)
Class QtUrlLaws `{QtText} `{QtUrl} : Prop := {
  development_valid : url_valid (url_of developmentAddress) = true;
  development_userInfo : url_userInfo (url_of developmentAddress) = "";
  development_scheme : url_scheme (url_of developmentAddress) = "http";
  development_host : url_host (url_of developmentAddress) = "127.0.0.1";
  digits_lower : toLower "127.0.0.1" = "127.0.0.1";
}.

(** QWebEnginePage::NavigationType *)
Inductive NavigationType := LinkClicked | Typed | FormSubmitted | BackForward | Reload | Other | Redirect.

Section Window.
  Context `{QtText} `{QtUrl}.

Definition isLoopbackHost (host : string) : bool :=
  let normalized := toLower host in
  String.eqb normalized "127.0.0.1" || String.eqb normalized "localhost" || String.eqb normalized "::1".

Definition isDevelopmentUrlAllowed (url : QUrl) : bool :=
  if negb (url_valid url) || negb (is_empty (url_userInfo url)) then false
  else
    let scheme := toLower (url_scheme url) in
    if negb (String.eqb scheme "http") && negb (String.eqb scheme "https") then false else isLoopbackHost (url_host url).

Definition releaseUrl : QUrl := url_of "qrc:/frontend/index.html".

Definition opensExternally (url : QUrl) : bool :=
  if negb (url_valid url) || is_empty (url_host url) || negb (is_empty (url_userInfo url)) then false
  else let scheme := toLower (url_scheme url) in String.eqb scheme "http" || String.eqb scheme "https".

(** ** The view and its page *)

Record View := mk_view {
  view_url : option QUrl;             (* what the page shows *)
  channel : option (list string);     (* the objects that the page's scripts can call *)
  visible : bool;
  browser : list QUrl;                (* handed to the system browser *)
  boxes : list string;                (* the error messages that were shown *)
  exit_code : option Z;               (* QCoreApplication::exit *)
}.

#[export] Instance eta_View : EtaRecord View := fun v =>
  {| view_url := view_url v; channel := channel v; visible := visible v; browser := browser v; boxes := boxes v; exit_code := exit_code v |}.

(** [None] is the null pointer. *)
Definition loadDevelopment (view : option View) (url : QUrl) : option View * bool :=
  match view with
  | None => (None, false)
  | Some v => if negb (isDevelopmentUrlAllowed url) then (view, false) else (Some (v <| view_url := Some url |>), true)
  end.

Definition loadRelease (view : option View) : option View * bool :=
  match view with
  | None => (None, false)
  | Some v => (Some (v <| view_url := Some releaseUrl |>), true)
  end.

Definition registerBridge {B} (page : option View) (bridge : option B) : option View * bool :=
  match page, bridge with
  | Some v, Some _ => (Some (v <| channel := Some ["chatBridge"] |>), true)
  | _, _ => (page, false)
  end.

(** [accept] is what QWebEnginePage::acceptNavigationRequest answers. *)
Definition acceptNavigationRequest (accept : QUrl -> NavigationType -> bool -> bool) (url : QUrl) (type : NavigationType) (isMainFrame : bool)
    (v : View) : View * bool :=
  match type with
  | LinkClicked => (if opensExternally url then v <| browser ::= fun l => l ++ [url] |> else v, false)
  | _ => (v, accept url type isMainFrame)
  end.

(** What happens to the window while the program runs. *)
Inductive view_event :=
  | Navigate (url : QUrl) (type : NavigationType) (isMainFrame : bool)
  | LoadFinished (ok : bool).

(** A navigation of the main frame that is accepted replaces the page. *)
Definition view_step (accept : QUrl -> NavigationType -> bool -> bool) (e : view_event) (v : View) : View :=
  match e with
  | Navigate url type isMainFrame =>
      let '(v, accepted) := acceptNavigationRequest accept url type isMainFrame v in
      if accepted && isMainFrame then v <| view_url := Some url |> else v
  | LoadFinished true => v
  | LoadFinished false =>
      v <| visible := false |>
        <| boxes ::= fun l => l ++ ["The modern UI could not be loaded. Run the source launcher again to rebuild its resources."] |>
        <| exit_code := Some (-1) |>
  end.

Definition run_view (accept : QUrl -> NavigationType -> bool -> bool) (es : list view_event) (v : View) : View :=
  foldl (fun v e => view_step accept e v) v es.

(** ** main *)

(** What QCommandLineParser::process does: it can end the program. *)
Inductive command_line := LineExits (code : Z) | LineAccepted (development : bool).

Inductive program :=
  | Exits (code : Z) (boxes : list string)
  | Runs (b : Bridge) (v : View) (storage : option (string * string)).

Definition new_view : View := mk_view None None false [] [] None.

(** The window for a bridge: its page, its profile and what it loads. *)
Definition open_window `{QtPaths} (testDataRoot : string) (development : bool) (bridge : Bridge) : program :=
  let testDataRoot := trimmed testDataRoot in
  let storage :=
    if negb (is_empty testDataRoot) then Some (filePath testDataRoot "web-ui/storage", filePath testDataRoot "web-ui/cache") else None in
  match registerBridge (Some new_view) (Some bridge) with
  | (webView, false) => Exits (-1) ["The modern UI bridge could not be initialized."]
  | (webView, true) =>
      match if development then loadDevelopment webView (url_of developmentAddress) else loadRelease webView with
      | (Some v, true) => Runs bridge (v <| visible := true |>) storage
      | _ => Exits (-1) ["The modern UI resources are unavailable."]
      end
  end.

Definition gui_main `{GuiEnv} `{CryptoLib} `{QtJson} `{LanLib} `{BridgeEnv} `{QtPaths} (winsockStarted : bool)
    (env : host_env) (isFile' : string -> bool) (run : bootstrap_run) (applicationDirectory : string)
    (saved : row) (stored : option string) (s : option screen) (logging : bool) (line : command_line) : program :=
  if negb winsockStarted then Exits (-1) []
  else match line with
       | LineExits code => Exits code []
       | LineAccepted development =>
           open_window (he_testDataRoot env) development (start_program env isFile' run applicationDirectory saved stored s logging)
       end.

End Window.

(** ** What leaves the window *)

Section Links.
  Context `{QtText} `{QtUrl}.

(** A plain web address. *)
Definition plain_web (url : QUrl) : Prop :=
  url_valid url = true /\ url_host url <> "" /\ url_userInfo url = "" /\ (toLower (url_scheme url) = "http" \/ toLower (url_scheme url) = "https").

Lemma opensExternally_iff url : opensExternally url = true <-> plain_web url.
Proof.
  unfold opensExternally, plain_web. cbv zeta. rewrite <- (is_empty_true (url_userInfo url)), <- is_empty_false, <- !String.eqb_eq, <- orb_true_iff.
  destruct (url_valid url), (is_empty (url_host url)), (is_empty (url_userInfo url)); cbn; naive_solver.
Qed.

Lemma development_allowed_iff url : isDevelopmentUrlAllowed url = true <->
  url_valid url = true /\ url_userInfo url = "" /\ (toLower (url_scheme url) = "http" \/ toLower (url_scheme url) = "https") /\
  isLoopbackHost (url_host url) = true.
Proof.
  unfold isDevelopmentUrlAllowed. cbv zeta. rewrite <- is_empty_true, <- !String.eqb_eq, <- orb_true_iff.
  destruct (url_valid url), (is_empty (url_userInfo url)), (String.eqb _ "http"), (String.eqb _ "https"); cbn; naive_solver.
Qed.

(** The links that were clicked. *)
Definition clicked (es : list view_event) : list QUrl :=
  es ≫= fun e => match e with Navigate url LinkClicked _ => [url] | _ => [] end.

(** Replaces the page: no click, and the engine agrees. *)
Definition replaces (accept : QUrl -> NavigationType -> bool -> bool) (e : view_event) : option QUrl :=
  match e with
  | Navigate _ LinkClicked _ => None
  | Navigate url type true => if accept url type true then Some url else None
  | _ => None
  end.

Lemma view_step_effect accept e v :
  view_url (view_step accept e v) = from_option Some (view_url v) (replaces accept e) /\
  browser (view_step accept e v) = browser v ++ List.filter opensExternally (clicked [e]) /\
  channel (view_step accept e v) = channel v /\
  exit_code (view_step accept e v) = match e with LoadFinished false => Some (-1) | _ => exit_code v end.
Proof.
  destruct e as [url type main | []]; cbn; rewrite ?app_nil_r; [| done ..].
  destruct type; cbn; rewrite ?app_nil_r;
    try (destruct main; [| by rewrite andb_false_r]; rewrite andb_true_r; by destruct (accept _ _ _)).
  destruct (opensExternally url); cbn; by rewrite ?app_nil_r.
Qed.

Lemma filter_app_bool {A} (p : A -> bool) l l' : List.filter p (l ++ l') = List.filter p l ++ List.filter p l'.
Proof. induction l as [| x l IH]; cbn; [done |]. destruct (p x); cbn; by rewrite IH. Qed.

Lemma run_view_effect accept es v :
  let v' := run_view accept es v in
  view_url v' = from_option Some (view_url v) (last (omap (replaces accept) es)) /\
  browser v' = browser v ++ List.filter opensExternally (clicked es) /\
  channel v' = channel v /\
  (exit_code v' = exit_code v \/ exit_code v' = Some (-1)).
Proof.
  cbv zeta. revert v. induction es as [| e es IH]; intros v; [cbn; rewrite app_nil_r; auto |].
  cbn [run_view foldl]. fold (run_view accept es (view_step accept e v)). destruct (IH (view_step accept e v)) as (E1 & E2 & E3 & E4).
  destruct (view_step_effect accept e v) as (F1 & F2 & F3 & F4). split_and!.
  - rewrite E1, F1. cbn [omap list_omap]. destruct (replaces accept e) as [u |]; cbn [from_option]; [| done].
    rewrite last_cons. by destruct (last _).
  - rewrite E2, F2, <- app_assoc, <- filter_app_bool. unfold clicked. by rewrite <- bind_app.
  - congruence.
  - rewrite F4 in E4. destruct e as [? ? ? | []]; naive_solver.
Qed.

End Links.

Section Started.
  Context `{QtTextLaws} `{QtUrl} `{!QtUrlLaws} `{GuiEnv} `{CryptoLib} `{QtJson} `{LanLib} `{BridgeEnv} `{QtPaths}.

Lemma development_opens : isDevelopmentUrlAllowed (url_of developmentAddress) = true.
Proof.
  apply development_allowed_iff. rewrite development_valid, development_userInfo, development_scheme, development_host.
  unfold isLoopbackHost. rewrite digits_lower. split_and!; try done. left. by apply toLower_plain.
Qed.

(** C29: the program opens its window exactly when Winsock starts and the command
    line is accepted, and then it shows the bundled interface, or on request
    the development server of this machine, with the bridge as its one object.
    Whatever the user and the page do afterwards, a clicked link never replaces
    the page, and those that are handed to the system browser are exactly the
    plain web addresses among them, in their order.  The page is replaced only
    by a navigation that is not a click and that the engine accepts; the page
    that comes in its place is offered the bridge as well. *)
Theorem window_shows_interface winsock env isFile' run dir saved stored s logging line :
  match gui_main winsock env isFile' run dir saved stored s logging line with
  | Exits code messages => messages = [] /\ (winsock = false /\ code = -1 \/ line = LineExits code)
  | Runs b v _ =>
      winsock = true /\ b = start_program env isFile' run dir saved stored s logging /\ channel v = Some ["chatBridge"] /\
      (view_url v = Some releaseUrl /\ line = LineAccepted false \/
       view_url v = Some (url_of developmentAddress) /\ line = LineAccepted true /\ isDevelopmentUrlAllowed (url_of developmentAddress) = true) /\
      forall accept es, let v' := run_view accept es v in
        browser v' = List.filter opensExternally (clicked es) /\ Forall plain_web (browser v') /\
        view_url v' = from_option Some (view_url v) (last (omap (replaces accept) es)) /\ channel v' = Some ["chatBridge"]
  end.
Proof.
  assert (forall v, browser v = [] -> channel v = Some ["chatBridge"] -> forall accept es, let v' := run_view accept es v in
    browser v' = List.filter opensExternally (clicked es) /\ Forall plain_web (browser v') /\
    view_url v' = from_option Some (view_url v) (last (omap (replaces accept) es)) /\ channel v' = Some ["chatBridge"]) as Hrun.
  { intros v Ev Ec accept es. cbv zeta. destruct (run_view_effect accept es v) as (E1 & E2 & E3 & _). rewrite Ev in E2. rewrite Ec in E3.
    split_and!; [done | | done | done]. rewrite E2. apply Forall_forall. intros u Hu. apply opensExternally_iff.
    by apply list_elem_of_In, filter_In in Hu as [_ ?]. }
  unfold gui_main. destruct winsock; cbn [negb]; [| auto]. destruct line as [code | development]; [auto |].
  unfold open_window. cbv zeta. cbn [registerBridge]. destruct development.
  - cbn [loadDevelopment]. rewrite development_opens. cbn [negb]. split_and!; try done; [by right |]. by apply Hrun.
  - cbn [loadRelease]. split_and!; try done; [by left |]. by apply Hrun.
Qed.

End Started.

(** ** The page can be replaced *)

(** web_ui_host.hpp says that the chat page never navigates away from the bundled
    interface.  That holds for clicks: with the answer that QWebEnginePage gives
    unless it is told otherwise, the target of a form or of a script becomes
    the page, and keeps the bridge. *)
Theorem scripted_navigation_leaves `{QtText} `{QtUrl} url v :
  let v' := view_step (fun _ _ _ => true) (Navigate url Other true) v in view_url v' = Some url /\ channel v' = channel v.
Proof. done. Qed.

(** ** Witnesses *)

(** Addresses that are read by hand. *)
Record toy_url := mk_url { tu_valid : bool; tu_userInfo : string; tu_scheme : string; tu_host : string; tu_path : string }.

Definition toy_urls : QtUrl := {|
  QUrl := toy_url;
  url_of := fun t =>
    if String.eqb t developmentAddress then mk_url true "" "http" "127.0.0.1" ""
    else if String.eqb t "qrc:/frontend/index.html" then mk_url true "" "qrc" "" "/frontend/index.html"
    else mk_url false "" "" "" "";
  url_valid := tu_valid; url_userInfo := tu_userInfo; url_scheme := tu_scheme; url_host := tu_host;
|}.

Lemma toy_urls_laws : @QtUrlLaws AsciiText toy_urls.
Proof. by split. Qed.

Section Witness.

#[local] Existing Instances toy_crypto tree_json toy_lan toy_bridge_env toy_paths toy_urls toy_urls_laws.

(** A web link, a link with a password in it, a local file, and a failed load. *)
Definition ex_links : list view_event :=
  [Navigate (mk_url true "" "HTTPS" "example.com" "/docs") LinkClicked true;
   Navigate (mk_url true "user:secret" "https" "example.com" "/") LinkClicked true;
   Navigate (mk_url true "" "file" "" "/C:/calc.exe") LinkClicked true;
   LoadFinished false].

Lemma window_shows_interface_witness :
  match gui_main true (ex_installation [ex_server]) (fun _ => true) TimedOut "/r/out/bin" [] None None false (LineAccepted false) with
  | Exits _ _ => False
  | Runs _ v _ =>
      let v' := run_view (fun _ _ _ => true) ex_links v in
      view_url v' = Some releaseUrl /\ browser v' = [mk_url true "" "HTTPS" "example.com" "/docs"] /\ exit_code v' = Some (-1)
  end.
Proof.
  pose proof (window_shows_interface true (ex_installation [ex_server]) (fun _ => true) TimedOut "/r/out/bin" [] None None false (LineAccepted false)) as Hw.
  unfold gui_main in *. cbn [negb] in *. unfold open_window in *. cbv zeta in *. cbn [registerBridge loadRelease] in *.
  destruct Hw as (_ & _ & _ & _ & Hr). destruct (Hr (fun _ _ _ => true) ex_links) as (E1 & _ & E2 & _). clear Hr.
  split; [etransitivity; [exact E2 | vm_compute; reflexivity] |]. split; [etransitivity; [exact E1 | vm_compute; reflexivity] |].
  vm_compute. reflexivity.
Defined.

End Witness.
