(* ===== verification/Launch.v ===== *)
(** * Launch: the programs that start the client

    Models tools/bootstrap/launcher.cpp, which finds the source package it lies
    in and runs its bootstrap script, and client-cpp/gui/src/launcher_main.cpp,
    which prepares the local room and starts the window.  Windows and QProcess
    answer through arguments; std::filesystem::path is modelled for Windows as
    far as it is used here. *)

From Stdlib Require Import Ascii.
From S2P Require Import Prelude Text HostSetup.

(** ** std::filesystem::path *)

Module Path.

Definition is_sep (c : ascii) : bool := Ascii.eqb c "/" || Ascii.eqb c "\".
Definition not_sep (c : ascii) : bool := negb (is_sep c).

(** How many characters at the front satisfy [p]. *)
Fixpoint span (p : ascii -> bool) (s : string) : nat :=
  match s with
  | "" => 0
  | String c s => if p c then S (span p s) else 0
  end.

(** A drive, or the name of a server after two separators. *)
Definition root_name_size (path : string) : nat :=
  match path with
  | String d (String c rest) =>
      if (is_upper d || is_lower d) && Ascii.eqb c ":" then 2
      else if is_sep d && is_sep c then match span not_sep rest with O => 0 | n => 2 + n end
      else 0
  | _ => 0
  end.

Definition root_path_size (path : string) : nat :=
  let n := root_name_size path in n + span is_sep (drop_str n path).

Definition root_path (path : string) : string := take_str (root_path_size path) path.
Definition relative_path (path : string) : string := drop_str (root_path_size path) path.

(** Removes the characters at the end that satisfy [p]. *)
Fixpoint strip_end (p : ascii -> bool) (s : string) : string :=
  match s with
  | "" => ""
  | String c s =>
      match strip_end p s with
      | "" => if p c then "" else String c ""
      | r => String c r
      end
  end.

(** The file name at the end, then the separators before it; the root stays. *)
Definition parent_path (path : string) : string :=
  root_path path +:+ strip_end is_sep (strip_end not_sep (relative_path path)).

Definition has_filename (path : string) : bool := negb (String.eqb (strip_end not_sep (relative_path path)) (relative_path path)).

Definition has_root_directory (path : string) : bool := (0 <? span is_sep (drop_str (root_name_size path) path))%nat.

(** An absolute path has a drive with a root directory, or is on a server. *)
Definition is_absolute (path : string) : bool :=
  match path with
  | String d (String c _) => if is_sep d && is_sep c then (0 <? root_name_size path)%nat else (0 <? root_name_size path)%nat && has_root_directory path
  | _ => false
  end.

(** [path / name] for a [name] without a root. *)
Definition join (path name : string) : string :=
  path +:+ (if has_filename path || (negb (has_root_directory path) && is_absolute path) then "\" else "") +:+ name.

End Path.

(** ** The launcher of the source package *)

Definition kBootstrapScript : string := "scripts\bootstrap-github.ps1".

Definition MAX_PATH : nat := 260.

(** What GetModuleFileNameW returns, and what it leaves in the buffer. *)
Definition executablePath (length : nat) (buffer : string) : string :=
  if (length =? 0)%nat || (length =? MAX_PATH)%nat then "" else take_str length buffer.

(** The loop; [depth] directories are left to look at. *)
Fixpoint source_root (isFile : string -> bool) (depth : nat) (cursor : string) : string :=
  match depth with
  | O => ""
  | S depth =>
      if isFile (Path.join cursor kBootstrapScript) then cursor
      else
        let parent := Path.parent_path cursor in
        if is_empty parent || String.eqb parent cursor then "" else source_root isFile depth parent
  end.

Definition sourceRootFrom (isFile : string -> bool) (start : string) : string := source_root isFile 10 start.

Definition quoted (value : string) : string := String "034" "" +:+ value +:+ String "034" "".

(** [argv] without the program itself. *)
Definition hasArgument (args : list string) (value : string) : bool := existsb (fun a => String.eqb a value) args.

Fixpoint rootOverride (args : list string) : string :=
  match args with
  | arg :: ((value :: _) as rest) => if String.eqb arg "--root" then value else rootOverride rest
  | _ => ""
  end.

(** What Windows answers to the launcher. *)
Record launcher_env := mk_launcher_env {
  le_module : nat * string;             (* GetModuleFileNameW *)
  le_isFile : string -> bool;           (* std::filesystem::is_regular_file *)
  le_started : bool;                    (* ShellExecuteExW *)
}.

(** What the launcher does before it returns. *)
Inductive launch_action :=
  | ShowError (message : string)
  | PrintLine (line : string)
  | ShellExecute (file parameters directory : string).

Definition showError (message : string) : Z * list launch_action := (1, [ShowError message]).

Definition newline2 : string := String "010" (String "010" "").

Definition powershell_command (script : string) : string :=
  "powershell.exe -NoLogo -NoProfile -ExecutionPolicy Bypass -File " +:+ quoted script.

(** Once the directory of the package is known. *)
Definition start_package (env : launcher_env) (args : list string) (root : string) : Z * list launch_action :=
  let script := Path.join root kBootstrapScript in
  if is_empty root || negb (le_isFile env script)
  then showError ("The launcher must stay inside the LAN Chat source package." +:+ newline2 +:+
                  "Expected scripts\bootstrap-github.ps1 beside the source tree.")
  else
    let command := powershell_command script in
    if hasArgument args "--dry-run" then (0, [PrintLine command])
    else
      let parameters := drop_str (String.length "powershell.exe ") command in
      let launch := ShellExecute "powershell.exe" parameters root in
      if negb (le_started env)
      then (1, [launch; ShowError "Could not start PowerShell. Please run scripts\bootstrap-github.ps1 manually."])
      else (0, [launch]).

Definition runLauncher (env : launcher_env) (args : list string) : Z * list launch_action :=
  let root := rootOverride args in
  if is_empty root then
    let exe := executablePath (le_module env).1 (le_module env).2 in
    if is_empty exe then showError "Cannot locate LANChat-Launcher.exe."
    else start_package env args (sourceRootFrom (le_isFile env) (Path.parent_path exe))
  else start_package env args root.

(** [argv] is [None] if the command line cannot be read. *)
Definition runFromProcessCommandLine (env : launcher_env) (argv : option (list string)) : Z * list launch_action :=
  match argv with
  | None => showError "Cannot read launcher command line."
  | Some argv => runLauncher env (tail argv)
  end.

(** ** The launcher of the client *)

Inductive start_action :=
  | StartupError (message : string)
  | InitializeHost (serverExe : string) (arguments : list string)
  | StartDetached (program : string) (arguments : list string) (directory : string).

Section Client.
  Context `{QtText} `{QtPaths}.

(** [isFile'] and [guiExists] are the files once the local room is prepared. *)
Definition launcher_main (env : host_env) (isFile' : string -> bool) (run : bootstrap_run) (guiExists : string -> bool) (started : bool)
    (applicationDirectory : string) (arguments : list string) : Z * list start_action :=
  let hostPaths := resolveHostPaths env applicationDirectory in
  let '(bootstrap, ran) :=
    if host_available env hostPaths then ensureInitialized (he_isFile env) isFile' run hostPaths else (Ok tt, false) in
  let before := if (ran : bool) then [InitializeHost (serverExe hostPaths) (bootstrap_arguments hostPaths)] else [] in
  match bootstrap with
  | Fail error => (1, before ++ [StartupError ("Unable to initialize the local chat-room identity:" +:+ String "010" "" +:+ error)])
  | Ok _ =>
      let guiExecutable := filePath applicationDirectory "lan-chat-gui.exe" in
      if negb (guiExists guiExecutable)
      then (1, before ++ [StartupError ("LAN Chat graphical interface was not found:" +:+ String "010" "" +:+ guiExecutable)])
      else
        let launch := StartDetached guiExecutable (tail arguments) applicationDirectory in
        if negb started then (1, before ++ [launch; StartupError "Unable to start the LAN Chat graphical interface."])
        else (0, before ++ [launch])
  end.

End Client.

(** ** The package that is started *)

Import Path.

Lemma append_take_drop n s : take_str n s +:+ drop_str n s = s.
Proof. revert n. induction s as [| c s IH]; intros [| n]; cbn; [done .. |]. f_equal. apply IH. Qed.

Lemma strip_end_size p s : (String.length (strip_end p s) <= String.length s)%nat /\ (strip_end p s = s \/ (String.length (strip_end p s) < String.length s)%nat).
Proof.
  induction s as [| c s [IH1 IH2]]; cbn; [auto |]. destruct (strip_end p s) as [| c' s'] eqn:E.
  - destruct (p c); cbn; [split; [lia | right; lia] |]. destruct IH2 as [<- | Hl]; [cbn; auto | split; [lia | right; cbn in Hl; lia]].
  - cbn in *. split; [lia |]. destruct IH2 as [<- | Hl]; [by left | right; lia].
Qed.

(** The loop of [sourceRootFrom] goes to ever shorter paths. *)
Lemma parent_shorter path : parent_path path = path \/ (String.length (parent_path path) < String.length path)%nat.
Proof.
  unfold parent_path. destruct (strip_end_size not_sep (relative_path path)) as [H1 H2].
  destruct (strip_end_size is_sep (strip_end not_sep (relative_path path))) as [H3 H4].
  assert (root_path path +:+ relative_path path = path) as Hp by apply append_take_drop.
  assert (String.length path = String.length (root_path path) + String.length (relative_path path))%nat as Hs by (rewrite <- Hp at 1; apply str_length_app).
  rewrite str_length_app. destruct H4 as [-> | H4]; [| right; lia]. destruct H2 as [-> | H2]; [by left | right; lia].
Qed.

(** The directories that are looked at. *)
Fixpoint ancestors (depth : nat) (cursor : string) : list string :=
  match depth with
  | O => []
  | S depth =>
      cursor :: (let parent := parent_path cursor in if is_empty parent || String.eqb parent cursor then [] else ancestors depth parent)
  end.

(** The nearest of [dirs] that holds the script. *)
Definition nearest (isFile : string -> bool) (dirs : list string) (root : string) : Prop :=
  exists i, dirs !! i = Some root /\ isFile (join root kBootstrapScript) = true /\
    forall j dir, (j < i)%nat -> dirs !! j = Some dir -> isFile (join dir kBootstrapScript) = false.

Lemma nearest_cons isFile dir dirs root : isFile (join dir kBootstrapScript) = false -> nearest isFile (dir :: dirs) root <-> nearest isFile dirs root.
Proof.
  intros Hd. split; intros (i & Hi & Hf & Hj).
  - destruct i as [| i]; [injection Hi as ->; congruence |]. exists i. split_and!; [done | done |]. intros j d Hl. apply (Hj (S j)). lia.
  - exists (S i). split_and!; [done | done |]. intros [| j] d Hl Hd'; [by injection Hd' as <- | by apply (Hj j); [lia |]].
Qed.

Lemma nearest_head isFile dir dirs root : isFile (join dir kBootstrapScript) = true -> nearest isFile (dir :: dirs) root <-> root = dir.
Proof.
  intros Hd. split.
  - intros ([| i] & Hi & Hf & Hj); [by injection Hi as -> |]. specialize (Hj 0%nat dir ltac:(lia) eq_refl). congruence.
  - intros ->. exists 0%nat. split_and!; [done | done | lia].
Qed.

Lemma nearest_nil isFile root : ~ nearest isFile [] root.
Proof. by intros ([] & ? & _). Qed.

Lemma source_root_nearest isFile depth start root : root <> "" ->
  source_root isFile depth start = root <-> nearest isFile (ancestors depth start) root.
Proof.
  intros Hr. revert start. induction depth as [| depth IH]; intros start; cbn [source_root ancestors]; [split; [by intros <- | by intros ?%nearest_nil] |].
  destruct (isFile (join start kBootstrapScript)) eqn:Ef; [rewrite nearest_head by done; split; congruence |].
  rewrite nearest_cons by done. cbv zeta. destruct (_ || _)%bool; [split; [by intros <- | by intros ?%nearest_nil] | apply IH].
Qed.

(** The directory that the launcher works in: the one it is given, or else the
    nearest one above its own executable with a script in it. *)
Definition package_root (env : launcher_env) (args : list string) (root : string) : Prop :=
  let exe := executablePath (le_module env).1 (le_module env).2 in
  if is_empty (rootOverride args)
  then exe <> "" /\ root <> "" /\ nearest (le_isFile env) (ancestors 10 (parent_path exe)) root
  else root = rootOverride args /\ le_isFile env (join root kBootstrapScript) = true.

Definition script_parameters (root : string) : string :=
  "-NoLogo -NoProfile -ExecutionPolicy Bypass -File " +:+ quoted (join root kBootstrapScript).

Lemma start_package_ok env args root : root <> "" -> le_isFile env (join root kBootstrapScript) = true ->
  start_package env args root =
    if hasArgument args "--dry-run" then (0, [PrintLine ("powershell.exe " +:+ script_parameters root)])
    else let launch := ShellExecute "powershell.exe" (script_parameters root) root in
         if le_started env then (0, [launch])
         else (1, [launch; ShowError "Could not start PowerShell. Please run scripts\bootstrap-github.ps1 manually."]).
Proof. intros Hr%is_empty_false Hf. unfold start_package. cbv zeta. rewrite Hr, Hf. cbn [negb orb]. by destruct (le_started env). Qed.

Lemma start_package_none env args root : (root <> "" -> le_isFile env (join root kBootstrapScript) = true -> False) ->
  exists message, start_package env args root = (1, [ShowError message]).
Proof.
  intros Hn. unfold start_package. cbv zeta. destruct (is_empty root) eqn:Er; [by eexists |]. apply is_empty_false in Er.
  destruct (le_isFile env (join root kBootstrapScript)); [by destruct Hn | by eexists].
Qed.

(** C32: the launcher of the source package runs PowerShell on nothing but the
    bootstrap script of the package it was told to use, or of the nearest of
    the ten directories above its own executable that has one, once, in that
    directory; with --dry-run it only prints the same command.  It returns 0
    exactly when it has printed the command or PowerShell was started, and
    otherwise it has shown one error.  Without such a package nothing is run. *)
Theorem package_started env args :
  (forall root, package_root env args root ->
    runLauncher env args =
      if hasArgument args "--dry-run" then (0, [PrintLine ("powershell.exe " +:+ script_parameters root)])
      else let launch := ShellExecute "powershell.exe" (script_parameters root) root in
           if le_started env then (0, [launch])
           else (1, [launch; ShowError "Could not start PowerShell. Please run scripts\bootstrap-github.ps1 manually."])) /\
  ((forall root, ~ package_root env args root) -> exists message, runLauncher env args = (1, [ShowError message])).
Proof.
  unfold package_root, runLauncher. cbv zeta. set (exe := executablePath _ _). destruct (is_empty (rootOverride args)) eqn:Eo.
  - destruct (is_empty exe) eqn:Ee.
    { apply is_empty_true in Ee. split; [intros root (? & _); done | intros _; by eexists]. }
    apply is_empty_false in Ee. split.
    + intros root (_ & Hr & Hn). pose proof Hn as (i & _ & Hf & _). apply source_root_nearest in Hn as <-; [| done]. by apply start_package_ok.
    + intros Hno. apply start_package_none. intros Hr Hf. apply (Hno (sourceRootFrom (le_isFile env) (parent_path exe))).
      split_and!; [done | done |]. by apply source_root_nearest.
  - apply is_empty_false in Eo. split; [intros root [-> Hf]; by apply start_package_ok |].
    intros Hno. apply start_package_none. intros _ Hf. by apply (Hno (rootOverride args)).
Qed.

(** ** The window that is started *)

Section Started.
  Context `{QtText} `{QtPathsLaws}.

(** The local room can be used: there is none, or its files are there, at the
    beginning or once the initialization has ended well. *)
Definition room_ready (env : host_env) (isFile' : string -> bool) (run : bootstrap_run) (paths : HostPaths) : Prop :=
  he_isFile env (serverExe paths) = false \/ has_identity (he_isFile env) paths = true \/
  (has_identity isFile' paths = true /\ exists errors output, run = Finished true 0 errors output).

Definition initialization (env : host_env) (paths : HostPaths) : list start_action :=
  if he_isFile env (serverExe paths) && negb (has_identity (he_isFile env) paths)
  then [InitializeHost (serverExe paths) (bootstrap_arguments paths)] else [].

(** The initialization did not end well. *)
Ltac refused := split; [done |]; split; [done |]; intros (? & ? & ? & ?); congruence.

Lemma initialized_iff isFile isFile' run paths : isFile (serverExe paths) = true ->
  let '(result, ran) := ensureInitialized isFile isFile' run paths in
  ran = negb (has_identity isFile paths) /\
  match result with
  | Ok _ => has_identity isFile paths = true \/ (has_identity isFile' paths = true /\ exists errors output, run = Finished true 0 errors output)
  | Fail _ => has_identity isFile paths = false /\ ~ (has_identity isFile' paths = true /\ exists errors output, run = Finished true 0 errors output)
  end.
Proof.
  intros Hs. unfold ensureInitialized. rewrite Hs. cbn [negb]. destruct (has_identity isFile paths); [auto |].
  destruct run as [error | | normal exitCode errors output]; [refused .. |]. cbv zeta. destruct normal; cbn [negb orb]; [| refused].
  destruct (Z.eqb_spec exitCode 0) as [-> | Hc]; cbn [negb]; [| refused].
  destruct (has_identity isFile' paths) eqn:E; cbn [negb]; [eauto 8 | refused].
Qed.

(** C31: the launcher of the client starts the window, once, with its own
    arguments and directory, exactly when the window's program is there and the
    local room can be used: either the package has no server, or the room's
    certificate, key and database are there, if need be after an
    initialization that is run only when one of them is missing.  It returns 0
    exactly when the window was started; otherwise it has shown one error. *)
Theorem client_started env isFile' run guiExists started dir args :
  let paths := resolveHostPaths env dir in
  let guiExecutable := filePath dir "lan-chat-gui.exe" in
  let launch := StartDetached guiExecutable (tail args) dir in
  exists code acts, launcher_main env isFile' run guiExists started dir args = (code, initialization env paths ++ acts) /\
    (room_ready env isFile' run paths /\ guiExists guiExecutable = true /\
       (if started then code = 0 /\ acts = [launch] else code = 1 /\ exists message, acts = [launch; StartupError message]) \/
     ~ (room_ready env isFile' run paths /\ guiExists guiExecutable = true) /\ code = 1 /\ exists message, acts = [StartupError message]).
Proof.
  cbv zeta. unfold launcher_main. cbv zeta. set (paths := resolveHostPaths env dir). unfold initialization, room_ready, host_available.
  destruct (negb (is_empty (existingFile env (serverExe paths)))) eqn:E.
  - apply existing_iff in E. pose proof (initialized_iff (he_isFile env) isFile' run paths E) as Hi. rewrite E. cbn [andb].
    destruct (ensureInitialized _ _ _ _) as [[u | error] ran]; destruct Hi as [-> Hi].
    + destruct (guiExists _); [destruct started |]; eexists _, _; (split; [reflexivity |]); naive_solver.
    + eexists _, _. split; [reflexivity |]. destruct Hi as [Hn Hi]. right. split; [| eauto].
      intros [[? | [? | ?]] _]; [congruence .. | by apply Hi].
  - assert (he_isFile env (serverExe paths) = false) as Ef by (apply not_true_iff_false; intros ?%existing_iff; congruence). rewrite Ef. cbn [andb].
    destruct (guiExists _); [destruct started |]; eexists _, _; (split; [reflexivity |]); naive_solver.
Qed.

(** The room that was prepared by the launcher is offered by the window, which
    does not run the initialization again. *)
Theorem launched_room_offered env env' isFile' run guiExists started dir args acts isFile'' run' :
  let paths := resolveHostPaths env dir in
  launcher_main env isFile' run guiExists started dir args = (0, acts) -> he_isFile env (serverExe paths) = true ->
  resolveHostPaths env' dir = paths -> he_isFile env' (serverExe paths) = true ->
  (has_identity (he_isFile env) paths = true \/ has_identity isFile' paths = true -> has_identity (he_isFile env') paths = true) ->
  (local_host env' isFile'' run' dir).1 = (paths, true) /\ (ensureInitialized (he_isFile env') isFile'' run' paths).2 = false.
Proof.
  cbv zeta. intros El Hs Ep Hs' Hkept. set (paths := resolveHostPaths env dir) in *.
  assert (has_identity (he_isFile env') paths = true) as Hid.
  { apply Hkept. unfold launcher_main in El. cbv zeta in El. unfold host_available in El. fold paths in El. rewrite (proj2 (existing_iff env _) Hs) in El.
    pose proof (initialized_iff (he_isFile env) isFile' run paths Hs) as Hi. destruct (ensureInitialized _ _ _ _) as [[u | error] ran]; [| done].
    destruct Hi as (_ & [? | [? _]]); auto. }
  unfold local_host. cbv zeta. rewrite Ep. unfold host_available. rewrite (proj2 (existing_iff env' _) Hs'). unfold ensureInitialized.
  by rewrite Hs', Hid.
Qed.

End Started.

(** ** Witnesses *)

Example ex_parents :
  map parent_path ["C:\a\b"; "C:\a"; "C:\"; "C:\a\"; "\\host\share\x"; "\\host\share"; "\\host"; "a\b"; "a"] =
  ["C:\a"; "C:\"; "C:\"; "C:\a"; "\\host\share"; "\\host\"; "\\host"; "a"; ""].
Proof. reflexivity. Qed.

Example ex_joins : map (fun p => join p "x") ["C:\a"; "C:\"; "C:"; "\\host"; "a/b/"; ""] = ["C:\a\x"; "C:\x"; "C:x"; "\\host\x"; "a/b/x"; "x"].
Proof. reflexivity. Qed.

(** The launcher lies two directories below the package. *)
Definition ex_launcher : launcher_env :=
  let exe := "C:\src\tools\bin\LANChat-Launcher.exe" in
  mk_launcher_env (String.length exe, exe) (String.eqb "C:\src\scripts\bootstrap-github.ps1") true.

Lemma package_started_witness :
  runLauncher ex_launcher ["--verbose"] = (0, [ShellExecute "powershell.exe" (script_parameters "C:\src") "C:\src"]) /\
  exists message, runLauncher (mk_launcher_env (0%nat, "") (fun _ => true) true) [] = (1, [ShowError message]).
Proof.
  split.
  - destruct (package_started ex_launcher ["--verbose"]) as [Hs _]. apply (Hs "C:\src"). unfold package_root. cbn [rootOverride is_empty].
    split_and!; [vm_compute; discriminate | discriminate |]. exists 2%nat. split_and!; [vm_compute; reflexivity .. |].
    intros [| [| j]] dir Hj; [| | lia]; vm_compute; intros [= <-]; reflexivity.
  - destruct (package_started (mk_launcher_env (0%nat, "") (fun _ => true) true) []) as [_ Hn]. apply Hn.
    intros root. unfold package_root. cbn [rootOverride is_empty]. intros [He _]. apply He. reflexivity.
Defined.

Section Witness.

#[local] Existing Instances toy_paths toy_paths_laws.

(** A package whose room has not been initialized yet. *)
Definition ex_fresh : host_env := ex_installation [ex_server].

Definition ex_prepared : host_env := ex_installation (ex_server :: ex_identity).

Lemma client_started_witness :
  let window := StartDetached "/r/out/bin/lan-chat-gui.exe" ["--web-ui-dev"] "/r/out/bin" in
  exists acts, launcher_main ex_fresh (he_isFile ex_prepared) (Finished true 0 "" "") (fun _ => true) true "/r/out/bin" ["launcher"; "--web-ui-dev"] =
    (0, initialization ex_fresh (resolveHostPaths ex_fresh "/r/out/bin") ++ acts) /\ acts = [window].
Proof.
  destruct (client_started ex_fresh (he_isFile ex_prepared) (Finished true 0 "" "") (fun _ => true) true "/r/out/bin" ["launcher"; "--web-ui-dev"])
    as (code & acts & E & [(_ & _ & -> & Ea) | [Hn _]]).
  - exists acts. split; [exact E | exact Ea].
  - exfalso. apply Hn. split; [| reflexivity]. right. right. split; [vm_compute; reflexivity | by exists "", ""].
Defined.

Lemma launched_room_offered_witness :
  (local_host ex_prepared (fun _ => false) TimedOut "/r/out/bin").1 = (resolveHostPaths ex_fresh "/r/out/bin", true).
Proof.
  eapply (launched_room_offered ex_fresh ex_prepared (he_isFile ex_prepared) (Finished true 0 "" "") (fun _ => true) true "/r/out/bin" ["launcher"]);
    [vm_compute; reflexivity .. |]. intros _. vm_compute. reflexivity.
Defined.

End Witness.
